(* ===== verification/_CoqProject ===== *)
-Q . S2P
Prelude.v
JsValue.v
Schema.v
Store.v
StoreFacts.v
Typing.v
Owned.v
Nested.v
NestedFacts.v
Upload.v
Handlers.v
Router.v
Concurrency.v
