(* ===== verification/Prelude.v ===== *)
(** * A verification development of the posts controller of prisma-test

    The repository is an Express application; its verified part is the
    single source file [src/controllers/posts.js]: an [express.Router]
    serving a "posts" resource through a Prisma client ([db]) and a
    multer disk-storage upload middleware.  At run time four parts
    interact:

    - the router: nine layers registered in source order with
      [router.get], [router.use], [router.post], [router.put] and
      [router.delete]; Express hands a request to the first layer whose
      method and path match;
    - the handlers: each coerces request values with JavaScript's
      [Number(..)], spreads the request body into Prisma arguments,
      awaits one or more Prisma calls in sequence and answers with
      [res.json]; a rejected promise is not caught (Express 4) and
      Node (version 15 on) exits on the unhandled rejection: the client
      gets no response, the server answers no later request, and the
      awaited writes stay in the database;
    - the Prisma client and its database: the tables user, post, comment,
      like and image, reached through [findMany], [findUnique],
      [create], [update], [delete] and [deleteMany], with argument
      validation and the foreign-key and unique constraints;
    - the upload middleware: [multer.diskStorage] with destination
      ["image/"] and file name [<Date.now()>_<originalname>], and
      [upload.single('image')] in front of the image route.

    ** Files, in dependency order

    - [Prelude] (this file): the scope [posts_scope]; the result type
      [res] and the state/error monad [ST] (a throw keeps the state
      reached, as awaited statements stay committed) with its bind
      notation; the invariant contract [st_preserves], a typeclass:
      the [Store] declares an instance per Prisma operation and the
      handlers' preservation proof is instance resolution
      ([st_preserves_bind_dep] lets a continuation use what the first
      statement returned, [st_preserves_and] combines invariants); association
      lists [alist_get]/[alist_set] (JavaScript objects and rows, whose
      key order is observable); the hint databases [posts] and
      [posts_rw] and the tactics [st_unfold], [preserve], [key_decide].
    - [JsValue]: JavaScript values [jsval] and numbers [num];
      [to_number]/[string_to_number] ([Number(..)], lines 41, 82, 111,
      167, 180-203: ECMAScript's StringToNumber, the literal's exact
      value rounded to the nearest IEEE 754 double by
      [round_to_double]), [int_to_string] (the number-to-string of
      [Date.now() + '_'], line 12), object spread [spread_with]
      ([{...req.body, k: v}], lines 121, 140, 144) and [obj_get].
    - [Schema]: the Prisma data model.  [schema.prisma] is not under
      [src/]; [columns] and [relations] are rebuilt from the spec and the
      names the controller uses; [owned_fks] and [fk_nullable] give the
      foreign keys and their default referential action.
    - [Store]: the Prisma client over an explicit database [db] (one
      [gmap Z row] and one autoincrement sequence per model).  Reads
      [find_many]/[find_unique] with [where] filters ([cond]) and
      [include]/[select] rendering ([shape]); writes [create], [update],
      [delete], [delete_many] with validation ([check_value], 32-bit
      [Int]), the checked and unchecked input types ([check_mode]: with a
      [connect], neither foreign-key scalars nor the autoincremented
      [id]), update operations ([classify_update_op]: [set], and
      [increment], [decrement], [multiply], [divide] evaluated by
      [apply_arith] in PostgreSQL's 32-bit arithmetic), [connect], unique
      and foreign-key checks, [Restrict]/[SetNull] on delete, [Cascade]
      when an update sets the primary key ([move_row]), and the sequence
      [next_id], exhausted past [MAXVALUE].  The interface
      [store_invariant] (what the client promises about an invariant:
      every writing statement and the rollback of a transaction keep
      it) with its instance for the well-formedness invariant [db_wf].
      [create_row] and [update_row] are the [INSERT] and [UPDATE] of a
      row; [data] is validated up front, the nested writes of an inverse
      relation included ([classify_nested], [nested_entry] and the
      argument parsers of each operation: [child_ok], [child_many_ok],
      [child_update_ok], [create_many_arg], [connect_or_create_arg],
      [update_arg], [update_many_arg], [upsert_arg], [unlink_arg]); the
      [where] objects of nested writes ([where_conds], [field_conds]):
      Prisma's scalar filters ([filter_op]: [equals], [not], [in],
      [notIn], [lt], [lte], [gt], [gte], [contains], [startsWith],
      [endsWith]), [AND], [OR], [NOT] and relation filters, evaluated in
      SQL's three-valued logic ([cond_tv]: a comparison with [NULL] is
      [UNKNOWN], which [NOT] keeps and no filter selects).
    - [StoreFacts]: the functional lemmas on the operations that the
      handler theorems use (reads, data objects, updates and moves,
      deletions, the sequence, a successful [INSERT] of a fresh row
      [create_row_new]) and on filters ([selected_key_iff], the [LIKE]
      operators [is_infix_spec], [NOT] in three-valued logic
      [not_complement], [null_neither]).
    - [Typing]: the typed store [db_typed] (rows carry exactly their
      model's columns with values of their types, [Int]s within 32
      bits; sequences within [1 .. 2^31]), decided by [db_typedb], and
      its [store_invariant] instance.
    - [Owned]: the nested writes of an update on a relation whose key
      the row holds (a post's [author]): [owned_entry] parses
      [create], [connectOrCreate], [update], [upsert] (and refuses
      [disconnect]/[delete] on the required key), [owned_parse] finds
      them in the data, [run_owned] runs one, [owned_writes] validates
      the whole data, finds the row (P2025), runs them in order and
      rewrites the data for the row's own [UPDATE] (a [connect] to the
      new target, or nothing); [owned_writes_data] and [owned_parse_nil]
      say what it leaves of the data.
    - [Nested]: Prisma's [create] and [update] as transactions
      ([st_atomic] with [rollback], which keeps the sequences): the row
      statement, the nested writes ([run_nested_op], every operation of
      Prisma 4's nested inputs: [create], [createMany] with
      [skipDuplicates] ([skip_duplicate], Postgres's
      [ON CONFLICT DO NOTHING]), [connect], [connectOrCreate], [update],
      [updateMany], [upsert], [set], [disconnect] (P2014 on a required
      key, [disconnect_rows]), [delete], [deleteMany]), a read of the
      row; [update] first runs [owned_writes]; and the lemmas that
      reduce a post's [create]/[update] to its row statement
      ([create_post_row], [update_plain]).
    - [NestedFacts]: the nested writes functionally: the children of a
      row ([children_of_fk]), an [updateMany] that sets a foreign key
      ([update_each_fk]), [set] on a required relation
      ([run_set_required]), [createMany] with [skipDuplicates]
      ([create_many_skips_duplicates]), a nested [update] on a row of
      another parent ([run_update_unlinked]); the rows of a model kept
      through owned writes on other models ([rows_kept],
      [owned_writes_rows]: only foreign keys into a target whose id
      changes follow it).
    - [Upload]: [upload_destination], [upload_filename] and
      [stored_file] (lines 6-15), [single_image] and [form_body]
      ([upload.single('image')], line 133); the disk is a map from paths
      to files.
    - [Handlers]: the nine handlers (lines 18-207) as functions
      [request -> ST db perr jsval], one bind per [await], and
      [run_handler] from the enumeration [route_handler]; a sample store
      for the witnesses.
    - [Router]: the layers [posts_router] (lines 18-176) with Express 4's
      matching ([match_segs], [layer_match], [first_match], [dispatch]),
      [serve] (router, multer on the image route, handler; a rejection
      is the [Crash] of the server) and [run_requests] for requests
      served one after the other until one crashes the server, the
      later ones [Dropped].
    - [Concurrency]: requests in flight at the same time.  A handler
      yields at each [await], so [handler_prog] lists the awaited Prisma
      calls of each handler, each call one atomic statement; [istep]
      runs the next statement of any request (a rejection stops the
      server and drops every request in flight) and [run_schedule] runs
      a given choice of requests.

    ** Theorems (claims C1-C35 of PROJECT.json)

    - deletion: [DELETE /:id] of a stored post deletes exactly the post,
      the likes, images and comments of it, sets [parentId] to [null] in
      the replies to the deleted comments, and changes nothing else
      (C1); it succeeds on every stored post (C2); deleting the post
      while children exist is refused ([delete_post_row_restricted]);
    - crashes: one [GET /s] whose [s] is not a 32-bit integer stops the
      server, no later request is answered (C3);
    - concurrency: on every store where a post has a like, some
      interleaving of [DELETE] and [GET] of it lets the [GET] answer the
      post without likes or comments, which no serial order gives (C4);
    - routing: [GET /published] is unreachable (C6); the [GET] listings
      [/published], [/allunpublished], [/unpublished] fall into
      [GET /:id] and fail (C7); the id routes (C21);
    - composition over HTTP (spec section 6): [DELETE /k] then
      [GET /k] answers [{post: null}] (C26); [POST /create] then
      [GET] of the new id answers the created row (C27);
    - handlers on every branch: lookups and listings (C12-C14), their
      validation errors on ids and users that [Number] does not read as
      32-bit integers (C5, C15), creation and its author (C8-C10, C16),
      update merge (C11, for any body that does not set the [id], owned
      nested writes included), an update that renumbers a post and
      moves its likes, comments and image (C24), and a renumbering to
      the next value of the sequence, after which a [POST /create] that
      would have succeeded fails and consumes that value (C20);
    - nested writes through the unfiltered body: [PUT /:id] with
      [{comments: {deleteMany: f}}] deletes exactly the comments of the
      post that the filter [f] selects ([{}]: all of them) and nothing
      else (C28); [POST /create] with [{comments: {connect}}]
      moves any comment under the new post (C29); a failing nested write
      rolls the whole [create] back (C30); [{comments: {set: ids}}]
      fails with P2014 and changes nothing while the post has a comment
      outside [ids] (C31); [{author: {update: {name: s}}}] renames the
      user who wrote the post, whoever sends it, and changes nothing
      else (C32), and [{author: {create: {name: s}}}] creates a user
      and makes it the post's author (C35); [createMany] with
      [skipDuplicates] never fails on a taken id and never touches an
      existing comment ([update_post_create_many_skips]);
      [{comments: {updateMany: {where: {}, data: {authorId: u}}}}]
      gives every comment of the post, and no other, to user [u] (C33);
      a nested [update] of another post's comment fails with P2025 and
      changes nothing, unlike [connect] (C34);
    - bounds: update arithmetic past 32 bits or dividing by zero (C25),
      an upload whose size does not fit [Int] (C23, the partial failure
      of spec section 7); the exhausted post sequence
      ([create_row_exhausted]);
    - upload: the file written and recorded (C17), the route without a
      file (C18), when two uploads share a file name (C19), form fields
      that cannot set [published] (C22).

    The invariants [db_wf] and [db_typed] are kept by every statement
    (their [store_invariant] instances), hence by every handler and by
    any sequence of requests ([run_requests_preserves]).

    ** Bounds and fuel

    [dec_digits] prints with fuel [Pos.size_nat p], the bit length of
    the number: each step divides by 10, so the bit length is enough
    ([take_dec_digits]).  Integers are [Z]; Prisma's [Int] is 32-bit,
    and [int32_ok] rejects arguments outside [-2^31, 2^31-1] as the
    client does.  The database's 32-bit arithmetic is computed in [Z]
    and its result checked against the same range, which is what
    PostgreSQL's overflow check does; division truncates ([Z.quot]).
    A sequence hands out [1 .. 2^31-1] ([int32_max]) and then fails.
    JavaScript numbers are IEEE 754 doubles: [round_to_double] rounds
    an exact rational to the nearest double (53-bit significand,
    subnormals down to [2^-1074], ties to even, [Infinity] past the
    largest double), and [num] keeps its class: an integer, a fraction
    ([NFrac]), an infinity or [NaN].  So [Number('1e-400')] is [0] and
    [Number('1.00000000000000001')] is [1]; every integer up to [2^53]
    is exact ([round_to_double_int]), and [String] then [Number] is the
    identity there ([string_to_number_int_to_string]).  A decimal
    literal of at least [10^309] is [Infinity] and one below
    [10^-324] is [0] without computing powers beyond those bounds.

    ** Not modelled

    Express's HTTP parsing and response writing (bodies are taken
    parsed; the path is taken percent-decoded); the authentication
    middleware ([req.currentUser] is an input); [console.log] (lines
    135-138, no effect); the Prisma client construction
    ([../utils/generatePrisma.js]); nested writes on an owned relation
    other than [connect] in a [create] (no handler can send one:
    [POST /create] overrides [author] after the spread, and the upload
    route's form fields are strings), nested writes inside a nested
    write, and several operations on one relation (reported as
    [EUnsupported], although the unfiltered [req.body] of [PUT /:id]
    can carry the last two; Prisma's order among several operations on
    one relation is not documented); unique selectors other than
    [{id}] (the only unique field of the models); in the filters a
    body can carry, [mode] (case-insensitive matching), [search],
    [lt]/[gt] on strings (which follow the database's collation),
    [LIKE] patterns holding [%], [_] or a backslash (how they are
    escaped is not documented), [isNot], [null] relation filters and
    the filters of to-many relations ([some], [every], [none]), all
    reported as [EUnsupported]; Prisma 5's [{where, data}]
    form of a to-one nested [update]; the [createdAt]/[updatedAt] columns of
    the spec's data model (the spec names "timestamps" without their
    columns; no handler reads or writes them; with an [@updatedAt]
    column, what the update theorems say of the post's row holds of
    its other columns); multer's [append-field] parsing of form field
    names ([form_body] takes the fields as they come: a name written
    [a[b]] or given twice would become a nested object or an array);
    result ordering (rows come in key order; the spec promises none);
    the interleaving of a request with the multer upload of another
    (the disk is not part of [Concurrency]); a restart of the server
    after a crash (a process manager's policy). *)

From stdpp Require Import base list.
From Stdlib Require Import ZArith.

Declare Scope posts_scope.
Delimit Scope posts_scope with posts.

(** ** Results and the state/error monad *)

(** A handler step either succeeds with a value or throws; a throw in an
    [async] Express handler rejects its promise. *)
Inductive res (E A : Type) : Type :=
| Ok (a : A)
| Err (e : E).
Arguments Ok {E A} a.
Arguments Err {E A} e.

Definition res_bind {E A B} (r : res E A) (k : A -> res E B) : res E B :=
  match r with
  | Ok a => k a
  | Err e => Err e
  end.

(** Computations over a state [S] that may throw [E].  A throw keeps the
    state reached so far: effects already committed stay committed, as
    for successive awaited database calls. *)
Definition ST (S E A : Type) : Type := S -> res E A * S.

Definition st_ret {S E A} (a : A) : ST S E A := fun s => (Ok a, s).
Definition st_throw {S E A} (e : E) : ST S E A := fun s => (Err e, s).
Definition st_lift {S E A} (r : res E A) : ST S E A := fun s => (r, s).
Definition st_get {S E} : ST S E S := fun s => (Ok s, s).
Definition st_put {S E} (s : S) : ST S E unit := fun _ => (Ok tt, s).
Definition st_bind {S E A B} (m : ST S E A) (k : A -> ST S E B) : ST S E B :=
  fun s =>
    match m s with
    | (Ok a, s') => k a s'
    | (Err e, s') => (Err e, s')
    end.

Notation "x <- m ;; k" := (st_bind m (fun x => k))
  (at level 60, m at next level, right associativity) : posts_scope.
Notation "x <-? r ;; k" := (res_bind r (fun x => k))
  (at level 60, r at next level, right associativity) : posts_scope.

Open Scope posts_scope.

(** Validate every element of a list, stopping at the first error. *)
Fixpoint res_map_list {E A B} (f : A -> res E B) (l : list A) : res E (list B) :=
  match l with
  | [] => Ok []
  | x :: l' => y <-? f x ;; ys <-? res_map_list f l' ;; Ok (y :: ys)
  end.

(** Run [f] on every element in order, stopping at the first throw. *)
Fixpoint st_for {S E A} (l : list A) (f : A -> ST S E unit) : ST S E unit :=
  match l with
  | [] => st_ret tt
  | x :: l' => _ <- f x ;; st_for l' f
  end.

(** A transaction: a throw undoes the computation's effects, as
    [undo s s'] computes them from the state [s] before it and the state
    [s'] it reached. *)
Definition st_atomic {S E A} (undo : S -> S -> S) (m : ST S E A) : ST S E A :=
  fun s => match m s with
           | (Err e, s') => (Err e, undo s s')
           | r => r
           end.

(** Run [f] on every element in order and collect the results, stopping
    at the first throw. *)
Fixpoint st_map {S E A B} (f : A -> ST S E B) (l : list A) : ST S E (list B) :=
  match l with
  | [] => st_ret []
  | x :: l' => y <- f x ;; ys <- st_map f l' ;; st_ret (y :: ys)
  end.

(** [try m catch (e) h]: the handler runs from the state the throw left. *)
Definition st_catch {S E A} (m : ST S E A) (h : E -> ST S E A) : ST S E A :=
  fun s => match m s with
           | (Err e, s') => h e s'
           | r => r
           end.

(** An invariant [P] of the state is kept by a computation when every run
    from a state satisfying [P], successful or not, ends in one.  This is
    the contract between components: a component declares an instance
    for each of its operations, and a client's computation, built with
    [st_bind], gets its own instance by resolution from them. *)
Class st_preserves {S E A} (P : S -> Prop) (m : ST S E A) : Prop :=
  preserved : forall s, P s -> P (snd (m s)).

(** ** Association lists

    JavaScript objects and database rows are finite maps whose key order
    is observable (it is the order of [JSON.stringify]); they are kept as
    association lists with the order of insertion. *)
Section AlistDefs.
Context {K V : Type} `{EqDec : EqDecision K}.

Fixpoint alist_get (k : K) (l : list (K * V)) : option V :=
  match l with
  | [] => None
  | (k', v) :: l' => if decide (k = k') then Some v else alist_get k l'
  end.

(** [o[k] = v]: an existing key keeps its position, a new key goes
    last, as JavaScript property assignment does. *)
Fixpoint alist_set (k : K) (v : V) (l : list (K * V)) : list (K * V) :=
  match l with
  | [] => [(k, v)]
  | (k', v') :: l' =>
      if decide (k = k') then (k', v) :: l' else (k', v') :: alist_set k v l'
  end.
End AlistDefs.

(** ** Hint databases of the development *)

Create HintDb posts.
Create Rewrite HintDb posts_rw.

(** ** Lemmas on the state monad *)

Lemma st_bind_ok {S E A B} (m : ST S E A) (k : A -> ST S E B) s a s' :
  m s = (Ok a, s') -> st_bind m k s = k a s'.
Proof. intros H. unfold st_bind. by rewrite H. Qed.

Lemma st_bind_err {S E A B} (m : ST S E A) (k : A -> ST S E B) s e s' :
  m s = (Err e, s') -> st_bind m k s = (Err e, s').
Proof. intros H. unfold st_bind. by rewrite H. Qed.

Lemma st_preserves_ret {S E A} (P : S -> Prop) (a : A) :
  st_preserves (E:=E) P (st_ret a).
Proof. intros s Hs. exact Hs. Qed.

Lemma st_preserves_lift {S E A} (P : S -> Prop) (r : res E A) :
  st_preserves P (st_lift r).
Proof. intros s Hs. exact Hs. Qed.

Lemma st_preserves_throw {S E A} (P : S -> Prop) (e : E) :
  st_preserves (A:=A) P (st_throw e).
Proof. intros s Hs. exact Hs. Qed.

Lemma st_preserves_get {S E} (P : S -> Prop) : st_preserves (E:=E) P st_get.
Proof. intros s Hs. exact Hs. Qed.

Lemma st_preserves_bind {S E A B} (P : S -> Prop) (m : ST S E A)
      (k : A -> ST S E B) :
  st_preserves P m -> (forall a, st_preserves P (k a)) ->
  st_preserves P (st_bind m k).
Proof.
  intros Hm Hk s Hs. unfold st_bind.
  specialize (Hm s Hs). destruct (m s) as [[a|e] s'] eqn:Hms; simpl in *.
  - by apply Hk.
  - exact Hm.
Qed.

Lemma st_preserves_and {S E A} (P Q : S -> Prop) (m : ST S E A) :
  st_preserves P m -> st_preserves Q m -> st_preserves (fun s => P s /\ Q s) m.
Proof. intros HP HQ s [Hp Hq]. split; [apply HP|apply HQ]; done. Qed.

(** The continuation may use what the first computation returned. *)
Lemma st_preserves_bind_dep {S E A B} (P : S -> Prop) (m : ST S E A)
      (k : A -> ST S E B) :
  st_preserves P m -> (forall s a s', P s -> m s = (Ok a, s') -> st_preserves P (k a)) ->
  st_preserves P (st_bind m k).
Proof.
  intros Hm Hk s Hs. unfold st_bind.
  specialize (Hm s Hs). destruct (m s) as [[a|e] s'] eqn:Hms; simpl in *.
  - by apply (Hk s a s').
  - exact Hm.
Qed.

#[export] Instance st_preserves_for {S E A} (P : S -> Prop) (l : list A) (f : A -> ST S E unit) :
  (forall x, st_preserves P (f x)) -> st_preserves P (st_for l f).
Proof.
  intros Hf. induction l as [|x l IH]; simpl; [intros s Hs; exact Hs|].
  apply st_preserves_bind; [apply Hf | intros; apply IH].
Qed.

Lemma st_preserves_run {S E A} (P : S -> Prop) (m : ST S E A) s r s' :
  st_preserves P m -> P s -> m s = (r, s') -> P s'.
Proof. intros Hm Hs Hrun. pose proof (Hm s Hs) as H. by rewrite Hrun in H. Qed.

Lemma st_preserves_for_in {S E A} (P : S -> Prop) (l : list A) (f : A -> ST S E unit) :
  (forall x, In x l -> st_preserves P (f x)) -> st_preserves P (st_for l f).
Proof.
  induction l as [|x l IH]; intros Hf; simpl; [intros s Hs; exact Hs|].
  apply st_preserves_bind; [apply Hf; by left | intros; apply IH; intros; apply Hf; by right].
Qed.

(** A transaction keeps [P] when its body does and undoing a run from a
    state of [P] to a state of [P] ends in [P]. *)
Lemma st_preserves_atomic {S E A} (P : S -> Prop) (undo : S -> S -> S) (m : ST S E A) :
  st_preserves P m -> (forall s s', P s -> P s' -> P (undo s s')) -> st_preserves P (st_atomic undo m).
Proof.
  intros Hm Hu s Hs. unfold st_atomic. specialize (Hm s Hs).
  destruct (m s) as [[a|e] s']; simpl in *; [done|]. by apply Hu.
Qed.

Lemma st_atomic_ok {S E A} (undo : S -> S -> S) (m : ST S E A) s a s' :
  st_atomic undo m s = (Ok a, s') <-> m s = (Ok a, s').
Proof. unfold st_atomic. destruct (m s) as [[b|e] s'']; split; congruence. Qed.

Lemma st_atomic_err {S E A} (undo : S -> S -> S) (m : ST S E A) s e s' :
  m s = (Err e, s') -> st_atomic undo m s = (Err e, undo s s').
Proof. unfold st_atomic. by intros ->. Qed.

Lemma st_preserves_map_in {S E A B} (P : S -> Prop) (f : A -> ST S E B) (l : list A) :
  (forall x, In x l -> st_preserves P (f x)) -> st_preserves P (st_map f l).
Proof.
  induction l as [|x l IH]; intros Hf; simpl; [apply st_preserves_ret|].
  apply st_preserves_bind; [apply Hf; by left|].
  intros; apply st_preserves_bind; [apply IH; intros; apply Hf; by right | intros; apply st_preserves_ret].
Qed.

#[export] Instance st_preserves_map {S E A B} (P : S -> Prop) (f : A -> ST S E B) (l : list A) :
  (forall x, st_preserves P (f x)) -> st_preserves P (st_map f l).
Proof. intros Hf. apply st_preserves_map_in. intros x _. apply Hf. Qed.

(** Each result of a successful [st_map] is a result of [f] on an
    element of the list. *)
Lemma st_map_ok {S E A B} (f : A -> ST S E B) l s ys s' :
  st_map f l s = (Ok ys, s') -> forall y, In y ys -> exists x s1 s2, In x l /\ f x s1 = (Ok y, s2).
Proof.
  revert s ys s'. induction l as [|x l IH]; intros s ys s'; simpl; unfold st_bind, st_ret; [by intros [= <- _]|].
  destruct (f x s) as [[y0|e] s1] eqn:Hf; [|discriminate].
  destruct (st_map f l s1) as [[ys'|e] s2] eqn:Hm; [|discriminate].
  intros [= <- _] y [<-|Hy]; [by exists x, s, s1; split; [left|]|].
  destruct (IH s1 ys' s2 Hm y Hy) as (x' & s3 & s4 & Hx & Hr). exists x', s3, s4. by split; [right|].
Qed.

#[export] Instance st_preserves_catch {S E A} (P : S -> Prop) (m : ST S E A) (h : E -> ST S E A) :
  st_preserves P m -> (forall e, st_preserves P (h e)) -> st_preserves P (st_catch m h).
Proof.
  intros Hm Hh s Hs. unfold st_catch. specialize (Hm s Hs).
  destruct (m s) as [[a|e] s']; simpl in *; [done|]. by apply Hh.
Qed.

Lemma st_catch_ok {S E A} (m : ST S E A) (h : E -> ST S E A) s a s' :
  m s = (Ok a, s') -> st_catch m h s = (Ok a, s').
Proof. unfold st_catch. by intros ->. Qed.

Lemma st_catch_err {S E A} (m : ST S E A) (h : E -> ST S E A) s e s' :
  m s = (Err e, s') -> st_catch m h s = h e s'.
Proof. unfold st_catch. by intros ->. Qed.

(** A loop none of whose steps throws [e] does not throw [e]. *)
Lemma st_for_never {S E A} (l : list A) (f : A -> ST S E unit) (e : E) :
  (forall x s, fst (f x s) <> Err e) -> forall s, fst (st_for l f s) <> Err e.
Proof.
  intros Hf. induction l as [|x l IH]; intros s; simpl; [discriminate|].
  unfold st_bind. specialize (Hf x s). destruct (f x s) as [[[]|e'] s']; simpl in *; [apply IH|done].
Qed.

(** A loop whose steps agree with those of another loop on their
    successful runs agrees with it on its successful runs. *)
Lemma st_for_ok_agree {S E A} (l : list A) (f g : A -> ST S E unit) :
  (forall x s s', f x s = (Ok tt, s') -> g x s = (Ok tt, s')) ->
  forall s s', st_for l f s = (Ok tt, s') -> st_for l g s = (Ok tt, s').
Proof.
  intros Hfg. induction l as [|x l IH]; intros s s'; simpl; [done|].
  unfold st_bind. destruct (f x s) as [[[]|e] s1] eqn:Ef; [|discriminate].
  rewrite (Hfg x s s1 Ef). apply IH.
Qed.

Lemma res_map_list_map_ok {E A B} (f : B -> res E A) (g : A -> B) l :
  Forall (fun x => f (g x) = Ok x) l -> res_map_list f (map g l) = Ok l.
Proof. induction 1 as [|x l Hx _ IH]; [done|]. cbn [map res_map_list]. by rewrite Hx; cbn; rewrite IH. Qed.

Lemma res_map_list_In {E A B} (f : A -> res E B) l ys y :
  res_map_list f l = Ok ys -> In y ys -> exists x, In x l /\ f x = Ok y.
Proof.
  revert ys. induction l as [|x l IH]; intros ys H Hy; simpl in H; [by injection H as <-|].
  destruct (f x) as [y0|] eqn:Hf; simpl in H; [|discriminate].
  destruct (res_map_list f l) as [ys'|]; simpl in H; [|discriminate]. injection H as <-.
  destruct Hy as [<-|Hy]; [by exists x; split; [left|]|].
  destruct (IH ys' eq_refl Hy) as (x' & Hx & Hx'). exists x'. by split; [right|].
Qed.

(** ** Lemmas on lists *)

Lemma forallb_ext_In {A} (f g : A -> bool) (l : list A) :
  (forall x, In x l -> f x = g x) -> forallb f l = forallb g l.
Proof.
  induction l as [|x l IH]; intros H; [done|]. simpl.
  rewrite (H x (in_eq _ _)), IH; [done|]. intros y Hy. apply H. by right.
Qed.

(** ** Lemmas on association lists *)

(** Rewriting the entries of an association list without changing
    their keys, dropping some: the keys left are a sublist. *)
Lemma omap_keys_sublist {K V W} (g : K * V -> option (K * W)) (l : list (K * V)) :
  (forall k v k' w, g (k, v) = Some (k', w) -> k' = k) -> map fst (omap g l) `sublist_of` map fst l.
Proof.
  intros Hg. induction l as [|[k v] l IH]; simpl; [done|].
  destruct (g (k, v)) as [[k' w]|] eqn:E; simpl.
  - rewrite (Hg _ _ _ _ E). by apply sublist_skip.
  - by apply sublist_cons.
Qed.

Section Alist.
Context {K V : Type} `{EqDec : EqDecision K}.
Implicit Types (k : K) (v : V) (l : list (K * V)).

Lemma alist_get_set_eq k v l : alist_get k (alist_set k v l) = Some v.
Proof.
  induction l as [|[k' v'] l IH]; simpl; [by rewrite decide_True|].
  case_decide; simpl; [by rewrite decide_True|].
  rewrite decide_False by done. exact IH.
Qed.

Lemma alist_get_set_ne k k' v l :
  k <> k' -> alist_get k' (alist_set k v l) = alist_get k' l.
Proof.
  intros Hne. induction l as [|[k0 v0] l IH]; simpl.
  - by rewrite decide_False.
  - case_decide as Hk; simpl.
    + subst k0. case_decide; [congruence | done].
    + case_decide; [done | exact IH].
Qed.

Lemma alist_get_In k v l : alist_get k l = Some v -> In (k, v) l.
Proof.
  induction l as [|[k' v'] l IH]; simpl; [discriminate|].
  case_decide as Hd; [intros [= <-]; subst; by left | intros Hg; right; auto].
Qed.

Lemma alist_get_None k l : alist_get k l = None -> ~ In k (map fst l).
Proof.
  induction l as [|[k' v'] l IH]; simpl; [tauto|].
  case_decide as Hd; [discriminate|]. intros Hg [->|Hin]; [done | by apply IH].
Qed.
End Alist.

(** ** Tactics and hints *)

#[export] Hint Rewrite @alist_get_set_eq : posts_rw.
#[export] Hint Resolve st_preserves_ret st_preserves_lift st_preserves_throw st_preserves_get st_preserves_bind : posts.
#[export] Existing Instances st_preserves_ret st_preserves_lift st_preserves_throw st_preserves_get.
#[export] Existing Instance st_preserves_bind | 10.

(** Run a monadic computation one bind at a time. *)
Ltac st_unfold := unfold st_bind, st_ret, st_throw, st_lift, st_get, st_put in *.

(** Close a preservation goal from the instances of the components. *)
Ltac preserve := typeclasses eauto.

Lemma nodup_fst_In_eq {K V} (l : list (K * V)) k v1 v2 :
  NoDup (map fst l) -> In (k, v1) l -> In (k, v2) l -> v1 = v2.
Proof.
  induction l as [|[k' v'] l IH]; simpl; [tauto|]. intros Hnd H1 H2.
  apply NoDup_cons in Hnd as [Hnot Hnd].
  destruct H1 as [E1|H1], H2 as [E2|H2].
  - congruence.
  - exfalso. injection E1 as -> ->. apply Hnot, list_elem_of_In, in_map_iff. exists (k, v2). auto.
  - exfalso. injection E2 as -> ->. apply Hnot, list_elem_of_In, in_map_iff. exists (k, v1). auto.
  - auto.
Qed.

Lemma alist_set_keys {K V} `{EqDecision K} (k : K) (v : V) l :
  map fst (alist_set k v l) = if decide (k ∈ map fst l) then map fst l else map fst l ++ [k].
Proof.
  induction l as [|[k' v'] l IH]; cbn [alist_set map fst]; [done|].
  destruct (decide (k = k')) as [->|Hne]; cbn [map fst].
  - rewrite decide_True by apply list_elem_of_here. done.
  - rewrite IH. destruct (decide (k ∈ map fst l)) as [Hin|Hin].
    + rewrite decide_True; [done|]. apply elem_of_cons. by right.
    + rewrite decide_False; [done|]. intros [->|Hin']%elem_of_cons; [done | by apply Hin].
Qed.

Lemma alist_set_nodup {K V} `{EqDecision K} (k : K) (v : V) l :
  NoDup (map fst l) -> NoDup (map fst (alist_set k v l)).
Proof.
  intros Hnd. rewrite alist_set_keys. case_decide as Hin; [done|].
  apply NoDup_app. split; [done|]. split; [|apply NoDup_singleton].
  intros x Hx ->%list_elem_of_singleton. by apply Hin.
Qed.

(** Decide equalities between literal keys (string constants). *)
Ltac key_decide :=
  repeat first [ rewrite decide_True by reflexivity | rewrite decide_False by discriminate ].

Lemma alist_get_of_In {K V} `{EqDecision K} (l : list (K * V)) k v :
  NoDup (map fst l) -> In (k, v) l -> alist_get k l = Some v.
Proof.
  intros Hnd Hin. destruct (alist_get k l) as [v'|] eqn:E.
  - apply alist_get_In in E. f_equal. by eapply nodup_fst_In_eq.
  - apply alist_get_None in E. exfalso. apply E, in_map_iff. by exists (k, v).
Qed.

Lemma alist_set_In_ne {K V} `{EqDecision K} (l : list (K * V)) k k' v x :
  In (k, x) (alist_set k' v l) -> k <> k' -> In (k, x) l.
Proof.
  induction l as [|[k0 v0] l IH]; simpl.
  - intros [[= -> _]|[]] Hne. done.
  - case_decide as Hd; simpl.
    + intros [[= -> _]|Hin] Hne; [congruence | by right].
    + intros [Heq|Hin] Hne; [by left | right; auto].
Qed.

Lemma alist_set_In_inv {K V} `{EqDecision K} (l : list (K * V)) k k' v x :
  In (k, x) (alist_set k' v l) -> (k = k' /\ x = v) \/ In (k, x) l.
Proof.
  intros Hin. destruct (decide (k = k')) as [->|Hne]; [|right; by eapply alist_set_In_ne].
  induction l as [|[k0 v0] l IH]; simpl in Hin.
  - destruct Hin as [[= ->]|[]]. by left.
  - case_decide as Hd; simpl in Hin.
    + subst k0. destruct Hin as [[= ->]|Hin]; [by left | right; by right].
    + destruct Hin as [Heq|Hin]; [right; by left|]. destruct (IH Hin) as [?|?]; [by left | right; by right].
Qed.

Lemma alist_set_idem {K V} `{EqDecision K} (k : K) (v : V) l :
  alist_set k v (alist_set k v l) = alist_set k v l.
Proof.
  induction l as [|[k' v'] l IH]; simpl; [by rewrite decide_True|].
  case_decide; simpl; [by rewrite decide_True | by rewrite decide_False, IH].
Qed.

Lemma alist_set_In_keep {K V} `{EqDecision K} (l : list (K * V)) k k' v x :
  In (k, x) l -> k <> k' -> In (k, x) (alist_set k' v l).
Proof.
  induction l as [|[k0 v0] l IH]; simpl; [done|].
  intros [[= -> ->]|Hin] Hne; case_decide as Hd; simpl.
  - congruence.
  - by left.
  - by right.
  - right. auto.
Qed.
