(* ===== verification/JsValue.v ===== *)
(** * JavaScript values and the coercions the controller uses

    [jsval] is the JavaScript value space the controller touches: request
    parameters and the current user (strings, numbers, [undefined]),
    request bodies (JSON objects), and the JSON answers.  A number is an
    IEEE 754 double; [num] keeps its class: integral values exactly,
    fractional values, the two infinities and NaN.

    - [to_number] is [Number(v)] (ECMAScript ToNumber), used on
      [req.params.id] and [req.currentUser];
    - [string_to_number] is ECMAScript's StringToNumber grammar
      (whitespace trim, signed decimal literals with fraction and
      exponent, [Infinity], [0x]/[0o]/[0b] literals), whose exact value
      [round_to_double] rounds to the nearest double, ties to even;
    - [int_to_string] is Number::toString on integers, used for the
      upload file name [new Date().valueOf() + '_' + ...];
    - [spread_with] is object spread followed by property definitions,
      [{...o, k1: v1, ...}]. *)

From stdpp Require Import base list strings.
From Stdlib Require Import ZArith Ascii String.
From S2P Require Import Prelude.

Open Scope Z_scope.

Inductive num : Type :=
| NInt (z : Z)        (** a finite number whose value is an integer ([-0] is [0]) *)
| NFrac               (** a finite number with a fractional part *)
| NInf (neg : bool)   (** [Infinity] or [-Infinity] *)
| NNaN.

#[export] Instance num_eq_dec : EqDecision num.
Proof. solve_decision. Defined.

Local Set Warnings "-register-all".
Inductive jsval : Type :=
| JUndefined
| JNull
| JBool (b : bool)
| JNum (n : num)
| JStr (s : string)
| JArr (l : list jsval)
| JObj (o : list (string * jsval)).

(** Equality of the primitive values a database column can hold;
    arrays and objects are compared by identity in JavaScript and never
    equal a column value. *)
Definition prim_eqb (v w : jsval) : bool :=
  match v, w with
  | JNull, JNull => true
  | JBool a, JBool b => Bool.eqb a b
  | JNum a, JNum b => bool_decide (a = b)
  | JStr a, JStr b => String.eqb a b
  | _, _ => false
  end.

(** ** Characters *)

Definition code (c : ascii) : Z := Z.of_nat (nat_of_ascii c).

(** The ASCII part of StrWhiteSpaceChar: TAB, LF, VT, FF, CR, SP. *)
Definition is_ws (c : ascii) : bool :=
  (code c =? 32) || ((9 <=? code c) && (code c <=? 13)).

Fixpoint drop_ws (l : list ascii) : list ascii :=
  match l with
  | c :: l' => if is_ws c then drop_ws l' else l
  | [] => []
  end.

Definition trim (l : list ascii) : list ascii := rev (drop_ws (rev (drop_ws l))).

(** Value of a digit in [base] (2, 8, 10 or 16), letters in either case. *)
Definition digit_value (base : Z) (c : ascii) : option Z :=
  let n := code c in
  let v := if (48 <=? n) && (n <=? 57) then n - 48
           else if (97 <=? n) && (n <=? 102) then n - 87
           else if (65 <=? n) && (n <=? 70) then n - 55
           else base in
  if v <? base then Some v else None.

(** Longest run of digits: the accumulated value, the number of digits
    read and the rest of the input. *)
Fixpoint take_digits (base acc : Z) (cnt : nat) (l : list ascii)
  : Z * nat * list ascii :=
  match l with
  | c :: l' =>
      match digit_value base c with
      | Some d => take_digits base (base * acc + d) (S cnt) l'
      | None => (acc, cnt, l)
      end
  | [] => (acc, cnt, [])
  end.

(** ** StringToNumber *)

Definition num_neg (n : num) : num :=
  match n with
  | NInt z => NInt (- z)
  | NInf b => NInf (negb b)
  | n => n
  end.

(** ** Rounding to a double

    A JavaScript number is an IEEE 754 binary64 value: [s * 2^e] with a
    significand [0 <= s < 2^53] and [-1074 <= e <= 971].  StringToNumber
    rounds the exact value of the literal to the nearest double, ties to
    even (as V8 does for every length of literal); [num] then keeps its
    class. *)

(** [floor (log2 (n / d))] for [n, d > 0]: the difference of the
    integer logarithms, or one less. *)
Definition log2_ratio (n d : Z) : Z :=
  let k := Z.log2 n - Z.log2 d in
  if 0 <=? k then (if n <? d * 2 ^ k then k - 1 else k)
  else (if n * 2 ^ (- k) <? d then k - 1 else k).

(** [n / d] rounded to an integer, ties to even ([d > 0]). *)
Definition round_half_even (n d : Z) : Z :=
  let q := n / d in
  let r := n mod d in
  if (d <? 2 * r) || ((2 * r =? d) && Z.odd q) then q + 1 else q.

(** The double nearest to [n / d] ([n >= 0], [d > 0]): the exponent is
    that of the binade of [n / d], at least [-1074] (subnormals); a value
    past the largest double, [(2^53 - 1) * 2^971], is [Infinity], and a
    value below half the least subnormal is [0]. *)
Definition round_to_double (n d : Z) : num :=
  if n <=? 0 then NInt 0 else
  let e := Z.max (log2_ratio n d - 52) (-1074) in
  if 0 <=? e then
    let s := round_half_even n (d * 2 ^ e) in
    if (2 ^ 53 - 1) * 2 ^ 971 <? s * 2 ^ e then NInf false else NInt (s * 2 ^ e)
  else
    let s := round_half_even (n * 2 ^ (- e)) d in
    if s mod 2 ^ (- e) =? 0 then NInt (s / 2 ^ (- e)) else NFrac.

(** [m * 10^e] for a mantissa [m >= 0] with [ndigits] digits, rounded to
    a double.  A value of at least [10^309] is beyond the largest double
    and one below [10^-324] below half the least subnormal, so neither
    needs the exact computation. *)
Definition scale (m : Z) (ndigits : nat) (e : Z) : num :=
  if m =? 0 then NInt 0
  else if 309 <=? e then NInf false
  else if Z.of_nat ndigits + e <? -324 then NInt 0
  else if 0 <=? e then round_to_double (m * 10 ^ e) 1
  else round_to_double m (10 ^ (- e)).

(** ExponentPart, which must end the literal: [e], [E], a sign and at
    least one digit.  An absent exponent is [0]. *)
Definition parse_exponent (l : list ascii) : option Z :=
  let digits r :=
    match take_digits 10 0 0 r with
    | (v, S _, []) => Some v
    | _ => None
    end in
  match l with
  | [] => Some 0
  | c :: r =>
      if (code c =? 101) || (code c =? 69) then
        match r with
        | s :: r' =>
            if code s =? 43 then digits r'
            else if code s =? 45 then option_map Z.opp (digits r')
            else digits r
        | [] => None
        end
      else None
  end.

Definition infinity_chars : list ascii := list_ascii_of_string "Infinity".

(** StrUnsignedDecimalLiteral: [Infinity], or digits with an optional
    fraction and exponent, with at least one digit before the exponent. *)
Definition parse_unsigned (l : list ascii) : option num :=
  if bool_decide (l = infinity_chars) then Some (NInf false) else
  let '(m1, n1, r1) := take_digits 10 0 0 l in
  let '(m, nf, r2) :=
    match r1 with
    | c :: r => if code c =? 46 then take_digits 10 m1 0 r else (m1, O, r1)
    | [] => (m1, O, r1)
    end in
  if Nat.eqb (n1 + nf) 0 then None
  else option_map (fun e => scale m (n1 + nf) (e - Z.of_nat nf)) (parse_exponent r2).

Definition parse_decimal (l : list ascii) : option num :=
  match l with
  | c :: r =>
      if code c =? 43 then parse_unsigned r
      else if code c =? 45 then option_map num_neg (parse_unsigned r)
      else parse_unsigned l
  | [] => None
  end.

(** NonDecimalIntegerLiteral: a radix prefix and at least one digit. *)
Definition parse_radix (base : Z) (l : list ascii) : option num :=
  match take_digits base 0 0 l with
  | (v, S _, []) => Some (round_to_double v 1)
  | _ => None
  end.

Definition parse_numeric (l : list ascii) : option num :=
  match l with
  | z :: c :: r =>
      if code z =? 48 then
        if (code c =? 120) || (code c =? 88) then parse_radix 16 r
        else if (code c =? 111) || (code c =? 79) then parse_radix 8 r
        else if (code c =? 98) || (code c =? 66) then parse_radix 2 r
        else parse_decimal l
      else parse_decimal l
  | _ => parse_decimal l
  end.

(** An empty or all-white-space string is [0]; anything that is not a
    StringNumericLiteral is [NaN]. *)
Definition string_to_number (s : string) : num :=
  match trim (list_ascii_of_string s) with
  | [] => NInt 0
  | l => default NNaN (parse_numeric l)
  end.

(** [Number(v)]: ToNumber, with ToPrimitive on arrays (which joins the
    elements with commas, so only arrays of at most one element can give
    a number) and on plain objects (["[object Object]"], NaN). *)
Fixpoint to_number (v : jsval) : num :=
  match v with
  | JUndefined => NNaN
  | JNull => NInt 0
  | JBool b => NInt (if b then 1 else 0)
  | JNum n => n
  | JStr s => string_to_number s
  | JArr [] => NInt 0
  | JArr [x] =>
      match x with
      | JUndefined | JNull => NInt 0
      | JBool _ | JObj _ => NNaN
      | _ => to_number x
      end
  | JArr _ => NNaN
  | JObj _ => NNaN
  end.

(** ** Number::toString on integers *)

Definition digit_char (d : Z) : ascii := ascii_of_nat (48 + Z.to_nat d).

(** Decimal digits of [n >= 0] prepended to [acc]; the fuel is a bound
    on the number of digits ([decimal_fuel] below is enough). *)
Fixpoint dec_digits (fuel : nat) (n : Z) (acc : list ascii) : list ascii :=
  match fuel with
  | O => acc
  | S f =>
      let acc' := digit_char (n mod 10) :: acc in
      if n <? 10 then acc' else dec_digits f (n / 10) acc'
  end.

Definition decimal_fuel (p : positive) : nat := Pos.size_nat p.

(** Every time value of a [Date] lies within [8.64e15] of the epoch, so
    integers below [10^21] cover [Date.prototype.valueOf]: JavaScript
    prints them in plain decimal notation with a leading [-] if negative. *)
Definition int_to_string (z : Z) : string :=
  string_of_list_ascii
    match z with
    | Z0 => [digit_char 0]
    | Zpos p => dec_digits (decimal_fuel p) (Zpos p) []
    | Zneg p => ascii_of_nat 45 :: dec_digits (decimal_fuel p) (Zpos p) []
    end.

(** ** Objects *)

Definition obj_get (v : jsval) (k : string) : jsval :=
  match v with
  | JObj o => default JUndefined (alist_get k o)
  | _ => JUndefined
  end.

(** Own enumerable properties copied by [{...v}]: an object's entries, an
    array's or a string's indexed elements; nothing for primitives,
    [null] and [undefined]. *)
Definition own_entries (v : jsval) : list (string * jsval) :=
  match v with
  | JObj o => o
  | JArr l => imap (fun i x => (int_to_string (Z.of_nat i), x)) l
  | JStr s => imap (fun i c => (int_to_string (Z.of_nat i), JStr (String c EmptyString)))
                   (list_ascii_of_string s)
  | _ => []
  end.

(** [{...v, k1: e1, ..., kn: en}]. *)
Definition spread_with (v : jsval) (props : list (string * jsval)) : jsval :=
  JObj (fold_left (fun o '(k, x) => alist_set k x o) props (own_entries v)).

(** ** Lemmas *)

Definition is_digit_char (c : ascii) : Prop := exists d, 0 <= d < 10 /\ c = digit_char d.

(** A character [Number.prototype.toString] writes for an integer: a
    decimal digit or the minus sign. *)
Definition numeric_char (c : ascii) : Prop := (48 <= code c <= 57) \/ code c = 45.

Lemma code_digit_char d : 0 <= d < 10 -> code (digit_char d) = 48 + d.
Proof.
  intros Hd. unfold code, digit_char.
  rewrite nat_ascii_embedding by lia. lia.
Qed.

Lemma digit_value_digit_char d : 0 <= d < 10 -> digit_value 10 (digit_char d) = Some d.
Proof.
  intros Hd. unfold digit_value. rewrite code_digit_char by done.
  replace ((48 <=? 48 + d) && (48 + d <=? 57)) with true by (symmetry; apply andb_true_iff; lia).
  replace (48 + d - 48) with d by lia.
  replace (d <? 10) with true by (symmetry; apply Z.ltb_lt; lia). done.
Qed.

Lemma is_ws_digit c : is_digit_char c -> is_ws c = false.
Proof.
  intros (d & Hd & ->). unfold is_ws. rewrite code_digit_char by done.
  apply orb_false_iff; split; [apply Z.eqb_neq; lia|].
  apply andb_false_iff; right; apply Z.leb_gt; lia.
Qed.

Lemma drop_ws_no_ws l : Forall (fun c => is_ws c = false) l -> drop_ws l = l.
Proof. intros Hl. destruct Hl as [|c l Hc Hl]; simpl; [done|]. by rewrite Hc. Qed.

Lemma trim_no_ws l : Forall (fun c => is_ws c = false) l -> trim l = l.
Proof.
  intros Hl. unfold trim. rewrite (drop_ws_no_ws l Hl).
  rewrite drop_ws_no_ws; [apply rev_involutive|].
  apply Forall_rev. exact Hl.
Qed.

Lemma dec_digits_digits f n acc :
  Forall is_digit_char acc -> Forall is_digit_char (dec_digits f n acc).
Proof.
  revert n acc. induction f as [|f IH]; intros n acc Hacc; simpl; [done|].
  assert (Hd : is_digit_char (digit_char (n mod 10))).
  { exists (n mod 10). split; [apply Z.mod_pos_bound; lia | done]. }
  destruct (n <? 10); [by constructor | apply IH; by constructor].
Qed.

(** Reading back the digits [dec_digits] printed: the digit run has the
    printed value, with at least one digit. *)
Lemma take_dec_digits f n acc cnt :
  0 <= n < 2 ^ Z.of_nat (S f) ->
  exists k, take_digits 10 0 cnt (dec_digits (S f) n acc) = take_digits 10 n (S (cnt + k)) acc.
Proof.
  revert n acc cnt. induction f as [|f IH]; intros n acc cnt Hn; simpl dec_digits.
  - assert (n < 10) by (simpl in Hn; lia).
    replace (n <? 10) with true by (symmetry; apply Z.ltb_lt; lia).
    exists O. cbn [take_digits]. rewrite digit_value_digit_char by (apply Z.mod_pos_bound; lia).
    rewrite Z.mod_small by lia. do 2 f_equal; lia.
  - destruct (Z.ltb_spec n 10) as [Hlt|Hge].
    + exists O. cbn [take_digits]. rewrite digit_value_digit_char by (apply Z.mod_pos_bound; lia).
      rewrite Z.mod_small by lia. do 2 f_equal; lia.
    + assert (Hb : 0 <= n / 10 < 2 ^ Z.of_nat (S f)).
      { split; [apply Z.div_pos; lia|].
        rewrite Nat2Z.inj_succ, Z.pow_succ_r in Hn by lia.
        assert (n / 10 <= n / 2) by (apply Z.div_le_compat_l; lia).
        assert (n / 2 < 2 ^ Z.of_nat (S f)); [apply Z.div_lt_upper_bound; lia | lia]. }
      destruct (IH (n / 10) (digit_char (n mod 10) :: acc) cnt Hb) as [k Hk].
      exists (S k). simpl dec_digits in Hk. rewrite Hk. cbn [take_digits].
      rewrite digit_value_digit_char by (apply Z.mod_pos_bound; lia).
      rewrite <- Z.div_mod by lia. f_equal. lia.
Qed.

Lemma pos_lt_pow_size p : Zpos p < 2 ^ Z.of_nat (decimal_fuel p).
Proof.
  unfold decimal_fuel. induction p as [p IH|p IH|]; simpl Pos.size_nat;
    rewrite ?Nat2Z.inj_succ, ?Z.pow_succ_r by lia; lia.
Qed.

Lemma decimal_fuel_S p : exists f, decimal_fuel p = S f.
Proof. destruct p; simpl; eauto. Qed.

Lemma dec_digits_pos_digits p :
  Forall is_digit_char (dec_digits (decimal_fuel p) (Zpos p) []).
Proof. apply dec_digits_digits. constructor. Qed.

(** The digit run of a printed positive number reads back as it. *)
Lemma take_digits_dec_digits p :
  exists k, take_digits 10 0 0 (dec_digits (decimal_fuel p) (Zpos p) []) = (Zpos p, S k, []).
Proof.
  destruct (decimal_fuel_S p) as [f Hf].
  pose proof (pos_lt_pow_size p) as Hlt. rewrite Hf in Hlt |- *.
  destruct (take_dec_digits f (Zpos p) [] 0 ltac:(lia)) as [k Hk]. by exists k.
Qed.

Lemma round_half_even_1 n : round_half_even n 1 = n.
Proof. unfold round_half_even. rewrite Z.div_1_r, Z.mod_1_r. reflexivity. Qed.

Lemma log2_ratio_1 z : 0 < z -> log2_ratio z 1 = Z.log2 z.
Proof.
  intros Hz. pose proof (Z.log2_spec z Hz). pose proof (Z.log2_nonneg z).
  unfold log2_ratio. rewrite Z.log2_1, Z.sub_0_r, Z.mul_1_l.
  rewrite (proj2 (Z.leb_le _ _)) by lia. by rewrite (proj2 (Z.ltb_ge _ _)) by lia.
Qed.

(** Every integer of magnitude at most [2^53] is a double: rounding
    leaves it unchanged. *)
Lemma round_to_double_int z : 0 <= z <= 2 ^ 53 -> round_to_double z 1 = NInt z.
Proof.
  intros Hz. destruct (Z.eq_dec z (2 ^ 53)) as [->|Hne]; [vm_compute; reflexivity|].
  unfold round_to_double. destruct (Z.leb_spec z 0) as [H0|H0]; [f_equal; lia|].
  rewrite log2_ratio_1 by lia.
  assert (Hk : Z.log2 z < 53) by (apply Z.log2_lt_pow2; lia).
  pose proof (Z.log2_nonneg z). rewrite Z.max_l by lia.
  destruct (Z.leb_spec 0 (Z.log2 z - 52)) as [He|He].
  - replace (Z.log2 z - 52) with 0 by lia.
    rewrite Z.mul_1_l, Z.pow_0_r, round_half_even_1, Z.mul_1_r.
    by rewrite (proj2 (Z.ltb_ge _ _)) by lia.
  - rewrite round_half_even_1, Z.mod_mul, Z.eqb_refl, Z.div_mul by (apply Z.pow_nonzero; lia).
    reflexivity.
Qed.

(** The printed digits of a positive number parse back to it, when it
    is at most [2^53]. *)
Lemma parse_unsigned_dec_digits p :
  Zpos p <= 2 ^ 53 ->
  parse_unsigned (dec_digits (decimal_fuel p) (Zpos p) []) = Some (NInt (Zpos p)).
Proof.
  intros Hp. destruct (take_digits_dec_digits p) as [k Hk].
  pose proof (dec_digits_pos_digits p) as Hdig.
  remember (dec_digits (decimal_fuel p) (Zpos p) []) as l eqn:Hl.
  destruct l as [|c l']; [simpl in Hk; discriminate|].
  unfold parse_unsigned. rewrite bool_decide_false.
  2:{ intros Heq. apply Forall_cons_1 in Hdig as [[d [Hd ->]] _].
      unfold infinity_chars in Heq. cbn in Heq. injection Heq as Hc _.
      apply (f_equal code) in Hc. rewrite code_digit_char in Hc by done.
      change (code "I"%char) with 73 in Hc. lia. }
  rewrite Hk. cbn [take_digits Nat.add Nat.eqb option_map parse_exponent].
  unfold scale. rewrite Z.sub_0_r, Z.pow_0_r, Z.mul_1_r. cbn [Z.eqb Z.leb Z.ltb].
  rewrite Nat2Z.inj_succ. rewrite (proj2 (Z.ltb_ge _ _)) by lia.
  rewrite round_to_double_int by lia. reflexivity.
Qed.

Lemma digit_not_sign c : is_digit_char c -> (code c =? 43) = false /\ (code c =? 45) = false.
Proof. intros (d & Hd & ->). rewrite code_digit_char by done. split; apply Z.eqb_neq; lia. Qed.

(** A digit string is read by the decimal grammar: a digit after a
    leading zero is never a radix letter. *)
Lemma parse_numeric_digits l :
  Forall is_digit_char l -> parse_numeric l = parse_unsigned l.
Proof.
  intros Hl. destruct l as [|c r]; [reflexivity|].
  apply Forall_cons_1 in Hl as [Hc Hr].
  destruct (digit_not_sign c Hc) as [H43 H45].
  assert (Hpd : parse_decimal (c :: r) = parse_unsigned (c :: r)).
  { unfold parse_decimal. by rewrite H43, H45. }
  destruct r as [|c' r']; [exact Hpd|]. unfold parse_numeric.
  apply Forall_cons_1 in Hr as [[d' [Hd' ->]] _].
  rewrite code_digit_char by done.
  destruct (code c =? 48); [|exact Hpd].
  replace ((48 + d' =? 120) || (48 + d' =? 88)) with false by (symmetry; apply orb_false_iff; split; apply Z.eqb_neq; lia).
  replace ((48 + d' =? 111) || (48 + d' =? 79)) with false by (symmetry; apply orb_false_iff; split; apply Z.eqb_neq; lia).
  replace ((48 + d' =? 98) || (48 + d' =? 66)) with false by (symmetry; apply orb_false_iff; split; apply Z.eqb_neq; lia).
  exact Hpd.
Qed.

Lemma digits_no_ws l : Forall is_digit_char l -> Forall (fun c => is_ws c = false) l.
Proof. intros Hl. eapply Forall_impl; [exact Hl | exact is_ws_digit]. Qed.

#[export] Hint Resolve dec_digits_digits digits_no_ws : posts.

(** [Number(String(z)) === z] for every integer [z] of magnitude at
    most [2^53] (beyond it the double nearest to [z] may differ). *)
Lemma string_to_number_int_to_string z :
  Z.abs z <= 2 ^ 53 -> string_to_number (int_to_string z) = NInt z.
Proof.
  intros Hz. unfold string_to_number, int_to_string. rewrite list_ascii_of_string_of_list_ascii.
  destruct z as [|p|p]; [reflexivity| |].
  - pose proof (dec_digits_pos_digits p) as Hd.
    rewrite trim_no_ws by auto with posts.
    pose proof (parse_unsigned_dec_digits p ltac:(lia)) as Hp.
    destruct (dec_digits (decimal_fuel p) (Zpos p) []) as [|c l] eqn:E; [discriminate|].
    rewrite <- E in *. rewrite parse_numeric_digits by done. by rewrite Hp.
  - pose proof (dec_digits_pos_digits p) as Hd.
    rewrite trim_no_ws.
    2:{ constructor; [reflexivity | auto with posts]. }
    pose proof (parse_unsigned_dec_digits p ltac:(lia)) as Hp.
    destruct (dec_digits (decimal_fuel p) (Zpos p) []) as [|c l] eqn:E; [discriminate|].
    assert (Hpd : parse_numeric (ascii_of_nat 45 :: c :: l) = parse_decimal (ascii_of_nat 45 :: c :: l))
      by reflexivity.
    rewrite Hpd. unfold parse_decimal. change (code (ascii_of_nat 45)) with 45.
    cbn [Z.eqb Pos.eqb]. by rewrite Hp.
Qed.

(** [String] is injective on integers: the sign and the digit run read
    the integer back exactly. *)
Lemma int_to_string_inj z1 z2 : int_to_string z1 = int_to_string z2 -> z1 = z2.
Proof.
  pose (rd := fun l : list ascii =>
    match l with
    | c :: r => if code c =? 45 then - (take_digits 10 0 0 r).1.1 else (take_digits 10 0 0 l).1.1
    | [] => 0
    end).
  assert (Hrd : forall z, rd (list_ascii_of_string (int_to_string z)) = z).
  { intros z. unfold int_to_string. rewrite list_ascii_of_string_of_list_ascii.
    destruct z as [|p|p]; [reflexivity| |];
      destruct (take_digits_dec_digits p) as [k Hk]; pose proof (dec_digits_pos_digits p) as Hd.
    - destruct (dec_digits _ _ _) as [|c l] eqn:E; [discriminate|]. unfold rd; cbv beta iota.
      apply Forall_cons_1 in Hd as [Hc _]. rewrite (proj2 (digit_not_sign c Hc)), Hk. reflexivity.
    - unfold rd; cbv beta iota. change (code (ascii_of_nat 45)) with 45. cbn [Z.eqb Pos.eqb]. by rewrite Hk. }
  intros H. by rewrite <- (Hrd z1), H, Hrd.
Qed.

Lemma dec_digits_length f n (acc : list ascii) : (List.length acc <= List.length (dec_digits f n acc))%nat.
Proof.
  revert n acc. induction f as [|f IH]; intros n acc; simpl; [done|].
  destruct (n <? 10); simpl; [lia|]. specialize (IH (n / 10) (digit_char (n mod 10) :: acc)). simpl in IH. lia.
Qed.

Lemma digit_numeric c : is_digit_char c -> numeric_char c.
Proof. intros (d & Hd & ->). left. rewrite code_digit_char by done. lia. Qed.

Lemma dec_digits_pos_nonempty p : dec_digits (decimal_fuel p) (Zpos p) [] <> [].
Proof.
  destruct (decimal_fuel_S p) as [f ->]. simpl.
  pose proof (dec_digits_length f (Zpos p / 10) [digit_char (Zpos p mod 10)]) as Hl.
  destruct (Zpos p <? 10); [done|]. intros E. rewrite E in Hl. simpl in Hl. lia.
Qed.

(** [String(z)] is a non-empty word of digits and minus signs. *)
Lemma int_to_string_numeric z :
  int_to_string z <> EmptyString /\ Forall numeric_char (list_ascii_of_string (int_to_string z)).
Proof.
  unfold int_to_string. rewrite list_ascii_of_string_of_list_ascii.
  assert (Hp : forall p, Forall numeric_char (dec_digits (decimal_fuel p) (Zpos p) [])).
  { intros p. eapply Forall_impl; [apply dec_digits_pos_digits | exact digit_numeric]. }
  destruct z as [|p|p].
  - split; [done|]. constructor; [|constructor]. apply digit_numeric. by exists 0.
  - split; [|apply Hp]. pose proof (dec_digits_pos_nonempty p) as Hn.
    by destruct (dec_digits _ _ _).
  - split; [done|]. constructor; [by right | apply Hp].
Qed.
