(* ===== verification/Schema.v ===== *)
(** * The Prisma data model queried by the controller

    The repository's [schema.prisma] is not among the sources; this file
    rebuilds the part of it the controller depends on, from the spec's
    data model (section 3) and from the field and relation names the
    controller uses:
    - [post]: [published] (lines 21, 61, 83, 112), [authorId] (82, 111),
      [title] and [categories] (103-104), the relations [author],
      [comments], [likes], [image] (24-31, 102-108);
    - [comment], [like] and [image] reach their post through a relation
      named [posts] (lines 145, 179, 186, 194) and their author through
      [author] (150); comments have [childComments] (68, 90);
    - [image] rows carry the fields of multer's [req.file] (line 144).

    Each model is a list of scalar columns and a list of relations.  A
    relation either owns a foreign-key column ([Owned fk]) or is the
    inverse side of another model's foreign key ([InverseMany],
    [InverseOne] for a unique key).  Prisma's default referential action
    on delete is [Restrict] for a required foreign key and [SetNull] for
    an optional one; it is read off the column's nullability. *)

From stdpp Require Import base list strings.
From Stdlib Require Import ZArith String.
From S2P Require Import Prelude JsValue.

Inductive model : Type := MUser | MPost | MComment | MLike | MImage.

#[export] Instance model_eq_dec : EqDecision model.
Proof. solve_decision. Defined.

Definition all_models : list model := [MUser; MPost; MComment; MLike; MImage].

Inductive coltype : Type := TInt | TString | TBool.

Inductive coldefault : Type :=
| NoDefault
| Autoincrement          (** [@default(autoincrement())] *)
| DefaultTo (v : jsval). (** [@default(v)] *)

Record column : Type := mkCol {
  col_name : string;
  col_type : coltype;
  col_nullable : bool;   (** [Type?] *)
  col_unique : bool;     (** [@id] or [@unique] *)
  col_default : coldefault
}.

Inductive relkind : Type :=
| Owned (fk : string)        (** [@relation(fields: [fk], references: [id])] *)
| InverseMany (fk : string)  (** [Target[]], the target owns [fk] *)
| InverseOne (fk : string).  (** [Target?], the target owns a unique [fk] *)

Record relation : Type := mkRel {
  rel_name : string;
  rel_target : model;
  rel_kind : relkind
}.

Local Open Scope string_scope.

Definition id_col : column := mkCol "id" TInt false true Autoincrement.
Definition req (n : string) (t : coltype) : column := mkCol n t false false NoDefault.
Definition opt (n : string) (t : coltype) : column := mkCol n t true false NoDefault.

(** Scalar columns, in declaration order. *)
Definition columns (m : model) : list column :=
  match m with
  | MUser => [id_col; opt "name" TString]
  | MPost =>
      [id_col; req "title" TString; opt "content" TString;
       mkCol "published" TBool false false (DefaultTo (JBool false));
       opt "categories" TString; req "authorId" TInt]
  | MComment =>
      [id_col; req "content" TString; req "postId" TInt; req "authorId" TInt;
       opt "parentId" TInt]
  | MLike => [id_col; req "postId" TInt; req "authorId" TInt]
  | MImage =>
      [id_col; opt "fieldname" TString; opt "originalname" TString;
       opt "encoding" TString; opt "mimetype" TString; opt "destination" TString;
       opt "filename" TString; opt "path" TString; opt "size" TInt;
       mkCol "postId" TInt false true NoDefault; req "authorId" TInt]
  end.

Definition relations (m : model) : list relation :=
  match m with
  | MUser =>
      [mkRel "posts" MPost (InverseMany "authorId");
       mkRel "comments" MComment (InverseMany "authorId");
       mkRel "likes" MLike (InverseMany "authorId");
       mkRel "images" MImage (InverseMany "authorId")]
  | MPost =>
      [mkRel "author" MUser (Owned "authorId");
       mkRel "comments" MComment (InverseMany "postId");
       mkRel "likes" MLike (InverseMany "postId");
       mkRel "image" MImage (InverseOne "postId")]
  | MComment =>
      [mkRel "posts" MPost (Owned "postId");
       mkRel "author" MUser (Owned "authorId");
       mkRel "parent" MComment (Owned "parentId");
       mkRel "childComments" MComment (InverseMany "parentId")]
  | MLike =>
      [mkRel "posts" MPost (Owned "postId");
       mkRel "author" MUser (Owned "authorId")]
  | MImage =>
      [mkRel "posts" MPost (Owned "postId");
       mkRel "author" MUser (Owned "authorId")]
  end.

Definition find_column (m : model) (f : string) : option column :=
  List.find (fun c => String.eqb (col_name c) f) (columns m).

Definition find_relation (m : model) (f : string) : option relation :=
  List.find (fun r => String.eqb (rel_name r) f) (relations m).

(** Foreign keys a model owns, with the model they point to. *)
Definition owned_fks (m : model) : list (string * model) :=
  omap (fun r => match rel_kind r with
                 | Owned fk => Some (fk, rel_target r)
                 | _ => None
                 end) (relations m).

(** A foreign-key column is optional exactly when its column is. *)
Definition fk_nullable (m : model) (fk : string) : bool :=
  match find_column m fk with
  | Some c => col_nullable c
  | None => false
  end.

Definition is_fk_column (m : model) (f : string) : bool :=
  existsb (fun p => String.eqb p.1 f) (owned_fks m).

(** A column filled by [@default(autoincrement())]. *)
Definition is_autoincrement (m : model) (f : string) : bool :=
  match find_column m f with
  | Some c => match col_default c with Autoincrement => true | _ => false end
  | None => false
  end.

(** ** Facts about the schema *)

Lemma all_models_complete m : In m all_models.
Proof. destruct m; simpl; tauto. Qed.

Lemma find_column_spec m f c : find_column m f = Some c -> col_name c = f /\ In c (columns m).
Proof.
  unfold find_column. intros H. pose proof (find_some _ _ H) as [Hin Heq].
  apply String.eqb_eq in Heq. auto.
Qed.

(** Every model has the autoincremented [id] column first. *)
Lemma columns_head_id m : exists cs, columns m = id_col :: cs.
Proof. destruct m; eexists; reflexivity. Qed.

Lemma find_column_id m : find_column m "id" = Some id_col.
Proof. destruct m; reflexivity. Qed.

Lemma owned_fks_columns m fk tgt :
  In (fk, tgt) (owned_fks m) -> exists c, find_column m fk = Some c /\ col_type c = TInt.
Proof.
  destruct m; cbn; intros H; repeat destruct H as [H|H]; simplify_eq;
    try contradiction; eexists; split; reflexivity.
Qed.

Lemma owned_fks_not_id m fk tgt : In (fk, tgt) (owned_fks m) -> fk <> "id".
Proof.
  destruct m; cbn; intros H; repeat destruct H as [H|H]; simplify_eq; try contradiction; discriminate.
Qed.

Lemma columns_nodup m : NoDup (map col_name (columns m)).
Proof. destruct m; apply NoDup_ListNoDup; vm_compute; repeat constructor; cbn; intuition discriminate. Qed.

Lemma owned_fks_nodup m : NoDup (map fst (owned_fks m)).
Proof. destruct m; apply NoDup_ListNoDup; vm_compute; repeat constructor; cbn; intuition discriminate. Qed.

Lemma find_relation_spec m k rel : find_relation m k = Some rel -> rel_name rel = k /\ In rel (relations m).
Proof.
  unfold find_relation. intros H. pose proof (find_some _ _ H) as [Hin Heq].
  apply String.eqb_eq in Heq. auto.
Qed.

(** Each foreign key is owned by one relation of its model. *)
Lemma owned_relation_unique m k1 k2 r1 r2 fk :
  find_relation m k1 = Some r1 -> find_relation m k2 = Some r2 ->
  rel_kind r1 = Owned fk -> rel_kind r2 = Owned fk -> k1 = k2.
Proof.
  intros H1 H2 K1 K2.
  apply find_relation_spec in H1 as [<- I1]. apply find_relation_spec in H2 as [<- I2].
  destruct m; cbn in I1, I2;
    repeat destruct I1 as [<-|I1]; repeat destruct I2 as [<-|I2];
    try contradiction; cbn in *; congruence.
Qed.

Lemma find_relation_owned m k rel fk :
  find_relation m k = Some rel -> rel_kind rel = Owned fk -> In (fk, rel_target rel) (owned_fks m).
Proof.
  intros H K. apply find_relation_spec in H as [_ I]. unfold owned_fks.
  apply list_elem_of_In, list_elem_of_omap. exists rel. split; [by apply list_elem_of_In|].
  by rewrite K.
Qed.

Lemma is_fk_column_owned m fk tgt : In (fk, tgt) (owned_fks m) -> is_fk_column m fk = true.
Proof.
  intros H. unfold is_fk_column. apply existsb_exists. exists (fk, tgt).
  split; [done|]. apply String.eqb_refl.
Qed.

