(* ===== verification/Store.v ===== *)
(** * The Prisma client over an explicit database state

    The controller's [db] (imported from [../utils/generatePrisma.js]) is
    a Prisma client.  Its behaviour is modelled here on an explicit
    state: one table per model of [Schema], a [gmap] from ids to rows
    with the next value of the autoincrement sequence.  Every query is a
    computation in [ST db perr]: Prisma's argument validation first
    (types, the 32-bit range of [Int], unknown fields, the checked and
    unchecked input types), then the database's constraints (foreign
    keys with the default referential actions, unique keys), then the
    change of state.

    - [find_many], [find_unique]: [where] filters ([cond]) and the
      [include]/[select] trees ([shape]) rendered by [render];
    - [create_row], [update_row]: the [INSERT] and [UPDATE] statements
      of [create] and [update] (which [Nested] completes with the nested
      writes and a transaction), after validating the data object a
      handler builds from the request body: [connect] on owned
      relations (the other owned writes of an update are run before,
      by [Owned.owned_writes], and leave a [connect] or nothing),
      nested writes on inverse relations ([classify_nested],
      [nested_entry]: each operation of Prisma 4's nested input types,
      its argument validated against the operation's input type),
      and, in an update, the operations [set], [increment],
      [decrement], [multiply], [divide]; an update that sets the [id]
      moves the row and cascades to the foreign keys pointing at it
      ([move_row]);
    - [delete], [delete_many]: removal with [Restrict] and [SetNull];
    - [next_id]: the sequence, which fails past [MAXVALUE].

    The well-formedness invariant [db_wf] says that every row sits under
    its own id and that every foreign key resolves; every statement
    and the [rollback] of a transaction preserve it, and
    [store_invariant] packages that promise for the handlers. *)

From stdpp Require Import base list strings gmap.
From Stdlib Require Import ZArith String Ascii.
From S2P Require Import Prelude JsValue Schema.

Definition row : Type := list (string * jsval).

Record table : Type := mkTable {
  t_rows : gmap Z row;
  t_next : Z     (** next value of the autoincrement sequence *)
}.

Record db : Type := mkDb {
  db_users : table;
  db_posts : table;
  db_comments : table;
  db_likes : table;
  db_images : table
}.

Definition tbl (m : model) (d : db) : table :=
  match m with
  | MUser => db_users d
  | MPost => db_posts d
  | MComment => db_comments d
  | MLike => db_likes d
  | MImage => db_images d
  end.

Definition set_tbl (m : model) (t : table) (d : db) : db :=
  match m with
  | MUser => mkDb t (db_posts d) (db_comments d) (db_likes d) (db_images d)
  | MPost => mkDb (db_users d) t (db_comments d) (db_likes d) (db_images d)
  | MComment => mkDb (db_users d) (db_posts d) t (db_likes d) (db_images d)
  | MLike => mkDb (db_users d) (db_posts d) (db_comments d) t (db_images d)
  | MImage => mkDb (db_users d) (db_posts d) (db_comments d) (db_likes d) t
  end.

Definition rows_of (m : model) (d : db) : gmap Z row := t_rows (tbl m d).

(** A statement that changes every table. *)
Definition map_db (f : model -> table -> table) (d : db) : db :=
  mkDb (f MUser (db_users d)) (f MPost (db_posts d)) (f MComment (db_comments d))
       (f MLike (db_likes d)) (f MImage (db_images d)).

(** Errors of the Prisma client: [PrismaClientValidationError], the known
    request errors P2025 (record not found), P2002 (unique constraint),
    P2003 (foreign key constraint), P2014 (a nested write that would
    leave a row without the row its required relation points to), errors
    the database raises that Prisma passes on unclassified
    ([PrismaClientUnknownRequestError]), and inputs outside the modelled
    fragment of Prisma's API. *)
Inductive perr : Type :=
| EValidation (why : string)
| ENotFound
| EUnique
| EForeignKey
| ERequiredRelation
| EDatabase (what : string)
| EUnsupported (what : string).

Local Open Scope string_scope.

(** ** Argument validation *)

Definition int32_ok (z : Z) : bool := ((-2147483648 <=? z) && (z <=? 2147483647))%Z.

(** A value given for a column, in [data] or in [where]. *)
Definition check_value (c : column) (v : jsval) : res perr jsval :=
  match v, col_type c with
  | JNull, _ => if col_nullable c then Ok JNull else Err (EValidation "null for a required field")
  | JNum (NInt z), TInt => if int32_ok z then Ok v else Err (EValidation "Int out of 32-bit range")
  | JStr _, TString => Ok v
  | JBool _, TBool => Ok v
  | JObj _, _ => Err (EUnsupported "filter or update operator object")
  | _, _ => Err (EValidation "argument of the wrong type")
  end.

(** The operators of Prisma's scalar filters ([IntFilter],
    [StringFilter], [BoolFilter] and their nullable variants) in a
    [where]: [{field: {op: v, ...}}]. *)
Inductive filter_op : Type :=
| FEquals | FNot | FIn | FNotIn | FLt | FLte | FGt | FGte
| FContains | FStartsWith | FEndsWith.

(** [where] filters: equality on a scalar field, a filter on the row an
    owned relation points to ([{posts: {id: n}}]), an operator of a
    scalar filter, and the combinators [OR] (a disjunction of
    conjunctions) and [NOT] (the negation of a conjunction); a list of
    conditions is their conjunction, as [AND] is. *)
Local Set Warnings "-register-all".
Inductive cond : Type :=
| CEq (field : string) (v : jsval)
| CRel (rel : string) (sub : list cond)
| COp (field : string) (op : filter_op) (v : jsval)
| COr (alts : list (list cond))
| CNot (sub : list cond).

Definition filter_op_of (k : string) : option filter_op :=
  match k with
  | "equals" => Some FEquals | "not" => Some FNot | "in" => Some FIn | "notIn" => Some FNotIn
  | "lt" => Some FLt | "lte" => Some FLte | "gt" => Some FGt | "gte" => Some FGte
  | "contains" => Some FContains | "startsWith" => Some FStartsWith | "endsWith" => Some FEndsWith
  | _ => None
  end.

(** The values of [in] and [notIn]: a list, or one value. *)
Definition in_list (v : jsval) : list jsval := match v with JArr vs => vs | _ => [v] end.

Definition is_null (v : jsval) : bool := match v with JNull => true | _ => false end.

(** The characters [LIKE] reads as wildcards or escape. *)
Definition has_wildcard (s : string) : bool :=
  existsb (fun c => (code c =? 37) || (code c =? 95) || (code c =? 92))%Z (list_ascii_of_string s).

Fixpoint is_prefix (p s : list ascii) : bool :=
  match p, s with
  | [], _ => true
  | a :: p', b :: s' => Ascii.eqb a b && is_prefix p' s'
  | _ :: _, [] => false
  end.

Fixpoint is_infix (p s : list ascii) : bool :=
  is_prefix p s || match s with [] => false | _ :: s' => is_infix p s' end.

Definition is_suffix (p s : list ascii) : bool := is_prefix (rev p) (rev s).

Definition owned_target (m : model) (rn : string) : option (string * model) :=
  match find_relation m rn with
  | Some r => match rel_kind r with Owned fk => Some (fk, rel_target r) | _ => None end
  | None => None
  end.

(** The operand of a scalar filter's operator on the column [c]: a
    value of the column's type for [equals] and [not] ([null] on an
    optional column), a list of non-null values for [in] and [notIn],
    an [Int] for the comparisons, a string for the [LIKE] operators.
    Comparing strings follows the database's collation, and a pattern
    with [%], [_] or a backslash depends on how [LIKE] escapes them:
    both are outside this model. *)
Definition check_op (c : column) (op : filter_op) (v : jsval) : res perr unit :=
  match v with
  | JUndefined => Ok tt
  | _ =>
      match op with
      | FEquals | FNot => _ <-? check_value c v ;; Ok tt
      | FIn | FNotIn =>
          match col_type c with
          | TBool => Err (EValidation "unknown filter operator")
          | _ => _ <-? res_map_list (fun x => match x with
                                             | JNull => Err (EValidation "null in a list filter")
                                             | _ => check_value c x
                                             end) (in_list v) ;; Ok tt
          end
      | FLt | FLte | FGt | FGte =>
          match col_type c with
          | TInt => _ <-? check_value c v ;; if is_null v then Err (EValidation "null in a comparison") else Ok tt
          | TString => Err (EUnsupported "string comparison under the database collation")
          | TBool => Err (EValidation "unknown filter operator")
          end
      | FContains | FStartsWith | FEndsWith =>
          match col_type c, v with
          | TString, JStr t => if has_wildcard t then Err (EUnsupported "LIKE wildcard in a pattern") else Ok tt
          | TString, _ => Err (EValidation "argument of the wrong type")
          | _, _ => Err (EValidation "unknown filter operator")
          end
      end
  end.

(** An [undefined] value drops the filter, as Prisma ignores it. *)
Fixpoint check_cond (m : model) (c : cond) : res perr unit :=
  match c with
  | CEq f v =>
      match find_column m f, v with
      | Some _, JUndefined => Ok tt
      | Some col, _ => res_bind (check_value col v) (fun _ => Ok tt)
      | None, _ => Err (EValidation "unknown argument in where")
      end
  | COp f op v =>
      match find_column m f with
      | Some col => check_op col op v
      | None => Err (EValidation "unknown argument in where")
      end
  | COr alts => _ <-? res_map_list (fun w => res_map_list (check_cond m) w) alts ;; Ok tt
  | CNot sub => _ <-? res_map_list (check_cond m) sub ;; Ok tt
  | CRel rn sub =>
      match owned_target m rn with
      | Some (_, tgt) =>
          (fix go (l : list cond) : res perr unit :=
             match l with
             | [] => Ok tt
             | c' :: l' => res_bind (check_cond tgt c') (fun _ => go l')
             end) sub
      | None => Err (EUnsupported "relation filter")
      end
  end.

Fixpoint check_conds (m : model) (cs : list cond) : res perr unit :=
  match cs with
  | [] => Ok tt
  | c :: cs' => res_bind (check_cond m c) (fun _ => check_conds m cs')
  end.

(** ** Evaluation of filters *)

Definition fk_target (r : row) (fk : string) : option Z :=
  match alist_get fk r with
  | Some (JNum (NInt k)) => Some k
  | _ => None
  end.

Definition row_id (r : row) : option Z := fk_target r "id".

(** SQL's three truth values: [None] is [UNKNOWN], what a comparison
    with [NULL] gives; a row is selected when its filter is [TRUE]. *)
Definition tv_and (a b : option bool) : option bool :=
  match a, b with
  | Some false, _ | _, Some false => Some false
  | Some true, Some true => Some true
  | _, _ => None
  end.

Definition tv_or (a b : option bool) : option bool :=
  match a, b with
  | Some true, _ | _, Some true => Some true
  | Some false, Some false => Some false
  | _, _ => None
  end.

Definition tv_all (l : list (option bool)) : option bool := fold_right tv_and (Some true) l.
Definition tv_any (l : list (option bool)) : option bool := fold_right tv_or (Some false) l.
Definition tv_true (a : option bool) : bool := match a with Some true => true | _ => false end.

Definition int_tv (cmp : Z -> Z -> bool) (x v : jsval) : option bool :=
  match x, v with
  | JNull, _ => None
  | JNum (NInt a), JNum (NInt b) => Some (cmp a b)
  | _, _ => Some false
  end.

Definition str_tv (p : list ascii -> list ascii -> bool) (x v : jsval) : option bool :=
  match x, v with
  | JNull, _ => None
  | JStr s, JStr t => Some (p (list_ascii_of_string t) (list_ascii_of_string s))
  | _, _ => Some false
  end.

(** The operator [op] with operand [v] on the stored value [x], as the
    SQL Prisma generates: [= v] or [IS NULL], [<> v] or [IS NOT NULL],
    [IN], [NOT IN] (an empty list is [FALSE], resp. [TRUE]), [<] ...,
    [LIKE]. *)
Definition op_tv (op : filter_op) (x v : jsval) : option bool :=
  match op with
  | FEquals => match v with JNull => Some (is_null x) | _ => if is_null x then None else Some (prim_eqb x v) end
  | FNot => match v with JNull => Some (negb (is_null x)) | _ => if is_null x then None else Some (negb (prim_eqb x v)) end
  | FIn => match in_list v with
           | [] => Some false
           | vs => if is_null x then None else Some (existsb (prim_eqb x) vs)
           end
  | FNotIn => match in_list v with
              | [] => Some true
              | vs => if is_null x then None else Some (negb (existsb (prim_eqb x) vs))
              end
  | FLt => int_tv Z.ltb x v
  | FLte => int_tv Z.leb x v
  | FGt => int_tv (fun a b => Z.ltb b a) x v
  | FGte => int_tv (fun a b => Z.leb b a) x v
  | FContains => str_tv is_infix x v
  | FStartsWith => str_tv is_prefix x v
  | FEndsWith => str_tv is_suffix x v
  end.

Definition field_tv (r : row) (f : string) (op : filter_op) (v : jsval) : option bool :=
  match v with
  | JUndefined => Some true
  | _ => match alist_get f r with Some x => op_tv op x v | None => Some false end
  end.

(** A relation filter selects the rows whose key is among those of the
    target rows the sub-filter selects ([fk IN (SELECT id ...)]); a
    [NULL] key is [UNKNOWN] against a non-empty selection and [FALSE]
    against an empty one. *)
Fixpoint cond_tv (d : db) (m : model) (r : row) (c : cond) {struct c} : option bool :=
  match c with
  | CEq f v => field_tv r f FEquals v
  | COp f op v => field_tv r f op v
  | CRel rn sub =>
      match owned_target m rn with
      | Some (fk, tgt) =>
          match alist_get fk r with
          | Some JNull =>
              if existsb (fun kr => forallb (fun c' => tv_true (cond_tv d tgt kr.2 c')) sub) (map_to_list (rows_of tgt d))
              then None else Some false
          | _ =>
              match fk_target r fk with
              | Some k =>
                  match rows_of tgt d !! k with
                  | Some r' => Some (forallb (fun c' => tv_true (cond_tv d tgt r' c')) sub)
                  | None => Some false
                  end
              | None => Some false
              end
          end
      | None => Some false
      end
  | COr alts => tv_any (map (fun w => tv_all (map (cond_tv d m r) w)) alts)
  | CNot sub => option_map negb (tv_all (map (cond_tv d m r) sub))
  end.

Definition cond_holds (d : db) (m : model) (r : row) (c : cond) : bool := tv_true (cond_tv d m r c).

Definition matches (d : db) (m : model) (cs : list cond) (r : row) : bool :=
  forallb (cond_holds d m r) cs.

Definition select_rows (d : db) (m : model) (cs : list cond) : list (Z * row) :=
  List.filter (fun kr => matches d m cs kr.2) (map_to_list (rows_of m d)).

(** ** Rendering with [include] and [select] *)

(** [Incl rels]: every scalar column, then the listed relations;
    [Sel fs]: only the listed fields.  A relation given as [true] is
    [Incl []]. *)
Inductive shape : Type :=
| Incl (rels : list (string * shape))
| Sel (fields : list (string * shape)).

Definition all_scalars : shape := Incl [].

(** Rows of [tgt] whose foreign key [fk] is [k]. *)
Definition back_rows (d : db) (tgt : model) (fk : string) (k : Z) : list row :=
  map snd (List.filter (fun kr => bool_decide (fk_target kr.2 fk = Some k))
                       (map_to_list (rows_of tgt d))).

Fixpoint render (d : db) (m : model) (sh : shape) (r : row) {struct sh} : jsval :=
  let fix fields (fs : list (string * shape)) : list (string * jsval) :=
    match fs with
    | [] => []
    | (f, sub) :: fs' =>
        let v :=
          match find_relation m f with
          | Some rel =>
              let tgt := rel_target rel in
              match rel_kind rel with
              | Owned fk =>
                  match fk_target r fk with
                  | Some k =>
                      match rows_of tgt d !! k with
                      | Some r' => render d tgt sub r'
                      | None => JNull
                      end
                  | None => JNull
                  end
              | InverseMany fk =>
                  match row_id r with
                  | Some k => JArr (map (render d tgt sub) (back_rows d tgt fk k))
                  | None => JArr []
                  end
              | InverseOne fk =>
                  match row_id r with
                  | Some k =>
                      match back_rows d tgt fk k with
                      | r' :: _ => render d tgt sub r'
                      | [] => JNull
                      end
                  | None => JNull
                  end
              end
          | None => default JUndefined (alist_get f r)
          end in
        (f, v) :: fields fs'
    end in
  match sh with
  | Incl rels => JObj (r ++ fields rels)
  | Sel fs => JObj (fields fs)
  end.

(** ** Reads *)

(** [db.m.findMany({where, include|select})]. *)
Definition find_many (m : model) (w : list cond) (sh : shape) : ST db perr jsval :=
  _ <- st_lift (check_conds m w) ;;
  d <- st_get ;;
  st_ret (JArr (map (fun kr => render d m sh kr.2) (select_rows d m w))).

(** [findUnique] needs a unique field among the filters. *)
Definition unique_where (m : model) (w : list cond) : bool :=
  existsb (fun c => match c with
                    | CEq f JUndefined => false
                    | CEq f _ => match find_column m f with Some col => col_unique col | None => false end
                    | _ => false
                    end) w.

(** [db.m.findUnique({where, include|select})]: the matching row or
    [null]. *)
Definition find_unique (m : model) (w : list cond) (sh : shape) : ST db perr jsval :=
  _ <- st_lift (check_conds m w) ;;
  if unique_where m w then
    d <- st_get ;;
    st_ret (match select_rows d m w with
            | kr :: _ => render d m sh kr.2
            | [] => JNull
            end)
  else st_throw (EValidation "findUnique needs a unique field").

(** ** Data objects of [create] and [update] *)

(** The arithmetic operations of Prisma's [IntFieldUpdateOperationsInput]. *)
Inductive arith_op : Type := OpIncrement | OpDecrement | OpMultiply | OpDivide.

(** A nested write on a relation whose foreign key the other model
    holds (the [comments], [likes] and [image] of a post), each one
    operation of Prisma's [...CreateNestedManyWithoutPostsInput],
    [...UpdateManyWithoutPostsNestedInput] and their to-one variants, on
    the children of this row:
    - [NCreate]: insert children (their [data] objects, without the link
      to the parent); [NCreateMany]: insert them with one [INSERT],
      skipping those whose unique values are taken when
      [skipDuplicates] is set;
    - [NConnect]: set the foreign key of existing rows, by id;
      [NConnectOrCreate]: connect the row with id [z] if it exists, else
      create the child [c];
    - in an update: [NUpdate] the child matching [w] (a to-one relation
      has at most one child, [w] is then empty), [NUpdateMany] every
      child matching the filter [w], [NUpsert] update the child matching
      [w] or else create one, [NSet] make the children exactly the rows
      [ids], [NDisconnect] unlink the children matching [w], and
      [NDeleteMany] or [NDelete] delete them. *)
Inductive nested_op : Type :=
| NCreate (children : list (list (string * jsval)))
| NCreateMany (children : list (list (string * jsval))) (skip_duplicates : bool)
| NConnect (ids : list Z)
| NConnectOrCreate (z : Z) (child : list (string * jsval))
| NUpdate (w : list cond) (data : list (string * jsval))
| NUpdateMany (w : list cond) (data : list (string * jsval))
| NUpsert (w : list cond) (create update : list (string * jsval))
| NSet (ids : list Z)
| NDisconnect (w : list cond)
| NDeleteMany (w : list cond)
| NDelete (w : list cond).

(** What one entry of a [data] object asks for: a scalar column's value,
    a [connect] of an owned relation, which sets its foreign key, (in
    an update) arithmetic on an [Int] column, or the nested writes on
    an inverse relation [rel] whose rows, of model [tgt], point at this
    one through [fk]. *)
Inductive assignment : Type :=
| AScalar (col : string) (v : jsval)
| AConnect (fk : string) (tgt : model) (id : Z)
| AArith (col : string) (op : arith_op) (n : Z)
| ANested (rel : string) (tgt : model) (fk : string) (ops : list nested_op).

(** [create] and [update] take different input types. *)
Inductive write_mode : Type := ForCreate | ForUpdate.

(** [{connect: {id: v}}]. *)
Definition connect_arg (v : jsval) : option jsval :=
  match v with
  | JObj [("connect", JObj [("id", x)])] => Some x
  | _ => None
  end.

Definition arith_of (name : string) : option arith_op :=
  if String.eqb name "increment" then Some OpIncrement
  else if String.eqb name "decrement" then Some OpDecrement
  else if String.eqb name "multiply" then Some OpMultiply
  else if String.eqb name "divide" then Some OpDivide
  else None.

(** An update operation object on column [col]: exactly one field,
    [set] with a value of the column, or an arithmetic operation with an
    [Int] operand on an [Int] column. *)
Definition classify_update_op (k : string) (col : column) (o : list (string * jsval)) : res perr assignment :=
  match o with
  | [(name, x)] =>
      if String.eqb name "set" then res_bind (check_value col x) (fun x' => Ok (AScalar k x')) else
      match arith_of name, col_type col, x with
      | Some op, TInt, JNum (NInt n) =>
          if int32_ok n then Ok (AArith k op n) else Err (EValidation "Int out of 32-bit range")
      | _, _, _ => Err (EValidation "unknown update operation")
      end
  | _ => Err (EValidation "an update operation needs exactly one field")
  end.

(** One entry, without nested writes on inverse relations (the entries
    of a nested create, which this model does not nest further). *)
Definition classify_flat (m : model) (md : write_mode) (k : string) (v : jsval) : res perr assignment :=
  match find_column m k with
  | Some col =>
      match md, v with
      | ForUpdate, JObj o => classify_update_op k col o
      | ForCreate, JObj _ => Err (EValidation "an object for a scalar field")
      | _, _ => res_bind (check_value col v) (fun v' => Ok (AScalar k v'))
      end
  | None =>
      match find_relation m k with
      | Some rel =>
          match rel_kind rel, connect_arg v with
          | Owned fk, Some (JNum (NInt z)) =>
              if int32_ok z then Ok (AConnect fk (rel_target rel) z)
              else Err (EValidation "Int out of 32-bit range")
          | Owned _, Some _ => Err (EValidation "connect id of the wrong type")
          | _, _ => Err (EUnsupported "nested write")
          end
      | None => Err (EValidation "unknown argument in data")
      end
  end.

(** Entries whose value is [undefined] are left out, as Prisma does. *)
Fixpoint assignments_by (cl : string -> jsval -> res perr assignment) (o : list (string * jsval))
  : res perr (list assignment) :=
  match o with
  | [] => Ok []
  | (k, JUndefined) :: o' => assignments_by cl o'
  | (k, v) :: o' =>
      a <-? cl k v ;;
      rest <-? assignments_by cl o' ;;
      Ok (a :: rest)
  end.

Definition data_entries (data : jsval) : res perr (list (string * jsval)) :=
  match data with
  | JObj o => Ok o
  | _ => Err (EValidation "data must be an object")
  end.

Definition is_connect (a : assignment) : bool :=
  match a with AConnect _ _ _ => true | _ => false end.

(** Prisma's two input types for [data]: with a relation written
    through [connect], the "checked" type, which has neither the
    foreign-key scalars nor the autoincremented [id]; without one, the
    "unchecked" type, which has both. *)
Definition checked_excluded (m : model) (c : string) : bool :=
  is_fk_column m c || is_autoincrement m c.

Definition assignment_col (a : assignment) : string :=
  match a with AScalar c _ => c | AConnect fk _ _ => fk | AArith c _ _ => c | ANested rel _ _ _ => rel end.

Definition check_mode (m : model) (asg : list assignment) : res perr unit :=
  if existsb is_connect asg
     && existsb (fun a => negb (is_connect a) && checked_excluded m (assignment_col a)) asg
  then Err (EValidation "field not in the checked input type beside a relation write")
  else Ok tt.

(** The value an assignment of a [create] writes; an arithmetic
    operation is an update's and never in a create. *)
Definition assignment_value (a : assignment) : jsval :=
  match a with
  | AScalar _ v => v
  | AConnect _ _ z => JNum (NInt z)
  | AArith _ _ _ | ANested _ _ _ _ => JUndefined
  end.

Definition is_arith (a : assignment) : bool :=
  match a with AArith _ _ _ => true | _ => false end.

Definition is_nested (a : assignment) : bool :=
  match a with ANested _ _ _ _ => true | _ => false end.

(** The value the first assignment of column [c] gives. *)
Definition assigned (asg : list assignment) (c : string) : option jsval :=
  List.fold_right (fun a acc =>
    if String.eqb (assignment_col a) c then Some (assignment_value a) else acc) None asg.

(** The new row, column by column: the given value, else the default,
    else [null] for an optional column; a missing required column is a
    validation error.  The autoincremented id is filled in later. *)
Definition column_value (asg : list assignment) (c : column) : res perr jsval :=
  match assigned asg (col_name c) with
  | Some v => Ok v
  | None =>
      match col_default c with
      | Autoincrement => Ok JUndefined
      | DefaultTo v => Ok v
      | NoDefault =>
          if col_nullable c then Ok JNull else Err (EValidation "missing required argument")
      end
  end.

Fixpoint build_row (asg : list assignment) (cs : list column) : res perr row :=
  match cs with
  | [] => Ok []
  | c :: cs' =>
      v <-? column_value asg c ;;
      r <-? build_row asg cs' ;;
      Ok ((col_name c, v) :: r)
  end.

(** ** Nested writes *)

(** The inverse relation [k] of [m]: the model that holds the foreign
    key, the key, and whether it is a to-many relation. *)
Definition inverse_rel (m : model) (k : string) : option (model * string * bool) :=
  match find_column m k with
  | Some _ => None
  | None =>
      match find_relation m k with
      | Some rel =>
          match rel_kind rel with
          | InverseMany fk => Some (rel_target rel, fk, true)
          | InverseOne fk => Some (rel_target rel, fk, false)
          | Owned _ => None
          end
      | None => None
      end
  end.

(** The relation of [tgt] that owns the foreign key [fk]. *)
Definition back_rel (tgt : model) (fk : string) : option string :=
  option_map rel_name
    (List.find (fun r => match rel_kind r with Owned f => String.eqb f fk | _ => false end) (relations tgt)).

Definition is_back_field (tgt : model) (fk k : string) : bool :=
  String.eqb k fk || bool_decide (back_rel tgt fk = Some k).

(** The columns of a child that its parent does not fill in. *)
Definition child_columns (tgt : model) (fk : string) : list column :=
  List.filter (fun c => negb (String.eqb (col_name c) fk)) (columns tgt).

Definition is_undef (v : jsval) : bool := match v with JUndefined => true | _ => false end.

(** A child of a nested create, validated before anything is written:
    Prisma's [...CreateWithoutPostInput] (and its unchecked variant) has
    neither the link to the parent nor its key; the other entries are
    those of a [create], and every other required column is given. *)
Definition child_ok (tgt : model) (fk : string) (c : list (string * jsval)) : res perr unit :=
  if existsb (fun '(k, x) => negb (is_undef x) && is_back_field tgt fk k) c
  then Err (EValidation "unknown argument in a nested create") else
  asg <-? assignments_by (classify_flat tgt ForCreate) c ;;
  _ <-? check_mode tgt asg ;;
  _ <-? build_row asg (child_columns tgt fk) ;;
  Ok tt.

(** [{id: z}], the unique selector of a nested write. *)
Definition id_selector (x : jsval) : res perr Z :=
  match x with
  | JObj [("id", JNum (NInt z))] => if int32_ok z then Ok z else Err (EValidation "Int out of 32-bit range")
  | JObj [("id", _)] => Err (EValidation "id of the wrong type")
  | _ => Err (EUnsupported "selector other than {id}")
  end.

Definition id_cond (z : Z) : cond := CEq "id" (JNum (NInt z)).

Definition child_object (x : jsval) : res perr (list (string * jsval)) :=
  match x with
  | JObj c => Ok c
  | _ => Err (EValidation "a nested create needs an object")
  end.

(** One object or, on a to-many relation, a list of them. *)
Definition one_or_many (many : bool) (x : jsval) : list jsval :=
  match x with
  | JArr xs => if many then xs else [x]
  | _ => [x]
  end.

(** An entry of a child that the unchecked input types of [createMany]
    and [updateMany] do not have: the key to the parent, or anything
    but a column. *)
Definition foreign_entry (tgt : model) (fk : string) (c : list (string * jsval)) : bool :=
  existsb (fun '(k, x) => negb (is_undef x) && (String.eqb k fk || bool_decide (find_column tgt k = None))) c.

(** A child of [createMany] ([...CreateManyPostsInput]): scalars only. *)
Definition child_many_ok (tgt : model) (fk : string) (c : list (string * jsval)) : res perr unit :=
  if foreign_entry tgt fk c then Err (EValidation "unknown argument in createMany") else child_ok tgt fk c.

(** The [data] of a nested update ([...UpdateWithoutPostsInput] and its
    unchecked variant): an update's [data] without the link to the
    parent. *)
Definition child_update_ok (tgt : model) (fk : string) (c : list (string * jsval)) : res perr unit :=
  if existsb (fun '(k, x) => negb (is_undef x) && is_back_field tgt fk k) c
  then Err (EValidation "unknown argument in a nested update") else
  asg <-? assignments_by (classify_flat tgt ForUpdate) c ;;
  check_mode tgt asg.

(** The [data] of a nested [updateMany]: scalars only. *)
Definition update_many_ok (tgt : model) (fk : string) (c : list (string * jsval)) : res perr unit :=
  if foreign_entry tgt fk c then Err (EValidation "unknown argument in updateMany") else child_update_ok tgt fk c.

(** A [where] filter of [deleteMany] or [updateMany]: equality on the
    fields of the object. *)
(** The scalar filter object given for the column [f]: each operator
    ([not] also takes a nested filter, which it negates); a plain value
    is an equality.  [mode] (case-insensitive matching) and [search]
    (full-text search) are outside this model. *)
Fixpoint field_conds (f : string) (v : jsval) {struct v} : res perr (list cond) :=
  match v with
  | JObj o =>
      (fix ops (o : list (string * jsval)) : res perr (list cond) :=
         match o with
         | [] => Ok []
         | (k, a) :: o' =>
             c <-? (match a with
                    | JUndefined => Ok []
                    | JObj _ => if String.eqb k "not" then w <-? field_conds f a ;; Ok [CNot w]
                                else Err (EValidation "a filter operator needs a value")
                    | _ => match filter_op_of k with
                           | Some op => Ok [COp f op a]
                           | None => if String.eqb k "mode" || String.eqb k "search"
                                     then Err (EUnsupported "filter mode or full-text search")
                                     else Err (EValidation "unknown filter operator")
                           end
                    end) ;;
             rest <-? ops o' ;;
             Ok (c ++ rest)%list
         end) o
  | _ => Ok [CEq f v]
  end.

(** A relation filter on an owned relation: the target's own filter,
    or [{is: filter}]; [isNot], [null] and the filters of inverse
    relations ([some], [every], [none]) are outside this model. *)
Definition rel_filter_arg (x : jsval) : res perr jsval :=
  match x with
  | JObj [("is", sub)] => Ok sub
  | JObj o => if existsb (fun '(k, _) => String.eqb k "is" || String.eqb k "isNot") o
              then Err (EUnsupported "isNot or a mixed relation filter") else Ok x
  | _ => Err (EUnsupported "null relation filter")
  end.

(** A [where] object of the model [m]: [AND] (an object or a list,
    conjoined), [OR] (a list of alternatives), [NOT] (each element
    negated), scalar filters on columns, relation filters on owned
    relations; [undefined] entries are dropped. *)
Fixpoint where_conds (m : model) (x : jsval) {struct x} : res perr (list cond) :=
  match x with
  | JObj o =>
      (fix entries (o : list (string * jsval)) : res perr (list cond) :=
         match o with
         | [] => Ok []
         | (k, v) :: o' =>
             let subs := (fix subs (xs : list jsval) : res perr (list (list cond)) :=
                            match xs with
                            | [] => Ok []
                            | y :: xs' => w <-? where_conds m y ;; ws <-? subs xs' ;; Ok (w :: ws)
                            end) in
             c <-? (match v with
                    | JUndefined => Ok []
                    | _ =>
                        if String.eqb k "AND" then
                          match v with JArr xs => ws <-? subs xs ;; Ok (List.concat ws) | _ => where_conds m v end
                        else if String.eqb k "OR" then
                          match v with JArr xs => ws <-? subs xs ;; Ok [COr ws] | _ => w <-? where_conds m v ;; Ok [COr [w]] end
                        else if String.eqb k "NOT" then
                          match v with JArr xs => ws <-? subs xs ;; Ok (map CNot ws) | _ => w <-? where_conds m v ;; Ok [CNot w] end
                        else match find_column m k, find_relation m k with
                             | Some _, _ => field_conds k v
                             | None, Some rel =>
                                 match rel_kind rel, v with
                                 | Owned _, JObj [("is", sub)] => w <-? where_conds (rel_target rel) sub ;; Ok [CRel k w]
                                 | Owned _, JObj _ =>
                                     _ <-? rel_filter_arg v ;; w <-? where_conds (rel_target rel) v ;; Ok [CRel k w]
                                 | Owned _, _ => Err (EUnsupported "null relation filter")
                                 | _, _ => Err (EUnsupported "filter on a to-many or back relation")
                                 end
                             | None, None => Err (EValidation "unknown argument in where")
                             end
                    end) ;;
             rest <-? entries o' ;;
             Ok (c ++ rest)%list
         end) o
  | _ => Err (EValidation "a filter needs an object")
  end.

(** The filter argument of a nested [updateMany], [deleteMany]: parsed,
    then validated against the target's columns. *)
Definition filter_conds (tgt : model) (x : jsval) : res perr (list cond) :=
  w <-? where_conds tgt x ;; _ <-? check_conds tgt w ;; Ok w.

Definition required (x : jsval) : res perr jsval :=
  if is_undef x then Err (EValidation "missing required argument") else Ok x.

(** The arguments object of a nested write, whose fields are among [ks]. *)
Definition object_with (ks : list string) (x : jsval) : res perr (list (string * jsval)) :=
  match x with
  | JObj o =>
      if existsb (fun '(k, v) => negb (is_undef v) && negb (existsb (String.eqb k) ks)) o
      then Err (EValidation "unknown argument in a nested write") else Ok o
  | _ => Err (EValidation "a nested write needs an object")
  end.

Definition arg_of (o : list (string * jsval)) (k : string) : jsval :=
  match alist_get k o with Some v => v | None => JUndefined end.

Definition arg_id (x : jsval) : res perr Z := x' <-? required x ;; id_selector x'.

Definition arg_obj (x : jsval) : res perr (list (string * jsval)) := x' <-? required x ;; child_object x'.

Definition opt_bool (x : jsval) : res perr bool :=
  match x with
  | JUndefined => Ok false
  | JBool b => Ok b
  | _ => Err (EValidation "a Boolean is needed")
  end.

(** [{data, skipDuplicates}] of [createMany]. *)
Definition create_many_arg (tgt : model) (fk : string) (x : jsval) : res perr nested_op :=
  o <-? object_with ["data"; "skipDuplicates"] x ;;
  dt <-? required (arg_of o "data") ;;
  cs <-? res_map_list child_object (one_or_many true dt) ;;
  _ <-? res_map_list (child_many_ok tgt fk) cs ;;
  skip <-? opt_bool (arg_of o "skipDuplicates") ;;
  Ok (NCreateMany cs skip).

(** [{where: {id}, create}] of [connectOrCreate]. *)
Definition connect_or_create_arg (tgt : model) (fk : string) (x : jsval) : res perr nested_op :=
  o <-? object_with ["where"; "create"] x ;;
  z <-? arg_id (arg_of o "where") ;;
  c <-? arg_obj (arg_of o "create") ;;
  _ <-? child_ok tgt fk c ;;
  Ok (NConnectOrCreate z c).

(** [{where: {id}, data}] of [update] on a to-many relation. *)
Definition update_arg (tgt : model) (fk : string) (x : jsval) : res perr nested_op :=
  o <-? object_with ["where"; "data"] x ;;
  z <-? arg_id (arg_of o "where") ;;
  c <-? arg_obj (arg_of o "data") ;;
  _ <-? child_update_ok tgt fk c ;;
  Ok (NUpdate [id_cond z] c).

(** [{where, data}] of [updateMany]. *)
Definition update_many_arg (tgt : model) (fk : string) (x : jsval) : res perr nested_op :=
  o <-? object_with ["where"; "data"] x ;;
  f <-? required (arg_of o "where") ;;
  w <-? filter_conds tgt f ;;
  c <-? arg_obj (arg_of o "data") ;;
  _ <-? update_many_ok tgt fk c ;;
  Ok (NUpdateMany w c).

(** [{where: {id}, create, update}] of [upsert]; a to-one relation has
    no [where]. *)
Definition upsert_arg (tgt : model) (fk : string) (many : bool) (x : jsval) : res perr nested_op :=
  o <-? object_with (if many then ["where"; "create"; "update"] else ["create"; "update"]) x ;;
  w <-? (if many then z <-? arg_id (arg_of o "where") ;; Ok [id_cond z] else Ok []) ;;
  cc <-? arg_obj (arg_of o "create") ;;
  _ <-? child_ok tgt fk cc ;;
  cu <-? arg_obj (arg_of o "update") ;;
  _ <-? child_update_ok tgt fk cu ;;
  Ok (NUpsert w cc cu).

Definition not_in_input {A} : res perr A := Err (EValidation "argument not in this input type").

(** [disconnect] and [delete]: children by id on a to-many relation, a
    Boolean on a to-one relation. *)
Definition unlink_arg (op : list cond -> nested_op) (many : bool) (x : jsval) : res perr (list nested_op) :=
  if many then
    zs <-? res_map_list id_selector (one_or_many true x) ;;
    Ok (map (fun z => op [id_cond z]) zs)
  else match x with
       | JBool b => Ok (if b then [op []] else [])
       | _ => Err (EValidation "a to-one relation needs a Boolean")
       end.

(** One nested operation [name: x], in Prisma 4's input types: the
    operations of a create, and those only an update has. *)
Definition nested_entry (md : write_mode) (tgt : model) (fk : string) (many : bool)
    (name : string) (x : jsval) : res perr (list nested_op) :=
  let items := one_or_many many x in
  if String.eqb name "create" then
    cs <-? res_map_list child_object items ;;
    _ <-? res_map_list (child_ok tgt fk) cs ;;
    Ok [NCreate cs]
  else if String.eqb name "createMany" then
    if many then op <-? create_many_arg tgt fk x ;; Ok [op] else not_in_input
  else if String.eqb name "connect" then
    ids <-? res_map_list id_selector items ;;
    Ok [NConnect ids]
  else if String.eqb name "connectOrCreate" then
    res_map_list (connect_or_create_arg tgt fk) items
  else match md with
  | ForCreate => not_in_input
  | ForUpdate =>
      if String.eqb name "update" then
        if many then res_map_list (update_arg tgt fk) items
        else c <-? child_object x ;; _ <-? child_update_ok tgt fk c ;; Ok [NUpdate [] c]
      else if String.eqb name "updateMany" then
        if many then res_map_list (update_many_arg tgt fk) items else not_in_input
      else if String.eqb name "upsert" then
        res_map_list (upsert_arg tgt fk many) items
      else if String.eqb name "set" then
        if many then ids <-? res_map_list id_selector items ;; Ok [NSet ids] else not_in_input
      else if String.eqb name "disconnect" then unlink_arg NDisconnect many x
      else if String.eqb name "delete" then unlink_arg NDelete many x
      else if String.eqb name "deleteMany" then
        if many then ws <-? res_map_list (filter_conds tgt) items ;; Ok (map NDeleteMany ws) else not_in_input
      else Err (EValidation "unknown nested write")
  end.

(** The object given for an inverse relation: no operation, or one;
    several operations on one relation are outside this model. *)
Definition classify_nested (md : write_mode) (tgt : model) (fk : string) (many : bool) (v : jsval)
  : res perr (list nested_op) :=
  match v with
  | JObj [] => Ok []
  | JObj [(name, x)] => nested_entry md tgt fk many name x
  | JObj _ => Err (EUnsupported "several nested operations on one relation")
  | _ => Err (EValidation "a relation field needs an object")
  end.

(** One entry of a [data] object. *)
Definition classify (m : model) (md : write_mode) (k : string) (v : jsval) : res perr assignment :=
  match inverse_rel m k with
  | Some (tgt, fk, many) => ops <-? classify_nested md tgt fk many v ;; Ok (ANested k tgt fk ops)
  | None => classify_flat m md k v
  end.

Definition assignments (m : model) (md : write_mode) (o : list (string * jsval)) : res perr (list assignment) :=
  assignments_by (classify m md) o.

(** The validated [data] argument. *)
Definition data_assignments (m : model) (md : write_mode) (data : jsval) : res perr (list assignment) :=
  o <-? data_entries data ;;
  asg <-? assignments m md o ;;
  _ <-? check_mode m asg ;;
  Ok asg.

(** ** Database constraints *)

Definition refs_okb (d : db) (m : model) (r : row) : bool :=
  forallb (fun '(fk, tgt) =>
             match fk_target r fk with
             | Some k => bool_decide (is_Some (rows_of tgt d !! k))
             | None => true
             end) (owned_fks m).

Definition connects_okb (d : db) (asg : list assignment) : bool :=
  forallb (fun a => match a with
                    | AConnect _ tgt k => bool_decide (is_Some (rows_of tgt d !! k))
                    | _ => true
                    end) asg.

(** No other row ([k] apart) holds the value [r] has in a unique
    column. *)
Definition unique_okb (d : db) (m : model) (k : Z) (r : row) : bool :=
  forallb (fun c =>
             if col_unique c then
               match alist_get (col_name c) r with
               | None | Some JNull => true
               | Some v =>
                   forallb (fun kr => bool_decide (kr.1 = k)
                                      || match alist_get (col_name c) kr.2 with
                                         | Some v' => negb (prim_eqb v' v)
                                         | None => true
                                         end)
                           (map_to_list (rows_of m d))
               end
             else true) (columns m).

Definition put_row (m : model) (k : Z) (r : row) : ST db perr unit :=
  d <- st_get ;;
  st_put (set_tbl m (mkTable (<[k := r]> (rows_of m d)) (t_next (tbl m d))) d).

(** The [INSERT] statement: the primary key and the unique columns must
    be free (checked by the indexes, as the row is written) and the
    foreign keys must resolve (checked after the row, by the constraint
    triggers). *)
Definition insert_row (m : model) (k : Z) (r : row) : ST db perr unit :=
  d <- st_get ;;
  if bool_decide (is_Some (rows_of m d !! k)) || negb (unique_okb d m k r) then st_throw EUnique else
  if negb (refs_okb d m r) then st_throw EForeignKey else
  put_row m k r.

(** The [UPDATE] statement of one row. *)
Definition write_row (m : model) (k : Z) (r : row) : ST db perr unit :=
  d <- st_get ;;
  if negb (unique_okb d m k r) then st_throw EUnique else
  if negb (refs_okb d m r) then st_throw EForeignKey else
  put_row m k r.

(** The largest value of a 32-bit [Int], the [MAXVALUE] of the
    sequence of an [Int @default(autoincrement())] column. *)
Definition int32_max : Z := 2147483647.

(** The id of a new row: the one given, or [nextval] of the sequence,
    which advances even when the insert then fails.  A sequence past
    its [MAXVALUE] raises an error and stays where it is. *)
Definition next_id (m : model) (r : row) : ST db perr Z :=
  match row_id r with
  | Some k => st_ret k
  | None =>
      d <- st_get ;;
      let t := tbl m d in
      if (int32_max <? t_next t)%Z then st_throw (EDatabase "nextval: reached maximum value of sequence") else
      _ <- st_put (set_tbl m (mkTable (t_rows t) (t_next t + 1)%Z) d) ;;
      st_ret (t_next t)
  end.

(** The [INSERT] of [db.m.create({data})], after validating the whole
    [data] (its nested writes included, which [Nested] runs next): the
    created row's scalars. *)
Definition create_row (m : model) (data : jsval) : ST db perr jsval :=
  asg <- st_lift (data_assignments m ForCreate data) ;;
  r0 <- st_lift (build_row asg (columns m)) ;;
  d0 <- st_get ;;
  if negb (connects_okb d0 asg) then st_throw ENotFound else
  k <- next_id m r0 ;;
  let r := alist_set "id" (JNum (NInt k)) r0 in
  _ <- insert_row m k r ;;
  st_ret (JObj r).

(** PostgreSQL's [integer] arithmetic: division truncates toward zero
    and fails on zero. *)
Definition arith_eval (op : arith_op) (x n : Z) : res perr Z :=
  match op with
  | OpIncrement => Ok (x + n)
  | OpDecrement => Ok (x - n)
  | OpMultiply => Ok (x * n)
  | OpDivide => if Z.eqb n 0 then Err (EDatabase "division by zero") else Ok (Z.quot x n)
  end.

(** [SET c = c op n]: [NULL] stays [NULL]; a result outside 32 bits is
    an error of the statement. *)
Definition apply_arith (c : string) (op : arith_op) (n : Z) (r : row) : res perr row :=
  match alist_get c r with
  | Some (JNum (NInt x)) =>
      z <-? arith_eval op x n ;;
      if int32_ok z then Ok (alist_set c (JNum (NInt z)) r) else Err (EDatabase "integer out of range")
  | _ => Ok r
  end.

(** Apply the assignments of an update to a row, in order. *)
Fixpoint apply_assignments (asg : list assignment) (r : row) : res perr row :=
  match asg with
  | [] => Ok r
  | AScalar c v :: asg' => apply_assignments asg' (alist_set c v r)
  | AConnect fk _ z :: asg' => apply_assignments asg' (alist_set fk (JNum (NInt z)) r)
  | AArith c op n :: asg' => r' <-? apply_arith c op n r ;; apply_assignments asg' r'
  | ANested _ _ _ _ :: asg' => apply_assignments asg' r
  end.

Definition assigns_id (asg : list assignment) : bool :=
  existsb (fun a => String.eqb (assignment_col a) "id") asg.

(** The foreign key [fk] of [r] points at one of [ks]. *)
Definition points_into (ks : list Z) (r : row) (fk : string) : bool :=
  match fk_target r fk with
  | Some k => bool_decide (k ∈ ks)
  | None => false
  end.

(** [ON UPDATE CASCADE], Prisma's default referential action on
    update: a foreign key of [m'] pointing at row [k] of [m] follows it
    to its new key [k']. *)
Definition cascade_step (m : model) (k k' : Z) (m' : model) (r : row) (p : string * model) : row :=
  let '(fk, tgt) := p in
  if bool_decide (tgt = m) && points_into [k] r fk then alist_set fk (JNum (NInt k')) r else r.

Definition cascade_refs (m : model) (k k' : Z) (m' : model) (r : row) : row :=
  fold_left (cascade_step m k k' m') (owned_fks m') r.

Definition rekey (m : model) (k k' : Z) (m' : model) (t : table) : table :=
  mkTable (cascade_refs m k k' m' <$> t_rows t) (t_next t).

(** The [UPDATE] of a row that also sets its primary key, from [k] to
    [k']: the new key and the unique values must be free among the
    other rows, the rows pointing at [k] follow it in the same
    statement, and the row's own foreign keys must then resolve. *)
Definition move_row (m : model) (k k' : Z) (r : row) : ST db perr unit :=
  d <- st_get ;;
  let d0 := set_tbl m (mkTable (base.delete k (rows_of m d)) (t_next (tbl m d))) d in
  if bool_decide (is_Some (rows_of m d0 !! k')) || negb (unique_okb d0 m k' r) then st_throw EUnique else
  let d1 := map_db (rekey m k k') (set_tbl m (mkTable (<[k' := r]> (rows_of m d0)) (t_next (tbl m d))) d0) in
  if negb (refs_okb d1 m (cascade_refs m k k' m r)) then st_throw EForeignKey else
  st_put d1.

(** The [UPDATE] of [db.m.update({where, data})] (the nested writes of
    [data] are validated here and run next, in [Nested]): the updated row; [P2025] when no row
    matches.  A [data] that sets the [id] (the unchecked input type
    has it) moves the row; its value is then a validated [Int], so the
    last branch is not taken. *)
Definition update_row (m : model) (w : list cond) (data : jsval) : ST db perr jsval :=
  _ <- st_lift (check_conds m w) ;;
  if negb (unique_where m w) then st_throw (EValidation "update needs a unique field") else
  asg <- st_lift (data_assignments m ForUpdate data) ;;
  d <- st_get ;;
  match select_rows d m w with
  | [] => st_throw ENotFound
  | (k, r) :: _ =>
      if negb (connects_okb d asg) then st_throw ENotFound else
      r' <- st_lift (apply_assignments asg r) ;;
      _ <- (if assigns_id asg then
              match row_id r' with
              | Some k' => move_row m k k' r'
              | None => st_throw (EValidation "id must be an Int")
              end
            else write_row m k r') ;;
      st_ret (JObj r')
  end.

(** ** Deletion and referential actions *)

Definition removed (m : model) (ks : list Z) (m' : model) (k : Z) : bool :=
  bool_decide (m' = m) && bool_decide (k ∈ ks).

(** [Restrict]: a row that stays and whose required foreign key points
    at a removed row. *)
Definition restrict_violation (d : db) (m : model) (ks : list Z) : bool :=
  existsb (fun m' =>
    existsb (fun '(fk, tgt) =>
      bool_decide (tgt = m) && negb (fk_nullable m' fk)
      && existsb (fun kr => negb (removed m ks m' kr.1) && points_into ks kr.2 fk)
                 (map_to_list (rows_of m' d)))
      (owned_fks m'))
    all_models.

(** [SetNull]: optional foreign keys pointing at removed rows become
    [null]. *)
Definition null_step (m : model) (ks : list Z) (m' : model) (r : row) (p : string * model) : row :=
  let '(fk, tgt) := p in
  if bool_decide (tgt = m) && fk_nullable m' fk && points_into ks r fk
  then alist_set fk JNull r else r.

Definition null_refs (m : model) (ks : list Z) (m' : model) (r : row) : row :=
  fold_left (null_step m ks m') (owned_fks m') r.

Definition removal (m : model) (ks : list Z) (m' : model) (t : table) : table :=
  mkTable (null_refs m ks m' <$>
             filter (fun kr : Z * row => removed m ks m' kr.1 = false) (t_rows t))
          (t_next t).

(** Remove the rows [ks] of [m], applying the referential actions of
    every foreign key that points at them; the statement fails as a
    whole on a [Restrict] violation. *)
Definition remove_rows (m : model) (ks : list Z) : ST db perr unit :=
  d <- st_get ;;
  if restrict_violation d m ks then st_throw EForeignKey
  else st_put (map_db (removal m ks) d).

(** [db.m.delete({where})]: the deleted row; [P2025] when no row
    matches. *)
Definition delete (m : model) (w : list cond) : ST db perr jsval :=
  _ <- st_lift (check_conds m w) ;;
  if negb (unique_where m w) then st_throw (EValidation "delete needs a unique field") else
  d <- st_get ;;
  match select_rows d m w with
  | [] => st_throw ENotFound
  | (k, r) :: _ =>
      _ <- remove_rows m [k] ;;
      st_ret (JObj r)
  end.

(** [db.m.deleteMany({where})]: [{count}]. *)
Definition delete_many (m : model) (w : list cond) : ST db perr jsval :=
  _ <- st_lift (check_conds m w) ;;
  d <- st_get ;;
  let ks := map fst (select_rows d m w) in
  _ <- remove_rows m ks ;;
  st_ret (JObj [("count", JNum (NInt (Z.of_nat (List.length ks))))]).

(** ** The store invariant and the predicates of the lemmas *)

(** Every foreign key of [r] points at an existing row. *)
Definition refs_ok (d : db) (m : model) (r : row) : Prop :=
  forall fk tgt k, In (fk, tgt) (owned_fks m) -> fk_target r fk = Some k ->
                   is_Some (rows_of tgt d !! k).

(** Well-formed store: each row is stored under its own [id], and its
    foreign keys point at stored rows. *)
Definition db_wf (d : db) : Prop :=
  forall m k r, rows_of m d !! k = Some r -> row_id r = Some k /\ refs_ok d m r.

(** [d'] keeps every row id of [d]. *)
Definition keeps_ids (d d' : db) : Prop :=
  forall m k, is_Some (rows_of m d !! k) -> is_Some (rows_of m d' !! k).

(** A computation that leaves the state as it is. *)
Class st_readonly {S E A} (m : ST S E A) : Prop := readonly : forall s, snd (m s) = s.

(** The rollback of a transaction that started in [d0] and reached
    [d1]: the rows of [d0]; the sequences stay where [d1] left them, as
    [nextval] is never rolled back. *)
Definition rollback (d0 d1 : db) : db :=
  map_db (fun m t => mkTable (t_rows (tbl m d0)) (t_next t)) d1.

(** What the Prisma client promises the controller about an invariant
    of the store: every writing statement keeps it, also when it fails
    (the reads leave the store as it is, [st_readonly]), and so does the
    rollback of a transaction. *)
Class store_invariant (P : db -> Prop) : Prop := {
  inv_create m data :: st_preserves P (create_row m data);
  inv_update m w data :: st_preserves P (update_row m w data);
  inv_delete m w :: st_preserves P (delete m w);
  inv_delete_many m w :: st_preserves P (delete_many m w);
  inv_rollback d0 d1 : P d0 -> P d1 -> P (rollback d0 d1)
}.

Definition is_prim (v : jsval) : bool :=
  match v with JNull | JBool _ | JNum _ | JStr _ => true | _ => false end.



(** A decision procedure for [db_wf], for concrete databases. *)
Definition db_wfb (d : db) : bool :=
  forallb (fun m => forallb (fun kr => bool_decide (row_id kr.2 = Some kr.1) && refs_okb d m kr.2)
                            (map_to_list (rows_of m d))) all_models.

(** No row of [m] has its foreign key [fk] equal to [k]. *)
Definition no_refs_to (d : db) (m : model) (fk : string) (k : Z) : Prop :=
  forall kr r, rows_of m d !! kr = Some r -> fk_target r fk <> Some k.

(** * Lemmas *)

(** ** Tables *)

Lemma tbl_set_tbl_eq m t d : tbl m (set_tbl m t d) = t.
Proof. by destruct m. Qed.

Lemma tbl_set_tbl_ne m m' t d : m <> m' -> tbl m' (set_tbl m t d) = tbl m' d.
Proof. intros Hne. destruct m, m'; done. Qed.

Lemma rows_of_set_tbl m m' t d :
  rows_of m' (set_tbl m t d) = if decide (m = m') then t_rows t else rows_of m' d.
Proof.
  unfold rows_of. case_decide; subst; [by rewrite tbl_set_tbl_eq | by rewrite tbl_set_tbl_ne].
Qed.

Lemma tbl_map_db f m d : tbl m (map_db f d) = f m (tbl m d).
Proof. by destruct m. Qed.

Lemma select_rows_lookup d m w k r :
  In (k, r) (select_rows d m w) -> rows_of m d !! k = Some r /\ matches d m w r = true.
Proof.
  unfold select_rows. intros [Hin Hm]%filter_In. split; [|done].
  apply elem_of_map_to_list. by apply list_elem_of_In.
Qed.

Lemma select_rows_complete d m w k r :
  rows_of m d !! k = Some r -> matches d m w r = true -> In (k, r) (select_rows d m w).
Proof.
  intros Hk Hm. unfold select_rows. apply filter_In. split; [|done].
  apply list_elem_of_In. by apply elem_of_map_to_list.
Qed.

(** ** The invariant *)

Lemma refs_ok_mono d d' m r : keeps_ids d d' -> refs_ok d m r -> refs_ok d' m r.
Proof. intros Hk Hr fk tgt k Hin Ht. apply Hk. exact (Hr fk tgt k Hin Ht). Qed.

Lemma refs_okb_spec d m r : refs_okb d m r = true -> refs_ok d m r.
Proof.
  unfold refs_okb. intros H fk tgt k Hin Ht.
  pose proof (proj1 (forallb_forall _ _) H _ Hin) as Hx. simpl in Hx.
  rewrite Ht in Hx. by apply bool_decide_eq_true in Hx.
Qed.

Lemma wf_keep_rows d m n :
  db_wf d -> db_wf (set_tbl m (mkTable (rows_of m d) n) d).
Proof.
  intros Hwf.
  assert (Hk : keeps_ids d (set_tbl m (mkTable (rows_of m d) n) d)).
  { intros m1 k1. rewrite rows_of_set_tbl. case_decide; subst; simpl; auto. }
  intros m' k r. rewrite rows_of_set_tbl. intros Hr.
  case_decide; subst; destruct (Hwf _ _ _ Hr); eauto using refs_ok_mono.
Qed.

Lemma wf_insert d m k r n :
  db_wf d -> row_id r = Some k -> refs_ok d m r ->
  db_wf (set_tbl m (mkTable (<[k := r]> (rows_of m d)) n) d).
Proof.
  intros Hwf Hid Href.
  assert (Hk : keeps_ids d (set_tbl m (mkTable (<[k := r]> (rows_of m d)) n) d)).
  { intros m1 k1. rewrite rows_of_set_tbl. case_decide; subst; [|done].
    simpl. rewrite lookup_insert. case_decide; done. }
  intros m' k' r'. rewrite rows_of_set_tbl. case_decide; subst.
  - simpl. rewrite lookup_insert. case_decide; subst.
    + intros [= <-]. eauto using refs_ok_mono.
    + intros Hr. destruct (Hwf _ _ _ Hr); eauto using refs_ok_mono.
  - intros Hr. destruct (Hwf _ _ _ Hr); eauto using refs_ok_mono.
Qed.

(** ** Removal *)

Lemma fk_target_set_ne r fk f v : fk <> f -> fk_target (alist_set fk v r) f = fk_target r f.
Proof. intros Hne. unfold fk_target. by rewrite alist_get_set_ne. Qed.

Lemma fk_target_set_null r f : fk_target (alist_set f JNull r) f = None.
Proof. unfold fk_target. by rewrite alist_get_set_eq. Qed.

Lemma null_steps_get_other m ks m' l r f :
  (forall tgt, ~ In (f, tgt) l) ->
  alist_get f (fold_left (null_step m ks m') l r) = alist_get f r.
Proof.
  revert r. induction l as [|[fk tgt] l IH]; intros r Hf; [done|]. simpl.
  rewrite IH by (intros t Ht; apply (Hf t); by right).
  case_match; [|done]. apply alist_get_set_ne.
  intros ->. apply (Hf tgt). by left.
Qed.

Lemma null_refs_row_id m ks m' r : row_id (null_refs m ks m' r) = row_id r.
Proof.
  unfold row_id, fk_target, null_refs. rewrite null_steps_get_other; [done|].
  intros tgt Hin. by apply (owned_fks_not_id m' "id" tgt).
Qed.

(** A foreign key that survives [SetNull] had that value before and is
    not an optional key into a removed row. *)
Lemma null_steps_fk_target m ks m' l r f k :
  fk_target (fold_left (null_step m ks m') l r) f = Some k ->
  fk_target r f = Some k /\
  (forall tgt, In (f, tgt) l -> tgt = m -> fk_nullable m' f = true -> k ∉ ks).
Proof.
  revert r. induction l as [|[fk tgt] l IH]; intros r H; [split; [done | intros ? []]|].
  simpl in H. apply IH in H as [Hr Hl]. simpl in Hr.
  destruct (bool_decide (tgt = m) && fk_nullable m' fk && points_into ks r fk) eqn:Hc.
  - destruct (decide (fk = f)) as [->|Hne]; [by rewrite fk_target_set_null in Hr|].
    rewrite fk_target_set_ne in Hr by done. split; [done|].
    intros t [Heq|Hin]; [congruence | by apply Hl].
  - split; [done|]. intros t [Heq|Hin] Ht Hn; [|by apply (Hl t)].
    injection Heq as <- <-. subst tgt. rewrite bool_decide_true, Hn in Hc by done.
    unfold points_into in Hc. rewrite Hr in Hc. simpl in Hc.
    by apply bool_decide_eq_false in Hc.
Qed.

Lemma rows_of_removal m ks m' d k :
  rows_of m' (map_db (removal m ks) d) !! k =
  if removed m ks m' k then None else null_refs m ks m' <$> rows_of m' d !! k.
Proof.
  unfold rows_of. rewrite tbl_map_db. simpl. rewrite lookup_fmap.
  destruct (t_rows (tbl m' d) !! k) as [r|] eqn:Hr.
  - destruct (removed m ks m' k) eqn:Hrm.
    + rewrite map_lookup_filter_None_2; [done|]. right. intros x _ Hc. simpl in Hc. congruence.
    + by rewrite (map_lookup_filter_Some_2 _ _ _ r) by done.
  - rewrite map_lookup_filter_None_2 by (left; done). by case_match.
Qed.

Lemma restrict_violation_intro d m ks m' fk k r :
  In (fk, m) (owned_fks m') -> fk_nullable m' fk = false ->
  rows_of m' d !! k = Some r -> removed m ks m' k = false -> points_into ks r fk = true ->
  restrict_violation d m ks = true.
Proof.
  intros Hin Hn Hr Hrm Hp. unfold restrict_violation.
  apply existsb_exists. exists m'. split; [apply all_models_complete|].
  apply existsb_exists. exists (fk, m). split; [done|].
  rewrite bool_decide_true, Hn by done. simpl.
  apply existsb_exists. exists (k, r). split; [|simpl; by rewrite Hrm, Hp].
  apply list_elem_of_In. by apply elem_of_map_to_list.
Qed.

Lemma remove_rows_wf m ks : st_preserves db_wf (remove_rows m ks).
Proof.
  intros d Hwf. unfold remove_rows. st_unfold. simpl.
  destruct (restrict_violation d m ks) eqn:Hrv; simpl; [exact Hwf|].
  intros m' k r''. rewrite rows_of_removal.
  destruct (removed m ks m' k) eqn:Hrm; [discriminate|].
  destruct (rows_of m' d !! k) as [r|] eqn:Hr; [|discriminate]. simpl. intros [= <-].
  destruct (Hwf _ _ _ Hr) as [Hid Hrefs]. split; [by rewrite null_refs_row_id|].
  intros fk tgt k' Hin Hfk. apply null_steps_fk_target in Hfk as [Hfk Hnot].
  destruct (Hrefs fk tgt k' Hin Hfk) as [x Hx]. rewrite rows_of_removal.
  destruct (removed m ks tgt k') eqn:Hrm'.
  - exfalso. unfold removed in Hrm'. apply andb_true_iff in Hrm' as [Ht Hk'].
    apply bool_decide_eq_true in Ht, Hk'. subst tgt.
    destruct (fk_nullable m' fk) eqn:Hn; [exact (Hnot m Hin eq_refl eq_refl Hk')|].
    assert (Hp : points_into ks r fk = true) by (unfold points_into; rewrite Hfk; by apply bool_decide_eq_true).
    rewrite (restrict_violation_intro d m ks m' fk k r Hin Hn Hr Hrm Hp) in Hrv. discriminate.
  - rewrite Hx. simpl. eauto.
Qed.

(** ** Moving a row *)

Lemma cascade_steps_get_other m k k' m' l r f :
  (forall tgt, ~ In (f, tgt) l) ->
  alist_get f (fold_left (cascade_step m k k' m') l r) = alist_get f r.
Proof.
  revert r. induction l as [|[fk tgt] l IH]; intros r Hf; [done|]. simpl.
  rewrite IH by (intros t Ht; apply (Hf t); by right).
  case_match; [|done]. apply alist_get_set_ne.
  intros ->. apply (Hf tgt). by left.
Qed.

Lemma cascade_refs_row_id m k k' m' r : row_id (cascade_refs m k k' m' r) = row_id r.
Proof.
  unfold row_id, fk_target, cascade_refs. rewrite cascade_steps_get_other; [done|].
  intros tgt Hin. by apply (owned_fks_not_id m' "id" tgt).
Qed.

(** A foreign key after the cascade: the value it had, which is not the
    old key when it points into [m], or the new key. *)
Lemma cascade_steps_fk_target m k k' m' l r f x :
  fk_target (fold_left (cascade_step m k k' m') l r) f = Some x ->
  (fk_target r f = Some x /\ forall tgt, In (f, tgt) l -> tgt = m -> x <> k) \/
  (x = k' /\ In (f, m) l).
Proof.
  revert r. induction l as [|[fk tgt] l IH]; intros r H; [left; split; [done | intros ? []]|].
  simpl in H. apply IH in H as [[Hr Hl]|[-> Hin]]; [|right; split; [done|by right]].
  simpl in Hr. destruct (bool_decide (tgt = m) && points_into [k] r fk) eqn:Hc.
  - destruct (decide (fk = f)) as [->|Hne].
    + unfold fk_target in Hr. rewrite alist_get_set_eq in Hr. injection Hr as <-.
      apply andb_true_iff in Hc as [Ht _]. apply bool_decide_eq_true in Ht as ->.
      right. split; [done|by left].
    + rewrite fk_target_set_ne in Hr by done. left. split; [done|].
      intros t [Heq|Hin]; [congruence | by apply Hl].
  - left. split; [done|]. intros t [Heq|Hin] Ht; [|by apply (Hl t)].
    injection Heq as <- <-. subst tgt. rewrite bool_decide_true in Hc by done.
    unfold points_into in Hc. rewrite Hr in Hc. simpl in Hc.
    intros ->. apply bool_decide_eq_false in Hc. apply Hc. by left.
Qed.

Lemma rows_of_rekey m k k' m' d : rows_of m' (map_db (rekey m k k') d) = cascade_refs m k k' m' <$> rows_of m' d.
Proof. unfold rows_of. by rewrite tbl_map_db. Qed.

(** The tables after a move: row [k] of [m] is now under [k']. *)
Lemma rows_of_moved m k k' r n d m' :
  rows_of m' (set_tbl m (mkTable (<[k' := r]> (base.delete k (rows_of m d))) n) d) =
    if decide (m = m') then <[k' := r]> (base.delete k (rows_of m d)) else rows_of m' d.
Proof. rewrite rows_of_set_tbl. by case_decide. Qed.

Lemma set_tbl_twice m t1 t2 d : set_tbl m t2 (set_tbl m t1 d) = set_tbl m t2 d.
Proof. by destruct m. Qed.

(** A row of the moved table other than the moved one was in [d]. *)
Lemma moved_lookup m k k' r d m' kk r0 :
  (if decide (m = m') then <[k' := r]> (base.delete k (rows_of m d)) else rows_of m' d) !! kk = Some r0 ->
  (m = m' /\ kk = k' /\ r0 = r) \/ (rows_of m' d !! kk = Some r0 /\ (m = m' -> kk <> k)).
Proof.
  case_decide as Hm; [subst m'|right; by split].
  rewrite lookup_insert. case_decide as Hk; [intros [= <-]; by left|].
  intros (Hne & H)%lookup_delete_Some. right. by split.
Qed.

(** The keys after a move: those of [d], [k] of [m] replaced by [k']. *)
Lemma moved_keep m k k' r d m' x :
  is_Some (rows_of m' d !! x) -> (m' = m -> x <> k) ->
  is_Some ((if decide (m = m') then <[k' := r]> (base.delete k (rows_of m d)) else rows_of m' d) !! x).
Proof.
  intros Hs Hne. case_decide as Hm; [subst m'|done].
  rewrite lookup_insert. case_decide; [done|]. rewrite lookup_delete_ne; [done|].
  intros <-. by apply Hne.
Qed.

Lemma move_row_wf m k k' r : row_id r = Some k' -> st_preserves db_wf (move_row m k k' r).
Proof.
  intros Hid d Hwf. unfold move_row. st_unfold. simpl.
  case_match; [done|]. rewrite set_tbl_twice, rows_of_set_tbl, decide_True by done. simpl.
  destruct (refs_okb _ m _) eqn:Hr; simpl; [|done]. apply refs_okb_spec in Hr.
  intros m' kk r2. rewrite rows_of_rekey, lookup_fmap, rows_of_moved.
  destruct (_ !! kk) as [r0|] eqn:Hr0; simpl; [intros [= <-]|discriminate].
  rewrite cascade_refs_row_id.
  apply moved_lookup in Hr0 as [(<- & -> & ->)|[Hd Hne]]; [by split|].
  destruct (Hwf _ _ _ Hd) as [Hid0 Hrefs]. split; [done|].
  intros fk tgt x Hin Hfk. rewrite rows_of_rekey, lookup_fmap, rows_of_moved.
  apply cascade_steps_fk_target in Hfk as [[Hfk Hnk]|[-> Hin']].
  - destruct (moved_keep m k k' r d tgt x) as [y ->]; [exact (Hrefs fk tgt x Hin Hfk)| |by eexists].
    intros ->. exact (Hnk m Hin eq_refl).
  - rewrite <- (nodup_fst_In_eq (owned_fks m') fk m tgt (owned_fks_nodup m') Hin' Hin).
    rewrite decide_True, lookup_insert, decide_True by done. by eexists.
Qed.

(** ** Every operation preserves [db_wf] *)

Lemma readonly_preserves {S E A} (P : S -> Prop) (m : ST S E A) :
  st_readonly m -> st_preserves P m.
Proof. intros Hr s Hs. by rewrite Hr. Qed.

Lemma find_many_readonly m w sh : st_readonly (find_many m w sh).
Proof. intros d. unfold find_many. st_unfold. by destruct (check_conds m w). Qed.

Lemma find_unique_readonly m w sh : st_readonly (find_unique m w sh).
Proof.
  intros d. unfold find_unique. st_unfold.
  destruct (check_conds m w); simpl; [|done]. by destruct (unique_where m w).
Qed.

Lemma put_row_wf m k r :
  row_id r = Some k -> forall d, db_wf d -> refs_okb d m r = true -> db_wf (snd (put_row m k r d)).
Proof. intros Hid d Hwf Hr. apply wf_insert; auto using refs_okb_spec. Qed.

Lemma insert_row_wf m k r : row_id r = Some k -> st_preserves db_wf (insert_row m k r).
Proof.
  intros Hid d Hwf. unfold insert_row. st_unfold. simpl.
  case_match; [done|]. destruct (refs_okb d m r) eqn:Hr; simpl; [|done]. by apply put_row_wf.
Qed.

Lemma write_row_wf m k r : row_id r = Some k -> st_preserves db_wf (write_row m k r).
Proof.
  intros Hid d Hwf. unfold write_row. st_unfold. simpl.
  case_match; [done|]. destruct (refs_okb d m r) eqn:Hr; simpl; [|done]. by apply put_row_wf.
Qed.

Lemma next_id_wf m r : st_preserves db_wf (next_id m r).
Proof.
  intros d Hwf. unfold next_id. st_unfold.
  destruct (row_id r); simpl; [done|]. case_match; simpl; [done|]. by apply wf_keep_rows.
Qed.

Lemma row_id_set_id r k : row_id (alist_set "id" (JNum (NInt k)) r) = Some k.
Proof. unfold row_id, fk_target. by rewrite alist_get_set_eq. Qed.

Lemma apply_arith_other c op n r r' f :
  c <> f -> apply_arith c op n r = Ok r' -> alist_get f r' = alist_get f r.
Proof.
  unfold apply_arith. intros Hne.
  destruct (alist_get c r) as [[| | |[x| | |]| | |]|]; try (intros [= <-]; done).
  destruct (arith_eval op x n) as [z|]; simpl; [|discriminate].
  destruct (int32_ok z); [|discriminate]. intros [= <-]. by apply alist_get_set_ne.
Qed.

(** A column no assignment names keeps its value. *)
Lemma apply_assignments_other asg r r' f :
  (forall a, In a asg -> assignment_col a <> f) -> apply_assignments asg r = Ok r' ->
  alist_get f r' = alist_get f r.
Proof.
  revert r. induction asg as [|a asg IH]; intros r Hno H; simpl in H; [by injection H as <-|].
  assert (Ha : assignment_col a <> f) by (apply Hno; by left).
  assert (Hrest : forall a', In a' asg -> assignment_col a' <> f) by (intros; apply Hno; by right).
  destruct a as [c v|fk tgt z|c op n|rel tgt fk ops]; simpl in Ha.
  - rewrite (IH _ Hrest H). by apply alist_get_set_ne.
  - rewrite (IH _ Hrest H). by apply alist_get_set_ne.
  - destruct (apply_arith c op n r) as [r1|] eqn:E; simpl in H; [|discriminate].
    rewrite (IH _ Hrest H). by eapply apply_arith_other.
  - exact (IH _ Hrest H).
Qed.

Lemma assigns_id_false_col asg : assigns_id asg = false -> forall a, In a asg -> assignment_col a <> "id".
Proof.
  unfold assigns_id. intros H a Hin Heq. apply not_true_iff_false in H. apply H.
  apply existsb_exists. exists a. split; [done|]. by rewrite Heq.
Qed.

Lemma apply_assignments_row_id asg r r' :
  assigns_id asg = false -> apply_assignments asg r = Ok r' -> row_id r' = row_id r.
Proof.
  intros Hid H. unfold row_id, fk_target.
  by rewrite (apply_assignments_other asg r r' "id" (assigns_id_false_col asg Hid) H).
Qed.

Lemma create_row_wf m data : st_preserves db_wf (create_row m data).
Proof.
  unfold create_row. repeat (apply st_preserves_bind; intros); eauto with posts.
  case_match; [eauto with posts|].
  apply st_preserves_bind; [apply next_id_wf|]. intros k.
  apply st_preserves_bind; [|eauto with posts]. apply insert_row_wf, row_id_set_id.
Qed.

Lemma update_row_wf m w data : st_preserves db_wf (update_row m w data).
Proof.
  intros d Hwf. unfold update_row. st_unfold.
  destruct (check_conds m w); simpl; [|done].
  destruct (unique_where m w); simpl; [|done].
  destruct (data_assignments m ForUpdate data) as [asg|]; simpl; [|done].
  destruct (select_rows d m w) as [|[k r] rest] eqn:Hsel; simpl; [done|].
  destruct (connects_okb d asg); simpl; [|done].
  destruct (apply_assignments asg r) as [r'|] eqn:Hap; simpl; [|done].
  assert (Hk : rows_of m d !! k = Some r).
  { apply (select_rows_lookup d m w). rewrite Hsel. by left. }
  destruct (assigns_id asg) eqn:Hid.
  - destruct (row_id r') as [k'|] eqn:Hk'; [|done].
    pose proof (move_row_wf m k k' _ Hk' d Hwf) as Hw.
    destruct (move_row m k k' _ d) as [[]] eqn:E; by simpl in *.
  - pose proof (write_row_wf m k r') as Hw.
    rewrite (apply_assignments_row_id asg r r') in Hw by done.
    specialize (Hw (proj1 (Hwf _ _ _ Hk)) d Hwf).
    destruct (write_row m k r' d) as [[]] eqn:E; by simpl in *.
Qed.

Lemma delete_wf m w : st_preserves db_wf (delete m w).
Proof.
  intros d Hwf. unfold delete. st_unfold.
  destruct (check_conds m w); simpl; [|done].
  destruct (unique_where m w); simpl; [|done].
  destruct (select_rows d m w) as [|[k r] rest]; simpl; [done|].
  pose proof (remove_rows_wf m [k] d Hwf) as Hr.
  destruct (remove_rows m [k] d) as [[]] eqn:E; by simpl in *.
Qed.

Lemma delete_many_wf m w : st_preserves db_wf (delete_many m w).
Proof.
  intros d Hwf. unfold delete_many. st_unfold.
  destruct (check_conds m w); simpl; [|done].
  pose proof (remove_rows_wf m (map fst (select_rows d m w)) d Hwf) as Hr.
  destruct (remove_rows m _ d) as [[]] eqn:E; by simpl in *.
Qed.

(** The Prisma client's side of the invariant contract. *)
#[export] Hint Resolve create_row_wf update_row_wf delete_wf delete_many_wf : posts.
#[export] Hint Resolve find_many_readonly find_unique_readonly readonly_preserves : posts.
#[export] Existing Instances create_row_wf update_row_wf delete_wf delete_many_wf.
#[export] Existing Instances find_many_readonly find_unique_readonly readonly_preserves.

Lemma rows_of_rollback m d0 d1 : rows_of m (rollback d0 d1) = rows_of m d0.
Proof. unfold rollback, rows_of. by rewrite tbl_map_db. Qed.

Lemma tbl_rollback m d0 d1 : tbl m (rollback d0 d1) = mkTable (rows_of m d0) (t_next (tbl m d1)).
Proof. unfold rollback. by rewrite tbl_map_db. Qed.

(** Well-formedness depends on the rows only. *)
Lemma db_wf_same_rows d d' : (forall m, rows_of m d' = rows_of m d) -> db_wf d -> db_wf d'.
Proof.
  intros Hr Hwf m k r. rewrite Hr. intros Hk. destruct (Hwf m k r Hk) as [Hid Href].
  split; [done|]. intros fk tgt k' Hin Hfk. rewrite Hr. exact (Href fk tgt k' Hin Hfk).
Qed.

#[export] Instance db_wf_invariant : store_invariant db_wf.
Proof.
  split; try apply _. intros d0 d1 Hwf _. apply (db_wf_same_rows d0); [|done].
  intros m. apply rows_of_rollback.
Qed.
