(* ===== verification/StoreFacts.v ===== *)
(** * The Prisma client, functionally

    Lemmas on the operations of [Store] that the handlers' theorems use:
    what [find_many] and [find_unique] return on the filters and shapes
    of the controller, how a [create] or [update] data object is
    classified, checked and written, what an [update] and a move of a
    row leave (the cascade follows the row), how [delete] and
    [delete_many] behave under [Restrict] and [SetNull], how the
    autoincrement sequence hands out ids and fails past [MAXVALUE], and
    how update operations are classified, and what the filters of a
    nested write select ([is_infix_spec] and its siblings for the [LIKE]
    operators, [not_complement] and [null_neither] for [NOT] in
    three-valued logic, [where_conds_plain] for a plain object).  The
    invariant and its preservation stay in [Store]. *)

From stdpp Require Import base list strings gmap.
From Stdlib Require Import ZArith String.
From S2P Require Import Prelude JsValue Schema Store.

Local Open Scope string_scope.

(** ** Reads, functionally *)

Lemma prim_eqb_eq x v : is_prim v = true -> prim_eqb x v = true <-> x = v.
Proof.
  destruct v, x; simpl; intros Hp; try done; split; try done.
  - by intros ->%Bool.eqb_prop.
  - intros [= <-]. apply Bool.eqb_reflx.
  - by intros ->%bool_decide_eq_true.
  - intros [= <-]. by apply bool_decide_eq_true.
  - by intros ->%String.eqb_eq.
  - intros [= <-]. apply String.eqb_refl.
Qed.

(** An equality is [TRUE] exactly when the values are equal: with
    [NULL] it is [IS NULL], and [UNKNOWN] only where JavaScript's
    equality is false anyway. *)
Lemma eq_tv_true x v : tv_true (op_tv FEquals x v) = prim_eqb x v.
Proof. destruct x, v; simpl; repeat case_match; done. Qed.

Lemma tv_true_some b : tv_true (Some b) = b.
Proof. by destruct b. Qed.

(** An equality filter on a primitive value. *)
Lemma cond_holds_eq d m r f v :
  v <> JUndefined -> is_prim v = true ->
  cond_holds d m r (CEq f v) = true <-> alist_get f r = Some v.
Proof.
  intros Hu Hp. assert (Hc : cond_holds d m r (CEq f v) =
    match alist_get f r with Some x => prim_eqb x v | None => false end).
  { unfold cond_holds. cbn [cond_tv]. unfold field_tv.
    destruct v; try done; (destruct (alist_get f r); [apply eq_tv_true | done]). }
  rewrite Hc. destruct (alist_get f r); [rewrite prim_eqb_eq by done; split; congruence | done].
Qed.

Lemma find_many_run m w sh d :
  check_conds m w = Ok tt ->
  find_many m w sh d = (Ok (JArr (map (fun kr => render d m sh kr.2) (select_rows d m w))), d).
Proof. intros Hc. unfold find_many. st_unfold. by rewrite Hc. Qed.

(** Under [db_wf], the rows whose [id] column is [k] are the row stored
    under [k]. *)
Lemma select_rows_id d m k :
  db_wf d -> forall kr, In kr (select_rows d m [CEq "id" (JNum (NInt k))]) <->
                   kr.1 = k /\ rows_of m d !! k = Some kr.2.
Proof.
  intros Hwf [k' r]. simpl. split.
  - intros Hin. apply select_rows_lookup in Hin as [Hr Hm].
    unfold matches in Hm. cbn [forallb] in Hm. rewrite andb_true_r in Hm.
    apply cond_holds_eq in Hm; [|done|done].
    destruct (Hwf _ _ _ Hr) as [Hid _]. unfold row_id, fk_target in Hid.
    rewrite Hm in Hid. injection Hid as ->. done.
  - intros [-> Hr]. apply select_rows_complete; [done|].
    unfold matches. cbn [forallb]. rewrite andb_true_r. apply cond_holds_eq; [done|done|].
    destruct (Hwf _ _ _ Hr) as [Hid _]. unfold row_id, fk_target in Hid.
    destruct (alist_get "id" r) as [[| | |[]| | |]|]; simplify_eq; done.
Qed.

Lemma select_rows_id_head d m k :
  db_wf d ->
  match select_rows d m [CEq "id" (JNum (NInt k))] with
  | kr :: _ => Some kr.2
  | [] => None
  end = rows_of m d !! k.
Proof.
  intros Hwf. pose proof (select_rows_id d m k Hwf) as Hs.
  destruct (select_rows d m _) as [|kr l] eqn:E.
  - destruct (rows_of m d !! k) as [r|] eqn:Hr; [|done].
    exfalso. apply (Hs (k, r)). by split.
  - destruct (proj1 (Hs kr) (or_introl eq_refl)) as [_ Hr]. by rewrite Hr.
Qed.

Lemma find_unique_id_run m k sh d :
  db_wf d -> int32_ok k = true ->
  find_unique m [CEq "id" (JNum (NInt k))] sh d =
    (Ok (match rows_of m d !! k with Some r => render d m sh r | None => JNull end), d).
Proof.
  intros Hwf Hk. unfold find_unique. st_unfold.
  assert (Hc : check_conds m [CEq "id" (JNum (NInt k))] = Ok tt)
    by (simpl; rewrite find_column_id; simpl; by rewrite Hk).
  rewrite Hc. simpl. rewrite find_column_id. simpl.
  rewrite <- (select_rows_id_head d m k Hwf). by destruct (select_rows d m _).
Qed.

Lemma find_unique_invalid_id m v sh d :
  (forall z, v = JNum (NInt z) -> int32_ok z = false) -> v <> JUndefined -> is_prim v = true ->
  (forall b, v <> JBool b) -> (forall s, v <> JStr s) ->
  exists msg, find_unique m [CEq "id" v] sh d = (Err (EValidation msg), d).
Proof.
  intros Hz Hu Hp Hb Hs. unfold find_unique. st_unfold. simpl. rewrite find_column_id.
  destruct v as [| |b|[z| | |]|s| |]; try done.
  - by eexists.
  - by destruct (Hb b).
  - simpl. rewrite (Hz z eq_refl). by eexists.
  - by eexists.
  - by eexists.
  - by eexists.
  - by destruct (Hs s).
Qed.

Lemma assignments_cons m md k v o :
  assignments m md ((k, v) :: o) =
    if is_undef v then assignments m md o
    else a <-? classify m md k v ;; rest <-? assignments m md o ;; Ok (a :: rest).
Proof. by destruct v. Qed.

Lemma assignments_origin m md o asg :
  assignments m md o = Ok asg -> forall a, In a asg -> exists k v, In (k, v) o /\ classify m md k v = Ok a.
Proof.
  revert asg. induction o as [|[k v] o IH]; intros asg H a Ha.
  - simpl in H. injection H as <-. done.
  - rewrite assignments_cons in H. destruct (is_undef v).
    + destruct (IH asg H a Ha) as (k' & v' & Hin & Hc). exists k', v'. by split; [right|].
    + destruct (classify m md k v) as [a0|] eqn:Hc; simpl in H; [|discriminate].
      destruct (assignments m md o) as [rest|]; simpl in H; [|discriminate].
      injection H as <-. destruct Ha as [<-|Ha]; [exists k, v; by split; [left|]|].
      destruct (IH rest eq_refl a Ha) as (k' & v' & Hin & Hc'). exists k', v'. by split; [right|].
Qed.

Lemma assignments_complete m md o asg k v :
  assignments m md o = Ok asg -> In (k, v) o -> is_undef v = false ->
  exists a, classify m md k v = Ok a /\ In a asg.
Proof.
  revert asg. induction o as [|[k' v'] o IH]; intros asg H Hin Hu; [done|].
  rewrite assignments_cons in H. destruct Hin as [[= -> ->]|Hin].
  - rewrite Hu in H. destruct (classify m md k v) as [a|]; simpl in H; [|discriminate].
    destruct (assignments m md o); simpl in H; [|discriminate]. injection H as <-.
    exists a. by split; [|left].
  - destruct (is_undef v'); [by apply (IH asg)|].
    destruct (classify m md k' v'); simpl in H; [|discriminate].
    destruct (assignments m md o) as [rest|]; simpl in H; [|discriminate]. injection H as <-.
    destruct (IH rest eq_refl Hin Hu) as (a1 & Hc & Ha). exists a1. by split; [|right].
Qed.

Lemma classify_update_op_col k col o a :
  classify_update_op k col o = Ok a -> assignment_col a = k /\ is_connect a = false.
Proof.
  unfold classify_update_op. destruct o as [|[name x] [|]]; try discriminate.
  destruct (String.eqb name "set").
  { destruct (check_value col x); simpl; [|discriminate]. by intros [= <-]. }
  destruct (arith_of name), (col_type col), x as [| | |[n| | |]| | |]; try discriminate.
  destruct (int32_ok n); [|discriminate]. by intros [= <-].
Qed.

(** An entry of [data] writes its own column (a value, or in an update
    an operation), connects an owned relation, or is a nested write on
    an inverse relation. *)
Lemma classify_cases m md k v a :
  classify m md k v = Ok a ->
  (exists col, find_column m k = Some col /\ assignment_col a = k /\ is_connect a = false /\
     (md = ForCreate -> a = AScalar k (assignment_value a))) \/
  (exists rel fk z, find_column m k = None /\ find_relation m k = Some rel /\
                    rel_kind rel = Owned fk /\ a = AConnect fk (rel_target rel) z) \/
  (exists tgt fk many ops, inverse_rel m k = Some (tgt, fk, many) /\ a = ANested k tgt fk ops).
Proof.
  unfold classify. destruct (inverse_rel m k) as [[[tgt fk] many]|] eqn:Hinv.
  { destruct (classify_nested md tgt fk many v); simpl; [|discriminate]. intros [= <-]. right; right. eauto 6. }
  unfold classify_flat. intros H. destruct (find_column m k) as [col|] eqn:Hc.
  - left. exists col. split; [done|]. destruct md, v; try discriminate;
      try (destruct (check_value col _); simpl in H; [|discriminate]; injection H as <-; by split; [|split]).
    destruct (classify_update_op_col k col _ a H). by split; [|split].
  - destruct (find_relation m k) as [rel|] eqn:Hr; [|discriminate].
    destruct (rel_kind rel) eqn:Hk, (connect_arg v) as [[| | |[z| | |]| | |]|]; try discriminate.
    destruct (int32_ok z); [|discriminate]. injection H as <-. right; left. eauto 8.
Qed.

Lemma inverse_rel_column m k col : find_column m k = Some col -> inverse_rel m k = None.
Proof. unfold inverse_rel. by intros ->. Qed.

(** A column's entry is classified without nested writes. *)
Lemma classify_on_column m md k v col :
  find_column m k = Some col -> classify m md k v = classify_flat m md k v.
Proof. intros Hc. unfold classify. by rewrite (inverse_rel_column m k col Hc). Qed.

(** The column an assignment that is not a nested write writes exists. *)
Lemma classify_column m md k v a :
  classify m md k v = Ok a -> inverse_rel m k = None -> exists c, In c (columns m) /\ col_name c = assignment_col a.
Proof.
  intros [(col & Hc & Hcol & _)|[(rel & fk & z & _ & Hr & Hk & ->)|(tgt & fk & many & ops & Hinv & _)]]%classify_cases Hn.
  - apply find_column_spec in Hc as [Hn' Hin]. exists col. by rewrite Hcol.
  - destruct (owned_fks_columns m fk (rel_target rel)) as (c & Hc & _);
      [by eapply find_relation_owned|].
    apply find_column_spec in Hc as [<- Hin]. eauto.
  - congruence.
Qed.

Lemma data_assignments_obj m md o asg :
  data_assignments m md (JObj o) = Ok asg -> assignments m md o = Ok asg /\ check_mode m asg = Ok tt.
Proof.
  unfold data_assignments. simpl. destruct (assignments m md o) as [a|]; simpl; [|discriminate].
  destruct (check_mode m a) as [[]|] eqn:Hm; simpl; [|discriminate]. intros [= <-]. by split.
Qed.

(** Two entries of a valid [data] object never write the same column:
    a foreign key given both as a scalar and through its relation is
    rejected by [check_mode]. *)
Lemma data_assignments_col_unique m md o asg :
  data_assignments m md (JObj o) = Ok asg -> NoDup (map fst o) ->
  forall a1 a2, In a1 asg -> In a2 asg -> assignment_col a1 = assignment_col a2 -> a1 = a2.
Proof.
  intros [Has Hmode]%data_assignments_obj Hnd a1 a2 H1 H2 Hcol.
  destruct (assignments_origin m md o asg Has a1 H1) as (k1 & v1 & I1 & C1).
  destruct (assignments_origin m md o asg Has a2 H2) as (k2 & v2 & I2 & C2).
  assert (Hsame : k1 = k2 -> a1 = a2).
  { intros <-. rewrite (nodup_fst_In_eq o k1 v1 v2 Hnd I1 I2) in C1. congruence. }
  assert (Hmix : forall a c rel fk z, In a asg -> assignment_col a = c -> is_connect a = false ->
                   find_relation m rel = Some (mkRel rel fk (Owned c)) -> In (AConnect c fk z) asg -> False).
  { intros a c rel fk z Ha Hc Hnc Hr Hz. unfold check_mode in Hmode.
    assert (Hx : existsb is_connect asg = true) by (apply existsb_exists; by exists (AConnect c fk z)).
    assert (Hy : existsb (fun a => negb (is_connect a) && checked_excluded m (assignment_col a)) asg = true).
    { apply existsb_exists. exists a. split; [done|]. rewrite Hnc, Hc. simpl. apply orb_true_intro. left.
      eapply is_fk_column_owned, (find_relation_owned m rel _ c Hr); done. }
    by rewrite Hx, Hy in Hmode. }
  apply classify_cases in C1 as [(c1 & F1 & Col1 & Nc1 & _)|[(r1 & f1 & z1 & N1 & R1 & K1 & E1)|(t1 & g1 & y1 & o1 & J1 & E1)]];
  apply classify_cases in C2 as [(c2 & F2 & Col2 & Nc2 & _)|[(r2 & f2 & z2 & N2 & R2 & K2 & E2)|(t2 & g2 & y2 & o2 & J2 & E2)]];
  try (subst a1; simpl in Hcol); try (subst a2; simpl in Hcol).
  - apply Hsame. congruence.
  - exfalso. rewrite Col1 in Hcol. subst f2.
    destruct r2 as [n2 t2 k2']. simpl in K2. subst k2'.
    pose proof R2 as R2'. apply find_relation_spec in R2' as [Hn _]. simpl in Hn. subst n2.
    exact (Hmix a1 k1 k2 t2 z2 H1 Col1 Nc1 R2 H2).
  - exfalso. rewrite Col1 in Hcol. subst k2. by rewrite (inverse_rel_column m k1 c1 F1) in J2.
  - exfalso. rewrite Col2 in Hcol. subst f1.
    destruct r1 as [n1 t1 k1']. simpl in K1. subst k1'.
    pose proof R1 as R1'. apply find_relation_spec in R1' as [Hn _]. simpl in Hn. subst n1.
    exact (Hmix a2 k2 k1 t1 z1 H2 Col2 Nc2 R1 H1).
  - apply Hsame. subst f2. exact (owned_relation_unique m k1 k2 r1 r2 f1 R1 R2 K1 K2).
  - exfalso. subst k2. destruct (owned_fks_columns m f1 (rel_target r1)) as (c & Hc & _);
      [by eapply find_relation_owned|]. by rewrite (inverse_rel_column m f1 c Hc) in J2.
  - exfalso. rewrite Col2 in Hcol. subst k1. by rewrite (inverse_rel_column m k2 c2 F2) in J1.
  - exfalso. subst k1. destruct (owned_fks_columns m f2 (rel_target r2)) as (c & Hc & _);
      [by eapply find_relation_owned|]. by rewrite (inverse_rel_column m f2 c Hc) in J1.
  - by apply Hsame.
Qed.

Lemma assigned_cons a asg c :
  assigned (a :: asg) c =
    if String.eqb (assignment_col a) c then Some (assignment_value a) else assigned asg c.
Proof. reflexivity. Qed.

Lemma assigned_col asg a :
  (forall a1 a2, In a1 asg -> In a2 asg -> assignment_col a1 = assignment_col a2 -> a1 = a2) ->
  In a asg -> assigned asg (assignment_col a) = Some (assignment_value a).
Proof.
  induction asg as [|a0 asg IH]; intros Hu Ha; [done|]. rewrite assigned_cons.
  destruct (String.eqb_spec (assignment_col a0) (assignment_col a)) as [Heq|Hne].
  - rewrite (Hu a0 a (or_introl eq_refl) Ha Heq). done.
  - destruct Ha as [->|Ha]; [done|]. apply IH; [|done].
    intros a1 a2 H1 H2. apply Hu; by right.
Qed.

Lemma build_row_get asg cs r c :
  build_row asg cs = Ok r -> NoDup (map col_name cs) -> In c cs ->
  exists v, column_value asg c = Ok v /\ alist_get (col_name c) r = Some v.
Proof.
  revert r. induction cs as [|c0 cs IH]; intros r Hb Hnd Hc; [done|]. simpl in Hb.
  destruct (column_value asg c0) as [v0|] eqn:Hv0; simpl in Hb; [|discriminate].
  destruct (build_row asg cs) as [r'|] eqn:Hr'; simpl in Hb; [|discriminate].
  injection Hb as <-. simpl in Hnd. apply NoDup_cons in Hnd as [Hnot Hnd].
  destruct Hc as [->|Hc].
  - exists v0. split; [done|]. simpl. by rewrite decide_True.
  - destruct (IH r' eq_refl Hnd Hc) as (v & Hv & Hg). exists v. split; [done|].
    simpl. rewrite decide_False; [done|]. intros Heq. apply Hnot.
    rewrite <- Heq. apply list_elem_of_In, in_map. done.
Qed.

Lemma st_lift_bind {S E A B} (r : res E A) (k : A -> ST S E B) s :
  st_bind (st_lift r) k s = match r with Ok a => k a s | Err e => (Err e, s) end.
Proof. by destruct r. Qed.

(** A successful [create] validated its [data], built the row column by
    column, and stored it under its id. *)
Lemma create_row_ok_inv m data d v d' :
  create_row m data d = (Ok v, d') ->
  exists asg r0 k, data_assignments m ForCreate data = Ok asg /\ build_row asg (columns m) = Ok r0 /\
    v = JObj (alist_set "id" (JNum (NInt k)) r0) /\
    rows_of m d' !! k = Some (alist_set "id" (JNum (NInt k)) r0).
Proof.
  unfold create_row. rewrite st_lift_bind.
  destruct (data_assignments m ForCreate data) as [asg|] eqn:Ha; [|discriminate].
  rewrite st_lift_bind. destruct (build_row asg (columns m)) as [r0|] eqn:Hb; [|discriminate].
  st_unfold. destruct (negb (connects_okb d asg)); [discriminate|].
  destruct (next_id m r0 d) as [[k|] d1]; [|discriminate].
  unfold insert_row. st_unfold. simpl.
  destruct (bool_decide _ || _); [discriminate|].
  destruct (negb (refs_okb d1 m _)); [discriminate|].
  unfold put_row. st_unfold. simpl.
  intros [= <- <-]. exists asg, r0, k. do 3 (split; [done|]).
  rewrite rows_of_set_tbl, decide_True by done. simpl. by rewrite lookup_insert_eq.
Qed.

(** Each entry [(k, x)] of the [data] object of a successful [create]
    is in the created row, under the column it writes. *)
Lemma create_row_assigned m o d v d' k x :
  create_row m (JObj o) d = (Ok v, d') -> NoDup (map fst o) -> In (k, x) o -> is_undef x = false ->
  inverse_rel m k = None ->
  exists a r, classify m ForCreate k x = Ok a /\ v = JObj r /\ rows_of m d' !! (default 0%Z (row_id r)) = Some r /\
    (assignment_col a <> "id" -> alist_get (assignment_col a) r = Some (assignment_value a)).
Proof.
  intros Hc Hnd Hin Hu Hinv. apply create_row_ok_inv in Hc as (asg & r0 & id & Ha & Hb & -> & Hrow).
  pose proof (data_assignments_col_unique m ForCreate o asg Ha Hnd) as Huniq.
  apply data_assignments_obj in Ha as [Has _].
  destruct (assignments_complete m ForCreate o asg k x Has Hin Hu) as (a & Hcl & Ha).
  exists a, (alist_set "id" (JNum (NInt id)) r0). split; [done|]. split; [done|].
  split; [by rewrite row_id_set_id|]. intros Hne.
  rewrite alist_get_set_ne by congruence.
  destruct (classify_column m ForCreate k x a Hcl Hinv) as (c & Hcin & Hcn).
  destruct (build_row_get asg (columns m) r0 c Hb (columns_nodup m) Hcin) as (w & Hw & Hg).
  rewrite <- Hcn. rewrite Hg. unfold column_value in Hw. rewrite Hcn in Hw.
  rewrite (assigned_col asg a Huniq Ha) in Hw. congruence.
Qed.

Lemma matches_cons_eq d m f v cs r :
  v <> JUndefined -> is_prim v = true ->
  matches d m (CEq f v :: cs) r = true <-> alist_get f r = Some v /\ matches d m cs r = true.
Proof.
  intros Hu Hp. unfold matches. cbn [forallb]. rewrite andb_true_iff.
  by rewrite cond_holds_eq.
Qed.

(** A successful [create] answers with the stored row, which carries the
    id it was stored under. *)
Lemma create_row_ok_id m data d v d' :
  create_row m data d = (Ok v, d') -> exists k (r : row), v = JObj r /\ obj_get v "id" = JNum (NInt k) /\
                                               rows_of m d' !! k = Some r.
Proof.
  intros (asg & r0 & k & _ & _ & -> & Hrow)%create_row_ok_inv.
  exists k, (alist_set "id" (JNum (NInt k)) r0). split; [done|]. split; [|done].
  simpl. by rewrite alist_get_set_eq.
Qed.

Lemma db_wfb_spec d : db_wfb d = true -> db_wf d.
Proof.
  unfold db_wfb. intros H m k r Hr.
  pose proof (proj1 (forallb_forall _ _) H m (all_models_complete m)) as Hm.
  assert (Hin : In (k, r) (map_to_list (rows_of m d))) by (apply list_elem_of_In; by apply elem_of_map_to_list).
  pose proof (proj1 (forallb_forall _ _) Hm (k, r) Hin) as Hkr. simpl in Hkr.
  apply andb_true_iff in Hkr as [Hid Hrefs]. apply bool_decide_eq_true in Hid.
  split; [done|]. by apply refs_okb_spec.
Qed.

(** ** Updates, inverted *)

Lemma check_value_id c v v' : check_value c v = Ok v' -> v' = v.
Proof.
  unfold check_value. destruct v as [| |b|[z| | |]|s| |], (col_type c); try discriminate;
    try (case_match; discriminate || (intros [= <-]; done)); by intros [= <-].
Qed.

(** A plain value for a column is written as it is. *)
Lemma classify_scalar m md k v a col :
  classify m md k v = Ok a -> find_column m k = Some col -> (forall o, v <> JObj o) -> a = AScalar k v.
Proof.
  intros H Hc Hno. rewrite (classify_on_column m md k v col Hc) in H. unfold classify_flat in H. rewrite Hc in H.
  assert (Hv : res_bind (check_value col v) (fun v' => Ok (AScalar k v')) = Ok a).
  { destruct md, v; try done. all: by destruct (Hno _ eq_refl). }
  destruct (check_value col v) as [v'|] eqn:Hcv; simpl in Hv; [|discriminate].
  injection Hv as <-. by rewrite (check_value_id col v v' Hcv).
Qed.

Lemma apply_assignments_keep asg r r' c x :
  (forall a, In a asg -> assignment_col a = c -> is_arith a = false /\ assignment_value a = x) ->
  alist_get c r = Some x -> apply_assignments asg r = Ok r' -> alist_get c r' = Some x.
Proof.
  revert r. induction asg as [|a asg IH]; intros r Hv Hr H; simpl in H; [by injection H as <-|].
  assert (Hrest : forall a', In a' asg -> assignment_col a' = c -> is_arith a' = false /\ assignment_value a' = x)
    by (intros a' Ha' Hc'; apply Hv; [by right|done]).
  destruct (String.eqb_spec (assignment_col a) c) as [Heq|Hne].
  - destruct (Hv a (or_introl eq_refl) Heq) as [Ha Hx]. subst c.
    destruct a as [c v|fk tgt z| |rel tgt fk ops]; try discriminate; simpl in *; subst x;
      try (eapply IH; [exact Hrest | apply alist_get_set_eq | exact H]).
    exact (IH r Hrest Hr H).
  - destruct a as [c0 v|fk tgt z|c0 op n|rel tgt fk ops]; simpl in *.
    + eapply IH; [exact Hrest | by rewrite alist_get_set_ne | exact H].
    + eapply IH; [exact Hrest | by rewrite alist_get_set_ne | exact H].
    + destruct (apply_arith c0 op n r) as [r1|] eqn:E; simpl in H; [|discriminate].
      eapply IH; [exact Hrest | by rewrite (apply_arith_other c0 op n r r1 c Hne E) | exact H].
    + exact (IH r Hrest Hr H).
Qed.

(** The value an assignment gives its column is in the updated row,
    when no other assignment names the column. *)
Lemma apply_assignments_get asg r r' a :
  (forall a', In a' asg -> assignment_col a' = assignment_col a -> a' = a) -> In a asg ->
  is_arith a = false -> is_nested a = false -> apply_assignments asg r = Ok r' ->
  alist_get (assignment_col a) r' = Some (assignment_value a).
Proof.
  revert r. induction asg as [|a0 asg IH]; intros r Hu Ha Hna Hnn H; [done|].
  destruct Ha as [<-|Ha].
  - simpl in H. destruct a0 as [c v|fk tgt z| |]; try discriminate; simpl;
      (eapply apply_assignments_keep; [| apply alist_get_set_eq | exact H]);
      intros a' Ha' Heq; rewrite (Hu a' (or_intror Ha') Heq); done.
  - simpl in H. destruct a0 as [c v|fk tgt z|c op n|rel tgt fk ops].
    + eapply IH; [intros a' Ha'; apply Hu; by right | done | done | done | exact H].
    + eapply IH; [intros a' Ha'; apply Hu; by right | done | done | done | exact H].
    + destruct (apply_arith c op n r) as [r1|]; simpl in H; [|discriminate].
      eapply IH; [intros a' Ha'; apply Hu; by right | done | done | done | exact H].
    + eapply IH; [intros a' Ha'; apply Hu; by right | done | done | done | exact H].
Qed.

(** A successful [update] found the row through its unique filter,
    validated the [data] and applied it; without an [id] in it, it
    stored the row and no other row changed; with one, it moved the row
    to its new key. *)
Lemma update_row_ok_inv m w data d v d' :
  update_row m w data d = (Ok v, d') ->
  exists asg k r r', data_assignments m ForUpdate data = Ok asg /\
    hd_error (select_rows d m w) = Some (k, r) /\
    apply_assignments asg r = Ok r' /\ v = JObj r' /\
    ((assigns_id asg = false /\
      d' = set_tbl m (mkTable (<[k := r']> (rows_of m d)) (t_next (tbl m d))) d) \/
     (assigns_id asg = true /\ exists k', row_id r' = Some k' /\ move_row m k k' r' d = (Ok tt, d'))).
Proof.
  unfold update_row. st_unfold.
  destruct (check_conds m w); simpl; [|discriminate].
  destruct (unique_where m w); simpl; [|discriminate].
  destruct (data_assignments m ForUpdate data) as [asg|] eqn:Ha; simpl; [|discriminate].
  destruct (select_rows d m w) as [|[k r] rest] eqn:Hsel; simpl; [discriminate|].
  destruct (connects_okb d asg); simpl; [|discriminate].
  destruct (apply_assignments asg r) as [r'|] eqn:Hap; simpl; [|discriminate].
  destruct (assigns_id asg) eqn:Hid.
  - destruct (row_id r') as [k'|] eqn:Hk'; [|discriminate].
    destruct (move_row m k k' _ d) as [[[]|] d1] eqn:E; [|discriminate].
    intros [= <- <-]. exists asg, k, r, r'. do 4 (split; [done|]). right. eauto.
  - unfold write_row. st_unfold. simpl.
    destruct (unique_okb d m k _); simpl; [|discriminate].
    destruct (refs_okb d m _); simpl; [|discriminate].
    intros [= <- <-]. exists asg, k, r, r'. do 4 (split; [done|]). by left.
Qed.

(** What a successful move leaves: row [k] of [m] under [k'], a key
    that was free, and every foreign key that pointed at [k] pointing at
    [k']. *)
Lemma move_row_ok_inv m k k' r d u d' :
  move_row m k k' r d = (Ok u, d') ->
  base.delete k (rows_of m d) !! k' = None /\
  d' = map_db (rekey m k k') (set_tbl m (mkTable (<[k' := r]> (base.delete k (rows_of m d))) (t_next (tbl m d))) d).
Proof.
  unfold move_row. st_unfold. simpl.
  destruct (_ || _) eqn:Hc; simpl; [discriminate|]. apply orb_false_iff in Hc as [Hs _].
  rewrite set_tbl_twice, rows_of_set_tbl, decide_True in * by done. simpl in *.
  destruct (refs_okb _ m _); simpl; [|discriminate].
  intros [= _ <-]. split; [|done]. apply eq_None_not_Some. intros H. by apply bool_decide_eq_false in Hs.
Qed.


(** ** Deletions, functionally *)

Lemma remove_rows_run m ks d :
  remove_rows m ks d =
    if restrict_violation d m ks then (Err EForeignKey, d) else (Ok tt, map_db (removal m ks) d).
Proof. unfold remove_rows. st_unfold. simpl. by destruct (restrict_violation d m ks). Qed.

Lemma delete_many_ok_inv m w d v d' :
  delete_many m w d = (Ok v, d') ->
  check_conds m w = Ok tt /\ restrict_violation d m (map fst (select_rows d m w)) = false /\
  d' = map_db (removal m (map fst (select_rows d m w))) d.
Proof.
  unfold delete_many. st_unfold. destruct (check_conds m w) as [[]|]; simpl; [|discriminate].
  rewrite remove_rows_run. destruct (restrict_violation _ _ _); simpl; [discriminate|].
  by intros [= _ <-].
Qed.

Lemma delete_ok_inv m w d v d' :
  delete m w d = (Ok v, d') ->
  exists k r, hd_error (select_rows d m w) = Some (k, r) /\ v = JObj r /\
              restrict_violation d m [k] = false /\ d' = map_db (removal m [k]) d.
Proof.
  unfold delete. st_unfold. destruct (check_conds m w); simpl; [|discriminate].
  destruct (unique_where m w); simpl; [|discriminate].
  destruct (select_rows d m w) as [|[k r] rest]; simpl; [discriminate|].
  rewrite remove_rows_run. destruct (restrict_violation _ _ _) eqn:Hrv; simpl; [discriminate|].
  intros [= <- <-]. by exists k, r.
Qed.

(** Removals never create a reference. *)
Lemma removal_no_refs m ks d m' fk k :
  no_refs_to d m' fk k -> no_refs_to (map_db (removal m ks) d) m' fk k.
Proof.
  intros Hno kr r'. rewrite rows_of_removal. case_match; [discriminate|].
  destruct (rows_of m' d !! kr) as [r|] eqn:Hr; [|discriminate]. intros [= <-] Hfk.
  apply null_steps_fk_target in Hfk as [Hfk _]. exact (Hno kr r Hr Hfk).
Qed.

Lemma removal_gone m ks d k :
  k ∈ ks -> rows_of m (map_db (removal m ks) d) !! k = None.
Proof.
  intros Hk. rewrite rows_of_removal.
  replace (removed m ks m k) with true; [done|].
  symmetry. unfold removed. by rewrite !bool_decide_true.
Qed.

(** The filter [{posts: {id: k}}] of a model whose relation [posts]
    owns [postId]: under [db_wf], a stored row matches it exactly when
    its [postId] is [k]. *)
Lemma posts_filter_matches d m k kr r :
  db_wf d -> owned_target m "posts" = Some ("postId", MPost) -> rows_of m d !! kr = Some r ->
  matches d m [CRel "posts" [CEq "id" (JNum (NInt k))]] r = true <-> fk_target r "postId" = Some k.
Proof.
  intros Hwf Hot Hr. unfold matches. cbn [forallb]. rewrite andb_true_r.
  assert (Hc : cond_holds d m r (CRel "posts" [CEq "id" (JNum (NInt k))]) =
    match fk_target r "postId" with
    | Some k' => match rows_of MPost d !! k' with
                 | Some r' => forallb (cond_holds d MPost r') [CEq "id" (JNum (NInt k))]
                 | None => false end
    | None => false end).
  { unfold cond_holds. cbn [cond_tv]. rewrite Hot. unfold fk_target.
    destruct (alist_get "postId" r) as [[| | |[]| | |]|]; try done; [by case_match|].
    destruct (rows_of MPost d !! _); [apply tv_true_some | done]. }
  rewrite Hc. clear Hc. split.
  - destruct (fk_target r "postId") as [k'|]; [|discriminate].
    destruct (rows_of MPost d !! k') as [p|] eqn:Hp; [|discriminate].
    cbn [forallb]. rewrite andb_true_r. intros Hm%cond_holds_eq; [|done|done].
    destruct (Hwf _ _ _ Hp) as [Hid _]. unfold row_id, fk_target in Hid. rewrite Hm in Hid. congruence.
  - intros Hk. rewrite Hk.
    destruct (Hwf _ _ _ Hr) as [_ Hrefs].
    assert (Hin : In ("postId", MPost) (owned_fks m)).
    { unfold owned_target in Hot. destruct (find_relation m "posts") as [rel|] eqn:Hrel; [|discriminate].
      destruct (rel_kind rel) eqn:Hkd; try discriminate. injection Hot as <- <-.
      by apply (find_relation_owned m "posts"). }
    destruct (Hrefs "postId" MPost k Hin Hk) as [p Hp]. rewrite Hp.
    cbn [forallb]. rewrite andb_true_r. apply cond_holds_eq; [done|done|].
    destruct (Hwf _ _ _ Hp) as [Hid _]. unfold row_id, fk_target in Hid.
    destruct (alist_get "id" p) as [[| | |[]| | |]|]; simplify_eq; done.
Qed.

(** After [deleteMany({where: {posts: {id: k}}})] no row of the model
    points at post [k]. *)
(** A [deleteMany] whose filter takes every row whose [fk] is [k]
    leaves no such row. *)
Lemma delete_many_no_refs m w fk k d v d' :
  (forall kr r, rows_of m d !! kr = Some r -> fk_target r fk = Some k -> matches d m w r = true) ->
  delete_many m w d = (Ok v, d') -> no_refs_to d' m fk k.
Proof.
  intros Hall Hrun. apply delete_many_ok_inv in Hrun as (_ & _ & ->).
  intros kr r'. rewrite rows_of_removal.
  destruct (removed _ _ m kr) eqn:Hrm; [discriminate|].
  destruct (rows_of m d !! kr) as [r|] eqn:Hr; [|discriminate]. intros [= <-] Hfk.
  apply null_steps_fk_target in Hfk as [Hfk _].
  assert (Hsel : In (kr, r) (select_rows d m w)) by (apply select_rows_complete; [done|]; by apply (Hall kr r)).
  unfold removed in Hrm. rewrite bool_decide_true in Hrm by done.
  apply bool_decide_eq_false in Hrm. apply Hrm. apply list_elem_of_In, in_map_iff.
  by exists (kr, r).
Qed.

Lemma delete_many_posts_no_refs m k d v d' :
  db_wf d -> owned_target m "posts" = Some ("postId", MPost) ->
  delete_many m [CRel "posts" [CEq "id" (JNum (NInt k))]] d = (Ok v, d') ->
  no_refs_to d' m "postId" k.
Proof.
  intros Hwf Hot. apply delete_many_no_refs. intros kr r Hr Hfk.
  by apply (posts_filter_matches d m k kr r).
Qed.

(** The filter [{fk: k}] takes the rows whose [fk] is [k]. *)
Lemma fk_filter_matches d m fk k r : fk_target r fk = Some k -> matches d m [CEq fk (JNum (NInt k))] r = true.
Proof.
  intros Hfk. apply matches_cons_eq; [done..|]. split; [|done].
  unfold fk_target in Hfk. by destruct (alist_get fk r) as [[| | |[| | |]| | |]|]; try discriminate; injection Hfk as ->.
Qed.

Lemma restrict_violation_false d m ks :
  (forall m' fk, In (fk, m) (owned_fks m') -> fk_nullable m' fk = false ->
     forall kr r, rows_of m' d !! kr = Some r -> removed m ks m' kr = false -> points_into ks r fk = false) ->
  restrict_violation d m ks = false.
Proof.
  intros H. apply not_true_iff_false. intros Hv. unfold restrict_violation in Hv.
  apply existsb_exists in Hv as (m' & _ & Hv).
  apply existsb_exists in Hv as ([fk tgt] & Hin & Hv).
  apply andb_true_iff in Hv as [Hv Hrow]. apply andb_true_iff in Hv as [Ht Hn].
  apply bool_decide_eq_true in Ht. subst tgt. apply negb_true_iff in Hn.
  apply existsb_exists in Hrow as ([kr r] & Hkr & Hrow). apply andb_true_iff in Hrow as [Hrm Hp].
  apply negb_true_iff in Hrm. simpl in Hrm, Hp.
  apply list_elem_of_In, elem_of_map_to_list in Hkr.
  rewrite (H m' fk Hin Hn kr r Hkr Hrm) in Hp. discriminate.
Qed.

(** Nothing requires a like, an image or a comment to exist: deleting
    them never violates [Restrict] (a reply's [parentId] is optional). *)
Lemma restrict_violation_like d ks : restrict_violation d MLike ks = false.
Proof. reflexivity. Qed.

Lemma restrict_violation_image d ks : restrict_violation d MImage ks = false.
Proof. reflexivity. Qed.

Lemma restrict_violation_comment d ks : restrict_violation d MComment ks = false.
Proof. reflexivity. Qed.

(** A post with no like, comment or image pointing at it can be deleted. *)
Lemma restrict_violation_post d k :
  no_refs_to d MLike "postId" k -> no_refs_to d MComment "postId" k -> no_refs_to d MImage "postId" k ->
  restrict_violation d MPost [k] = false.
Proof.
  intros Hl Hc Hi. apply restrict_violation_false.
  intros m' fk Hin Hn kr r Hr _. unfold points_into.
  destruct (fk_target r fk) as [k'|] eqn:Hfk; [|done].
  apply bool_decide_eq_false. intros ->%list_elem_of_singleton.
  destruct m'; cbn in Hin; repeat destruct Hin as [Hin|Hin]; simplify_eq; try contradiction.
  - exact (Hc kr r Hr Hfk).
  - exact (Hl kr r Hr Hfk).
  - exact (Hi kr r Hr Hfk).
Qed.

Lemma delete_many_free m w d :
  (forall d ks, restrict_violation d m ks = false) -> check_conds m w = Ok tt ->
  exists v, delete_many m w d = (Ok v, map_db (removal m (map fst (select_rows d m w))) d).
Proof.
  intros Hfree Hc. unfold delete_many. st_unfold. rewrite Hc. simpl.
  rewrite remove_rows_run, Hfree. simpl. by eexists.
Qed.

(** [delete({where: {id: k}})] of a stored row: the removal of [k],
    which [Restrict] may refuse. *)
Lemma delete_id_step m k (r : row) d :
  db_wf d -> int32_ok k = true -> rows_of m d !! k = Some r ->
  delete m [CEq "id" (JNum (NInt k))] d =
    if restrict_violation d m [k] then (Err EForeignKey, d) else (Ok (JObj r), map_db (removal m [k]) d).
Proof.
  intros Hwf Hk Hr. unfold delete. st_unfold.
  assert (Hc : check_conds m [CEq "id" (JNum (NInt k))] = Ok tt)
    by (simpl; rewrite find_column_id; simpl; by rewrite Hk).
  rewrite Hc. simpl. rewrite find_column_id. simpl.
  pose proof (select_rows_id_head d m k Hwf) as Hh. rewrite Hr in Hh.
  destruct (select_rows d m _) as [|[k' r'] rest] eqn:Hsel; [discriminate|]. simpl in Hh. injection Hh as ->.
  assert (k' = k) as ->.
  { apply (select_rows_id d m k Hwf (k', r)). rewrite Hsel. apply in_eq. }
  rewrite remove_rows_run. by destruct (restrict_violation d m [k]).
Qed.

Lemma delete_id_run m k (r : row) d :
  db_wf d -> int32_ok k = true -> rows_of m d !! k = Some r -> restrict_violation d m [k] = false ->
  delete m [CEq "id" (JNum (NInt k))] d = (Ok (JObj r), map_db (removal m [k]) d).
Proof. intros Hwf Hk Hr Hrv. by rewrite (delete_id_step m k r d Hwf Hk Hr), Hrv. Qed.

Lemma null_steps_id m ks m' l r :
  (forall fk, ~ In (fk, m) l) -> fold_left (null_step m ks m') l r = r.
Proof.
  revert r. induction l as [|[fk tgt] l IH]; intros r H; [done|]. simpl.
  rewrite bool_decide_false by (intros ->; apply (H fk); left; done). simpl.
  apply IH. intros f Hf. apply (H f). by right.
Qed.

(** Rows that are not removed and hold no key to the removed model are
    left as they are. *)
Lemma removal_other_rows m ks m' d k :
  removed m ks m' k = false -> (forall fk, ~ In (fk, m) (owned_fks m')) ->
  rows_of m' (map_db (removal m ks) d) !! k = rows_of m' d !! k.
Proof.
  intros Hrm Hno. rewrite rows_of_removal, Hrm.
  destruct (rows_of m' d !! k); simpl; [|done]. f_equal. by apply null_steps_id.
Qed.

Lemma check_posts_filter m k :
  owned_target m "posts" = Some ("postId", MPost) -> int32_ok k = true ->
  check_conds m [CRel "posts" [CEq "id" (JNum (NInt k))]] = Ok tt.
Proof. intros Ho Hk. simpl. rewrite Ho. simpl. by rewrite Hk. Qed.

Lemma find_many_check_err m w sh d e :
  check_conds m w = Err e -> find_many m w sh d = (Err e, d).
Proof. intros Hc. unfold find_many. st_unfold. by rewrite Hc. Qed.

(** A number that is not a 32-bit integer, given for an [Int] column,
    fails validation. *)
Lemma check_cond_int_invalid m f c n :
  find_column m f = Some c -> col_type c = TInt -> (forall z, n = NInt z -> int32_ok z = false) ->
  exists msg, check_cond m (CEq f (JNum n)) = Err (EValidation msg).
Proof.
  intros Hf Ht Hz. cbn [check_cond]. rewrite Hf. unfold check_value. rewrite Ht.
  destruct n as [z| | |]; try by eexists. rewrite (Hz z eq_refl). by eexists.
Qed.

(** The rows of [m] whose fields [f1], [f2] hold the primitive values
    [v1], [v2]. *)
Lemma select_rows_two_eqs d m f1 v1 f2 v2 k r :
  v1 <> JUndefined -> is_prim v1 = true -> v2 <> JUndefined -> is_prim v2 = true ->
  In (k, r) (select_rows d m [CEq f1 v1; CEq f2 v2]) <->
  rows_of m d !! k = Some r /\ alist_get f1 r = Some v1 /\ alist_get f2 r = Some v2.
Proof.
  intros Hu1 Hp1 Hu2 Hp2. split.
  - intros [Hr Hm]%select_rows_lookup.
    apply matches_cons_eq in Hm as [E1 Hm]; [|done..]. apply matches_cons_eq in Hm as [E2 _]; done.
  - intros (Hr & E1 & E2). apply select_rows_complete; [done|].
    apply matches_cons_eq; [done..|]. split; [done|]. by apply matches_cons_eq.
Qed.

Lemma assigned_None asg c : (forall a, In a asg -> assignment_col a <> c) -> assigned asg c = None.
Proof.
  induction asg as [|a asg IH]; intros H; [done|]. rewrite assigned_cons.
  rewrite (proj2 (String.eqb_neq _ _) (H a (in_eq _ _))). apply IH. intros a' Ha'. apply H. by right.
Qed.

(** A created row holds [null] in every optional column without a
    default that no entry of [data] writes. *)
Lemma create_row_unwritten_column m o d v d' c :
  create_row m (JObj o) d = (Ok v, d') -> In c (columns m) -> col_name c <> "id" ->
  col_default c = NoDefault -> col_nullable c = true ->
  (forall k x a, In (k, x) o -> classify m ForCreate k x = Ok a -> assignment_col a <> col_name c) ->
  exists r, v = JObj r /\ alist_get (col_name c) r = Some JNull.
Proof.
  intros Hc Hin Hid Hdef Hnull Hno. apply create_row_ok_inv in Hc as (asg & r0 & k & Ha & Hb & -> & _).
  apply data_assignments_obj in Ha as [Has _].
  destruct (build_row_get asg (columns m) r0 c Hb (columns_nodup m) Hin) as (x & Hx & Hget).
  unfold column_value in Hx. rewrite assigned_None, Hdef, Hnull in Hx.
  - injection Hx as <-. eexists. split; [done|]. by rewrite alist_get_set_ne.
  - intros a Ha'. destruct (assignments_origin m ForCreate o asg Has a Ha') as (k' & x' & Hin' & Hcl).
    exact (Hno k' x' a Hin' Hcl).
Qed.

(** ** The autoincrement sequence *)

Lemma classify_col_ne_id m md k v a : classify m md k v = Ok a -> k <> "id" -> assignment_col a <> "id".
Proof.
  intros [(col & _ & Ha & _)|[(rel & fk & z & _ & Hr & Hk & ->)|(tgt & fk & many & ops & _ & ->)]]%classify_cases Hne.
  - by rewrite Ha.
  - apply (owned_fks_not_id m fk (rel_target rel)). by eapply find_relation_owned.
  - done.
Qed.

(** A [data] object whose [id] is absent or [undefined] assigns no
    [id]. *)
Lemma assignments_no_id m md o asg :
  assignments m md o = Ok asg -> (forall v, In ("id", v) o -> v = JUndefined) ->
  forall a, In a asg -> assignment_col a <> "id".
Proof.
  intros Has Hno a Hin. destruct (assignments_origin _ _ _ _ Has a Hin) as (k & x & Hkx & Hcl).
  destruct (String.eq_dec k "id") as [->|Hne]; [|by apply (classify_col_ne_id m md k x)].
  rewrite (Hno x Hkx) in Hcl. by destruct m, md.
Qed.

Lemma assigns_id_true asg a : In a asg -> assignment_col a = "id" -> assigns_id asg = true.
Proof. intros Hin Ha. apply existsb_exists. exists a. split; [done|]. by rewrite Ha. Qed.

Lemma assigns_id_false asg : (forall a, In a asg -> assignment_col a <> "id") -> assigns_id asg = false.
Proof.
  intros H. unfold assigns_id. apply not_true_is_false. intros (a & Hin & Heq)%existsb_exists.
  apply String.eqb_eq in Heq. exact (H a Hin Heq).
Qed.

(** A row built without an [id] assignment has no id yet. *)
Lemma build_row_no_id asg m r0 :
  (forall a, In a asg -> assignment_col a <> "id") -> build_row asg (columns m) = Ok r0 -> row_id r0 = None.
Proof.
  intros Hno Hb. destruct (build_row_get asg (columns m) r0 id_col Hb (columns_nodup m)) as (x & Hx & Hget).
  - destruct (columns_head_id m) as [cs ->]. apply in_eq.
  - unfold column_value in Hx. rewrite assigned_None in Hx by done. injection Hx as <-.
    unfold row_id, fk_target. cbn in Hget. by rewrite Hget.
Qed.

(** When the next value of the sequence is already a key (a row was
    created with an explicit [id]), a [create] without [id] cannot
    succeed: [nextval] hands out the taken key and the insert fails. *)
Lemma create_row_next_taken m data d v d' :
  (forall asg r0, data_assignments m ForCreate data = Ok asg -> build_row asg (columns m) = Ok r0 -> row_id r0 = None) ->
  is_Some (rows_of m d !! t_next (tbl m d)) -> create_row m data d <> (Ok v, d').
Proof.
  intros Hid Ht H. pose proof H as (asg & r0 & _ & Ha & Hb & _)%create_row_ok_inv. revert H.
  unfold create_row. rewrite st_lift_bind, Ha, st_lift_bind, Hb. st_unfold.
  destruct (negb (connects_okb d asg)); [discriminate|].
  unfold next_id. rewrite (Hid asg r0 Ha Hb). st_unfold. simpl.
  destruct (int32_max <? t_next (tbl m d))%Z; [discriminate|].
  unfold insert_row. st_unfold. simpl. rewrite rows_of_set_tbl, decide_True by done. simpl.
  rewrite bool_decide_true by done. discriminate.
Qed.

(** What a successful [create] without [id] required: a valid [data],
    the targets of its connects, and a sequence below [MAXVALUE]. *)
Lemma create_row_ok_facts m data d v d' :
  create_row m data d = (Ok v, d') ->
  exists asg r0, data_assignments m ForCreate data = Ok asg /\ build_row asg (columns m) = Ok r0 /\
    connects_okb d asg = true /\ (row_id r0 = None -> (t_next (tbl m d) <= int32_max)%Z).
Proof.
  unfold create_row. rewrite st_lift_bind.
  destruct (data_assignments m ForCreate data) as [asg|] eqn:Ha; [|discriminate].
  rewrite st_lift_bind. destruct (build_row asg (columns m)) as [r0|] eqn:Hb; [|discriminate].
  st_unfold. destruct (connects_okb d asg) eqn:Hc; simpl; [|discriminate].
  intros H. exists asg, r0. do 3 (split; [done|]). intros Hid.
  revert H. unfold next_id. rewrite Hid. st_unfold. simpl.
  destruct (Z.ltb_spec int32_max (t_next (tbl m d))); [discriminate|lia].
Qed.

(** A [create] without [id] whose [nextval] is a key already taken
    fails with [P2002] after the sequence has advanced. *)
Lemma create_row_next_taken_run m data d asg r0 :
  data_assignments m ForCreate data = Ok asg -> build_row asg (columns m) = Ok r0 -> row_id r0 = None ->
  connects_okb d asg = true -> (t_next (tbl m d) <= int32_max)%Z -> is_Some (rows_of m d !! t_next (tbl m d)) ->
  create_row m data d = (Err EUnique, set_tbl m (mkTable (rows_of m d) (t_next (tbl m d) + 1)) d).
Proof.
  intros Ha Hb Hid Hc Hmax Ht. unfold create_row. rewrite st_lift_bind, Ha, st_lift_bind, Hb. st_unfold.
  rewrite Hc. simpl. unfold next_id. rewrite Hid. st_unfold. simpl.
  rewrite (proj2 (Z.ltb_ge _ _) Hmax). unfold insert_row. st_unfold. simpl.
  rewrite rows_of_set_tbl, decide_True by done. simpl. rewrite bool_decide_true by done. reflexivity.
Qed.

(** The connects of a valid [data] only look at the targets of the
    model's foreign keys. *)
Lemma connects_okb_transfer m md data asg d d1 :
  data_assignments m md data = Ok asg ->
  (forall fk tgt, In (fk, tgt) (owned_fks m) -> rows_of tgt d1 = rows_of tgt d) ->
  connects_okb d1 asg = connects_okb d asg.
Proof.
  unfold data_assignments. destruct (data_entries data) as [o|]; simpl; [|discriminate].
  destruct (assignments m md o) as [asg'|] eqn:Has; simpl; [|discriminate].
  destruct (check_mode m asg'); simpl; [|discriminate]. intros [= <-] Hsame.
  apply forallb_ext_In. intros a0 Hin.
  destruct (assignments_origin m md o asg' Has a0 Hin) as (k & v & _ & Hcl).
  destruct (classify_cases m md k v a0 Hcl)
    as [(col & _ & _ & Hnc & _)|[(rel & fk & z & _ & Hr & Hk & ->)|(tgt & fk & many & ops & _ & ->)]];
    [by destruct a0|..|done].
  by rewrite (Hsame fk (rel_target rel)) by (by eapply find_relation_owned).
Qed.

(** Past [MAXVALUE], a [create] without [id] fails and leaves the
    store as it was: the sequence neither wraps around nor advances. *)
Lemma create_row_exhausted m data d :
  (forall asg r0, data_assignments m ForCreate data = Ok asg -> build_row asg (columns m) = Ok r0 -> row_id r0 = None) ->
  (int32_max < t_next (tbl m d))%Z -> exists e, create_row m data d = (Err e, d).
Proof.
  intros Hid Ht. unfold create_row. rewrite st_lift_bind.
  destruct (data_assignments m ForCreate data) as [asg|e] eqn:Ha; [|by exists e].
  rewrite st_lift_bind. destruct (build_row asg (columns m)) as [r0|e] eqn:Hb; [|by exists e].
  st_unfold. destruct (negb (connects_okb d asg)); [by eexists|].
  unfold next_id. rewrite (Hid asg r0 eq_refl Hb). st_unfold. simpl.
  rewrite (proj2 (Z.ltb_lt _ _) Ht). by eexists.
Qed.

(** A [data] object that writes a relation through [connect] and also
    a column the checked input type lacks (a foreign key or the [id]) is
    rejected before any statement runs. *)
Lemma create_row_mixed_fk m o d fk v rn x :
  In (fk, v) o -> is_undef v = false -> find_column m fk <> None -> checked_excluded m fk = true ->
  In (rn, x) o -> (forall a, classify m ForCreate rn x = Ok a -> is_connect a = true) -> is_undef x = false ->
  exists e, create_row m (JObj o) d = (Err e, d).
Proof.
  intros Hv Hu Hc Hfk Hx Hconn Hux. unfold create_row. rewrite st_lift_bind.
  destruct (data_assignments m ForCreate (JObj o)) as [asg|e] eqn:Ha; [|by exists e].
  exfalso. apply data_assignments_obj in Ha as [Has Hmode].
  destruct (assignments_complete m ForCreate o asg fk v Has Hv Hu) as (a & Hcl & Ha).
  destruct (assignments_complete m ForCreate o asg rn x Has Hx Hux) as (a' & Hcl' & Ha').
  apply classify_cases in Hcl as [(col & _ & Hca & Hnc & _)|[(rel & f & z & Hnone & _)|(tgt & f & many & ops & Hinv & _)]];
    [| done | by destruct (find_column m fk) eqn:Hf; [rewrite (inverse_rel_column m fk _ Hf) in Hinv|]].
  unfold check_mode in Hmode.
  assert (H1 : existsb is_connect asg = true) by (apply existsb_exists; exists a'; auto).
  assert (H2 : existsb (fun a => negb (is_connect a) && checked_excluded m (assignment_col a)) asg = true)
    by (apply existsb_exists; exists a; by rewrite Hnc, Hca).
  by rewrite H1, H2 in Hmode.
Qed.

(** An entry of [data] that cannot be classified makes [create] fail
    before any statement runs. *)
Lemma create_row_entry_err m o d k v :
  In (k, v) o -> is_undef v = false -> (forall a, classify m ForCreate k v <> Ok a) ->
  exists e, create_row m (JObj o) d = (Err e, d).
Proof.
  intros Hin Hu Hcl. unfold create_row. rewrite st_lift_bind.
  destruct (data_assignments m ForCreate (JObj o)) as [asg|e] eqn:Ha; [|by exists e].
  exfalso. apply data_assignments_obj in Ha as [Has _].
  destruct (assignments_complete m ForCreate o asg k v Has Hin Hu) as (a & Ha & _). exact (Hcl a Ha).
Qed.

(** An [Int] column refuses an integer outside 32 bits. *)
Lemma classify_int_out_of_range m md f c z a :
  find_column m f = Some c -> col_type c = TInt -> int32_ok z = false ->
  classify m md f (JNum (NInt z)) <> Ok a.
Proof.
  intros Hc Ht Hz. rewrite (classify_on_column m md f _ c Hc).
  unfold classify_flat, check_value. rewrite Hc, Ht, Hz. by destruct md.
Qed.

(** What a [create] does to the tables: on success one new row, under
    a key that was free, in its own table; on failure no row anywhere
    (only the sequence may have advanced). *)
Lemma create_row_rows m data d res d' :
  create_row m data d = (res, d') ->
  (forall m', m' <> m -> rows_of m' d' = rows_of m' d) /\
  match res with
  | Ok v => exists k r, v = JObj r /\ rows_of m d !! k = None /\ rows_of m d' = <[k := r]> (rows_of m d)
  | Err _ => rows_of m d' = rows_of m d
  end.
Proof.
  unfold create_row. rewrite st_lift_bind.
  destruct (data_assignments m ForCreate data) as [asg|e]; [|by intros [= <- <-]].
  rewrite st_lift_bind. destruct (build_row asg (columns m)) as [r0|e]; [|by intros [= <- <-]].
  st_unfold. destruct (negb (connects_okb d asg)); [by intros [= <- <-]|].
  assert (Hn : forall m', rows_of m' (next_id m r0 d).2 = rows_of m' d).
  { intros m'. unfold next_id. destruct (row_id r0); [done|]. st_unfold. simpl.
    case_match; [done|]. simpl. rewrite rows_of_set_tbl. by case_decide; subst. }
  destruct (next_id m r0 d) as [[k|e] d1]; simpl in Hn; [|intros [= <- <-]; by split].
  unfold insert_row. st_unfold. simpl.
  destruct (bool_decide (is_Some (rows_of m d1 !! k))) eqn:Hk; simpl; [intros [= <- <-]; by split|].
  destruct (unique_okb d1 m k _); simpl; [|intros [= <- <-]; by split].
  destruct (refs_okb d1 m _); simpl; [|intros [= <- <-]; by split].
  intros [= <- <-]. split.
  - intros m' Hne. rewrite rows_of_set_tbl, decide_False by done. apply Hn.
  - rewrite rows_of_set_tbl, decide_True by done. simpl. rewrite Hn in Hk |- *. eexists _, _. split; [done|].
    split; [|done]. apply eq_None_not_Some. intros Hs. by apply bool_decide_eq_false in Hk.
Qed.

(** ** Moving a row, functionally *)

(** A model with no foreign key into [m] is untouched by the cascade. *)
Lemma cascade_refs_other m k k' m' r :
  (forall fk, ~ In (fk, m) (owned_fks m')) -> cascade_refs m k k' m' r = r.
Proof.
  unfold cascade_refs. intros Hno. induction (owned_fks m') as [|[fk tgt] l IH] in r, Hno |- *; [done|].
  simpl. rewrite bool_decide_false; [apply IH|].
  - intros f Hf. apply (Hno f). by right.
  - intros ->. apply (Hno fk). by left.
Qed.

(** A foreign key that pointed at the moved row points at its new key. *)
Lemma cascade_refs_follow m k k' m' r fk :
  In (fk, m) (owned_fks m') -> fk_target r fk = Some k ->
  fk_target (cascade_refs m k k' m' r) fk = Some k'.
Proof.
  unfold cascade_refs. pose proof (owned_fks_nodup m') as Hnd.
  induction (owned_fks m') as [|[f tgt] l IH] in r, Hnd |- *; intros Hin Hr; [done|].
  simpl in Hnd. apply NoDup_cons in Hnd as [Hnot Hnd]. simpl.
  destruct Hin as [[= -> ->]|Hin].
  - unfold points_into. rewrite bool_decide_true, Hr by done.
    rewrite bool_decide_true by (by left). simpl.
    unfold fk_target. rewrite cascade_steps_get_other, alist_get_set_eq; [done|].
    intros t Ht. apply Hnot. apply list_elem_of_In, in_map_iff. by exists (fk, t).
  - apply IH; [done..|]. case_match; [|done].
    rewrite fk_target_set_ne; [done|]. intros ->. apply Hnot.
    apply list_elem_of_In, in_map_iff. by exists (fk, m).
Qed.

(** ** Update operations *)

Lemma classify_arith m f col name op n :
  find_column m f = Some col -> col_type col = TInt -> arith_of name = Some op -> int32_ok n = true ->
  classify m ForUpdate f (JObj [(name, JNum (NInt n))]) = Ok (AArith f op n).
Proof.
  intros Hc Ht Hop Hn. rewrite (classify_on_column m ForUpdate f _ col Hc).
  unfold classify_flat, classify_update_op. rewrite Hc.
  destruct (String.eqb_spec name "set") as [->|_]; [discriminate|]. by rewrite Hop, Ht, Hn.
Qed.

(** A [data] object with one arithmetic operation on an [Int] column. *)
Lemma data_assignments_arith m f col name op n :
  find_column m f = Some col -> col_type col = TInt -> arith_of name = Some op -> int32_ok n = true ->
  data_assignments m ForUpdate (JObj [(f, JObj [(name, JNum (NInt n))])]) = Ok [AArith f op n].
Proof.
  intros Hc Ht Hop Hn. unfold data_assignments. cbn [data_entries res_bind].
  rewrite assignments_cons. cbn [is_undef]. rewrite (classify_arith m f col name op n Hc Ht Hop Hn).
  reflexivity.
Qed.

(** ** Rewriting a row with itself *)

Lemma refs_okb_complete d m r : refs_ok d m r -> refs_okb d m r = true.
Proof.
  intros H. unfold refs_okb. apply forallb_forall. intros [fk tgt] Hin.
  destruct (fk_target r fk) as [k|] eqn:Hk; [|done]. apply bool_decide_eq_true. by apply (H fk tgt k).
Qed.

(** In a model whose only unique column is [id] (a post), a stored row
    of a well-formed store passes the unique check at its own key. *)
Lemma unique_okb_own_id d m k r :
  db_wf d -> (forall c, In c (columns m) -> col_unique c = true -> col_name c = "id") ->
  row_id r = Some k -> unique_okb d m k r = true.
Proof.
  intros Hwf Hu Hid. unfold unique_okb. apply forallb_forall. intros c Hc.
  destruct (col_unique c) eqn:Hcu; [|done]. rewrite (Hu c Hc Hcu).
  unfold row_id, fk_target in Hid.
  destruct (alist_get "id" r) as [[| | |[z| | |]| | |]|] eqn:Hg; try discriminate. injection Hid as ->.
  apply forallb_forall. intros [k' r'] Hin%list_elem_of_In. apply elem_of_map_to_list in Hin.
  destruct (Hwf m k' r' Hin) as [Hid' _]. unfold row_id, fk_target in Hid'. simpl.
  destruct (decide (k' = k)) as [->|Hne]; [by rewrite bool_decide_true|].
  rewrite bool_decide_false by done. simpl.
  destruct (alist_get "id" r') as [[| | |[z'| | |]| | |]|]; try discriminate. injection Hid' as ->.
  simpl. apply negb_true_iff, bool_decide_eq_false. congruence.
Qed.

Lemma unique_okb_id_only d m k r :
  db_wf d -> (forall c, In c (columns m) -> col_unique c = true -> col_name c = "id") ->
  rows_of m d !! k = Some r -> unique_okb d m k r = true.
Proof. intros Hwf Hu Hr. apply unique_okb_own_id; [done..|]. exact (proj1 (Hwf m k r Hr)). Qed.

(** An [INSERT] whose id comes from the sequence succeeds when the
    sequence's next value is free and within [Int], in a model whose only
    unique column is [id], when the row's foreign keys resolve: the row
    is stored under that value and the sequence moves on. *)
Lemma create_row_new m data asg r0 d :
  db_wf d -> (forall c, In c (columns m) -> col_unique c = true -> col_name c = "id") ->
  data_assignments m ForCreate data = Ok asg -> build_row asg (columns m) = Ok r0 -> row_id r0 = None ->
  connects_okb d asg = true -> rows_of m d !! t_next (tbl m d) = None -> (t_next (tbl m d) <= int32_max)%Z ->
  refs_ok d m (alist_set "id" (JNum (NInt (t_next (tbl m d)))) r0) ->
  let k := t_next (tbl m d) in let r := alist_set "id" (JNum (NInt k)) r0 in
  create_row m data d = (Ok (JObj r), set_tbl m (mkTable (<[k := r]> (rows_of m d)) (k + 1)) d).
Proof.
  intros Hwf Hu Ha Hb Hid Hc Hfree Hmax Hrefs k r.
  unfold create_row. rewrite st_lift_bind, Ha, st_lift_bind, Hb. st_unfold. rewrite Hc. simpl.
  unfold next_id. rewrite Hid. st_unfold.
  rewrite (proj2 (Z.ltb_ge _ _) Hmax). unfold insert_row. st_unfold.
  set (d1 := set_tbl m _ d).
  assert (Hrows : forall m', rows_of m' d1 = rows_of m' d)
    by (intros m'; unfold d1; rewrite rows_of_set_tbl; case_decide; subst; done).
  rewrite Hrows, Hfree. simpl.
  assert (Hwf1 : db_wf d1) by (intros m' k' r' Hr'; rewrite Hrows in Hr'; destruct (Hwf m' k' r' Hr') as [? Hf];
                              split; [done|]; intros fk tgt z Hin Hz; rewrite Hrows; exact (Hf fk tgt z Hin Hz)).
  assert (Hid' : row_id (alist_set "id" (JNum (NInt (t_next (tbl m d)))) r0) = Some (t_next (tbl m d)))
    by (unfold row_id, fk_target; by rewrite alist_get_set_eq).
  rewrite (unique_okb_own_id d1 m _ _ Hwf1 Hu Hid'), refs_okb_complete; cycle 1.
  { intros fk tgt z Hin Hz. rewrite Hrows. exact (Hrefs fk tgt z Hin Hz). }
  unfold put_row. st_unfold. cbn -[rows_of tbl set_tbl]. rewrite Hrows. unfold d1. rewrite set_tbl_twice, tbl_set_tbl_eq. done.
Qed.

Lemma set_tbl_self m d : set_tbl m (mkTable (rows_of m d) (t_next (tbl m d))) d = d.
Proof. unfold rows_of. destruct m, d as [[] [] [] [] []]; reflexivity. Qed.

Lemma write_row_same m k r d :
  db_wf d -> (forall c, In c (columns m) -> col_unique c = true -> col_name c = "id") ->
  rows_of m d !! k = Some r -> write_row m k r d = (Ok tt, d).
Proof.
  intros Hwf Hu Hr. unfold write_row, put_row. st_unfold.
  rewrite unique_okb_id_only, refs_okb_complete by (done || exact (proj2 (Hwf m k r Hr))). simpl.
  rewrite insert_id by done. by rewrite set_tbl_self.
Qed.

(** An [update] by [id] whose [data] leaves the row as it is (in a
    post: nested writes only) writes the row back unchanged. *)
Lemma update_row_same m k r data asg d :
  db_wf d -> int32_ok k = true -> rows_of m d !! k = Some r ->
  (forall c, In c (columns m) -> col_unique c = true -> col_name c = "id") ->
  data_assignments m ForUpdate data = Ok asg -> connects_okb d asg = true ->
  apply_assignments asg r = Ok r -> assigns_id asg = false ->
  update_row m [CEq "id" (JNum (NInt k))] data d = (Ok (JObj r), d).
Proof.
  intros Hwf Hk Hr Hu Ha Hc Hap Hid. unfold update_row. st_unfold.
  replace (check_conds m _) with (@Ok perr unit tt) by (simpl; rewrite find_column_id; simpl; by rewrite Hk).
  replace (unique_where m _) with true by (unfold unique_where; simpl; by rewrite find_column_id). simpl.
  rewrite Ha. simpl. pose proof (select_rows_id d m k Hwf) as Hs.
  pose proof (select_rows_id_head d m k Hwf) as Hh. rewrite Hr in Hh.
  destruct (select_rows d m _) as [|[k0 r0] rest]; [discriminate|]. simpl in Hh. injection Hh as ->.
  destruct (proj1 (Hs (k0, r)) (or_introl eq_refl)) as [Hk0 _]. simpl in Hk0. subst k0.
  rewrite Hc, Hap, Hid. simpl. by rewrite (write_row_same m k r d Hwf Hu Hr).
Qed.

(** A [deleteMany] keeps (up to [SetNull]) the rows its filter does not
    take. *)
Lemma removal_unselected d m w kc (rc : row) :
  rows_of m d !! kc = Some rc -> matches d m w rc = false ->
  is_Some (rows_of m (map_db (removal m (map fst (select_rows d m w))) d) !! kc).
Proof.
  intros Hr Hm. rewrite rows_of_removal. unfold removed. rewrite bool_decide_true by done. simpl.
  case_bool_decide as Hin; [|by rewrite Hr].
  apply list_elem_of_In, in_map_iff in Hin as ([k' r'] & <- & Hsel). simpl in *.
  apply select_rows_lookup in Hsel as [Hr' Hm']. congruence.
Qed.

Lemma fk_filter_unmatched d m fk k (r : row) :
  fk_target r fk <> Some k -> matches d m [CEq fk (JNum (NInt k))] r = false.
Proof.
  intros Hne. apply not_true_iff_false. intros [Hg _]%matches_cons_eq; [|done|done].
  apply Hne. unfold fk_target. by rewrite Hg.
Qed.

(** ** Updating one foreign key *)

(** A row whose [id] is that of a stored row passes the unique check
    in a model whose only unique column is [id]. *)
Lemma unique_okb_same_id d m k (r r' : row) :
  db_wf d -> (forall c, In c (columns m) -> col_unique c = true -> col_name c = "id") ->
  rows_of m d !! k = Some r -> alist_get "id" r' = alist_get "id" r -> unique_okb d m k r' = true.
Proof.
  intros Hwf Hu Hr Hid'. pose proof (unique_okb_id_only d m k r Hwf Hu Hr) as H.
  unfold unique_okb in *. rewrite forallb_forall in H |- *. intros c Hc. specialize (H c Hc).
  destruct (col_unique c) eqn:Hcu; [|done]. by rewrite (Hu c Hc Hcu), Hid' in *.
Qed.

Lemma fk_target_set r fk fk' z :
  fk_target (alist_set fk (JNum (NInt z)) r) fk' = if String.eqb fk' fk then Some z else fk_target r fk'.
Proof.
  unfold fk_target. destruct (String.eqb_spec fk' fk) as [->|Hne].
  - by rewrite alist_get_set_eq.
  - by rewrite alist_get_set_ne by congruence.
Qed.

(** The [UPDATE] by [id] of a stored row, in a model whose only unique
    column is [id], with one assignment that leaves the [id] alone and
    after which the row's foreign keys resolve. *)
Lemma update_row_one m k (r r' : row) data a d :
  db_wf d -> int32_ok k = true -> rows_of m d !! k = Some r ->
  (forall c, In c (columns m) -> col_unique c = true -> col_name c = "id") ->
  data_assignments m ForUpdate data = Ok [a] -> connects_okb d [a] = true ->
  apply_assignments [a] r = Ok r' -> String.eqb (assignment_col a) "id" = false ->
  alist_get "id" r' = alist_get "id" r -> refs_ok d m r' ->
  update_row m [CEq "id" (JNum (NInt k))] data d =
    (Ok (JObj r'), set_tbl m (mkTable (<[k := r']> (rows_of m d)) (t_next (tbl m d))) d).
Proof.
  intros Hwf Hk Hr Hu Ha Hc Hap Hnid Hid Hrefs.
  unfold update_row. st_unfold.
  replace (check_conds m _) with (@Ok perr unit tt) by (simpl; rewrite find_column_id; simpl; by rewrite Hk).
  replace (unique_where m _) with true by (unfold unique_where; simpl; by rewrite find_column_id).
  cbn -[connects_okb apply_assignments select_rows]. rewrite Ha. cbn -[connects_okb apply_assignments select_rows]. pose proof (select_rows_id d m k Hwf) as Hs.
  pose proof (select_rows_id_head d m k Hwf) as Hh. rewrite Hr in Hh.
  destruct (select_rows d m _) as [|[k0 r0] rest]; [discriminate|]. simpl in Hh. injection Hh as ->.
  destruct (proj1 (Hs (k0, r)) (or_introl eq_refl)) as [Hk0 _]. simpl in Hk0. subst k0.
  rewrite Hc, Hap. unfold assigns_id. simpl. rewrite Hnid. simpl.
  unfold write_row, put_row. st_unfold.
  rewrite (unique_okb_same_id d m k r r' Hwf Hu Hr Hid). by rewrite refs_okb_complete.
Qed.

(** The [UPDATE] by [id] that sets one column [f] (not the [id]). *)
Lemma update_row_set m k (r : row) f x d :
  db_wf d -> int32_ok k = true -> rows_of m d !! k = Some r ->
  (forall c, In c (columns m) -> col_unique c = true -> col_name c = "id") -> f <> "id" ->
  data_assignments m ForUpdate (JObj [(f, x)]) = Ok [AScalar f x] -> refs_ok d m (alist_set f x r) ->
  let r' := alist_set f x r in
  update_row m [CEq "id" (JNum (NInt k))] (JObj [(f, x)]) d =
    (Ok (JObj r'), set_tbl m (mkTable (<[k := r']> (rows_of m d)) (t_next (tbl m d))) d).
Proof.
  intros Hwf Hk Hr Hu Hnid Ha Hrefs r'. apply (update_row_one m k r r' _ (AScalar f x)); try done.
  - by apply String.eqb_neq.
  - unfold r'. by rewrite alist_get_set_ne by congruence.
Qed.

(** The [UPDATE] by [id] that sets the foreign key [fk] of a stored row
    to an existing row [z], in a model whose only unique column is [id]. *)
Lemma update_row_set_fk m k (r : row) fk tgt z d :
  db_wf d -> int32_ok k = true -> rows_of m d !! k = Some r ->
  (forall c, In c (columns m) -> col_unique c = true -> col_name c = "id") ->
  In (fk, tgt) (owned_fks m) -> is_Some (rows_of tgt d !! z) ->
  data_assignments m ForUpdate (JObj [(fk, JNum (NInt z))]) = Ok [AScalar fk (JNum (NInt z))] ->
  let r' := alist_set fk (JNum (NInt z)) r in
  update_row m [CEq "id" (JNum (NInt k))] (JObj [(fk, JNum (NInt z))]) d =
    (Ok (JObj r'), set_tbl m (mkTable (<[k := r']> (rows_of m d)) (t_next (tbl m d))) d).
Proof.
  intros Hwf Hk Hr Hu Hfk Hz Ha r'. apply update_row_set; [done.. | exact (owned_fks_not_id m fk tgt Hfk) | done |].
  intros fk' tgt' k' Hin. rewrite fk_target_set. destruct (String.eqb_spec fk' fk) as [->|Hne].
  - intros [= <-]. pose proof (owned_fks_nodup m) as Hnd.
    by rewrite <- (nodup_fst_In_eq (owned_fks m) fk tgt tgt' Hnd Hfk Hin).
  - apply (proj2 (Hwf m k r Hr) fk' tgt' k' Hin).
Qed.

(** Setting a field that is no foreign key keeps the references. *)
Lemma refs_ok_set_plain d m (r : row) f x :
  refs_ok d m r -> (forall tgt, ~ In (f, tgt) (owned_fks m)) -> refs_ok d m (alist_set f x r).
Proof.
  intros Hr Hf fk tgt k Hin. unfold fk_target. rewrite alist_get_set_ne; [apply (Hr fk tgt k Hin)|].
  intros ->. by apply (Hf tgt).
Qed.

(** ** Filters of nested writes *)

Lemma filter_conds_check tgt x w : filter_conds tgt x = Ok w -> check_conds tgt w = Ok tt.
Proof.
  unfold filter_conds. destruct (where_conds tgt x) as [w'|]; simpl; [|discriminate].
  destruct (check_conds tgt w') as [[]|] eqn:E; simpl; [|discriminate]. by intros [= <-].
Qed.

(** A row is among the selected keys exactly when it matches. *)
Lemma selected_key_iff d m w kc (rc : row) :
  rows_of m d !! kc = Some rc -> kc ∈ map fst (select_rows d m w) <-> matches d m w rc = true.
Proof.
  intros Hr. rewrite list_elem_of_In, in_map_iff. split.
  - intros ([k r] & <- & Hin). apply select_rows_lookup in Hin as [Hr' Hm]. simpl in *. congruence.
  - intros Hm. exists (kc, rc). split; [done|]. by apply select_rows_complete.
Qed.

(** A filter that starts with the parent's foreign key. *)
Lemma matches_fk_cons d m fk k w (r : row) :
  matches d m (CEq fk (JNum (NInt k)) :: w) r = true <-> fk_target r fk = Some k /\ matches d m w r = true.
Proof.
  rewrite matches_cons_eq by done. unfold fk_target.
  split; intros [Hg Hm]; (split; [|done]).
  - by rewrite Hg.
  - destruct (alist_get fk r) as [[| | |[]| | |]|]; simplify_eq; done.
Qed.

(** The rows of [m] left by a removal from [m] of the keys [ks]. *)
Lemma removal_kept m ks d k :
  is_Some (rows_of m (map_db (removal m ks) d) !! k) <-> is_Some (rows_of m d !! k) /\ k ∉ ks.
Proof.
  rewrite rows_of_removal. unfold removed. rewrite bool_decide_true by done. simpl.
  case_bool_decide as Hk.
  - split; [by intros [? ?] | by intros [_ ?]].
  - rewrite fmap_is_Some. tauto.
Qed.

(** The [LIKE] operators on strings without wildcards: prefix, infix,
    suffix. *)
Lemma is_prefix_spec p s : is_prefix p s = true <-> exists t, s = (p ++ t)%list.
Proof.
  revert s. induction p as [|a p IH]; intros [|b s]; simpl; split; try done.
  - by exists [].
  - by exists (b :: s).
  - by intros [t ?].
  - intros [Hab Hp]%andb_true_iff. apply Ascii.eqb_eq in Hab as ->. apply IH in Hp as [t ->]. by exists t.
  - intros [t [= -> ->]]. apply andb_true_iff. split; [apply Ascii.eqb_refl|]. apply IH. by exists t.
Qed.

Lemma is_infix_spec p s : is_infix p s = true <-> exists a b, s = (a ++ p ++ b)%list.
Proof.
  induction s as [|c s IH]; simpl; rewrite orb_true_iff, is_prefix_spec.
  - split; [intros [[t E]|[=]]; by exists [], t|].
    intros ([|] & b & E); [left; by exists b | discriminate].
  - rewrite IH. split.
    + intros [[t E]|(a & b & ->)]; [by exists [], t | by exists (c :: a), b].
    + intros ([|c' a] & b & E); [left; by exists b | right; injection E as -> ->; by exists a, b].
Qed.

Lemma is_suffix_spec p s : is_suffix p s = true <-> exists a, s = (a ++ p)%list.
Proof.
  unfold is_suffix. rewrite is_prefix_spec. split.
  - intros [t E]. exists (rev t). by rewrite <- (rev_involutive s), E, rev_app_distr, rev_involutive.
  - intros [a ->]. exists (rev a). by rewrite rev_app_distr.
Qed.

(** [NOT] is the complement of a filter on the rows where the filter is
    not [UNKNOWN]; where a compared value is [NULL], neither the filter
    nor its negation selects the row. *)
Lemma not_complement d m r c :
  cond_tv d m r c <> None -> cond_holds d m r (CNot [c]) = negb (cond_holds d m r c).
Proof. unfold cond_holds. cbn [cond_tv map tv_all fold_right]. by destruct (cond_tv d m r c) as [[]|]. Qed.

Lemma null_neither d m r f v :
  alist_get f r = Some JNull -> v <> JNull -> v <> JUndefined ->
  cond_holds d m r (CEq f v) = false /\ cond_holds d m r (CNot [CEq f v]) = false.
Proof.
  intros Hf Hn Hu. unfold cond_holds. cbn [cond_tv map tv_all fold_right]. unfold field_tv.
  destruct v; try done; rewrite Hf; done.
Qed.

Lemma find_column_logical m k : find_column m k <> None -> k <> "AND" /\ k <> "OR" /\ k <> "NOT".
Proof. intros Hc. repeat split; intros ->; by destruct m. Qed.

(** A filter object of plain values on columns is the conjunction of
    their equalities. *)
Lemma where_conds_plain m o :
  Forall (fun '(k, v) => find_column m k <> None /\ is_prim v = true) o ->
  where_conds m (JObj o) = Ok (map (fun '(k, v) => CEq k v) o).
Proof.
  induction o as [|[k v] o IH]; intros Ho; [done|]. apply Forall_cons in Ho as [[Hc Hp] Ho].
  destruct (find_column_logical m k Hc) as (Ha & Hor & Hn).
  cbn -[String.eqb]. rewrite !(proj2 (String.eqb_neq _ _)) by done.
  destruct (find_column m k) as [col|]; [|done].
  specialize (IH Ho). cbn in IH. destruct v; try discriminate; simpl; by rewrite IH.
Qed.
