(* ===== verification/Typing.v ===== *)
(** * The typed store

    Prisma checks every value it writes against the column's type
    ([check_value]), and the database keeps each autoincrement sequence
    below its [MAXVALUE] ([next_id]).  [db_typed] states the outcome:
    every row holds exactly the columns of its model, in schema order,
    each with a value of the column's type ([has_type]; an [Int] is a
    32-bit integer) or [null] where the column is optional, and every
    sequence stays within [1 .. 2^31].  Each operation of [Store]
    preserves it, which the [st_preserves] instances at the end record
    for the handlers. *)

From stdpp Require Import base list strings gmap.
From Stdlib Require Import ZArith String.
From S2P Require Import Prelude JsValue Schema Store StoreFacts.

Local Open Scope string_scope.

(** A non-null value of a column type. *)
Inductive has_type : coltype -> jsval -> Prop :=
| has_type_int z : int32_ok z = true -> has_type TInt (JNum (NInt z))
| has_type_string s : has_type TString (JStr s)
| has_type_bool b : has_type TBool (JBool b).

#[export] Instance has_type_dec t v : Decision (has_type t v).
Proof.
  destruct t, v as [| |b|[z| | |]|s| |];
    try (right; inversion 1; fail); try (left; constructor; fail).
  destruct (int32_ok z) eqn:E; [left; by constructor|right; inversion 1; congruence].
Defined.

(** A value a column can hold. *)
Definition value_ok (c : column) (v : jsval) : Prop :=
  has_type (col_type c) v \/ (v = JNull /\ col_nullable c = true).

#[export] Instance value_ok_dec c v : Decision (value_ok c v).
Proof.
  unfold value_ok. destruct (decide (has_type (col_type c) v)) as [H|H]; [left; by left|].
  destruct v; try (right; intros [?|[? _]]; congruence).
  destruct (col_nullable c); [left; by right|right; intros [?|[_ ?]]; congruence].
Defined.

(** The entry of a row for column [c]. *)
Definition entry_ok (c : column) (kv : string * jsval) : Prop :=
  kv.1 = col_name c /\ value_ok c kv.2.

(** A stored row: its entries are the model's columns, in order. *)
Definition row_typed (m : model) (r : row) : Prop := Forall2 entry_ok (columns m) r.

(** A row built by [create] before its id is known: the autoincremented
    column may still be [undefined]. *)
Definition slot_ok (c : column) (kv : string * jsval) : Prop :=
  kv.1 = col_name c /\ (value_ok c kv.2 \/ (kv.2 = JUndefined /\ col_default c = Autoincrement)).

(** The next value of a sequence: from 1, and at most one past
    [MAXVALUE] (the sequence is then exhausted). *)
Definition seq_ok (t : table) : Prop := (1 <= t_next t <= int32_max + 1)%Z.

Definition db_typed (d : db) : Prop :=
  forall m, map_Forall (fun _ => row_typed m) (rows_of m d) /\ seq_ok (tbl m d).

#[export] Instance row_typed_dec m r : Decision (row_typed m r).
Proof. unfold row_typed, entry_ok. apply _. Defined.

#[export] Instance seq_ok_dec t : Decision (seq_ok t).
Proof. unfold seq_ok. apply _. Defined.

(** A decision procedure for [db_typed], for concrete databases. *)
Definition db_typedb (d : db) : bool :=
  forallb (fun m => bool_decide (map_Forall (fun _ => row_typed m) (rows_of m d) /\ seq_ok (tbl m d)))
          all_models.

(** What one validated assignment writes is a value of its column; an
    arithmetic operation is on an [Int] column; a nested write names a
    relation, no column. *)
Definition asg_ok (m : model) (a : assignment) : Prop :=
  if is_nested a then find_column m (assignment_col a) = None else
  exists c, find_column m (assignment_col a) = Some c /\
    if is_arith a then col_type c = TInt else value_ok c (assignment_value a).

(** * Lemmas *)

(** ** Columns and values *)

Lemma int32_ok_range z : int32_ok z = true <-> (-2147483648 <= z <= int32_max)%Z.
Proof. unfold int32_ok, int32_max. rewrite andb_true_iff, !Z.leb_le. done. Qed.

(** An [Int] id printed in a URL reads back as itself. *)
Lemma string_to_number_int32 z : int32_ok z = true -> string_to_number (int_to_string z) = NInt z.
Proof.
  intros Hz. apply string_to_number_int_to_string.
  apply int32_ok_range in Hz. unfold int32_max in Hz. lia.
Qed.

Lemma find_column_In m c : In c (columns m) -> find_column m (col_name c) = Some c.
Proof.
  unfold find_column. pose proof (columns_nodup m) as Hnd. induction (columns m) as [|c0 cs IH]; [done|].
  simpl in Hnd. apply NoDup_cons in Hnd as [Hnot Hnd]. intros [->|Hin]; simpl.
  - by rewrite String.eqb_refl.
  - destruct (String.eqb_spec (col_name c0) (col_name c)) as [Heq|]; [|by apply IH].
    exfalso. apply Hnot. rewrite Heq. apply list_elem_of_In, in_map, Hin.
Qed.

Lemma default_value_ok m c v : In c (columns m) -> col_default c = DefaultTo v -> value_ok c v.
Proof.
  destruct m; simpl; intros Hin; repeat destruct Hin as [<-|Hin]; try contradiction;
    simpl; intros [= <-]; left; constructor.
Qed.

Lemma columns_tail_no_autoincrement m cs :
  columns m = id_col :: cs -> Forall (fun c => col_default c <> Autoincrement) cs.
Proof. destruct m; intros [= <-]; repeat constructor; discriminate. Qed.

Lemma check_value_ok c v v' : check_value c v = Ok v' -> value_ok c v'.
Proof.
  unfold check_value, value_ok. destruct v as [| |b|[z| | |]|s| |], (col_type c) eqn:Ht;
    try discriminate; try (destruct (col_nullable c) eqn:Hn; [|discriminate]; intros [= <-]; by right);
    try (intros [= <-]; left; constructor).
  all: destruct (int32_ok z) eqn:Hz; [|discriminate]. intros [= <-]. left. by constructor.
Qed.

Lemma classify_update_op_ok m k col o a :
  find_column m k = Some col -> classify_update_op k col o = Ok a -> asg_ok m a.
Proof.
  intros Hc. unfold classify_update_op. destruct o as [|[name x] [|]]; try discriminate.
  destruct (String.eqb name "set").
  { destruct (check_value col x) as [x'|] eqn:Hx; simpl; [|discriminate].
    intros [= <-]. exists col. split; [done|]. by eapply check_value_ok. }
  destruct (arith_of name), (col_type col) eqn:Ht, x as [| | |[n| | |]| | |]; try discriminate.
  destruct (int32_ok n); [|discriminate]. intros [= <-]. by exists col.
Qed.

Lemma classify_ok m md k v a : classify m md k v = Ok a -> asg_ok m a.
Proof.
  unfold classify. destruct (inverse_rel m k) as [[[tgt fk] many]|] eqn:Hinv.
  { destruct (classify_nested md tgt fk many v); simpl; [|discriminate]. intros [= <-].
    unfold inverse_rel in Hinv. cbn [asg_ok is_nested assignment_col]. by destruct (find_column m k). }
  unfold classify_flat. destruct (find_column m k) as [col|] eqn:Hc.
  - intros H. assert (Hv : forall v', check_value col v = Ok v' -> a = AScalar k v' -> asg_ok m a).
    { intros v' Hv ->. exists col. split; [done|]. by eapply check_value_ok. }
    destruct md, v as [| | | | | |o]; try discriminate; try (by eapply classify_update_op_ok);
      (destruct (check_value col _) as [v'|] eqn:Hcv; simpl in H; [|discriminate];
       injection H as <-; by apply (Hv v')).
  - destruct (find_relation m k) as [rel|] eqn:Hr; [|discriminate].
    destruct (rel_kind rel) as [fk| |] eqn:Hk, (connect_arg v) as [[| | |[z| | |]| | |]|];
      try discriminate.
    destruct (int32_ok z) eqn:Hz; [|discriminate]. intros [= <-].
    destruct (owned_fks_columns m fk (rel_target rel)) as (c & Hfc & Ht).
    { by eapply find_relation_owned. }
    exists c. split; [done|]. left. rewrite Ht. by constructor.
Qed.

Lemma data_assignments_ok m md data asg : data_assignments m md data = Ok asg -> Forall (asg_ok m) asg.
Proof.
  destruct data as [| | | | | |o]; try discriminate.
  intros [Has _]%data_assignments_obj. apply Forall_forall. intros a Ha%list_elem_of_In.
  destruct (assignments_origin m md o asg Has a Ha) as (k & v & _ & Hc). eauto using classify_ok.
Qed.

(** A [create] carries no arithmetic operation. *)
Lemma data_assignments_create_plain m data asg :
  data_assignments m ForCreate data = Ok asg -> Forall (fun a => is_arith a = false) asg.
Proof.
  destruct data as [| | | | | |o]; try discriminate.
  intros [Has _]%data_assignments_obj. apply Forall_forall. intros a Ha%list_elem_of_In.
  destruct (assignments_origin m ForCreate o asg Has a Ha) as (k & v & _ & Hc).
  apply classify_cases in Hc as [(col & _ & _ & _ & Ha')|[(rel & fk & z & _ & _ & _ & ->)|(tgt & fk & many & ops & _ & ->)]];
    [|done|done].
  by rewrite (Ha' eq_refl).
Qed.

Lemma assigned_value_ok m asg c v :
  Forall (asg_ok m) asg -> Forall (fun a => is_arith a = false) asg ->
  In c (columns m) -> assigned asg (col_name c) = Some v -> value_ok c v.
Proof.
  intros Hasg Hpl Hin. induction Hasg as [|a asg Hok _ IH]; [done|].
  inversion Hpl as [|? ? Ha Hpl']; subst. rewrite assigned_cons.
  destruct (String.eqb_spec (assignment_col a) (col_name c)) as [Heq|]; [|by apply IH].
  unfold asg_ok in Hok. destruct (is_nested a).
  { rewrite Heq, find_column_In in Hok by done. discriminate. }
  destruct Hok as (c' & Hc' & Hv). intros [= <-]. rewrite Ha in Hv. rewrite Heq, find_column_In in Hc' by done. by injection Hc' as ->.
Qed.

(** ** Rows *)

Lemma column_value_slot m asg c v :
  Forall (asg_ok m) asg -> Forall (fun a => is_arith a = false) asg ->
  In c (columns m) -> column_value asg c = Ok v ->
  value_ok c v \/ (v = JUndefined /\ col_default c = Autoincrement).
Proof.
  intros Hasg Hpl Hin. unfold column_value.
  destruct (assigned asg (col_name c)) as [x|] eqn:Ha.
  { intros [= <-]. left. by eapply assigned_value_ok. }
  destruct (col_default c) as [| |x] eqn:Hd.
  - destruct (col_nullable c) eqn:Hn; [|discriminate]. intros [= <-]. left. by right.
  - intros [= <-]. by right.
  - intros [= <-]. left. by eapply default_value_ok.
Qed.

Lemma build_row_slots m asg cs r :
  Forall (asg_ok m) asg -> Forall (fun a => is_arith a = false) asg ->
  (forall c, In c cs -> In c (columns m)) -> build_row asg cs = Ok r -> Forall2 slot_ok cs r.
Proof.
  intros Hasg Hpl. revert r. induction cs as [|c cs IH]; intros r Hcs Hb; simpl in Hb.
  { injection Hb as <-. constructor. }
  destruct (column_value asg c) as [v|] eqn:Hv; simpl in Hb; [|discriminate].
  destruct (build_row asg cs) as [r'|]; simpl in Hb; [|discriminate]. injection Hb as <-.
  constructor.
  - split; [done|]. eapply column_value_slot; eauto using in_eq.
  - apply IH; [|done]. intros c' Hc'. apply Hcs. by right.
Qed.

Lemma slots_typed cs r :
  Forall (fun c => col_default c <> Autoincrement) cs -> Forall2 slot_ok cs r -> Forall2 entry_ok cs r.
Proof.
  intros Hcs Hr. induction Hr as [|c kv cs r [Hk Hv] _ IH]; constructor; inversion Hcs; subst.
  - split; [done|]. by destruct Hv as [|[_ ?]].
  - by apply IH.
Qed.

(** The id the sequence or the data gives completes a built row. *)
Lemma fill_id_typed m r0 k :
  Forall2 slot_ok (columns m) r0 -> int32_ok k = true ->
  row_typed m (alist_set "id" (JNum (NInt k)) r0).
Proof.
  destruct (columns_head_id m) as [cs Hcs]. unfold row_typed. rewrite Hcs.
  intros Hr Hk. inversion Hr as [|c [k0 v0] ? r0' [Hk0 _] Hrest]; subst. simpl in Hk0. subst k0.
  cbn [alist_set]. rewrite decide_True by done. constructor.
  - split; [done|]. left. by constructor.
  - apply slots_typed; [|done]. by eapply columns_tail_no_autoincrement.
Qed.

Lemma slot_id_int32 m r0 k :
  Forall2 slot_ok (columns m) r0 -> row_id r0 = Some k -> int32_ok k = true.
Proof.
  destruct (columns_head_id m) as [cs Hcs]. rewrite Hcs.
  intros Hr. inversion Hr as [|c [k0 v0] ? r0' [Hk0 Hv] _]; subst. simpl in Hk0, Hv. subst k0.
  unfold row_id, fk_target. cbn [alist_get]. rewrite decide_True by done.
  destruct Hv as [[Ht|[-> _]]|[-> _]]; try discriminate.
  inversion Ht; subst. by intros [= <-].
Qed.

(** Writing a value of the column keeps the row's shape. *)
Lemma set_value_typed cs r k c v :
  Forall2 entry_ok cs r -> List.find (fun c' => String.eqb (col_name c') k) cs = Some c ->
  value_ok c v -> Forall2 entry_ok cs (alist_set k v r).
Proof.
  intros Hr. induction Hr as [|c0 [k0 v0] cs r [Hk0 Hv0] Hrest IH]; [done|]. simpl in *. subst k0.
  destruct (String.eqb_spec (col_name c0) k) as [<-|Hne].
  - intros [= <-] Hv. rewrite decide_True by done. constructor; [by split|]. exact Hrest.
  - intros Hf Hv. rewrite decide_False by congruence. constructor; [by split|]. by apply IH.
Qed.

Lemma apply_arith_typed m c op n r r' col :
  find_column m c = Some col -> col_type col = TInt -> row_typed m r ->
  apply_arith c op n r = Ok r' -> row_typed m r'.
Proof.
  intros Hc Ht Hr. unfold apply_arith.
  destruct (alist_get c r) as [[| | |[x| | |]| | |]|]; try (intros [= <-]; done).
  destruct (arith_eval op x n) as [z|]; simpl; [|discriminate].
  destruct (int32_ok z) eqn:Hz; [|discriminate]. intros [= <-].
  eapply set_value_typed; eauto. left. rewrite Ht. by constructor.
Qed.

Lemma apply_assignments_typed m asg r r' :
  Forall (asg_ok m) asg -> row_typed m r -> apply_assignments asg r = Ok r' -> row_typed m r'.
Proof.
  intros Hasg. revert r.
  induction Hasg as [|a asg Hok _ IH]; intros r Hr H; simpl in H; [by injection H as <-|].
  destruct a as [c0 v|fk tgt z|c0 op n|rel tgt fk ops]; [..|exact (IH r Hr H)];
    destruct Hok as (c & Hc & Hv); simpl in Hc, Hv.
  - eapply IH; [|exact H]. eapply set_value_typed; eauto.
  - eapply IH; [|exact H]. eapply set_value_typed; eauto.
  - destruct (apply_arith c0 op n r) as [r1|] eqn:E; simpl in H; [|discriminate].
    eapply IH; [|exact H]. eapply apply_arith_typed; eauto.
Qed.

Lemma null_refs_typed m ks m' r : row_typed m' r -> row_typed m' (null_refs m ks m' r).
Proof.
  unfold null_refs. generalize (owned_fks m'). intros l. revert r.
  induction l as [|[fk tgt] l IH]; intros r Hr; [done|]. simpl. apply IH.
  unfold null_step. destruct (bool_decide _ && fk_nullable m' fk && _) eqn:E; [|done].
  apply andb_true_iff in E as [[_ Hn]%andb_true_iff _]. unfold fk_nullable in Hn.
  destruct (find_column m' fk) as [c|] eqn:Hc; [|discriminate].
  eapply set_value_typed; eauto. by right.
Qed.

(** [ON UPDATE CASCADE] writes a 32-bit key into [Int] columns. *)
Lemma cascade_refs_typed m k k' m' r :
  int32_ok k' = true -> row_typed m' r -> row_typed m' (cascade_refs m k k' m' r).
Proof.
  intros Hk. unfold cascade_refs. pose proof (owned_fks_columns m') as Hcols.
  induction (owned_fks m') as [|[fk tgt] l IH] in r, Hcols |- *; intros Hr; [done|]. simpl. apply IH.
  { intros f t Hin. apply (Hcols f t). by right. }
  unfold cascade_step. case_match; [|done].
  destruct (Hcols fk tgt (in_eq _ _)) as (c & Hc & Ht).
  eapply set_value_typed; eauto. left. rewrite Ht. by constructor.
Qed.

(** The id of a stored row is a 32-bit integer. *)
Lemma typed_row_id_int32 m r k : row_typed m r -> row_id r = Some k -> int32_ok k = true.
Proof.
  intros Hr. apply (slot_id_int32 m). eapply Forall2_impl; [exact Hr|].
  intros c kv [Hk Hv]. split; [done|]. by left.
Qed.

(** ** Tables and statements *)

Lemma typed_set_tbl d m t :
  db_typed d -> map_Forall (fun _ => row_typed m) (t_rows t) -> seq_ok t -> db_typed (set_tbl m t d).
Proof.
  intros Hd Hr Hs m'. unfold rows_of. destruct (decide (m = m')) as [<-|Hne].
  - by rewrite tbl_set_tbl_eq.
  - rewrite tbl_set_tbl_ne by done. apply Hd.
Qed.

Lemma put_row_typed m k r : row_typed m r -> st_preserves db_typed (put_row m k r).
Proof.
  intros Hr d Hd. unfold put_row. st_unfold. simpl.
  destruct (Hd m) as [Hrows Hs]. apply typed_set_tbl; [done| |done].
  by apply map_Forall_insert_2.
Qed.

Lemma insert_row_typed m k r : row_typed m r -> st_preserves db_typed (insert_row m k r).
Proof.
  intros Hr d Hd. unfold insert_row. st_unfold. simpl.
  case_match; [done|]. destruct (refs_okb d m r); simpl; [|done]. by apply put_row_typed.
Qed.

Lemma write_row_typed m k r : row_typed m r -> st_preserves db_typed (write_row m k r).
Proof.
  intros Hr d Hd. unfold write_row. st_unfold. simpl.
  case_match; [done|]. destruct (refs_okb d m r); simpl; [|done]. by apply put_row_typed.
Qed.

Lemma next_id_typed m r : st_preserves db_typed (next_id m r).
Proof.
  intros d Hd. unfold next_id. st_unfold. destruct (row_id r); simpl; [done|].
  destruct (int32_max <? t_next (tbl m d))%Z eqn:E; simpl; [done|].
  apply Z.ltb_ge in E. destruct (Hd m) as [Hr Hs].
  apply typed_set_tbl; [done..|]. unfold seq_ok in *. simpl. lia.
Qed.

(** The id [create] writes is a 32-bit integer: the data's, which
    Prisma validated, or the sequence's, which stops at [MAXVALUE]. *)
Lemma next_id_int32 m r0 d k d1 :
  db_typed d -> Forall2 slot_ok (columns m) r0 -> next_id m r0 d = (Ok k, d1) -> int32_ok k = true.
Proof.
  intros Hd Hs. unfold next_id. destruct (row_id r0) eqn:Hid; st_unfold.
  - intros [= <- _]. by eapply slot_id_int32.
  - destruct (int32_max <? _)%Z eqn:E; [discriminate|]. intros [= <- _].
    apply Z.ltb_ge in E. destruct (Hd m) as [_ Hq]. unfold seq_ok in Hq.
    apply int32_ok_range. unfold int32_max in *. lia.
Qed.

Lemma removal_typed m ks d : db_typed d -> db_typed (map_db (removal m ks) d).
Proof.
  intros Hd m'. unfold rows_of. rewrite tbl_map_db. destruct (Hd m') as [Hr Hs]. split; [|done].
  intros k r. simpl. intros (r0 & <- & Hk)%lookup_fmap_Some.
  apply map_lookup_filter_Some in Hk as [Hk _]. apply null_refs_typed. exact (Hr k r0 Hk).
Qed.

Lemma remove_rows_typed m ks : st_preserves db_typed (remove_rows m ks).
Proof.
  intros d Hd. unfold remove_rows. st_unfold. simpl.
  destruct (restrict_violation d m ks); simpl; [done|]. by apply removal_typed.
Qed.

Lemma rekey_typed m k k' d : int32_ok k' = true -> db_typed d -> db_typed (map_db (rekey m k k') d).
Proof.
  intros Hk Hd m'. rewrite rows_of_rekey. unfold rows_of in *. rewrite tbl_map_db.
  destruct (Hd m') as [Hr Hs]. split; [|done].
  intros kk r. intros (r0 & <- & Hk0)%lookup_fmap_Some. apply cascade_refs_typed; [done|]. exact (Hr kk r0 Hk0).
Qed.

Lemma move_row_typed m k k' r :
  row_typed m r -> int32_ok k' = true -> st_preserves db_typed (move_row m k k' r).
Proof.
  intros Hr Hk d Hd. unfold move_row. st_unfold. simpl.
  case_match; [done|]. destruct (refs_okb _ m _); simpl; [|done].
  apply rekey_typed; [done|]. destruct (Hd m) as [Hrows Hs].
  assert (H0 : db_typed (set_tbl m (mkTable (base.delete k (rows_of m d)) (t_next (tbl m d))) d)).
  { apply typed_set_tbl; [done| |done]. by apply map_Forall_delete. }
  apply typed_set_tbl; [done| |done]. simpl. apply map_Forall_insert_2; [done|]. apply H0.
Qed.

(** ** Every operation preserves [db_typed] *)

Lemma create_row_typed m data : st_preserves db_typed (create_row m data).
Proof.
  unfold create_row. apply st_preserves_bind_dep; [preserve|]. intros s asg ? _ [= Ha _].
  apply st_preserves_bind_dep; [preserve|]. intros ? r0 ? _ [= Hb _].
  apply st_preserves_bind; [preserve|]. intros d0. case_match; [preserve|].
  assert (Hs : Forall2 slot_ok (columns m) r0).
  { eapply build_row_slots; [by eapply data_assignments_ok | by eapply data_assignments_create_plain
                            | exact (fun _ H => H) | exact Hb]. }
  apply st_preserves_bind_dep; [apply next_id_typed|]. intros d k d1 Hd Hn.
  apply st_preserves_bind; [|preserve].
  apply insert_row_typed, fill_id_typed; [done|]. by eapply next_id_int32.
Qed.

Lemma update_row_typed m w data : st_preserves db_typed (update_row m w data).
Proof.
  unfold update_row. apply st_preserves_bind; [preserve|]. intros _. case_match; [preserve|].
  apply st_preserves_bind_dep; [preserve|]. intros s asg ? _ [= Ha _].
  apply st_preserves_bind_dep; [preserve|]. intros d ? ? Hd [= <- _].
  destruct (select_rows d m w) as [|[k r] rest] eqn:Hsel; [preserve|]. case_match; [preserve|].
  apply st_preserves_bind_dep; [preserve|]. intros ? r' ? _ [= Hap _].
  assert (Hr : row_typed m r').
  { eapply apply_assignments_typed; [by eapply data_assignments_ok| |exact Hap].
    destruct (select_rows_lookup d m w k r) as [Hk _]; [rewrite Hsel; by left|].
    exact (proj1 (Hd m) k r Hk). }
  apply st_preserves_bind; [|preserve]. destruct (assigns_id asg).
  - destruct (row_id _) as [k'|] eqn:Hk'; [|preserve].
    apply move_row_typed; [done|]. by eapply typed_row_id_int32.
  - by apply write_row_typed.
Qed.

Lemma delete_typed m w : st_preserves db_typed (delete m w).
Proof.
  unfold delete. apply st_preserves_bind; [preserve|]. intros _. case_match; [preserve|].
  apply st_preserves_bind; [preserve|]. intros d.
  destruct (select_rows d m w) as [|[k r] rest]; [preserve|].
  apply st_preserves_bind; [apply remove_rows_typed|preserve].
Qed.

Lemma delete_many_typed m w : st_preserves db_typed (delete_many m w).
Proof.
  unfold delete_many. apply st_preserves_bind; [preserve|]. intros _.
  apply st_preserves_bind; [preserve|]. intros d.
  apply st_preserves_bind; [apply remove_rows_typed|preserve].
Qed.

(** The Prisma client's side of the typing contract. *)
(** In a well-formed typed store every key is a 32-bit integer: the key
    is the row's [id], an [Int] column. *)
Lemma stored_id_int32 d m k (r : row) :
  db_wf d -> db_typed d -> rows_of m d !! k = Some r -> int32_ok k = true.
Proof.
  intros Hwf Hty Hr. destruct (Hwf m k r Hr) as [Hid _].
  apply (typed_row_id_int32 m r k); [|done]. exact (proj1 (Hty m) k r Hr).
Qed.

#[export] Existing Instances create_row_typed update_row_typed delete_typed delete_many_typed.

(** The rollback keeps the typed rows it restores and the sequences it
    keeps. *)
Lemma rollback_typed d0 d1 : db_typed d0 -> db_typed d1 -> db_typed (rollback d0 d1).
Proof.
  intros H0 H1 m. rewrite rows_of_rollback, tbl_rollback. split; [exact (proj1 (H0 m))|].
  exact (proj2 (H1 m)).
Qed.

#[export] Instance db_typed_invariant : store_invariant db_typed.
Proof. split; [apply _..|exact rollback_typed]. Qed.

(** Both invariants at once. *)
#[export] Instance db_wf_typed_invariant : store_invariant (fun d => db_wf d /\ db_typed d).
Proof.
  split; [intros; apply st_preserves_and; apply _..|].
  intros d0 d1 [W0 T0] [W1 T1]. split; [by apply inv_rollback | by apply rollback_typed].
Qed.

Lemma db_typedb_spec d : db_typedb d = true -> db_typed d.
Proof.
  unfold db_typedb. intros H m. rewrite forallb_forall in H.
  apply (bool_decide_eq_true_1 _), H, all_models_complete.
Qed.
