(* ===== verification/Owned.v ===== *)
(** * Nested writes on the relations a row owns

    A relation whose foreign key the row itself holds (the [author] of a
    post, through [authorId]) takes, in Prisma 4's
    [UserUpdateOneRequiredWithoutPostsNestedInput], besides [connect]
    (which [Store.classify_flat] reads as a value of the key): [create]
    a new target and link it, [connectOrCreate] by id, [update] the
    linked target, [upsert] it.  [Nested.update] runs them before the
    row's own [UPDATE], in the order of the data object, as Prisma's
    query engine does (the row needs the new key): after validating the
    whole data object and finding the row ([owned_writes]), each write
    runs ([run_owned]) and its entry of [data] is replaced by a
    [connect] to the target, or dropped when the key stays.  A [create]
    of the row (POST) takes only [connect] on its owned relations here:
    the handlers cannot reach the other operations (see the header). *)

From stdpp Require Import base list strings gmap.
From Stdlib Require Import ZArith String.
From S2P Require Import Prelude JsValue Schema Store StoreFacts Typing.

Local Open Scope string_scope.

(** One nested write on an owned relation. *)
Inductive owned_op : Type :=
| OCreate (c : list (string * jsval))
| OConnectOrCreate (z : Z) (c : list (string * jsval))
| OUpdate (c : list (string * jsval))
| OUpsert (create update : list (string * jsval)).

(** The data of the target, of model [tgt], of a nested write on the key
    [fk] of [m]: Prisma's [UserCreateWithoutPostsInput] (with [md =
    ForCreate]) or [UserUpdateWithoutPostsInput] and their unchecked
    variants, the target's data without its relation back to [m]. *)
Definition owner_data_ok (md : write_mode) (tgt m : model) (fk : string) (c : list (string * jsval))
  : res perr unit :=
  if existsb (fun '(k, x) => negb (is_undef x) &&
                match inverse_rel tgt k with Some (m', fk', _) => bool_decide (m' = m) && String.eqb fk' fk | None => false end) c
  then Err (EValidation "unknown argument in a nested write") else
  asg <-? assignments_by (classify_flat tgt md) c ;;
  _ <-? check_mode tgt asg ;;
  match md with
  | ForCreate => _ <-? build_row asg (columns tgt) ;; Ok tt
  | ForUpdate => Ok tt
  end.

(** [name: x] on the owned relation of [m] with key [fk] and target
    [tgt], in an update. *)
Definition owned_entry (tgt m : model) (fk : string) (name : string) (x : jsval) : res perr owned_op :=
  if String.eqb name "create" then
    c <-? child_object x ;; _ <-? owner_data_ok ForCreate tgt m fk c ;; Ok (OCreate c)
  else if String.eqb name "connectOrCreate" then
    o <-? object_with ["where"; "create"] x ;;
    z <-? arg_id (arg_of o "where") ;;
    c <-? arg_obj (arg_of o "create") ;;
    _ <-? owner_data_ok ForCreate tgt m fk c ;;
    Ok (OConnectOrCreate z c)
  else if String.eqb name "update" then
    c <-? child_object x ;; _ <-? owner_data_ok ForUpdate tgt m fk c ;; Ok (OUpdate c)
  else if String.eqb name "upsert" then
    o <-? object_with ["create"; "update"] x ;;
    cc <-? arg_obj (arg_of o "create") ;;
    _ <-? owner_data_ok ForCreate tgt m fk cc ;;
    cu <-? arg_obj (arg_of o "update") ;;
    _ <-? owner_data_ok ForUpdate tgt m fk cu ;;
    Ok (OUpsert cc cu)
  else if String.eqb name "disconnect" || String.eqb name "delete" then
    if fk_nullable m fk then Err (EUnsupported "disconnect or delete of an optional relation")
    else not_in_input
  else Err (EValidation "unknown nested write").

(** The nested writes on owned relations among the entries of [data]:
    an entry whose key names an owned relation and whose value has one
    field other than [connect]; with the key, the foreign key and the
    target. *)
Fixpoint owned_parse (m : model) (o : list (string * jsval))
  : res perr (list (string * string * model * owned_op)) :=
  match o with
  | [] => Ok []
  | (k, v) :: o' =>
      match find_column m k, find_relation m k, v with
      | None, Some rel, JObj [(name, x)] =>
          match rel_kind rel with
          | Owned fk =>
              if String.eqb name "connect" then owned_parse m o' else
              op <-? owned_entry (rel_target rel) m fk name x ;;
              rest <-? owned_parse m o' ;;
              Ok ((k, fk, rel_target rel, op) :: rest)
          | _ => owned_parse m o'
          end
      | _, _, _ => owned_parse m o'
      end
  end.

(** The [id] of a returned row. *)
Definition id_of (v : jsval) : Z :=
  match obj_get v "id" with JNum (NInt k) => k | _ => 0%Z end.

(** One nested write on the owned relation [k] (key [fk], target [tgt])
    of a row whose key holds [t]: the entry that stands for it in the
    row's own [UPDATE], a [connect] to the target, or nothing. *)
Definition run_owned (k fk : string) (tgt : model) (t : option Z) (op : owned_op)
  : ST db perr (option (string * jsval)) :=
  let link z := Some (k, JObj [("connect", JObj [("id", JNum (NInt z))])]) in
  match op with
  | OCreate c => v <- create_row tgt (JObj c) ;; st_ret (link (id_of v))
  | OConnectOrCreate z c =>
      d <- st_get ;;
      if bool_decide (is_Some (rows_of tgt d !! z)) then st_ret (link z)
      else v <- create_row tgt (JObj c) ;; st_ret (link (id_of v))
  | OUpdate c =>
      match t with
      | Some z => _ <- update_row tgt [id_cond z] (JObj c) ;; st_ret None
      | None => st_throw ENotFound
      end
  | OUpsert cc cu =>
      d <- st_get ;;
      match t with
      | Some z =>
          if bool_decide (is_Some (rows_of tgt d !! z))
          then _ <- update_row tgt [id_cond z] (JObj cu) ;; st_ret None
          else v <- create_row tgt (JObj cc) ;; st_ret (link (id_of v))
      | None => v <- create_row tgt (JObj cc) ;; st_ret (link (id_of v))
      end
  end.

(** The owned nested writes of [db.m.update({where: w, data})], run
    before the row's [UPDATE]: Prisma validates [w] and the whole
    [data] (an owned write counts as a relation write, as a [connect]
    does), finds the row (P2025 when there is none), then runs the
    writes in order; the result is [data] with their entries replaced.
    A [data] without owned nested writes is returned as it is. *)
Definition owned_writes (m : model) (w : list cond) (data : jsval) : ST db perr jsval :=
  match data with
  | JObj o =>
      ops <- st_lift (owned_parse m o) ;;
      match ops with
      | [] => st_ret data
      | _ :: _ =>
          let owned k := existsb (fun '(k', _, _, _) => String.eqb k k') ops in
          let ph := map (fun '(k, v) => if owned k then (k, JObj [("connect", JObj [("id", JNum (NInt 0))])])
                                        else (k, v)) o in
          _ <- st_lift (check_conds m w) ;;
          if negb (unique_where m w) then st_throw (EValidation "update needs a unique field") else
          _ <- st_lift (data_assignments m ForUpdate (JObj ph)) ;;
          d <- st_get ;;
          match select_rows d m w with
          | [] => st_throw ENotFound
          | (_, r) :: _ =>
              repl <- st_map (fun '(k, fk, tgt, op) => e <- run_owned k fk tgt (fk_target r fk) op ;; st_ret (k, e)) ops ;;
              st_ret (JObj (omap (fun '(k, v) => match alist_get k repl with Some e => e | None => Some (k, v) end) o))
          end
      end
  | _ => st_ret data
  end.

(** A data object without owned nested writes. *)
Definition owned_free (m : model) (data : jsval) : Prop :=
  forall o, data = JObj o -> owned_parse m o = Ok [].

(** * Lemmas *)

#[export] Instance run_owned_preserves P `{!store_invariant P} k fk tgt t op :
  st_preserves P (run_owned k fk tgt t op).
Proof.
  destruct op; simpl;
    repeat first [apply _ | progress case_match | apply st_preserves_bind; [apply _ | intros ?]].
Qed.

#[export] Instance owned_writes_preserves P `{!store_invariant P} m w data :
  st_preserves P (owned_writes m w data).
Proof.
  unfold owned_writes. destruct data; try apply _.
  apply st_preserves_bind; [apply _|]. intros ops. destruct ops as [|op ops]; [apply _|].
  apply st_preserves_bind; [apply _|]. intros _. case_match; [apply _|].
  apply st_preserves_bind; [apply _|]. intros _. apply st_preserves_bind; [apply _|]. intros d.
  destruct (select_rows d m w) as [|[k r] rest]; [apply _|].
  apply st_preserves_bind; [|intros; apply _]. apply st_preserves_map. intros [[[? ?] ?] ?]. apply _.
Qed.

Lemma connect_arg_inv v y : connect_arg v = Some y -> v = JObj [("connect", JObj [("id", y)])].
Proof. unfold connect_arg. repeat case_match; intros Hv; simplify_eq; done. Qed.

(** An owned relation is not an inverse one. *)
Lemma inverse_rel_owned m k rel fk :
  find_column m k = None -> find_relation m k = Some rel -> rel_kind rel = Owned fk -> inverse_rel m k = None.
Proof. intros Hc Hr Hk. unfold inverse_rel. by rewrite Hc, Hr, Hk. Qed.

(** An entry that [classify] accepts is not an owned nested write. *)
Lemma owned_parse_cons m md k v o a :
  classify m md k v = Ok a -> owned_parse m o = Ok [] -> owned_parse m ((k, v) :: o) = Ok [].
Proof.
  intros Hc IH. simpl. destruct (find_column m k) eqn:Hcol; [done|].
  destruct (find_relation m k) as [rel|] eqn:Hrel; [|done].
  destruct v as [| | | | | |[|[name x] [|]]]; try done.
  destruct (rel_kind rel) eqn:Hk; try done. destruct (String.eqb_spec name "connect") as [->|Hne]; [done|].
  unfold classify in Hc. rewrite (inverse_rel_owned m k rel fk Hcol Hrel Hk) in Hc.
  unfold classify_flat in Hc. rewrite Hcol, Hrel, Hk in Hc.
  destruct (connect_arg _) as [y|] eqn:Ea; [|discriminate].
  apply connect_arg_inv in Ea. injection Ea as Hn _. by destruct (Hne Hn).
Qed.

(** A data object Prisma accepts without the owned nested writes of
    [Owned] has none: [classify_flat] reads only [connect] there. *)
Lemma owned_parse_nil m md o asg : assignments m md o = Ok asg -> owned_parse m o = Ok [].
Proof.
  unfold assignments. revert asg. induction o as [|[k v] o IH]; intros asg Ha; [done|].
  destruct v; simpl in Ha;
    try (match type of Ha with context [classify m md k ?v'] => destruct (classify m md k v') as [a|] eqn:Hc end;
         simpl in Ha; [|discriminate];
         destruct (assignments_by (classify m md) o) as [rest|] eqn:Ho; simpl in Ha; [|discriminate];
         exact (owned_parse_cons m md k _ o a Hc (IH rest eq_refl))).
  simpl. repeat case_match; apply (IH asg Ha).
Qed.

(** A data object without owned nested writes goes through unchanged. *)
Lemma owned_writes_plain m w o d : owned_parse m o = Ok [] -> owned_writes m w (JObj o) d = (Ok (JObj o), d).
Proof. intros Hp. unfold owned_writes. by rewrite st_lift_bind, Hp. Qed.

Lemma owned_writes_valid m md w o asg d :
  data_assignments m md (JObj o) = Ok asg -> owned_writes m w (JObj o) d = (Ok (JObj o), d).
Proof. intros [Ha _]%data_assignments_obj. apply owned_writes_plain, (owned_parse_nil m md o asg Ha). Qed.

Lemma owned_writes_free m w data d : owned_free m data -> owned_writes m w data d = (Ok data, d).
Proof. destruct data; try done. intros Hf. by apply owned_writes_plain, Hf. Qed.

(** Entries none of which is an object have no owned nested write. *)
Lemma owned_free_no_objects m o :
  (forall f x, In (f, x) o -> forall o', x <> JObj o') -> owned_free m (JObj o).
Proof.
  intros Ho o' [= <-]. induction o as [|[k v] o IH]; [done|]. simpl.
  assert (IH' : owned_parse m o = Ok []) by (apply IH; intros f x Hin; apply (Ho f x); by right).
  pose proof (Ho k v (or_introl eq_refl)) as Hv.
  repeat case_match; subst; try done. by destruct (Hv _ eq_refl).
Qed.

(** Each owned nested write comes from an entry of the data object that
    names an owned relation, not a column. *)
Lemma owned_parse_in m o ops k fk tgt op :
  owned_parse m o = Ok ops -> In (k, fk, tgt, op) ops ->
  In k (map fst o) /\ find_column m k = None /\ owned_target m k = Some (fk, tgt).
Proof.
  revert ops. induction o as [|[k' v] o IH]; intros ops; simpl; [by intros [= <-]|].
  assert (Hr : forall ops, owned_parse m o = Ok ops -> In (k, fk, tgt, op) ops ->
               (k' = k \/ In k (map fst o)) /\ find_column m k = None /\ owned_target m k = Some (fk, tgt))
    by (intros ops' H1 H2; destruct (IH ops' H1 H2) as (? & ? & ?); auto).
  repeat case_match; subst; try apply Hr.
  destruct (owned_entry _ _ _ _ _) as [op'|]; simpl; [|discriminate].
  destruct (owned_parse m o) as [rest|] eqn:Hp; simpl; [|discriminate]. intros [= <-] [Heq|Hin]; [|by apply (Hr rest)].
  injection Heq as <- <- <- <-. split; [by left|]. split; [done|].
  unfold owned_target. match goal with H : find_relation _ _ = _ |- _ => rewrite H end.
  match goal with H : rel_kind _ = _ |- _ => by rewrite H end.
Qed.

(** An owned nested write stands in the row's [UPDATE] for its own entry,
    or for nothing. *)
Lemma run_owned_key k fk tgt t op s e s' :
  run_owned k fk tgt t op s = (Ok e, s') -> e = None \/ exists v, e = Some (k, v).
Proof.
  unfold run_owned. destruct op; st_unfold; repeat case_match; simplify_eq/=; intros Hrun; simplify_eq; eauto.
Qed.

(** The entries standing for the writes have the keys of the writes. *)
Lemma owned_repl_keys ops s repl s' (r : row) :
  st_map (fun '(k, fk, tgt, op) => e <- run_owned k fk tgt (fk_target r fk) op ;; st_ret (k, e)) ops s = (Ok repl, s') ->
  forall k e, In (k, e) repl -> (exists fk tgt op, In (k, fk, tgt, op) ops) /\ (e = None \/ exists v, e = Some (k, v)).
Proof.
  intros Hm k e Hin.
  destruct (st_map_ok _ _ _ _ _ Hm _ Hin) as ([[[k' fk] tgt] op] & s1 & s2 & Hx & Hrun).
  revert Hrun. st_unfold. destruct (run_owned _ _ _ _ _ s1) as [[e'|] s3] eqn:E; [|discriminate].
  intros [= -> ->]. split; [eauto|]. by apply run_owned_key in E.
Qed.


(** What the owned nested writes leave of the data object: a sublist of
    its keys, with the same column entries. *)
Lemma owned_writes_data m w o d data' d0 :
  owned_writes m w (JObj o) d = (Ok data', d0) ->
  exists o', data' = JObj o' /\ map fst o' `sublist_of` map fst o /\
    forall f x, find_column m f <> None -> (In (f, x) o' <-> In (f, x) o).
Proof.
  unfold owned_writes. rewrite st_lift_bind. destruct (owned_parse m o) as [ops|e] eqn:Hp; [|discriminate].
  destruct ops as [|op0 ops0]; [intros [= <- _]; by exists o|].
  set (ops := op0 :: ops0) in *. st_unfold.
  repeat (case_match; try discriminate). subst. intros [= <- _].
  match goal with Hm : st_map _ ops _ = (Ok ?repl, ?s2), Hs : select_rows _ _ _ = (_, ?r) :: _ |- _ =>
    pose proof (owned_repl_keys ops _ repl s2 r Hm) as Hk; set (repl0 := repl) in * end.
  assert (Hcol : forall f, find_column m f <> None -> alist_get f repl0 = None).
  { intros f Hf. destruct (alist_get f repl0) as [e|] eqn:E; [|done].
    destruct (Hk f e (alist_get_In _ _ _ E)) as [(fk & tgt & op & Hin) _].
    by destruct (owned_parse_in m o ops f fk tgt op Hp Hin) as (_ & ? & _). }
  eexists. split; [done|]. split.
  - apply omap_keys_sublist. intros k v k' x'. destruct (alist_get k repl0) as [e|] eqn:E; [|by intros [= ->]].
    intros ->. destruct (Hk k _ (alist_get_In _ _ _ E)) as [_ [|(v' & Hv)]]; [discriminate|]. by injection Hv as ->.
  - intros f x Hf. rewrite <- !list_elem_of_In, list_elem_of_omap. split.
    + intros ([k v] & Hin & Hg). destruct (alist_get k repl0) as [e|] eqn:E; [|by injection Hg as -> ->].
      subst e. destruct (Hk k _ (alist_get_In _ _ _ E)) as [_ [|(v' & Hv)]]; [discriminate|].
      injection Hv as -> _. by rewrite Hcol in E.
    + intros Hin. exists (f, x). split; [done|]. by rewrite Hcol.
Qed.

(** A data object Prisma accepts as it is runs no owned nested write. *)
Lemma owned_writes_valid_bind {A} m w data asg (k : jsval -> ST db perr A) d :
  data_assignments m ForUpdate data = Ok asg -> st_bind (owned_writes m w data) k d = k data d.
Proof.
  intros Ha. apply st_bind_ok. destruct data; try done. exact (owned_writes_valid m ForUpdate w _ asg d Ha).
Qed.
