(* ===== verification/Nested.v ===== *)
(** * Nested writes and the transactions of [create] and [update]

    Prisma's [db.m.create({data})] and [db.m.update({where, data})] run
    as one transaction: in an update, first the nested writes on the
    relations the row owns ([Owned.owned_writes]); the [INSERT] or
    [UPDATE] of the row ([Store]'s [create_row], [update_row]), then
    the nested writes its [data] asks for on inverse relations ([nested_op], validated with the rest of
    [data] before anything is written), then a read of the row.  When a
    statement fails the transaction is rolled back: every row is as
    before, but the sequences keep the values [nextval] handed out
    ([rollback]).

    A nested create inserts each child with the link to its parent
    ([link_child], [create_child]); [createMany] does the same, and with
    [skipDuplicates] skips a child whose unique values are taken
    ([skip_duplicate]); a connect sets the foreign key of an existing
    row ([connect_child]) and [connectOrCreate] connects or creates; an
    [update], [updateMany] or [upsert] writes children of this row
    only, the rows [children_of] selects with the parent's key (a row
    of another parent is not found, or is left alone by [disconnect]);
    [set] and [disconnect] unlink children, which on a required foreign
    key (every relation of a post) is P2014 ([disconnect_rows]); a nested
    [deleteMany] or [delete] deletes children of this row with the
    referential actions of [delete_many] and [delete]. *)

From stdpp Require Import base list strings gmap.
From Stdlib Require Import ZArith String.
From S2P Require Import Prelude JsValue Schema Store StoreFacts Typing Owned.

Local Open Scope string_scope.

(** A child that writes one of its relations takes the checked input
    type, where the parent is linked through the back relation; else
    the unchecked one, where the foreign key is set. *)
Definition writes_relation (tgt : model) (c : list (string * jsval)) : bool :=
  existsb (fun '(k, x) => negb (is_undef x) && bool_decide (is_Some (owned_target tgt k))) c.

Definition link_child (tgt : model) (fk : string) (p : Z) (c : list (string * jsval)) : list (string * jsval) :=
  match writes_relation tgt c, back_rel tgt fk with
  | true, Some br => alist_set br (JObj [("connect", JObj [("id", JNum (NInt p))])]) c
  | _, _ => alist_set fk (JNum (NInt p)) c
  end.

(** The [INSERT] of a child of the row [p]. *)
Definition create_child (tgt : model) (fk : string) (p : Z) (c : list (string * jsval)) : ST db perr unit :=
  _ <- create_row tgt (JObj (link_child tgt fk p c)) ;; st_ret tt.

(** The [UPDATE] that links row [z] to the row [p]. *)
Definition connect_child (tgt : model) (fk : string) (p : Z) (z : Z) : ST db perr unit :=
  _ <- update_row tgt [id_cond z] (JObj [(fk, JNum (NInt p))]) ;; st_ret tt.

(** [ON CONFLICT DO NOTHING]: a row whose unique values are taken is
    skipped; the sequence value it drew stays drawn. *)
Definition skip_duplicate (e : perr) : ST db perr unit :=
  match e with EUnique => st_ret tt | _ => st_throw e end.

(** The keys of the children of row [p] that match [w]. *)
Definition children_of (d : db) (tgt : model) (fk : string) (p : Z) (w : list cond) : list Z :=
  map fst (select_rows d tgt (CEq fk (JNum (NInt p)) :: w)).

(** Unlink rows [ks] from their parent: their foreign key becomes
    [null]; when the key is required, P2014. *)
Definition disconnect_rows (tgt : model) (fk : string) (ks : list Z) : ST db perr unit :=
  match ks with
  | [] => st_ret tt
  | _ :: _ =>
      if fk_nullable tgt fk
      then st_for ks (fun k => _ <- update_row tgt [id_cond k] (JObj [(fk, JNull)]) ;; st_ret tt)
      else st_throw ERequiredRelation
  end.

(** One nested operation on the children, of model [tgt], of the row
    [p]. *)
Definition run_nested_op (tgt : model) (fk : string) (p : Z) (op : nested_op) : ST db perr unit :=
  match op with
  | NCreate cs => st_for cs (create_child tgt fk p)
  | NCreateMany cs skip =>
      st_for cs (fun c => if skip then st_catch (create_child tgt fk p c) skip_duplicate
                          else create_child tgt fk p c)
  | NConnect ids => st_for ids (connect_child tgt fk p)
  | NConnectOrCreate z c =>
      d <- st_get ;;
      if bool_decide (is_Some (rows_of tgt d !! z)) then connect_child tgt fk p z
      else create_child tgt fk p c
  | NUpdate w c => _ <- update_row tgt (CEq fk (JNum (NInt p)) :: w) (JObj c) ;; st_ret tt
  | NUpdateMany w c =>
      d <- st_get ;;
      st_for (children_of d tgt fk p w) (fun k => _ <- update_row tgt [id_cond k] (JObj c) ;; st_ret tt)
  | NUpsert w cc cu =>
      d <- st_get ;;
      match children_of d tgt fk p w with
      | k :: _ => _ <- update_row tgt [id_cond k] (JObj cu) ;; st_ret tt
      | [] => create_child tgt fk p cc
      end
  | NSet ids =>
      d <- st_get ;;
      _ <- disconnect_rows tgt fk (List.filter (fun k => negb (bool_decide (k ∈ ids))) (children_of d tgt fk p [])) ;;
      st_for ids (connect_child tgt fk p)
  | NDisconnect w => d <- st_get ;; disconnect_rows tgt fk (children_of d tgt fk p w)
  | NDeleteMany w => _ <- delete_many tgt (CEq fk (JNum (NInt p)) :: w) ;; st_ret tt
  | NDelete w => _ <- delete tgt (CEq fk (JNum (NInt p)) :: w) ;; st_ret tt
  end.

(** The nested writes of a validated [data], in its order. *)
Definition run_nested (p : Z) (asg : list assignment) : ST db perr unit :=
  st_for asg (fun a => match a with
                       | ANested _ tgt fk ops => st_for ops (run_nested_op tgt fk p)
                       | _ => st_ret tt
                       end).

(** The row as the transaction's final read finds it. *)
Definition reread (m : model) (v : jsval) (d : db) : jsval :=
  match (rows_of m d !! id_of v : option row) with Some r => JObj r | None => v end.

(** [db.m.create({data})]. *)
Definition create (m : model) (data : jsval) : ST db perr jsval :=
  st_atomic rollback (
    v <- create_row m data ;;
    asg <- st_lift (data_assignments m ForCreate data) ;;
    _ <- run_nested (id_of v) asg ;;
    d <- st_get ;;
    st_ret (reread m v d)).

(** [db.m.update({where, data})]. *)
Definition update (m : model) (w : list cond) (data : jsval) : ST db perr jsval :=
  st_atomic rollback (
    data <- owned_writes m w data ;;
    v <- update_row m w data ;;
    asg <- st_lift (data_assignments m ForUpdate data) ;;
    _ <- run_nested (id_of v) asg ;;
    d <- st_get ;;
    st_ret (reread m v d)).

(** The models whose rows the nested writes on [tgt] leave alone: not
    [tgt], and none of their foreign keys points at [tgt] (a deletion of
    [tgt] rows changes those through [SetNull]). *)
Definition untouched (tgt m' : model) : bool :=
  bool_decide (m' <> tgt) && forallb (fun p => negb (bool_decide (p.2 = tgt))) (owned_fks m').

(** The nested writes of [m] leave the rows of [m] alone. *)
Definition nested_safe (m : model) : bool :=
  forallb (fun rel => match rel_kind rel with Owned _ => true | _ => untouched (rel_target rel) m end)
          (relations m).

(** A computation that leaves the rows of [m'] as they are. *)
Definition keeps_rows {A} (m' : model) (c : ST db perr A) : Prop :=
  forall R, st_preserves (fun d => rows_of m' d = R) c.

(** * Lemmas *)

(** A property that every statement keeps is kept by each nested
    operation; the operations that read before they write branch on
    what they read. *)
Ltac nested_op_cases :=
  match goal with op : nested_op |- _ => destruct op end; simpl; try apply _;
    [apply st_preserves_for; intros ?c; case_match | ..];
    try (apply st_preserves_bind; [apply _ | intros ?d]); repeat case_match; apply _.

(** ** Transactions *)

(** A [data] whose assignments hold no nested write: [create] and
    [update] are their statement alone. *)
Definition plain_data (m : model) (md : write_mode) (data : jsval) : Prop :=
  forall asg, data_assignments m md data = Ok asg -> Forall (fun a => is_nested a = false) asg.

Lemma rollback_same d : rollback d d = d.
Proof. destruct d as [[] [] [] [] []]. reflexivity. Qed.

#[export] Instance create_child_preserves P `{!store_invariant P} tgt fk p c :
  st_preserves P (create_child tgt fk p c).
Proof. unfold create_child. apply _. Qed.

#[export] Instance connect_child_preserves P `{!store_invariant P} tgt fk p z :
  st_preserves P (connect_child tgt fk p z).
Proof. unfold connect_child. apply _. Qed.

#[export] Instance skip_duplicate_preserves P e : st_preserves P (skip_duplicate e).
Proof. destruct e; apply _. Qed.

#[export] Instance disconnect_rows_preserves P `{!store_invariant P} tgt fk ks :
  st_preserves P (disconnect_rows tgt fk ks).
Proof. unfold disconnect_rows. destruct ks; [|case_match]; apply _. Qed.

#[export] Instance run_nested_op_preserves P `{!store_invariant P} tgt fk p op :
  st_preserves P (run_nested_op tgt fk p op).
Proof. nested_op_cases. Qed.

#[export] Instance run_nested_preserves P `{!store_invariant P} p asg : st_preserves P (run_nested p asg).
Proof. unfold run_nested. apply st_preserves_for. intros []; apply _. Qed.

#[export] Instance create_preserves P `{!store_invariant P} m data : st_preserves P (create m data).
Proof. apply st_preserves_atomic; [apply _ | exact inv_rollback]. Qed.

#[export] Instance update_preserves P `{!store_invariant P} m w data : st_preserves P (update m w data).
Proof. apply st_preserves_atomic; [apply _ | exact inv_rollback]. Qed.

(** A failed [create] or [update] leaves every row as it was. *)
Lemma create_err_rows m data d e d' :
  create m data d = (Err e, d') -> forall m', rows_of m' d' = rows_of m' d.
Proof.
  unfold create, st_atomic. destruct (st_bind _ _ d) as [[v|e'] d1]; [discriminate|].
  intros [= _ <-] m'. apply rows_of_rollback.
Qed.

Lemma update_err_rows m w data d e d' :
  update m w data d = (Err e, d') -> forall m', rows_of m' d' = rows_of m' d.
Proof.
  unfold update, st_atomic. destruct (st_bind _ _ d) as [[v|e'] d1]; [discriminate|].
  intros [= _ <-] m'. apply rows_of_rollback.
Qed.

(** ** What the nested writes leave alone *)

Lemma untouched_spec tgt m' :
  untouched tgt m' = true -> m' <> tgt /\ forall fk, ~ In (fk, tgt) (owned_fks m').
Proof.
  unfold untouched. intros [H1 H2]%andb_true_iff. apply bool_decide_eq_true in H1.
  split; [done|]. intros fk Hin. rewrite forallb_forall in H2.
  specialize (H2 _ Hin). simpl in H2. by rewrite bool_decide_true in H2.
Qed.

Lemma rows_of_map_db f m d : rows_of m (map_db f d) = t_rows (f m (tbl m d)).
Proof. unfold rows_of. by rewrite tbl_map_db. Qed.

Lemma removal_untouched tgt ks m' d :
  untouched tgt m' = true -> rows_of m' (map_db (removal tgt ks) d) = rows_of m' d.
Proof.
  intros [Hne Hno]%untouched_spec. apply map_eq. intros k. apply removal_other_rows; [|done].
  unfold removed. by rewrite bool_decide_false.
Qed.

Lemma rekey_untouched tgt k k' m' d :
  untouched tgt m' = true -> rows_of m' (map_db (rekey tgt k k') d) = rows_of m' d.
Proof.
  intros [_ Hno]%untouched_spec. rewrite rows_of_map_db. unfold rekey, rows_of. simpl.
  apply map_eq. intros i. rewrite lookup_fmap.
  destruct (t_rows (tbl m' d) !! i); simpl; [|done]. by rewrite cascade_refs_other.
Qed.

(** Where a statement on [tgt] may leave the store. *)
Lemma delete_state tgt w d res d' :
  delete tgt w d = (res, d') -> d' = d \/ exists ks, d' = map_db (removal tgt ks) d.
Proof.
  unfold delete. st_unfold. destruct (check_conds tgt w); simpl; [|intros [= _ <-]; by left].
  destruct (unique_where tgt w); simpl; [|intros [= _ <-]; by left].
  destruct (select_rows d tgt w) as [|[k r] rest]; simpl; [intros [= _ <-]; by left|].
  rewrite remove_rows_run. destruct (restrict_violation _ _ _); simpl; intros [= _ <-]; eauto.
Qed.

Lemma delete_many_state tgt w d res d' :
  delete_many tgt w d = (res, d') -> d' = d \/ exists ks, d' = map_db (removal tgt ks) d.
Proof.
  unfold delete_many. st_unfold. destruct (check_conds tgt w); simpl; [|intros [= _ <-]; by left].
  rewrite remove_rows_run. destruct (restrict_violation _ _ _); simpl; intros [= _ <-]; eauto.
Qed.

Lemma update_row_state tgt w data d res d' :
  update_row tgt w data d = (res, d') ->
  d' = d \/ (exists t, d' = set_tbl tgt t d) \/ (exists k k' t, d' = map_db (rekey tgt k k') (set_tbl tgt t d)).
Proof.
  unfold update_row, move_row, write_row, put_row. st_unfold.
  repeat (case_match; simplify_eq/=); intros [= _ <-];
    first [by left | by right; left; eexists | right; right; rewrite set_tbl_twice; eauto].
Qed.

Lemma create_row_keeps tgt m' data : m' <> tgt -> keeps_rows m' (create_row tgt data).
Proof.
  intros Hne R d Hd. destruct (create_row tgt data d) as [res d'] eqn:E.
  apply create_row_rows in E as [Ho _]. simpl. by rewrite Ho.
Qed.

Lemma update_row_keeps tgt m' w data : untouched tgt m' = true -> keeps_rows m' (update_row tgt w data).
Proof.
  intros Hu R d Hd. pose proof (proj1 (untouched_spec _ _ Hu)) as Hne.
  destruct (update_row tgt w data d) as [res d'] eqn:E. simpl.
  destruct (update_row_state _ _ _ _ _ _ E) as [->|[[t ->]|(k & k' & t & ->)]];
    rewrite ?rekey_untouched, ?rows_of_set_tbl, ?decide_False by done; done.
Qed.

Lemma delete_keeps tgt m' w : untouched tgt m' = true -> keeps_rows m' (delete tgt w).
Proof.
  intros Hu R d Hd. destruct (delete tgt w d) as [res d'] eqn:E. simpl.
  destruct (delete_state _ _ _ _ _ E) as [->|[ks ->]]; by rewrite ?removal_untouched.
Qed.

Lemma delete_many_keeps tgt m' w : untouched tgt m' = true -> keeps_rows m' (delete_many tgt w).
Proof.
  intros Hu R d Hd. destruct (delete_many tgt w d) as [res d'] eqn:E. simpl.
  destruct (delete_many_state _ _ _ _ _ E) as [->|[ks ->]]; by rewrite ?removal_untouched.
Qed.

Lemma create_child_keeps tgt fk p c m' : m' <> tgt -> keeps_rows m' (create_child tgt fk p c).
Proof. intros Hne R. apply st_preserves_bind; [by apply create_row_keeps | intros; apply _]. Qed.

Lemma connect_child_keeps tgt fk p z m' : untouched tgt m' = true -> keeps_rows m' (connect_child tgt fk p z).
Proof. intros Hu R. apply st_preserves_bind; [by apply update_row_keeps | intros; apply _]. Qed.

Lemma disconnect_rows_keeps tgt fk ks m' : untouched tgt m' = true -> keeps_rows m' (disconnect_rows tgt fk ks).
Proof.
  intros Hu R. unfold disconnect_rows. destruct ks; [apply _|]. case_match; [|apply _].
  apply st_preserves_for. intros k. apply st_preserves_bind; [by apply update_row_keeps | intros; apply _].
Qed.

Lemma run_nested_op_keeps tgt fk p op m' :
  untouched tgt m' = true -> keeps_rows m' (run_nested_op tgt fk p op).
Proof.
  intros Hu R. pose proof (proj1 (untouched_spec _ _ Hu)) as Hne.
  pose proof (fun data => create_row_keeps tgt m' data Hne R).
  pose proof (fun w data => update_row_keeps tgt m' w data Hu R).
  pose proof (fun w => delete_keeps tgt m' w Hu R).
  pose proof (fun w => delete_many_keeps tgt m' w Hu R).
  pose proof (fun c => create_child_keeps tgt fk p c m' Hne R).
  pose proof (fun z => connect_child_keeps tgt fk p z m' Hu R).
  pose proof (fun ks => disconnect_rows_keeps tgt fk ks m' Hu R).
  nested_op_cases.
Qed.

Lemma run_nested_keeps p asg m' :
  (forall rel tgt fk ops, In (ANested rel tgt fk ops) asg -> untouched tgt m' = true) ->
  keeps_rows m' (run_nested p asg).
Proof.
  intros Hu R. apply st_preserves_for_in. intros [| | |rel tgt fk ops] Hin; try apply st_preserves_ret.
  apply st_preserves_for. intros op. by apply run_nested_op_keeps, (Hu rel tgt fk ops).
Qed.

Lemma classify_flat_not_nested m md k v rel tgt fk ops :
  classify_flat m md k v <> Ok (ANested rel tgt fk ops).
Proof. unfold classify_flat, classify_update_op, res_bind. repeat case_match; congruence. Qed.

Lemma classify_nested_inv m md k v rel tgt fk ops :
  classify m md k v = Ok (ANested rel tgt fk ops) -> rel = k /\ exists many, inverse_rel m k = Some (tgt, fk, many).
Proof.
  unfold classify. destruct (inverse_rel m k) as [[[t f] many]|] eqn:Hinv.
  - destruct (classify_nested md t f many v); simpl; [|discriminate]. intros [= -> -> -> _]. eauto.
  - intros H. by apply classify_flat_not_nested in H.
Qed.

(** The nested writes of a valid [data] are on inverse relations of
    its model. *)
Lemma nested_targets m md data asg rel tgt fk ops :
  data_assignments m md data = Ok asg -> In (ANested rel tgt fk ops) asg ->
  exists many, inverse_rel m rel = Some (tgt, fk, many).
Proof.
  destruct data as [| | | | | |o]; try discriminate. intros [Has _]%data_assignments_obj Hin.
  destruct (assignments_origin m md o asg Has _ Hin) as (k & v & _ & Hc).
  by apply classify_nested_inv in Hc as [-> ?].
Qed.

Lemma nested_safe_untouched m rel tgt fk many :
  nested_safe m = true -> inverse_rel m rel = Some (tgt, fk, many) -> untouched tgt m = true.
Proof.
  unfold nested_safe, inverse_rel. intros Hs. destruct (find_column m rel); [discriminate|].
  destruct (find_relation m rel) as [r|] eqn:Hr; [|discriminate].
  apply find_relation_spec in Hr as [_ Hin]. rewrite forallb_forall in Hs. specialize (Hs r Hin).
  destruct (rel_kind r); [discriminate| |]; by intros [= <- _ _].
Qed.

(** The nested writes of a valid [data] of a model whose nested writes
    are safe leave the model's rows as they are. *)
Lemma run_nested_keeps_own m md data asg p :
  nested_safe m = true -> data_assignments m md data = Ok asg -> keeps_rows m (run_nested p asg).
Proof.
  intros Hs Ha. apply run_nested_keeps. intros rel tgt fk ops Hin.
  destruct (nested_targets m md data asg rel tgt fk ops Ha Hin) as [many Hinv].
  exact (nested_safe_untouched m rel tgt fk many Hs Hinv).
Qed.

Lemma keeps_rows_run {A} m (c : ST db perr A) d res d' :
  keeps_rows m c -> c d = (res, d') -> rows_of m d' = rows_of m d.
Proof. intros Hk E. pose proof (Hk (rows_of m d) d eq_refl) as H. by rewrite E in H. Qed.

(** ** Successful transactions *)

Lemma create_ok_inv m data d v' d' :
  create m data d = (Ok v', d') ->
  exists v d1 asg, create_row m data d = (Ok v, d1) /\ data_assignments m ForCreate data = Ok asg /\
                   run_nested (id_of v) asg d1 = (Ok tt, d') /\ v' = reread m v d'.
Proof.
  intros H%st_atomic_ok. revert H. st_unfold.
  destruct (create_row m data d) as [[v|e] d1]; [|discriminate].
  destruct (data_assignments m ForCreate data) as [asg|e]; [|discriminate].
  destruct (run_nested _ asg d1) as [[[]|e] d2] eqn:E; [|discriminate].
  intros [= <- <-]. by exists v, d1, asg.
Qed.

Lemma update_ok_inv m w data d v' d' :
  update m w data d = (Ok v', d') ->
  exists data' d0 v d1 asg, owned_writes m w data d = (Ok data', d0) /\ update_row m w data' d0 = (Ok v, d1) /\
    data_assignments m ForUpdate data' = Ok asg /\ run_nested (id_of v) asg d1 = (Ok tt, d') /\ v' = reread m v d'.
Proof.
  intros H%st_atomic_ok. revert H. st_unfold.
  destruct (owned_writes m w data d) as [[data'|e] d0] eqn:Ho; [|discriminate].
  destruct (update_row m w data' d0) as [[v|e] d1] eqn:Hu; [|discriminate].
  destruct (data_assignments m ForUpdate data') as [asg|e] eqn:Ha; [|discriminate].
  destruct (run_nested _ asg d1) as [[[]|e] d2] eqn:E; [|discriminate].
  intros [= <- <-]. by exists data', d0, v, d1, asg.
Qed.

(** For a model whose nested writes are safe (a post), a successful
    [create] answers what its [INSERT] answered, and the model's rows
    are those the [INSERT] left. *)
Lemma create_ok_parent m data d v d' :
  nested_safe m = true -> create m data d = (Ok v, d') ->
  exists d1, create_row m data d = (Ok v, d1) /\ rows_of m d' = rows_of m d1.
Proof.
  intros Hs (v0 & d1 & asg & Hc & Ha & Hn & ->)%create_ok_inv.
  pose proof (keeps_rows_run m _ _ _ _ (run_nested_keeps_own m ForCreate data asg (id_of v0) Hs Ha) Hn) as Hk.
  exists d1. split; [|done].
  destruct (create_row_ok_id m data d v0 d1 Hc) as (k & r & -> & Hid & Hrow).
  unfold reread, id_of. rewrite Hid, Hk, Hrow. done.
Qed.

Lemma row_id_obj_get (r : row) k : row_id r = Some k -> obj_get (JObj r) "id" = JNum (NInt k).
Proof.
  unfold row_id, fk_target, obj_get. destruct (alist_get "id" r) as [[| | |[| | |]| | |]|]; try discriminate.
  by intros [= ->].
Qed.

(** The [id] of a stored row is its key. *)
Lemma stored_id_of d m k (r : row) : db_wf d -> rows_of m d !! k = Some r -> id_of (JObj r) = k.
Proof. intros Hwf Hr. unfold id_of. by rewrite (row_id_obj_get r k (proj1 (Hwf _ _ _ Hr))). Qed.

Lemma hd_select_rows d m w k r :
  hd_error (select_rows d m w) = Some (k, r) -> rows_of m d !! k = Some r.
Proof.
  intros H. apply (select_rows_lookup d m w). destruct (select_rows d m w); [discriminate|].
  injection H as ->. by left.
Qed.

(** A successful [UPDATE] of a model without a foreign key to itself
    answers the row it stored, under the row's [id]. *)
Lemma update_row_ok_stored m w data d v d1 :
  db_wf d -> (forall fk, ~ In (fk, m) (owned_fks m)) -> update_row m w data d = (Ok v, d1) ->
  exists (r : row) k, v = JObj r /\ obj_get v "id" = JNum (NInt k) /\ rows_of m d1 !! k = Some r.
Proof.
  intros Hwf Hself (asg & k & r & r' & _ & Hsel & Hap & -> & Hcase)%update_row_ok_inv.
  apply hd_select_rows in Hsel. destruct (Hwf m k r Hsel) as [Hid _].
  destruct Hcase as [[Hno ->]|[_ (k' & Hk' & Hmv)]].
  - exists r', k. assert (Hid' : row_id r' = Some k) by by rewrite (apply_assignments_row_id asg r r' Hno Hap).
    split; [done|]. split; [by apply row_id_obj_get|].
    rewrite rows_of_set_tbl, decide_True by done. simpl. by rewrite lookup_insert_eq.
  - apply move_row_ok_inv in Hmv as [_ ->]. exists r', k'. split; [done|]. split; [by apply row_id_obj_get|].
    rewrite rows_of_map_db. unfold rekey. simpl. rewrite tbl_set_tbl_eq. simpl.
    rewrite lookup_fmap, lookup_insert_eq. simpl. by rewrite cascade_refs_other.
Qed.

(** For a model whose nested writes are safe and that has no foreign
    key to itself (a post), a successful [update] answers what its
    [UPDATE] answered, and the model's rows are those it left. *)
Lemma update_ok_parent m w data d v d' :
  nested_safe m = true -> (forall fk, ~ In (fk, m) (owned_fks m)) -> db_wf d ->
  update m w data d = (Ok v, d') ->
  exists data' d0 d1, owned_writes m w data d = (Ok data', d0) /\ update_row m w data' d0 = (Ok v, d1) /\
                      rows_of m d' = rows_of m d1.
Proof.
  intros Hs Hself Hwf (data' & d0 & v0 & d1 & asg & Ho & Hc & Ha & Hn & ->)%update_ok_inv.
  pose proof (keeps_rows_run m _ _ _ _ (run_nested_keeps_own m ForUpdate data' asg (id_of v0) Hs Ha) Hn) as Hk.
  exists data', d0, d1. split; [done|]. split; [|done].
  pose proof (st_preserves_run db_wf _ d _ d0 (owned_writes_preserves _ m w data) Hwf Ho) as Hwf0.
  destruct (update_row_ok_stored m w data' d0 v0 d1 Hwf0 Hself Hc) as (r & k & -> & Hid & Hrow).
  unfold reread, id_of. rewrite Hid, Hk, Hrow. done.
Qed.

(** A post's nested writes touch comments, likes and images only, and a
    post has no foreign key to a post. *)
Lemma nested_safe_post : nested_safe MPost = true.
Proof. reflexivity. Qed.

Lemma post_no_self_fk fk : ~ In (fk, MPost) (owned_fks MPost).
Proof. simpl. intros [H|[]]. discriminate. Qed.

Lemma create_post_row data d v d' :
  create MPost data d = (Ok v, d') ->
  exists d1, create_row MPost data d = (Ok v, d1) /\ rows_of MPost d' = rows_of MPost d1.
Proof. apply create_ok_parent, nested_safe_post. Qed.

Lemma update_post_row w data d v d' :
  db_wf d -> update MPost w data d = (Ok v, d') ->
  exists data' d0 d1, owned_writes MPost w data d = (Ok data', d0) /\ update_row MPost w data' d0 = (Ok v, d1) /\
                      rows_of MPost d' = rows_of MPost d1.
Proof. intros Hwf. apply update_ok_parent; [apply nested_safe_post | apply post_no_self_fk | done]. Qed.

(** ** Data without nested writes *)

Lemma rollback_rows_same d d' : (forall m, rows_of m d' = rows_of m d) -> rollback d d' = d'.
Proof.
  intros Hr. unfold rollback.
  assert (Ht : forall m, mkTable (t_rows (tbl m d)) (t_next (tbl m d')) = tbl m d').
  { intros m. specialize (Hr m). unfold rows_of in Hr. rewrite <- Hr. by destruct (tbl m d'). }
  pose proof (Ht MUser) as H1. pose proof (Ht MPost) as H2. pose proof (Ht MComment) as H3.
  pose proof (Ht MLike) as H4. pose proof (Ht MImage) as H5.
  destruct d' as [u p c l i]. unfold map_db. simpl in *. congruence.
Qed.

Lemma run_nested_plain p asg d :
  Forall (fun a => is_nested a = false) asg -> run_nested p asg d = (Ok tt, d).
Proof.
  unfold run_nested. intros Hp. induction Hp as [|a asg Ha _ IH] in d |- *; [done|].
  destruct a; try discriminate; exact (IH d).
Qed.

Lemma create_plain m data d : plain_data m ForCreate data -> create m data d = create_row m data d.
Proof.
  intros Hp. unfold create, st_atomic. st_unfold.
  destruct (create_row m data d) as [[v|e] d1] eqn:Hc.
  - pose proof Hc as (asg & _ & _ & Ha & _)%create_row_ok_inv. rewrite Ha, (run_nested_plain _ _ _ (Hp _ Ha)).
    destruct (create_row_ok_id m data d v d1 Hc) as (k & r & -> & Hid & Hrow).
    unfold reread, id_of. by rewrite Hid, Hrow.
  - f_equal. apply rollback_rows_same. intros m'. apply create_row_rows in Hc as [Ho Hm].
    destruct (decide (m' = m)) as [->|]; [done|]. by apply Ho.
Qed.

Lemma update_row_err_state m w data d e d' : update_row m w data d = (Err e, d') -> d' = d.
Proof.
  unfold update_row, move_row, write_row, put_row. st_unfold.
  repeat (case_match; simplify_eq/=); by intros [= _ <-].
Qed.

Lemma update_plain m w data d :
  db_wf d -> (forall fk, ~ In (fk, m) (owned_fks m)) -> owned_free m data -> plain_data m ForUpdate data ->
  update m w data d = update_row m w data d.
Proof.
  intros Hwf Hself Hf Hp. unfold update, st_atomic. rewrite (st_bind_ok _ _ d data d (owned_writes_free m w data d Hf)).
  st_unfold.
  destruct (update_row m w data d) as [[v|e] d1] eqn:Hc.
  - pose proof Hc as (asg & _ & _ & _ & Ha & _)%update_row_ok_inv. rewrite Ha, (run_nested_plain _ _ _ (Hp _ Ha)).
    destruct (update_row_ok_stored m w data d v d1 Hwf Hself Hc) as (r & k & -> & Hid & Hrow).
    unfold reread, id_of. by rewrite Hid, Hrow.
  - apply update_row_err_state in Hc as ->. by rewrite rollback_same.
Qed.

(** Entries that are not objects on inverse relations give no nested
    write; a model without inverse relations (an image) never has one. *)
Lemma plain_entries m md o :
  (forall k v, In (k, v) o -> inverse_rel m k <> None -> forall o', v <> JObj o') -> plain_data m md (JObj o).
Proof.
  intros Ho asg [Has _]%data_assignments_obj. apply Forall_forall. intros a Ha%list_elem_of_In.
  destruct a as [| | |rel tgt fk ops]; [done..|]. exfalso.
  destruct (assignments_origin m md o asg Has _ Ha) as (k & v & Hin & Hc).
  pose proof Hc as [-> [many Hinv]]%classify_nested_inv. unfold classify in Hc. rewrite Hinv in Hc.
  destruct v as [| | | | | |o']; try discriminate. refine (Ho k (JObj o') Hin _ o' eq_refl). by rewrite Hinv.
Qed.

Lemma image_no_inverse k : inverse_rel MImage k = None.
Proof.
  unfold inverse_rel. destruct (find_column MImage k); [done|].
  destruct (find_relation MImage k) as [r|] eqn:Hr; [|done].
  apply find_relation_spec in Hr as [_ Hin]. by repeat destruct Hin as [<-|Hin].
Qed.

Lemma create_image_plain data d : create MImage data d = create_row MImage data d.
Proof.
  apply create_plain. intros asg Ha. destruct data as [| | | | | |o]; try discriminate.
  revert asg Ha. apply plain_entries. intros k v _. by rewrite image_no_inverse.
Qed.

(** A statement that fails fails the transaction, which restores its
    rows. *)
Lemma create_row_err_same m data d e :
  create_row m data d = (Err e, d) -> create m data d = (Err e, d).
Proof. intros H. unfold create. rewrite (st_atomic_err _ _ _ e d); [by rewrite rollback_same|]. st_unfold. by rewrite H. Qed.

Lemma update_row_err_same m w data d e :
  owned_free m data -> update_row m w data d = (Err e, d) -> update m w data d = (Err e, d).
Proof.
  intros Hf H. unfold update. rewrite (st_atomic_err _ _ _ e d); [by rewrite rollback_same|].
  rewrite (st_bind_ok _ _ d data d (owned_writes_free m w data d Hf)). st_unfold. by rewrite H.
Qed.

(** What a [create] of a model with safe nested writes does to the
    model's table: one new row under a free key, or nothing. *)
Lemma create_rows_own m data d res d' :
  nested_safe m = true -> create m data d = (res, d') ->
  match res with
  | Ok v => exists k r, v = JObj r /\ rows_of m d !! k = None /\ rows_of m d' = <[k := r]> (rows_of m d)
  | Err _ => rows_of m d' = rows_of m d
  end.
Proof.
  intros Hs Hc. destruct res as [v|e].
  - destruct (create_ok_parent m data d v d' Hs Hc) as (d1 & Hc1 & Hk).
    pose proof (proj2 (create_row_rows m data d _ d1 Hc1)) as H. simpl in H. by rewrite Hk.
  - by apply (create_err_rows m data d e d').
Qed.

Lemma post_unique_id c : In c (columns MPost) -> col_unique c = true -> col_name c = "id".
Proof. intros Hc Hu. simpl in Hc. by repeat destruct Hc as [<-|Hc]. Qed.

(** ** Nested connects *)

(** A nested connect of row [z] sets its foreign key to the parent. *)
Lemma run_connect_one tgt fk col p z d d' :
  db_wf d -> find_column tgt fk = Some col -> fk <> "id" ->
  run_nested_op tgt fk p (NConnect [z]) d = (Ok tt, d') ->
  exists rc : row, rows_of tgt d' !! z = Some rc /\ fk_target rc fk = Some p.
Proof.
  intros Hwf Hc Hne. cbn [run_nested_op st_for]. unfold connect_child, id_cond. st_unfold.
  destruct (update_row tgt _ _ d) as [[vc|e] d1] eqn:Eu; [|discriminate]. intros [= <-].
  apply update_row_ok_inv in Eu as (asg & k & r & r' & Ha & Hsel & Hap & -> & Hcase).
  pose proof (data_assignments_col_unique tgt ForUpdate _ asg Ha ltac:(repeat constructor; set_solver)) as Hu.
  apply data_assignments_obj in Ha as [Has _].
  destruct (assignments_complete tgt ForUpdate _ asg fk _ Has (or_introl eq_refl) eq_refl) as (a & Hcl & Hain).
  pose proof (classify_scalar tgt ForUpdate fk _ a col Hcl Hc ltac:(done)) as ->.
  assert (Hg : alist_get fk r' = Some (JNum (NInt p)))
    by (apply (apply_assignments_get asg r r' (AScalar fk _)); [intros; by apply Hu | done..]).
  assert (Hid : assigns_id asg = false).
  { apply assigns_id_false, (assignments_no_id tgt ForUpdate _ _ Has). intros v [[= E _]|[]]. congruence. }
  destruct Hcase as [[_ ->]|[Hid' _]]; [|congruence].
  assert (Hin : In (k, r) (select_rows d tgt [CEq "id" (JNum (NInt z))]))
    by (destruct (select_rows _ _ _); [discriminate|]; injection Hsel as ->; by left).
  apply (select_rows_id d tgt z Hwf) in Hin as [Hkz _]. simpl in Hkz. subst k.
  exists r'. rewrite rows_of_set_tbl, decide_True by done. simpl. rewrite lookup_insert_eq.
  split; [done|]. unfold fk_target. by rewrite Hg.
Qed.

(** A nested connect succeeds only on a row that exists. *)
Lemma run_connect_exists tgt fk p z d d' :
  db_wf d -> run_nested_op tgt fk p (NConnect [z]) d = (Ok tt, d') -> exists rc : row, rows_of tgt d !! z = Some rc.
Proof.
  intros Hwf. cbn [run_nested_op st_for]. unfold connect_child, id_cond. st_unfold.
  destruct (update_row tgt _ _ d) as [[vc|e] d1] eqn:Eu; [|discriminate]. intros _.
  apply update_row_ok_inv in Eu as (asg & k & r & r' & _ & Hsel & _).
  assert (Hin : In (k, r) (select_rows d tgt [CEq "id" (JNum (NInt z))]))
    by (destruct (select_rows _ _ _); [discriminate|]; injection Hsel as ->; by left).
  apply (select_rows_id d tgt z Hwf) in Hin as [_ Hr]. by exists r.
Qed.
