(* ===== verification/NestedFacts.v ===== *)
(** * The nested writes, functionally

    What the operations of [Nested.run_nested_op] do to the children of
    a row: which rows are the children ([children_of_fk]), how an
    [updateMany] that sets a foreign key rewrites each of them
    ([update_each_fk]), why unlinking a child fails on a required
    relation ([disconnect_required], [run_set_required]), and what a
    [createMany] with [skipDuplicates] can and cannot do. *)

From stdpp Require Import base list strings gmap.
From Stdlib Require Import ZArith String.
From S2P Require Import Prelude JsValue Schema Store StoreFacts Typing Owned Nested.

Local Open Scope string_scope.

(** The rows of [m] kept through writes on the models [T]: each row
    is still there, and a field that is no foreign key into [T] keeps
    its value. *)
Definition fk_kept (m : model) (T : list model) (r r0 : row) : Prop :=
  forall f, (forall tgt, In (f, tgt) (owned_fks m) -> ~ In tgt T) -> alist_get f r0 = alist_get f r.

Definition rows_kept (m : model) (T : list model) (d d' : db) : Prop :=
  forall k (r : row), rows_of m d !! k = Some r -> exists r0 : row, rows_of m d' !! k = Some r0 /\ fk_kept m T r r0.

(** The models named by the owned relations among the keys of [o]. *)
Definition owned_targets (m : model) (o : list (string * jsval)) : list model :=
  omap (fun '(k, _) => snd <$> owned_target m k) o.

(** A row whose foreign key [fk] is set to [z]. *)
Definition set_key (fk : string) (z : Z) (r : row) : row := alist_set fk (JNum (NInt z)) r.

(** ** Rows kept *)

Lemma rows_kept_refl m T d : rows_kept m T d d.
Proof. intros k r Hr. by exists r. Qed.

Lemma rows_kept_trans m T d1 d2 d3 : rows_kept m T d1 d2 -> rows_kept m T d2 d3 -> rows_kept m T d1 d3.
Proof.
  intros H12 H23 k r Hr. destruct (H12 k r Hr) as (r2 & Hr2 & Hk2). destruct (H23 k r2 Hr2) as (r3 & Hr3 & Hk3).
  exists r3. split; [done|]. intros f Hf. by rewrite (Hk3 f Hf), (Hk2 f Hf).
Qed.

Lemma rows_kept_same m T d d' : rows_of m d' = rows_of m d -> rows_kept m T d d'.
Proof. intros E k r Hr. exists r. by rewrite E. Qed.

Lemma cascade_steps_get_untargeted tgt k k' m l r f :
  ~ In (f, tgt) l -> alist_get f (fold_left (cascade_step tgt k k' m) l r) = alist_get f r.
Proof.
  revert r. induction l as [|[fk t] l IH]; intros r Hf; [done|]. simpl.
  rewrite IH by (intros Hin; apply Hf; by right). case_match; [|done].
  apply alist_get_set_ne. intros ->. apply andb_true_iff in H as [Ht _].
  apply bool_decide_eq_true in Ht as ->. apply Hf. by left.
Qed.

(** A statement on [tgt], another model of [T], keeps the rows of [m]. *)
Lemma update_row_kept m T tgt w data d0 :
  In tgt T -> tgt <> m -> st_preserves (rows_kept m T d0) (update_row tgt w data).
Proof.
  intros HT Hne d Hd. destruct (update_row tgt w data d) as [res d'] eqn:E. simpl.
  apply (rows_kept_trans m T d0 d d'); [done|].
  destruct (update_row_state _ _ _ _ _ _ E) as [->|[[t ->]|(kk & kk' & t & ->)]].
  - apply rows_kept_refl.
  - apply rows_kept_same. by rewrite rows_of_set_tbl, decide_False.
  - intros k r Hr. rewrite rows_of_rekey, rows_of_set_tbl, decide_False, lookup_fmap, Hr by done.
    eexists. split; [done|]. intros f Hf. apply cascade_steps_get_untargeted. intros Hin. by apply (Hf tgt).
Qed.

Lemma create_row_kept m T tgt data d0 : tgt <> m -> st_preserves (rows_kept m T d0) (create_row tgt data).
Proof.
  intros Hne d Hd. destruct (create_row tgt data d) as [res d'] eqn:E. simpl.
  apply create_row_rows in E as [Ho _]. apply (rows_kept_trans m T d0 d d'); [done|].
  apply rows_kept_same. by apply Ho.
Qed.

Lemma run_owned_kept m T d0 k fk tgt t op :
  In tgt T -> tgt <> m -> st_preserves (rows_kept m T d0) (run_owned k fk tgt t op).
Proof.
  intros HT Hne. pose proof (update_row_kept m T tgt) as Hu. pose proof (create_row_kept m T tgt) as Hc.
  destruct op; simpl;
    repeat first [apply st_preserves_ret | apply st_preserves_get | apply st_preserves_throw | by apply Hc
                 | by apply Hu | progress case_match | apply st_preserves_bind; [|intros ?]].
Qed.

Lemma owned_target_fks m rn fk tgt : owned_target m rn = Some (fk, tgt) -> In (fk, tgt) (owned_fks m).
Proof.
  unfold owned_target. destruct (find_relation m rn) as [rel|] eqn:Hr; [|discriminate].
  apply find_relation_spec in Hr as [_ Hin]. destruct (rel_kind rel) eqn:Hk; try discriminate.
  intros [= <- <-]. unfold owned_fks. apply list_elem_of_In, list_elem_of_omap. exists rel.
  rewrite Hk. split; [by apply list_elem_of_In | done].
Qed.

(** The owned nested writes of a row of [m] without a foreign key to
    its own model leave every row of [m] in place, with the fields that
    are no foreign key into a model the data names unchanged (a row
    whose key points at a target whose id changes follows it). *)
Lemma owned_writes_rows m w o d data' d0 :
  (forall fk, ~ In (fk, m) (owned_fks m)) -> owned_writes m w (JObj o) d = (Ok data', d0) ->
  rows_kept m (owned_targets m o) d d0.
Proof.
  intros Hself Hrun. refine (st_preserves_run _ (owned_writes m w (JObj o)) d _ d0 _ (rows_kept_refl _ _ d) Hrun).
  unfold owned_writes. apply st_preserves_bind_dep; [apply st_preserves_lift|]. intros s ops s' _ [= Hp _].
  destruct ops as [|op0 ops0]; [apply st_preserves_ret|].
  repeat (apply st_preserves_bind; [apply _|intros ?]). case_match; [apply _|].
  do 2 (apply st_preserves_bind; [apply _|intros ?]). repeat case_match; try apply _.
  apply st_preserves_bind; [|intros; apply _]. apply st_preserves_map_in.
  intros [[[k fk] tgt] op] Hin. destruct (owned_parse_in m o _ k fk tgt op Hp Hin) as (Hk & _ & Ho).
  apply st_preserves_bind; [|intros; apply _]. apply run_owned_kept.
  - apply list_elem_of_In, list_elem_of_omap. apply in_map_iff in Hk as ([k' v] & <- & Hkv).
    exists (k', v). split; [by apply list_elem_of_In|]. simpl in Ho. by rewrite Ho.
  - intros ->. exact (Hself fk (owned_target_fks _ _ _ _ Ho)).
Qed.

(** ** The children of a row *)

Lemma children_of_fk d tgt fk p kc (rc : row) :
  rows_of tgt d !! kc = Some rc -> kc ∈ children_of d tgt fk p [] <-> fk_target rc fk = Some p.
Proof.
  intros Hr. unfold children_of. rewrite list_elem_of_In, in_map_iff. split.
  - intros ([k r] & <- & Hin). apply select_rows_lookup in Hin as [Hr' Hm]. cbn [fst snd] in *.
    rewrite Hr in Hr'. injection Hr' as <-. destruct (decide (fk_target rc fk = Some p)) as [|Hne]; [done|].
    by rewrite fk_filter_unmatched in Hm.
  - intros Hfk. exists (kc, rc). split; [done|]. apply select_rows_complete; [done|].
    by apply fk_filter_matches.
Qed.

Lemma children_of_stored d tgt fk p w :
  Forall (fun k => is_Some (rows_of tgt d !! k)) (children_of d tgt fk p w).
Proof.
  apply Forall_forall. intros k Hk. apply list_elem_of_In, in_map_iff in Hk as ([k0 r] & <- & Hin).
  apply select_rows_lookup in Hin as [Hr _]. by exists r.
Qed.

(** ** Setting a foreign key of many children *)

(** The [UPDATE]s by id of [updateMany], one per selected key, that set
    the foreign key [fk] to an existing row [z] of another model: each
    succeeds, and the selected rows, and only they, get the new key. *)
Lemma update_each_fk m fk tgt z ks d :
  db_wf d -> db_typed d -> tgt <> m ->
  (forall c, In c (columns m) -> col_unique c = true -> col_name c = "id") ->
  In (fk, tgt) (owned_fks m) -> is_Some (rows_of tgt d !! z) ->
  data_assignments m ForUpdate (JObj [(fk, JNum (NInt z))]) = Ok [AScalar fk (JNum (NInt z))] ->
  Forall (fun k => is_Some (rows_of m d !! k)) ks ->
  exists d', st_for ks (fun k => _ <- update_row m [id_cond k] (JObj [(fk, JNum (NInt z))]) ;; st_ret tt) d
               = (Ok tt, d') /\
    (forall m', m' <> m -> rows_of m' d' = rows_of m' d) /\
    (forall k, rows_of m d' !! k = if bool_decide (k ∈ ks) then set_key fk z <$> rows_of m d !! k
                                   else rows_of m d !! k).
Proof.
  intros Hwf Hty Hne Hu Hfk Hz Ha Hks. revert d Hwf Hty Hz Hks.
  induction ks as [|k ks IH]; intros d Hwf Hty Hz Hks.
  { exists d. split; [done|]. split; [done|]. intros k. by rewrite bool_decide_false by apply not_elem_of_nil. }
  apply Forall_cons in Hks as [[r Hr] Hks].
  pose proof (stored_id_int32 d m k r Hwf Hty Hr) as Hk.
  pose proof (update_row_set_fk m k r fk tgt z d Hwf Hk Hr Hu Hfk Hz Ha) as Hup. simpl in Hup.
  set (d1 := set_tbl m _ d) in Hup.
  assert (Hr1 : forall m', rows_of m' d1 = if decide (m = m') then <[k := alist_set fk (JNum (NInt z)) r]> (rows_of m d)
                                          else rows_of m' d) by (intros; unfold d1; by rewrite rows_of_set_tbl).
  destruct (IH d1) as (d' & Hrun & Ho & Hm).
  - exact (st_preserves_run db_wf _ d _ d1 (update_row_wf _ _ _) Hwf Hup).
  - exact (st_preserves_run db_typed _ d _ d1 (update_row_typed _ _ _) Hty Hup).
  - by rewrite Hr1, decide_False.
  - apply (Forall_impl _ _ _ Hks). intros j Hj. rewrite Hr1, decide_True by done.
    destruct (decide (j = k)) as [->|]; [by rewrite lookup_insert_eq | by rewrite lookup_insert_ne].
  - exists d'. split; [simpl; unfold id_cond; st_unfold; by rewrite Hup|]. split.
    + intros m' Hm'. by rewrite Ho, Hr1, decide_False by done.
    + intros j. rewrite Hm, Hr1, decide_True by done. destruct (decide (j = k)) as [->|Hjk].
      * rewrite lookup_insert_eq, Hr. simpl. rewrite (bool_decide_true (k ∈ k :: ks)) by (rewrite elem_of_cons; by left).
        case_bool_decide; simpl; unfold set_key; by rewrite ?alist_set_idem.
      * rewrite lookup_insert_ne by done.
        replace (bool_decide (j ∈ k :: ks)) with (bool_decide (j ∈ ks)); [done|].
        apply bool_decide_ext. rewrite elem_of_cons. split; [by right | intros [->|?]; [congruence|done]].
Qed.

Lemma comment_unique_id c : In c (columns MComment) -> col_unique c = true -> col_name c = "id".
Proof. intros Hc Hu. simpl in Hc. by repeat destruct Hc as [<-|Hc]. Qed.

Lemma user_unique_id c : In c (columns MUser) -> col_unique c = true -> col_name c = "id".
Proof. intros Hc Hu. simpl in Hc. by repeat destruct Hc as [<-|Hc]. Qed.

(** ** Unlinking children on a required relation *)

Lemma disconnect_required tgt fk ks d :
  fk_nullable tgt fk = false -> ks <> [] -> disconnect_rows tgt fk ks d = (Err ERequiredRelation, d).
Proof. intros Hn Hks. destruct ks; [done|]. unfold disconnect_rows. by rewrite Hn. Qed.

(** [set: zs] on a required relation fails, and writes nothing, as soon
    as one child is not among [zs]. *)
Lemma run_set_required tgt fk p zs d kc (rc : row) :
  fk_nullable tgt fk = false -> rows_of tgt d !! kc = Some rc -> fk_target rc fk = Some p -> kc ∉ zs ->
  run_nested_op tgt fk p (NSet zs) d = (Err ERequiredRelation, d).
Proof.
  intros Hn Hr Hfk Hz. cbn [run_nested_op]. rewrite (st_bind_ok st_get _ d d d eq_refl).
  rewrite (st_bind_err _ _ d ERequiredRelation d); [done|]. apply disconnect_required; [done|].
  apply (elem_of_not_nil kc), list_elem_of_In, filter_In. split.
  - by apply list_elem_of_In, (children_of_fk d tgt fk p kc rc Hr).
  - by rewrite bool_decide_false.
Qed.

(** ** [createMany] with [skipDuplicates] *)

Lemma create_row_grows tgt data R : st_preserves (fun d => R ⊆ rows_of tgt d) (create_row tgt data).
Proof.
  intros d HR. destruct (create_row tgt data d) as [res d'] eqn:E.
  apply create_row_rows in E as [_ Hres]. simpl. destruct res as [v|e]; [|by rewrite Hres].
  destruct Hres as (k & r & _ & Hk & ->). transitivity (rows_of tgt d); [done|]. by apply insert_subseteq.
Qed.

(** A nested [createMany] with [skipDuplicates: true] never fails with a
    unique-constraint violation (a child whose id or unique value is
    taken is skipped), and every row the target table had before is
    still there with the same values: the operation only adds rows; a
    [createMany] that succeeds without [skipDuplicates] does the same
    with it. *)
Lemma create_many_skips_duplicates tgt fk p cs d :
  fst (run_nested_op tgt fk p (NCreateMany cs true) d) <> Err EUnique /\
  rows_of tgt d ⊆ rows_of tgt (snd (run_nested_op tgt fk p (NCreateMany cs true) d)) /\
  (forall d', run_nested_op tgt fk p (NCreateMany cs false) d = (Ok tt, d') ->
              run_nested_op tgt fk p (NCreateMany cs true) d = (Ok tt, d')).
Proof.
  cbn [run_nested_op]. split; [|split].
  - apply st_for_never. intros c s. unfold st_catch.
    destruct (create_child tgt fk p c s) as [[[]|e] s']; [discriminate|]. by destruct e.
  - assert (Hc : forall c, st_preserves (fun d' => rows_of tgt d ⊆ rows_of tgt d') (create_child tgt fk p c))
      by (intros c; apply st_preserves_bind; [apply create_row_grows | intros; apply _]).
    apply (st_preserves_for (fun d' => rows_of tgt d ⊆ rows_of tgt d')); [|done].
    intros c. apply st_preserves_catch; [done | apply _].
  - apply st_for_ok_agree. intros c s s'. apply st_catch_ok.
Qed.

(** ** A nested [update] is scoped to the children *)

(** No child of [p] has the id of a row whose key points elsewhere. *)
Lemma select_unlinked d tgt fk p kc (rc : row) :
  db_wf d -> rows_of tgt d !! kc = Some rc -> fk_target rc fk <> Some p ->
  select_rows d tgt [CEq fk (JNum (NInt p)); id_cond kc] = [].
Proof.
  intros Hwf Hr Hfk. destruct (select_rows d tgt _) as [|[k r] rest] eqn:Hs; [done|]. exfalso.
  assert (Hin : In (k, r) (select_rows d tgt [CEq fk (JNum (NInt p)); id_cond kc])) by (rewrite Hs; by left).
  apply select_rows_two_eqs in Hin as (Hk & E1 & E2); [|done..].
  destruct (Hwf tgt k r Hk) as [Hid _]. unfold row_id, fk_target in Hid. rewrite E2 in Hid.
  injection Hid as <-. rewrite Hr in Hk. injection Hk as <-. apply Hfk. unfold fk_target. by rewrite E1.
Qed.

(** [update: {where: {id: kc}, data}] on a row [kc] that is not a child
    of [p] fails with P2025 and writes nothing. *)
Lemma run_update_unlinked tgt fk p kc (rc : row) c asg d :
  db_wf d -> rows_of tgt d !! kc = Some rc -> fk_target rc fk <> Some p ->
  check_conds tgt [CEq fk (JNum (NInt p)); id_cond kc] = Ok tt ->
  data_assignments tgt ForUpdate (JObj c) = Ok asg ->
  run_nested_op tgt fk p (NUpdate [id_cond kc] c) d = (Err ENotFound, d).
Proof.
  intros Hwf Hr Hfk Hcc Ha. cbn [run_nested_op]. apply st_bind_err. unfold update_row. st_unfold.
  rewrite Hcc. simpl. rewrite find_column_id. simpl. rewrite orb_true_r. simpl.
  rewrite Ha. by rewrite (select_unlinked d tgt fk p kc rc Hwf Hr Hfk).
Qed.

Lemma owned_targets_in m o tgt :
  In tgt (owned_targets m o) -> exists rn fk, In rn (map fst o) /\ owned_target m rn = Some (fk, tgt).
Proof.
  unfold owned_targets. rewrite <- list_elem_of_In, list_elem_of_omap. intros ([k v] & Hin & Ht).
  destruct (owned_target m k) as [[fk t]|] eqn:E; simpl in Ht; [|discriminate]. injection Ht as ->.
  exists k, fk. split; [|done]. apply in_map_iff. exists (k, v). split; [done|]. by apply list_elem_of_In.
Qed.
