(* ===== verification/Upload.v ===== *)
(** * The multer upload middleware (lines 6-15 and 133)

    [multer({storage: multer.diskStorage({destination, filename})})]
    stores each uploaded file under ["image/"] with the name
    [<Date.now()>_<originalname>], and [upload.single('image')] accepts
    exactly one file, in the field [image], before the handler runs.  It
    sets [req.file] to the file's description and [req.body] to the text
    fields of the multipart form, every value a string.

    The clock is an input: [now] is the value of [new Date().valueOf()]
    when multer names the file.  The disk is a map from paths to the
    files written there; a second upload with the same path replaces the
    first one. *)

From stdpp Require Import base list strings gmap.
From Stdlib Require Import ZArith String Ascii.
From S2P Require Import Prelude JsValue.

Local Open Scope string_scope.

(** A file part of a multipart request, as busboy reports it. *)
Record file_part : Type := mkFilePart {
  fp_field : string;      (** the form field name *)
  fp_name : string;       (** [originalname] *)
  fp_encoding : string;
  fp_mimetype : string;
  fp_size : Z
}.

(** [destination: function (req, file, cb) { cb(null, 'image/') }]. *)
Definition upload_destination : string := "image/".

(** [filename: ... cb(null, new Date().valueOf() + '_' + file.originalname)]. *)
Definition upload_filename (now : Z) (f : file_part) : string :=
  int_to_string now +:+ "_" +:+ fp_name f.

(** [req.file] after a disk-storage upload; [path] is
    [path.join(destination, filename)]. *)
Definition stored_file (now : Z) (f : file_part) : jsval :=
  let name := upload_filename now f in
  JObj [("fieldname", JStr (fp_field f)); ("originalname", JStr (fp_name f));
        ("encoding", JStr (fp_encoding f)); ("mimetype", JStr (fp_mimetype f));
        ("destination", JStr upload_destination); ("filename", JStr name);
        ("path", JStr (upload_destination +:+ name)); ("size", JNum (NInt (fp_size f)))].

(** Errors multer passes to [next(err)]: [LIMIT_UNEXPECTED_FILE] for a
    file in another field or a second file in [image]. *)
Inductive upload_error : Type :=
| UnexpectedField (field : string).

(** The files on disk, by path. *)
Definition disk : Type := gmap string file_part.

(** [upload.single('image')]: the files of the request in arrival
    order; the result is [req.file] ([undefined] when no file was sent)
    and the disk after writing.  On an error multer removes the files it
    already wrote, so the disk is unchanged. *)
Definition single_image (now : Z) (files : list file_part) (dk : disk)
  : res upload_error (jsval * disk) :=
  match files with
  | [] => Ok (JUndefined, dk)
  | [f] =>
      if String.eqb (fp_field f) "image"
      then Ok (stored_file now f, <[upload_destination +:+ upload_filename now f := f]> dk)
      else Err (UnexpectedField (fp_field f))
  | f :: g :: _ =>
      if String.eqb (fp_field f) "image" then Err (UnexpectedField (fp_field g))
      else Err (UnexpectedField (fp_field f))
  end.

(** The text fields of the form become [req.body], all strings. *)
Definition form_body (fields : list (string * string)) : jsval :=
  JObj (map (fun '(k, v) => (k, JStr v)) fields).

(** * Lemmas *)

Lemma list_ascii_of_string_app s1 s2 :
  list_ascii_of_string (s1 +:+ s2) = (list_ascii_of_string s1 ++ list_ascii_of_string s2)%list.
Proof.
  induction s1 as [|c s1 IH]; [done|].
  change (String c s1 +:+ s2) with (String c (s1 +:+ s2)). cbn. by rewrite IH.
Qed.

(** A list splits at most one way around the first occurrence of a
    separator. *)
Lemma sep_split_unique {A} (u : A) a b c d :
  ~ In u a -> ~ In u c -> (a ++ u :: b = c ++ u :: d)%list -> a = c /\ b = d.
Proof.
  revert c. induction a as [|x a IH]; intros [|y c] Ha Hc H; simpl in *.
  - by injection H.
  - injection H as -> _. tauto.
  - injection H as -> _. tauto.
  - injection H as -> H. destruct (IH c) as [-> ->]; auto.
Qed.

(** A printed integer has no underscore. *)
Lemma int_to_string_no_sep z : ~ In "_"%char (list_ascii_of_string (int_to_string z)).
Proof.
  assert (Hd : forall l, Forall is_digit_char l -> ~ In "_"%char l).
  { intros l Hl Hin. rewrite Forall_forall in Hl. destruct (Hl _ (proj2 (list_elem_of_In _ _) Hin)) as (d & Hd & He).
    apply (f_equal code) in He. rewrite code_digit_char in He by done.
    change (code "_"%char) with 95 in He. lia. }
  unfold int_to_string. rewrite list_ascii_of_string_of_list_ascii.
  destruct z as [|p|p].
  - apply Hd. repeat constructor. by exists 0.
  - apply Hd, dec_digits_digits. constructor.
  - intros [Hm|Hin]; [discriminate|]. revert Hin. apply Hd, dec_digits_digits. constructor.
Qed.

Lemma single_image_one now f dk :
  fp_field f = "image" ->
  single_image now [f] dk = Ok (stored_file now f, <[upload_destination +:+ upload_filename now f := f]> dk).
Proof. intros Hf. unfold single_image. by rewrite Hf. Qed.

(** * Theorems *)

(** C19: two uploads are stored under the same file name exactly when
    multer named them in the same millisecond and they have the same
    original name: the timestamp before the first [_] reads back as the
    time ([String] is injective on integers), and the rest is the original name.  Any two files with the same
    original name uploaded in the same millisecond overwrite each other
    on disk. *)
Theorem upload_filename_collision now1 now2 f1 f2 :
  upload_filename now1 f1 = upload_filename now2 f2 <-> now1 = now2 /\ fp_name f1 = fp_name f2.
Proof.
  split; [|intros [-> Hn]; unfold upload_filename; by rewrite Hn].
  unfold upload_filename. intros H. apply (f_equal list_ascii_of_string) in H.
  rewrite !list_ascii_of_string_app in H. cbn [list_ascii_of_string app] in H.
  apply sep_split_unique in H as [Ht Hn]; [|apply int_to_string_no_sep..].
  split.
  - apply (f_equal string_of_list_ascii) in Ht. rewrite !string_of_list_ascii_of_string in Ht.
    by apply int_to_string_inj.
  - apply (f_equal string_of_list_ascii) in Hn. by rewrite !string_of_list_ascii_of_string in Hn.
Qed.

(** Every field of a form is a string. *)
Lemma form_body_plain fields k x :
  In (k, x) (own_entries (form_body fields)) -> forall o, x <> JObj o.
Proof.
  simpl. intros (kv & E & _)%in_map_iff o ->. destruct kv as [k' v]. discriminate.
Qed.
