(* ===== verification/Handlers.v ===== *)
(** * The route handlers of [src/controllers/posts.js] (lines 17-207)

    Each [async (req, res) => {...}] is a computation
    [request -> ST db perr jsval]: every [await db.x.y(...)] is one bind,
    in source order, and the final [res.json(v)] is the returned value.
    A Prisma error rejects the handler's promise; Express 4 does not
    catch it, no response is sent (the server stops, [Router.serve]),
    and the writes already awaited stay in the database.  The Prisma arguments are transcribed literally:
    [where] objects as [cond] lists, [include]/[select] objects as
    [shape]s, [data] objects built with [spread_with] from
    [{...req.body, k: v}]. *)

From stdpp Require Import base list strings gmap.
From Stdlib Require Import ZArith String.
From S2P Require Import Prelude JsValue Schema Store StoreFacts Typing Owned Nested NestedFacts.

Local Open Scope string_scope.

(** The parts of an Express request the handlers read. *)
Record request : Type := mkReq {
  req_params : list (string * string);  (** [req.params], from the route pattern *)
  req_body : jsval;                     (** [req.body] *)
  req_currentUser : jsval;              (** set by the authentication middleware *)
  req_file : jsval                      (** set by multer on the upload route *)
}.

(** [req.params.x]: a string, or [undefined] when the route has no such
    parameter. *)
Definition param (req : request) (x : string) : jsval :=
  match alist_get x (req_params req) with
  | Some s => JStr s
  | None => JUndefined
  end.

Definition connect (id : jsval) : jsval := JObj [("connect", JObj [("id", id)])].

(** [include: {author: true, comments: {include: {author: true}},
    likes: true, image: true}] (lines 23-32 and 43-52). *)
Definition post_include : shape :=
  Incl [("author", all_scalars); ("comments", Incl [("author", all_scalars)]);
        ("likes", all_scalars); ("image", all_scalars)].

(** The [include] of lines 62-73. *)
Definition unpublished_include : shape :=
  Incl [("author", all_scalars);
        ("comments", Incl [("author", all_scalars); ("childComments", all_scalars)]);
        ("likes", all_scalars); ("image", all_scalars)].

(** The [include] of lines 85-94: no image. *)
Definition user_unpublished_include : shape :=
  Incl [("author", all_scalars);
        ("comments", Incl [("author", all_scalars); ("childComments", all_scalars)]);
        ("likes", all_scalars)].

(** The [select] of lines 102-109. *)
Definition published_select : shape :=
  Sel [("title", all_scalars); ("categories", all_scalars); ("author", all_scalars);
       ("comments", all_scalars); ("likes", all_scalars); ("image", all_scalars)].

(** GET / (lines 18-35). *)
Definition get_published_posts (req : request) : ST db perr jsval :=
  posts <- find_many MPost [CEq "published" (JBool true)] post_include ;;
  st_ret (JObj [("posts", posts)]).

(** GET /:id (lines 38-55). *)
Definition get_post_by_id (req : request) : ST db perr jsval :=
  post <- find_unique MPost [CEq "id" (JNum (to_number (param req "id")))] post_include ;;
  st_ret (JObj [("post", post)]).

(** ALL /allunpublished (lines 58-76): comments also include their
    [childComments]. *)
Definition get_all_unpublished (req : request) : ST db perr jsval :=
  posts <- find_many MPost [CEq "published" (JBool false)] unpublished_include ;;
  st_ret (JObj [("posts", posts)]).

(** ALL /unpublished (lines 79-97): the current user's drafts, without
    the image. *)
Definition get_user_unpublished (req : request) : ST db perr jsval :=
  posts <- find_many MPost
             [CEq "authorId" (JNum (to_number (req_currentUser req))); CEq "published" (JBool false)]
             user_unpublished_include ;;
  st_ret (JObj [("posts", posts)]).

(** GET /published (lines 100-116): a [select] projection. *)
Definition get_user_published (req : request) : ST db perr jsval :=
  posts <- find_many MPost
             [CEq "authorId" (JNum (to_number (req_currentUser req))); CEq "published" (JBool true)]
             published_select ;;
  st_ret (JObj [("posts", posts)]).

(** POST /create (lines 119-128): [{...req.body, author: {connect:
    {id: req.currentUser}}}]. *)
Definition create_post (req : request) : ST db perr jsval :=
  createdPost <- create MPost (spread_with (req_body req) [("author", connect (req_currentUser req))]) ;;
  st_ret (JObj [("message", JStr "Created Post"); ("post", createdPost)]).

(** POST /create/image (lines 131-160), after [upload.single('image')]:
    the post with [authorId: 1], then the image connected to it. *)
Definition create_post_with_image (req : request) : ST db perr jsval :=
  createdPost <- create MPost (spread_with (req_body req) [("authorId", JNum (NInt 1))]) ;;
  createdImage <- create MImage (spread_with (req_file req)
                                   [("posts", connect (obj_get createdPost "id"));
                                    ("author", connect (JNum (NInt 1)))]) ;;
  st_ret (JObj [("message", JStr "Created Post"); ("post", createdPost); ("image", createdImage)]).

(** PUT /:id (lines 164-172): [data: req.body]. *)
Definition update_post (req : request) : ST db perr jsval :=
  updatedPost <- update MPost [CEq "id" (JNum (to_number (param req "id")))] (req_body req) ;;
  st_ret (JObj [("message", JStr "the post has been updated"); ("post", updatedPost)]).

(** DELETE /:id (lines 176-207): likes, comments and images of the post,
    then the post, as four successive statements. *)
Definition delete_post (req : request) : ST db perr jsval :=
  let id := JNum (to_number (param req "id")) in
  deletedPostLikes <- delete_many MLike [CRel "posts" [CEq "id" id]] ;;
  deletePostComments <- delete_many MComment [CRel "posts" [CEq "id" id]] ;;
  deletedPostImage <- delete_many MImage [CRel "posts" [CEq "id" id]] ;;
  deletedPost <- delete MPost [CEq "id" id] ;;
  st_ret (JObj [("message", JStr "the post has been deleted"); ("post", deletedPost);
                ("likes", deletedPostLikes); ("comments", deletePostComments);
                ("image", deletedPostImage)]).

(** The nine handlers, in registration order. *)
Inductive route_handler : Type :=
| HGetPublished | HGetById | HAllUnpublished | HUserUnpublished | HUserPublished
| HCreate | HCreateImage | HUpdate | HDelete.

#[export] Instance route_handler_eq_dec : EqDecision route_handler.
Proof. solve_decision. Defined.

Definition run_handler (h : route_handler) : request -> ST db perr jsval :=
  match h with
  | HGetPublished => get_published_posts
  | HGetById => get_post_by_id
  | HAllUnpublished => get_all_unpublished
  | HUserUnpublished => get_user_unpublished
  | HUserPublished => get_user_published
  | HCreate => create_post
  | HCreateImage => create_post_with_image
  | HUpdate => update_post
  | HDelete => delete_post
  end.

(** ** A sample database and requests, for the witnesses

    Users 1 and 7; post 1, a draft of user 7; post 2, published by user
    1, with a comment and a like of user 7. *)
Definition user_row (k : Z) : row := [("id", JNum (NInt k)); ("name", JNull)].

Definition post_row (k : Z) (title : string) (pub : bool) (author : Z) : row :=
  [("id", JNum (NInt k)); ("title", JStr title); ("content", JNull);
   ("published", JBool pub); ("categories", JNull); ("authorId", JNum (NInt author))].

Definition comment_row (k post author : Z) : row :=
  [("id", JNum (NInt k)); ("content", JStr "nice"); ("postId", JNum (NInt post));
   ("authorId", JNum (NInt author)); ("parentId", JNull)].

Definition like_row (k post author : Z) : row :=
  [("id", JNum (NInt k)); ("postId", JNum (NInt post)); ("authorId", JNum (NInt author))].

Definition sample_db : db :=
  mkDb (mkTable (<[1%Z := user_row 1]> (<[7%Z := user_row 7]> ∅)) 8)
       (mkTable (<[1%Z := post_row 1 "draft" false 7]> (<[2%Z := post_row 2 "hello" true 1]> ∅)) 3)
       (mkTable {[1%Z := comment_row 1 2 7]} 2)
       (mkTable {[1%Z := like_row 1 2 7]} 2)
       (mkTable ∅ 1).

Definition req_with (params : list (string * string)) (body user file : jsval) : request :=
  mkReq params body user file.

Definition create_req : request :=
  req_with [] (JObj [("title", JStr "A"); ("published", JBool false)]) (JNum (NInt 7)) JUndefined.

(** The multipart request of [POST /create/image] as multer leaves it:
    string fields and the stored file; the caller is user 7. *)
Definition image_req : request :=
  req_with [] (JObj [("title", JStr "A")]) (JNum (NInt 7))
    (JObj [("fieldname", JStr "image"); ("originalname", JStr "cat.png");
           ("encoding", JStr "7bit"); ("mimetype", JStr "image/png");
           ("destination", JStr "image/"); ("filename", JStr "1700000000000_cat.png");
           ("path", JStr "image/1700000000000_cat.png"); ("size", JNum (NInt 1024))]).

Definition update_req : request :=
  req_with [("id", "1")] (JObj [("published", JBool true); ("authorId", JNum (NInt 1))])
    (JNum (NInt 7)) JUndefined.

Definition delete_req : request := req_with [("id", "2")] JUndefined JUndefined JUndefined.

(** [PUT /1] with body [{id: 3}]: post 1 renumbered to the next value
    of the post sequence. *)
Definition renumber_req : request :=
  req_with [("id", "1")] (JObj [("id", JNum (NInt 3))]) JUndefined JUndefined.

(** [PUT /2] with body [{id: 5}]: post 2 has a comment and a like. *)
Definition renumber_commented_req : request :=
  req_with [("id", "2")] (JObj [("id", JNum (NInt 5))]) JUndefined JUndefined.

(** User 1 creates a post and connects comment 1, which user 7 wrote
    on post 2. *)
Definition take_comment_req : request :=
  req_with [] (JObj [("title", JStr "mine"); ("comments", JObj [("connect", JObj [("id", JNum (NInt 1))])])])
    (JNum (NInt 1)) JUndefined.

(** The same with comment 9, which does not exist. *)
Definition missing_comment_req : request :=
  req_with [] (JObj [("title", JStr "mine"); ("comments", JObj [("connect", JObj [("id", JNum (NInt 9))])])])
    (JNum (NInt 1)) JUndefined.

(** [PUT /2] whose body deletes the comments of post 2 that contain
    [ic]. *)
Definition wipe_ic_comments_req : request :=
  req_with [("id", "2")] (JObj [("comments", JObj [("deleteMany", JObj [("content", JObj [("contains", JStr "ic")])])])])
    JUndefined JUndefined.

(** [PUT /2] whose body empties the comments of post 2 with [set]. *)
Definition unset_comments_req : request :=
  req_with [("id", "2")] (JObj [("comments", JObj [("set", JArr [])])]) JUndefined JUndefined.

(** [PUT /2] whose body adds, with [createMany], a comment whose id 1 is
    taken, skipping duplicates. *)
Definition dup_comment_req : request :=
  req_with [("id", "2")]
    (JObj [("comments", JObj [("createMany", JObj [("data", JArr [JObj [("id", JNum (NInt 1)); ("content", JStr "dup");
                                                                        ("authorId", JNum (NInt 7))]]);
                                                   ("skipDuplicates", JBool true)])])])
    JUndefined JUndefined.

(** [PUT /1] whose body edits comment 1, a comment of post 2. *)
Definition foreign_comment_req : request :=
  req_with [("id", "1")]
    (JObj [("comments", JObj [("update", JObj [("where", JObj [("id", JNum (NInt 1))]);
                                               ("data", JObj [("content", JStr "edited")])])])])
    JUndefined JUndefined.

(** [PUT /2] whose body gives every comment of post 2 to user 1. *)
Definition reassign_comments_req : request :=
  req_with [("id", "2")]
    (JObj [("comments", JObj [("updateMany", JObj [("where", JObj []);
                                                   ("data", JObj [("authorId", JNum (NInt 1))])])])])
    JUndefined JUndefined.

(** User 1 sends [PUT /1] whose body renames the author of post 1,
    user 7. *)
Definition rename_author_req : request :=
  req_with [("id", "1")] (JObj [("author", JObj [("update", JObj [("name", JStr "mallory")])])])
    (JNum (NInt 1)) JUndefined.

Definition new_author_req : request :=
  req_with [("id", "1")] (JObj [("author", JObj [("create", JObj [("name", JStr "eve")])])])
    (JNum (NInt 7)) JUndefined.


(** What [DELETE /:id] of post [k] leaves of a like, an image or a
    comment: nothing when its [postId] is [k], the row otherwise. *)
Definition drop_of_post (k : Z) (x : row) : option row :=
  if decide (fk_target x "postId" = Some k) then None else Some x.

(** A reply whose parent comment belongs to post [k] loses its parent
    ([onDelete: SetNull] of [parentId]). *)
Definition orphan_reply (d : db) (k : Z) (x : row) : row :=
  match fk_target x "parentId" ≫= fun p => rows_of MComment d !! p with
  | Some pc => if decide (fk_target pc "postId" = Some k) then alist_set "parentId" JNull x else x
  | None => x
  end.

(** [GET /1.00000000000000001]: a parameter that is no integer literal. *)
Definition rounded_id_req : request := req_with [("id", "1.00000000000000001")] JUndefined JUndefined JUndefined.

(** * Lemmas *)

Lemma spread_with_one v k x :
  spread_with v [(k, x)] = JObj (alist_set k x (own_entries v)).
Proof. reflexivity. Qed.

Lemma bind_run {A B} (m : ST db perr A) (k : A -> ST db perr B) d a d' :
  m d = (Ok a, d') -> st_bind m k d = k a d'.
Proof. apply st_bind_ok. Qed.

(** * Reading posts *)

(** C12: [GET /] never fails, changes nothing, and lists exactly the
    stored posts whose [published] column is [true], each rendered with
    its author, its comments and their authors, its likes and its image. *)
Theorem get_published_posts_spec req d :
  exists ps,
    get_published_posts req d =
      (Ok (JObj [("posts", JArr (map (fun kr => render d MPost post_include kr.2) ps))]), d) /\
    forall k r, In (k, r) ps <-> rows_of MPost d !! k = Some r /\ alist_get "published" r = Some (JBool true).
Proof.
  exists (select_rows d MPost [CEq "published" (JBool true)]). split.
  - unfold get_published_posts.
    by rewrite (bind_run _ _ d _ d (find_many_run MPost [CEq "published" (JBool true)] post_include d eq_refl)).
  - intros k r. split.
    + intros [Hr Hm]%select_rows_lookup. by apply matches_cons_eq in Hm as [Hp _].
    + intros [Hr Hp]. apply select_rows_complete; [done|]. by apply matches_cons_eq.
Qed.

(** C13: [GET /:id] with an id that [Number] reads as a 32-bit integer
    [k] answers the post stored under [k], or [{post: null}] when there
    is none, and changes nothing.  [Number] rounds to the nearest
    double, so an id that is no integer literal, such as
    [1.00000000000000001], finds post [1] (the witness). *)
Theorem get_post_by_id_found_or_null req d k :
  db_wf d -> to_number (param req "id") = NInt k -> int32_ok k = true ->
  get_post_by_id req d =
    (Ok (JObj [("post", match rows_of MPost d !! k with
                        | Some r => render d MPost post_include r
                        | None => JNull
                        end)]), d).
Proof.
  intros Hwf Hn Hk. unfold get_post_by_id. rewrite Hn.
  by rewrite (bind_run _ _ d _ d (find_unique_id_run MPost k post_include d Hwf Hk)).
Qed.

(** C5: [GET /:id] with an id that is not a 32-bit integer (a word, a
    fraction, NaN, an out-of-range number) is rejected by Prisma's
    validation: the handler throws instead of answering [{post: null}]. *)
Theorem get_post_by_id_rejects_non_integer req d :
  (forall z, to_number (param req "id") = NInt z -> int32_ok z = false) ->
  exists msg, get_post_by_id req d = (Err (EValidation msg), d).
Proof.
  intros Hz. unfold get_post_by_id.
  destruct (find_unique_invalid_id MPost (JNum (to_number (param req "id"))) post_include d)
    as [msg Hmsg]; try done.
  - intros z [= Hn]. by apply Hz.
  - exists msg. by rewrite (st_bind_err _ _ _ _ _ Hmsg).
Qed.

(** C14: [ALL /unpublished], for a current user [Number] reads as the
    32-bit integer [k], changes nothing and lists exactly the stored
    drafts whose author is [k]. *)
Theorem get_user_unpublished_spec req d k :
  to_number (req_currentUser req) = NInt k -> int32_ok k = true ->
  exists ps,
    get_user_unpublished req d =
      (Ok (JObj [("posts", JArr (map (fun kr => render d MPost user_unpublished_include kr.2) ps))]), d) /\
    forall k' r, In (k', r) ps <->
      rows_of MPost d !! k' = Some r /\ alist_get "authorId" r = Some (JNum (NInt k)) /\
      alist_get "published" r = Some (JBool false).
Proof.
  intros Hn Hk. unfold get_user_unpublished. rewrite Hn.
  assert (Hc : check_conds MPost [CEq "authorId" (JNum (NInt k)); CEq "published" (JBool false)] = Ok tt)
    by (simpl; by rewrite Hk).
  eexists. split.
  - by rewrite (bind_run _ _ d _ d (find_many_run _ _ user_unpublished_include d Hc)).
  - intros k' r. by apply select_rows_two_eqs.
Qed.

(** C15: [ALL /unpublished] without a current user that is a 32-bit
    integer ([undefined], a name, a fraction) does not answer an empty
    list: [Number(req.currentUser)] is [NaN] or out of range, and
    Prisma's validation rejects the query. *)
Theorem get_user_unpublished_rejects req d :
  (forall z, to_number (req_currentUser req) = NInt z -> int32_ok z = false) ->
  exists msg, get_user_unpublished req d = (Err (EValidation msg), d).
Proof.
  intros Hz. unfold get_user_unpublished.
  destruct (check_cond_int_invalid MPost "authorId" (Schema.req "authorId" TInt) _ eq_refl eq_refl Hz)
    as [msg Hm].
  exists msg. apply st_bind_err, find_many_check_err. cbn [check_conds]. by rewrite Hm.
Qed.

(** * Creating posts *)

Lemma handler_ok_inv {A} (m : ST db perr A) (k : A -> ST db perr jsval) d resp d' :
  st_bind m k d = (Ok resp, d') -> exists a d1, m d = (Ok a, d1) /\ k a d1 = (Ok resp, d').
Proof. unfold st_bind. destruct (m d) as [[a|e] d1]; [eauto | discriminate]. Qed.

Lemma own_entries_obj o : own_entries (JObj o) = o.
Proof. reflexivity. Qed.

(** C9: a post created by [POST /create] has the current user as its
    author: the request succeeds only when [req.currentUser] is an
    integer id, and the stored [authorId] is that id, whatever the body
    says. *)
Theorem create_post_author req d resp d' o :
  req_body req = JObj o -> NoDup (map fst o) ->
  create_post req d = (Ok resp, d') ->
  exists z, req_currentUser req = JNum (NInt z) /\
            obj_get (obj_get resp "post") "authorId" = JNum (NInt z).
Proof.
  intros Hb Hnd Hrun. unfold create_post in Hrun.
  apply handler_ok_inv in Hrun as (v & d1 & Hc & Hret). injection Hret as <- _.
  rewrite Hb, spread_with_one, own_entries_obj in Hc. apply create_post_row in Hc as (d0 & Hc & _).
  destruct (create_row_assigned MPost _ d v d0 "author" (connect (req_currentUser req)) Hc)
    as (a & r & Hcl & -> & _ & Hget).
  - by apply alist_set_nodup.
  - apply alist_get_In, alist_get_set_eq.
  - done.
  - reflexivity.
  - destruct (req_currentUser req) as [| | |[z| | |]| | |]; cbn in Hcl; try discriminate.
    destruct (int32_ok z); [|discriminate]. injection Hcl as <-.
    exists z. split; [done|]. cbn in Hget |- *. key_decide. cbn. by rewrite Hget.
Qed.

(** C8: a post created by [POST /create/image] always has author [1]:
    the identity of the caller is ignored (the source has
    [authorId: 1 /* req.currentUser */]). *)
Theorem create_post_with_image_author_is_1 req d resp d' o :
  req_body req = JObj o -> NoDup (map fst o) ->
  create_post_with_image req d = (Ok resp, d') ->
  obj_get (obj_get resp "post") "authorId" = JNum (NInt 1).
Proof.
  intros Hb Hnd Hrun. unfold create_post_with_image in Hrun.
  apply handler_ok_inv in Hrun as (v & d1 & Hc & Hrest).
  apply handler_ok_inv in Hrest as (vi & d2 & _ & Hret). injection Hret as <- _.
  rewrite Hb, spread_with_one, own_entries_obj in Hc. apply create_post_row in Hc as (d0 & Hc & _).
  destruct (create_row_assigned MPost _ d v d0 "authorId" (JNum (NInt 1)) Hc)
    as (a & r & Hcl & -> & _ & Hget).
  - by apply alist_set_nodup.
  - apply alist_get_In, alist_get_set_eq.
  - done.
  - reflexivity.
  - cbn in Hcl. injection Hcl as <-. cbn in Hget |- *. key_decide. cbn. by rewrite Hget.
Qed.

(** A file whose [size] is not a 32-bit integer: the post may be
    created, the image row never is, and the handler fails. *)
Lemma create_post_with_image_bad_size req d o z res d' :
  (forall k x, In (k, x) (own_entries (req_body req)) -> forall o', x <> JObj o') ->
  req_file req = JObj o -> In ("size", JNum (NInt z)) o -> int32_ok z = false ->
  create_post_with_image req d = (res, d') ->
  (exists e, res = Err e) /\ rows_of MImage d' = rows_of MImage d /\
  (rows_of MPost d' = rows_of MPost d \/
   exists k r, rows_of MPost d !! k = None /\ rows_of MPost d' = <[k := r]> (rows_of MPost d)).
Proof.
  intros Hbody Hf Hin Hz. unfold create_post_with_image, st_bind.
  rewrite create_plain.
  2:{ unfold spread_with. cbn [fold_left]. apply plain_entries. intros k v Hkv _ o' ->.
      apply alist_set_In_inv in Hkv as [[_ [=]]|Hkv]. exact (Hbody k _ Hkv o' eq_refl). }
  destruct (create_row MPost _ d) as [[v|e] d1] eqn:E1; apply create_row_rows in E1 as [Hother Hpost].
  - unfold spread_with. rewrite Hf, create_image_plain. cbn [fold_left own_entries].
    set (o' := alist_set "author" (connect (JNum (NInt 1))) (alist_set "posts" (connect (obj_get v "id")) o)).
    destruct (create_row_entry_err MImage o' d1 "size" (JNum (NInt z))) as [e He].
    + by apply alist_set_In_keep; [apply alist_set_In_keep|].
    + done.
    + intros a. by apply (classify_int_out_of_range MImage ForCreate "size" (opt "size" TInt)).
    + rewrite He. intros [= <- <-]. destruct Hpost as (k & r & _ & Hk & Hr).
      split; [by eexists|]. split; [by apply Hother|]. right. eauto.
  - intros [= <- <-]. split; [by eexists|]. split; [by apply Hother|]. by left.
Qed.

(** C16: [POST /create/image] links the image it creates to the post it
    has just created: the image's [postId] is the new post's [id]. *)
Theorem create_post_with_image_links req d resp d' :
  (req_file req = JUndefined \/ exists o, req_file req = JObj o /\ NoDup (map fst o)) ->
  create_post_with_image req d = (Ok resp, d') ->
  obj_get (obj_get resp "image") "postId" = obj_get (obj_get resp "post") "id".
Proof.
  intros Hf Hrun. unfold create_post_with_image in Hrun.
  apply handler_ok_inv in Hrun as (v & d1 & Hc & Hrest).
  apply handler_ok_inv in Hrest as (vi & d2 & Hci & Hret). injection Hret as <- _.
  apply create_post_row in Hc as (d0 & Hc & _).
  destruct (create_row_ok_id MPost _ d v d0 Hc) as (k & rp & -> & Hid & _).
  rewrite Hid in Hci.
  assert (Hpost : obj_get (JObj [("message", JStr "Created Post"); ("post", JObj rp); ("image", vi)]) "post"
                  = JObj rp) by (cbn; by key_decide).
  assert (Himg : obj_get (JObj [("message", JStr "Created Post"); ("post", JObj rp); ("image", vi)]) "image"
                 = vi) by (cbn; by key_decide).
  rewrite Hpost, Himg, Hid.
  set (base := own_entries (req_file req)) in Hci.
  assert (Hbase : NoDup (map fst base)).
  { subst base. destruct Hf as [-> | (o & -> & Hnd)]; [constructor | done]. }
  change (create MImage (JObj (alist_set "author" (connect (JNum (NInt 1)))
                                (alist_set "posts" (connect (JNum (NInt k))) base))) d1 = (Ok vi, d2)) in Hci.
  rewrite create_image_plain in Hci.
  destruct (create_row_assigned MImage _ d1 vi d2 "posts" (connect (JNum (NInt k))) Hci)
    as (a & r & Hcl & -> & _ & Hget).
  - by do 2 apply alist_set_nodup.
  - apply alist_get_In. rewrite alist_get_set_ne by done. apply alist_get_set_eq.
  - done.
  - apply image_no_inverse.
  - cbn in Hcl. destruct (int32_ok k); [|discriminate]. injection Hcl as <-.
    cbn in Hget |- *. key_decide. cbn. by rewrite Hget.
Qed.

(** The image row created on the upload route keeps every scalar field
    of [req.file] (the spread [{...req.file, posts, author}]). *)
Lemma create_post_with_image_file req d resp d' o k x :
  req_file req = JObj o -> NoDup (map fst o) -> In (k, x) o -> k <> "posts" -> k <> "author" ->
  k <> "id" -> classify MImage ForCreate k x = Ok (AScalar k x) ->
  create_post_with_image req d = (Ok resp, d') ->
  obj_get (obj_get resp "image") k = x.
Proof.
  intros Hf Hnd Hin Hp Ha Hid Hcl Hrun. unfold create_post_with_image in Hrun.
  apply handler_ok_inv in Hrun as (v & d1 & Hc & Hrest).
  apply handler_ok_inv in Hrest as (vi & d2 & Hci & Hret). injection Hret as <- _.
  assert (Himg : obj_get (JObj [("message", JStr "Created Post"); ("post", v); ("image", vi)]) "image"
                 = vi) by (cbn; by key_decide).
  rewrite Himg. rewrite Hf in Hci.
  change (create MImage (JObj (alist_set "author" (connect (JNum (NInt 1)))
            (alist_set "posts" (connect (obj_get v "id")) o))) d1 = (Ok vi, d2)) in Hci.
  rewrite create_image_plain in Hci.
  destruct (create_row_assigned MImage _ d1 vi d2 k x Hci) as (a & r & Hcl' & -> & _ & Hget).
  - by do 2 apply alist_set_nodup.
  - apply alist_get_In. rewrite !alist_get_set_ne by done. by apply alist_get_of_In.
  - destruct x; try done. unfold classify, classify_flat, check_value in Hcl. rewrite image_no_inverse in Hcl.
    repeat case_match; simplify_eq/=.
  - apply image_no_inverse.
  - rewrite Hcl in Hcl'. injection Hcl' as <-. cbn in Hget |- *. by rewrite Hget.
Qed.

(** Without an uploaded file, [{...undefined, posts, author}] only
    links the image: the image row is created with [null] metadata. *)
Lemma create_post_with_image_nofile req d resp d' :
  req_file req = JUndefined -> create_post_with_image req d = (Ok resp, d') ->
  obj_get (obj_get resp "image") "path" = JNull.
Proof.
  intros Hf Hrun. unfold create_post_with_image in Hrun.
  apply handler_ok_inv in Hrun as (v & d1 & Hc & Hrest).
  apply handler_ok_inv in Hrest as (vi & d2 & Hci & Hret). injection Hret as <- _.
  assert (Himg : obj_get (JObj [("message", JStr "Created Post"); ("post", v); ("image", vi)]) "image"
                 = vi) by (cbn; by key_decide).
  rewrite Himg. rewrite Hf in Hci.
  change (create MImage (JObj [("posts", connect (obj_get v "id")); ("author", connect (JNum (NInt 1)))])
            d1 = (Ok vi, d2)) in Hci.
  rewrite create_image_plain in Hci.
  destruct (create_row_unwritten_column MImage _ d1 vi d2 (opt "path" TString) Hci) as (r & -> & Hget);
    try done.
  - cbn. tauto.
  - intros k x a Hin Hcl. destruct Hin as [[= <- <-]|[[= <- <-]|[]]];
      unfold classify, classify_flat in Hcl; cbn in Hcl; repeat case_match; simplify_eq/=; done.
  - cbn in Hget |- *. by rewrite Hget.
Qed.

(** A body without [id] leaves the id of the new post to the sequence. *)
Lemma create_post_no_id req o :
  req_body req = JObj o -> (forall v, In ("id", v) o -> v = JUndefined) ->
  forall asg r0,
    data_assignments MPost ForCreate (spread_with (req_body req) [("author", connect (req_currentUser req))]) = Ok asg ->
    build_row asg (columns MPost) = Ok r0 -> row_id r0 = None.
Proof.
  intros Hb Hno asg r0 Ha Hbr. apply (build_row_no_id asg MPost r0); [|done].
  rewrite Hb, spread_with_one, own_entries_obj in Ha. apply data_assignments_obj in Ha as [Has _].
  apply (assignments_no_id _ _ _ _ Has). intros v Hin. apply alist_set_In_ne in Hin; [|done]. by apply Hno.
Qed.

(** C10: [POST /create] with a body that gives [authorId] (as the spec's
    scenario does) or [id] never creates anything: the handler adds
    [author: {connect}], which makes Prisma use its checked input type,
    and that type has neither the foreign key nor the autoincremented
    id.  The request fails before any statement runs. *)
Theorem create_post_rejects_author_id req d o f v :
  req_body req = JObj o -> f = "authorId" \/ f = "id" -> In (f, v) o -> v <> JUndefined ->
  exists e, create_post req d = (Err e, d).
Proof.
  intros Hb Hf Hin Hv. unfold create_post. rewrite Hb, spread_with_one, own_entries_obj.
  destruct (create_row_mixed_fk MPost (alist_set "author" (connect (req_currentUser req)) o) d
              f v "author" (connect (req_currentUser req))) as [e He].
  - apply alist_set_In_keep; [done|]. by destruct Hf as [->| ->].
  - by destruct v.
  - by destruct Hf as [->| ->].
  - by destruct Hf as [->| ->].
  - apply alist_get_In, alist_get_set_eq.
  - intros a Ha. unfold classify, classify_flat in Ha. cbn in Ha. repeat case_match; simplify_eq/=; done.
  - done.
  - exists e. by rewrite (st_bind_err _ _ _ _ _ (create_row_err_same _ _ _ _ He)).
Qed.

(** * Updating posts *)

Lemma owned_target_of m rn rel fk :
  find_relation m rn = Some rel -> rel_kind rel = Owned fk -> owned_target m rn = Some (fk, rel_target rel).
Proof. intros Hr Hk. unfold owned_target. by rewrite Hr, Hk. Qed.

(** The [UPDATE] of a post by id with a body that does not set the
    [id], on the row [r0]: the body's plain values are written, the
    other fields keep their values. *)
Lemma update_row_post_merge o d0 k (r0 : row) v d1 :
  db_wf d0 -> NoDup (map fst o) -> (forall v, In ("id", v) o -> v = JUndefined) ->
  rows_of MPost d0 !! k = Some r0 ->
  update_row MPost [CEq "id" (JNum (NInt k))] (JObj o) d0 = (Ok v, d1) ->
  exists r' : row, rows_of MPost d1 !! k = Some r' /\ v = JObj r' /\
    (forall f x, In (f, x) o -> is_undef x = false -> (forall o', x <> JObj o') ->
                 find_column MPost f <> None -> alist_get f r' = Some x) /\
    (forall f, ~ In f (map fst o) ->
               (forall rn tgt, owned_target MPost rn = Some (f, tgt) -> ~ In rn (map fst o)) ->
               alist_get f r' = alist_get f r0).
Proof.
  intros Hwf Hnd Hno Hr Hu.
  apply update_row_ok_inv in Hu as (asg & k0 & r1 & r' & Ha & Hsel & Hap & -> & [[Hid ->]|[Hid _]]); last first.
  { apply data_assignments_obj in Ha as [Has _].
    by rewrite (assigns_id_false asg (assignments_no_id _ _ _ _ Has Hno)) in Hid. }
  assert (Hin0 : In (k0, r1) (select_rows d0 MPost [CEq "id" (JNum (NInt k))])).
  { destruct (select_rows _ _ _) as [|kr l]; [discriminate|]. injection Hsel as ->. apply in_eq. }
  apply (select_rows_id d0 MPost k Hwf) in Hin0 as [Hk0 Hr0]. cbn [fst snd] in Hk0, Hr0. subst k0.
  assert (r1 = r0) as -> by congruence.
  pose proof (data_assignments_col_unique MPost ForUpdate o asg Ha Hnd) as Huniq.
  apply data_assignments_obj in Ha as [Has _].
  exists r'. split; [|split; [done|split]].
  - rewrite rows_of_set_tbl, decide_True by done. simpl. apply lookup_insert_eq.
  - intros f x Hin Hx Hobj Hcol.
    destruct (find_column MPost f) as [col|] eqn:Hc; [|done].
    destruct (assignments_complete MPost ForUpdate o asg f x Has Hin Hx) as (a & Hcl & Hain).
    pose proof (classify_scalar MPost ForUpdate f x a col Hcl Hc Hobj) as ->.
    apply (apply_assignments_get asg r0 r' (AScalar f x)); [|done..].
    intros a' Ha' Hcol'. by apply Huniq.
  - intros f Hf Hrel. apply (apply_assignments_other asg r0 r' f); [|done]. intros a Ha Hcol.
    destruct (assignments_origin MPost ForUpdate o asg Has a Ha) as (k1 & v1 & Hin1 & Hcl1).
    assert (Hk1 : In k1 (map fst o)) by (apply in_map_iff; exists (k1, v1); auto).
    apply classify_cases in Hcl1 as [(c1 & _ & Ea & _)|[(rel & fk & z & _ & Hrl & Hkd & Ea)|(t & fk & many & ops & _ & Ea)]].
    + rewrite Ea in Hcol. subst f. by apply Hf.
    + rewrite Ea in Hcol. simpl in Hcol. subst f.
      by apply (Hrel k1 (rel_target rel) (owned_target_of MPost k1 rel _ Hrl Hkd)).
    + rewrite Ea in Hcol. simpl in Hcol. subst f. by apply Hf.
Qed.


Lemma post_owned_target rn fk tgt : owned_target MPost rn = Some (fk, tgt) -> rn = "author" /\ fk = "authorId" /\ tgt = MUser.
Proof.
  unfold owned_target. destruct (find_relation MPost rn) as [rel|] eqn:E; [|discriminate].
  apply find_relation_spec in E as [<- Hin]. simpl in Hin.
  repeat destruct Hin as [<-|Hin]; simpl; try done. by intros [= <- <-].
Qed.

(** A field of a post that is neither in the body nor the key of a
    relation the body names keeps its value through the body's owned
    nested writes. *)
Lemma post_owned_kept o (r r0 : row) f :
  fk_kept MPost (owned_targets MPost o) r r0 ->
  (forall rn tgt, owned_target MPost rn = Some (f, tgt) -> ~ In rn (map fst o)) -> alist_get f r0 = alist_get f r.
Proof.
  intros Hk Hrel. apply Hk. intros tgt Hft (rn & fk & Hin & Ht)%owned_targets_in.
  destruct (post_owned_target rn fk tgt Ht) as (-> & -> & ->). simpl in Hft.
  destruct Hft as [Heq|[]]. simplify_eq. exact (Hrel "author" MUser eq_refl Hin).
Qed.

(** C11: [PUT /:id] with a body that does not set the [id] merges the
    body into the stored post: every column the body gives a plain
    value is overwritten with that value, and a column the body names
    neither directly nor through its relation keeps its old value; the
    answer is the stored row. *)
Theorem update_post_merge req d resp d' o k (r : row) :
  db_wf d -> req_body req = JObj o -> NoDup (map fst o) -> (forall v, In ("id", v) o -> v = JUndefined) ->
  to_number (param req "id") = NInt k -> rows_of MPost d !! k = Some r ->
  update_post req d = (Ok resp, d') ->
  exists r' : row, rows_of MPost d' !! k = Some r' /\ obj_get resp "post" = JObj r' /\
    (forall f x, In (f, x) o -> is_undef x = false -> (forall o', x <> JObj o') ->
                 find_column MPost f <> None -> alist_get f r' = Some x) /\
    (forall f, ~ In f (map fst o) ->
               (forall rn tgt, owned_target MPost rn = Some (f, tgt) -> ~ In rn (map fst o)) ->
               alist_get f r' = alist_get f r).
Proof.
  intros Hwf Hb Hnd Hno Hn Hr Hrun. unfold update_post in Hrun.
  apply handler_ok_inv in Hrun as (v & d1 & Hu & Hret). injection Hret as <- <-.
  rewrite Hn, Hb in Hu. apply update_post_row in Hu as (data' & d0 & d2 & Ho & Hu & Hrows); [|done]. rewrite Hrows.
  pose proof (st_preserves_run db_wf _ d _ d0 (owned_writes_preserves _ _ _ _) Hwf Ho) as Hwf0.
  destruct (owned_writes_rows _ _ _ _ _ _ post_no_self_fk Ho k r Hr) as (r0 & Hr0 & Hkept).
  destruct (owned_writes_data _ _ _ _ _ _ Ho) as (o' & -> & Hsub & Hcols).
  assert (Hsub' : forall f, ~ In f (map fst o) -> ~ In f (map fst o'))
    by (intros f Hf Hin; apply Hf, list_elem_of_In, (elem_of_sublist _ _ _ (proj2 (list_elem_of_In _ _) Hin) Hsub)).
  destruct (update_row_post_merge o' d0 k r0 v d2 Hwf0 (sublist_NoDup _ _ Hnd Hsub)) as (r' & Hr' & -> & Hset & Hkeep);
    [intros x Hx; apply Hno, (Hcols "id" x); [by rewrite find_column_id | done] | done..|].
  exists r'. split; [done|]. split; [cbn; by key_decide|]. split.
  - intros f x Hin Hx Hobj Hcol. apply (Hset f x); [by apply Hcols | done..].
  - intros f Hf Hrel. rewrite (Hkeep f (Hsub' f Hf)); [by apply (post_owned_kept o r r0 f)|].
    intros rn tgt Ht. apply Hsub'. exact (Hrel rn tgt Ht).
Qed.

(** The [id] a [PUT /:id] body gives is written into the row. *)
Lemma update_body_id o asg r r' k' :
  data_assignments MPost ForUpdate (JObj o) = Ok asg -> NoDup (map fst o) -> In ("id", JNum (NInt k')) o ->
  apply_assignments asg r = Ok r' -> row_id r' = Some k'.
Proof.
  intros Ha Hnd Hin Hap. pose proof (data_assignments_col_unique MPost ForUpdate o asg Ha Hnd) as Huniq.
  apply data_assignments_obj in Ha as [Has _].
  destruct (assignments_complete MPost ForUpdate o asg "id" _ Has Hin eq_refl) as (a & Hcl & Hain).
  pose proof (classify_scalar MPost ForUpdate "id" _ a id_col Hcl eq_refl ltac:(done)) as ->.
  assert (Hg : alist_get "id" r' = Some (JNum (NInt k'))).
  { apply (apply_assignments_get asg r r' (AScalar "id" (JNum (NInt k')))); [|done..].
    intros a' Ha' Hcol'. by apply Huniq. }
  unfold row_id, fk_target. by rewrite Hg.
Qed.

(** A successful [PUT /:id] whose body gives [id: k'] and no nested
    write: the [UPDATE] moved post [k] to [k'] and nothing else. *)
Lemma update_post_renumber_state req d resp d' o k k' :
  db_wf d -> req_body req = JObj o -> NoDup (map fst o) -> In ("id", JNum (NInt k')) o ->
  (forall f x, In (f, x) o -> forall o', x <> JObj o') ->
  to_number (param req "id") = NInt k -> update_post req d = (Ok resp, d') ->
  exists r', obj_get resp "post" = JObj r' /\ base.delete k (rows_of MPost d) !! k' = None /\
    d' = map_db (rekey MPost k k') (set_tbl MPost (mkTable (<[k' := r']> (base.delete k (rows_of MPost d)))
                                                  (t_next (tbl MPost d))) d).
Proof.
  intros Hwf Hb Hnd Hin Hplain Hn Hrun. unfold update_post in Hrun.
  apply handler_ok_inv in Hrun as (v & d1 & Hu & Hret). injection Hret as <- <-.
  rewrite Hn, Hb, update_plain in Hu;
    [|done | apply post_no_self_fk | apply owned_free_no_objects, Hplain
     | apply plain_entries; intros f x Hx _; exact (Hplain f x Hx)].
  apply update_row_ok_inv in Hu as (asg & k0 & r0 & r' & Ha & Hsel & Hap & -> & [[Hid _]|[_ (k1 & Hk1 & Hm)]]).
  { pose proof Ha as [Has _]%data_assignments_obj.
    destruct (assignments_complete MPost ForUpdate o asg "id" _ Has Hin eq_refl) as (a & Hcl & Hain).
    rewrite (classify_scalar MPost ForUpdate "id" _ a id_col Hcl eq_refl ltac:(done)) in Hain.
    by rewrite (assigns_id_true asg _ Hain eq_refl) in Hid. }
  rewrite (update_body_id o asg r0 r' k' Ha Hnd Hin Hap) in Hk1. injection Hk1 as <-.
  assert (Hin0 : In (k0, r0) (select_rows d MPost [CEq "id" (JNum (NInt k))])).
  { destruct (select_rows _ _ _) as [|kr l]; [discriminate|]. injection Hsel as ->. apply in_eq. }
  apply (select_rows_id d MPost k Hwf) in Hin0 as [Hk0 _]. cbn [fst] in Hk0. subst k0.
  apply move_row_ok_inv in Hm as [Hfree ->]. exists r'. split; [cbn; by key_decide|]. by split.
Qed.

(** C24: [PUT /:id] with a body that gives [id: k'] renumbers the post,
    although the spec says a post's id never changes: the post answered
    is stored under [k'], nothing is left under the old id, and every
    like, comment and image of the post follows it to [k'] (Prisma's
    default [onUpdate: Cascade]). *)
Theorem update_post_renumbers req d resp d' o k k' :
  db_wf d -> req_body req = JObj o -> NoDup (map fst o) -> In ("id", JNum (NInt k')) o ->
  (forall f x, In (f, x) o -> forall o', x <> JObj o') ->
  to_number (param req "id") = NInt k -> update_post req d = (Ok resp, d') ->
  (exists r', rows_of MPost d' !! k' = Some r' /\ obj_get resp "post" = JObj r') /\
  (k <> k' -> rows_of MPost d' !! k = None) /\
  (forall m kk rc, In ("postId", MPost) (owned_fks m) -> rows_of m d !! kk = Some rc ->
     fk_target rc "postId" = Some k ->
     exists rc', rows_of m d' !! kk = Some rc' /\ fk_target rc' "postId" = Some k').
Proof.
  intros Hwf Hb Hnd Hin Hplain Hn Hrun.
  destruct (update_post_renumber_state req d resp d' o k k' Hwf Hb Hnd Hin Hplain Hn Hrun) as (r' & Hresp & _ & ->).
  split; [|split].
  - exists (cascade_refs MPost k k' MPost r'). split; [|rewrite Hresp; f_equal; symmetry; apply cascade_refs_other; intros fk; simpl; intuition discriminate].
    by rewrite rows_of_rekey, lookup_fmap, rows_of_moved, decide_True, lookup_insert_eq by done.
  - intros Hne. rewrite rows_of_rekey, lookup_fmap, rows_of_moved, decide_True by done.
    rewrite lookup_insert_ne, lookup_delete_eq by done. done.
  - intros m kk rc Hfk Hrc Hk. assert (Hm : MPost <> m) by (intros <-; simpl in Hfk; intuition discriminate).
    rewrite rows_of_rekey, lookup_fmap, rows_of_moved, decide_False, Hrc by done.
    eexists. split; [done|]. by apply cascade_refs_follow.
Qed.

(** [POST /create] whose [INSERT] fails: the transaction is rolled
    back, the sequence keeps what it handed out. *)
Lemma create_post_row_err req d e dx :
  create_row MPost (spread_with (req_body req) [("author", connect (req_currentUser req))]) d = (Err e, dx) ->
  create_post req d = (Err e, rollback d dx).
Proof.
  intros H. unfold create_post, create. by rewrite (st_bind_err _ _ _ _ _ (st_atomic_err _ _ _ _ _ (st_bind_err _ _ _ _ _ H))).
Qed.

(** The store after a renumbering [PUT]: the sequence and the users as
    they were, and the new id taken. *)
Lemma renumbered_store d k k' (r' : row) :
  let d1 := map_db (rekey MPost k k') (set_tbl MPost (mkTable (<[k' := r']> (base.delete k (rows_of MPost d)))
                                                     (t_next (tbl MPost d))) d) in
  t_next (tbl MPost d1) = t_next (tbl MPost d) /\ rows_of MUser d1 = rows_of MUser d /\
  is_Some (rows_of MPost d1 !! k').
Proof.
  intros d1. split; [|split].
  - unfold d1. by rewrite tbl_map_db, tbl_set_tbl_eq.
  - unfold d1. rewrite rekey_untouched by reflexivity. by rewrite rows_of_set_tbl, decide_False.
  - unfold d1. by rewrite rows_of_rekey, lookup_fmap, rows_of_moved, decide_True, lookup_insert_eq.
Qed.

(** C20: [PUT /:id] can give a post the next value of the post
    sequence as its id (the body reaches Prisma as it is, and [id] is
    in the unchecked update input).  A [POST /create] without [id] that
    would have succeeded before that [PUT] fails after it with [P2002]:
    [nextval] hands out the taken key.  The failed create changes no
    row but consumes the value, so the sequence moves one past it. *)
Theorem renumber_to_next_breaks_create ureq creq d o k resp1 d1 oc resp0 d0 :
  db_wf d -> req_body ureq = JObj o -> NoDup (map fst o) -> In ("id", JNum (NInt (t_next (tbl MPost d)))) o ->
  (forall f x, In (f, x) o -> forall o', x <> JObj o') -> to_number (param ureq "id") = NInt k ->
  update_post ureq d = (Ok resp1, d1) ->
  req_body creq = JObj oc -> (forall v, In ("id", v) oc -> v = JUndefined) -> create_post creq d = (Ok resp0, d0) ->
  exists d2, create_post creq d1 = (Err EUnique, d2) /\ (forall m, rows_of m d2 = rows_of m d1) /\
    t_next (tbl MPost d2) = t_next (tbl MPost d) + 1.
Proof.
  intros Hwf Hb Hnd Hin Hplain Hn Hu Hcb Hno Hc.
  destruct (update_post_renumber_state ureq d resp1 d1 o k _ Hwf Hb Hnd Hin Hplain Hn Hu) as (r' & _ & _ & ->).
  destruct (renumbered_store d k (t_next (tbl MPost d)) r') as (Ht & Hus & Htaken).
  apply handler_ok_inv in Hc as (v & dx & Hc & _). apply create_post_row in Hc as (dy & Hc & _).
  destruct (create_row_ok_facts _ _ _ _ _ Hc) as (asg & r0 & Ha & Hbr & Hcon & Hmax).
  pose proof (create_post_no_id creq oc Hcb Hno asg r0 Ha Hbr) as Hid.
  erewrite <- (connects_okb_transfer MPost ForCreate _ asg d) in Hcon;
    [|exact Ha | intros fk tgt [[= <- <-]|[]]; exact Hus].
  rewrite <- Ht in Hmax, Htaken.
  pose proof (create_row_next_taken_run _ _ _ asg r0 Ha Hbr Hid Hcon (Hmax Hid) Htaken) as Hrun.
  eexists. split; [exact (create_post_row_err _ _ _ _ Hrun)|]. split.
  - intros m. by rewrite rows_of_rollback.
  - by rewrite tbl_rollback, tbl_set_tbl_eq, Ht.
Qed.

(** C25: the body of [PUT /:id] reaches Prisma as it is, so it can
    carry update operations: [{f: {increment: n}}] and the like on an
    [Int] column run as PostgreSQL integer arithmetic.  When the result
    leaves the 32-bit range (or the operation divides by zero) the
    request fails and the store is left as it was. *)
Theorem update_post_arith_out_of_range req d k (r : row) f name op n x :
  db_wf d -> to_number (param req "id") = NInt k -> rows_of MPost d !! k = Some r ->
  req_body req = JObj [(f, JObj [(name, JNum (NInt n))])] -> f = "authorId" \/ f = "id" ->
  arith_of name = Some op -> int32_ok n = true -> alist_get f r = Some (JNum (NInt x)) ->
  match arith_eval op x n with Ok z => int32_ok z = false | Err _ => True end ->
  exists e, update_post req d = (Err e, d).
Proof.
  intros Hwf Hn Hr Hb Hf Hop Hn32 Hx Hout.
  assert (Hc : exists col, find_column MPost f = Some col /\ col_type col = TInt)
    by (destruct Hf as [-> | ->]; eexists; split; reflexivity).
  destruct Hc as (col & Hc & Ht).
  enough (exists e, update_row MPost [CEq "id" (JNum (NInt k))] (req_body req) d = (Err e, d)) as [e He].
  { assert (Hfree : owned_free MPost (req_body req)) by (rewrite Hb; intros o' [= <-]; simpl; by rewrite Hc).
    exists e. unfold update_post. rewrite Hn. by rewrite (st_bind_err _ _ _ _ _ (update_row_err_same _ _ _ _ _ Hfree He)). }
  unfold update_row. rewrite Hb. st_unfold.
  destruct (check_conds MPost _) as [[]|e]; simpl; [|by eexists].
  rewrite (data_assignments_arith MPost f col name op n Hc Ht Hop Hn32). simpl.
  pose proof (select_rows_id_head d MPost k Hwf) as Hs. rewrite Hr in Hs.
  destruct (select_rows d MPost _) as [|[k0 r0] rest]; [discriminate|]. injection Hs as ->. simpl.
  unfold apply_arith. rewrite Hx. destruct (arith_eval op x n) as [z|e]; simpl; [|by eexists].
  rewrite Hout. by eexists.
Qed.

(** The run of [POST /create] with a body [{title, comments: {connect:
    {id: c}}}]: the [INSERT] of the post, then the connect of [c] to it. *)
Lemma create_post_connect_run req d v d' t c :
  db_wf d ->
  req_body req = JObj [("title", JStr t); ("comments", JObj [("connect", JObj [("id", JNum (NInt c))])])] ->
  create MPost (spread_with (req_body req) [("author", connect (req_currentUser req))]) d = (Ok v, d') ->
  exists (r : row) p d0, v = JObj r /\ obj_get (JObj r) "id" = JNum (NInt p) /\
    create_row MPost (spread_with (req_body req) [("author", connect (req_currentUser req))]) d = (Ok (JObj r), d0) /\
    db_wf d0 /\ run_nested_op MComment "postId" p (NConnect [c]) d0 = (Ok tt, d').
Proof.
  intros Hwf Hb Hc. pose proof Hc as (d0 & Hc0 & _)%create_post_row.
  apply create_ok_inv in Hc as (v0 & d0' & asg & Hc0' & Ha & Hn & _).
  rewrite Hc0 in Hc0'. injection Hc0' as <- <-.
  destruct (create_row_ok_id _ _ _ _ _ Hc0) as (p & r & -> & Hid & _).
  pose proof (st_preserves_run db_wf _ d _ _ (create_row_wf _ _) Hwf Hc0) as Hw0.
  exists r, p, d0. do 4 (split; [done|]).
  unfold id_of in Hn. rewrite Hid in Hn. rewrite Hb, spread_with_one, own_entries_obj in Ha.
  cbn in Ha. rewrite !decide_False in Ha by done. cbn in Ha. destruct (int32_ok c); [|discriminate].
  destruct (req_currentUser req) as [| | |[z| | |]| | |]; cbn in Ha; try discriminate.
  destruct (int32_ok z); cbn in Ha; [|discriminate]. injection Ha as <-.
  cbn [run_nested st_for] in Hn. st_unfold.
  destruct (run_nested_op MComment "postId" p (NConnect [c]) d0) as [[[]|e] dx] eqn:E; simpl in Hn;
    [by injection Hn as <-|discriminate].
Qed.

(** C29: [POST /create] spreads the body into [data], nested writes
    included: a body [{title, comments: {connect: {id: c}}}] that
    succeeds moves comment [c], whatever post and author it had, under
    the new post. *)
Theorem create_post_takes_comment req d resp d' t c :
  db_wf d ->
  req_body req = JObj [("title", JStr t); ("comments", JObj [("connect", JObj [("id", JNum (NInt c))])])] ->
  create_post req d = (Ok resp, d') ->
  exists p (rc : row), obj_get (obj_get resp "post") "id" = JNum (NInt p) /\
    rows_of MComment d' !! c = Some rc /\ fk_target rc "postId" = Some p.
Proof.
  intros Hwf Hb Hrun. unfold create_post in Hrun.
  apply handler_ok_inv in Hrun as (v & d1 & Hc & Hret). injection Hret as <- <-.
  destruct (create_post_connect_run req d v d1 t c Hwf Hb Hc) as (r & p & d0 & -> & Hid & _ & Hw0 & E).
  destruct (run_connect_one MComment "postId" _ p c d0 d1 Hw0 eq_refl ltac:(done) E) as (rc & Hrc & Hfk).
  exists p, rc. split; [|by split]. cbn. by key_decide.
Qed.

(** C30: [create] with nested writes is one transaction: when the
    comment a [POST /create] body connects does not exist, the request
    fails and every table is as it was, the post inserted before the
    connect included. *)
Theorem create_post_rolls_back req d t c :
  db_wf d -> rows_of MComment d !! c = None ->
  req_body req = JObj [("title", JStr t); ("comments", JObj [("connect", JObj [("id", JNum (NInt c))])])] ->
  exists e d', create_post req d = (Err e, d') /\ forall m, rows_of m d' = rows_of m d.
Proof.
  intros Hwf Hnone Hb. unfold create_post.
  destruct (create MPost (spread_with (req_body req) [("author", connect (req_currentUser req))]) d)
    as [[v|e] d'] eqn:Hc.
  - exfalso. destruct (create_post_connect_run req d v d' t c Hwf Hb Hc) as (r & p & d0 & _ & _ & Hc0 & Hw0 & E).
    destruct (run_connect_exists MComment "postId" p c d0 d' Hw0 E) as [rc Hrc].
    apply create_row_rows in Hc0 as [Ho _]. by rewrite Ho, Hnone in Hrc.
  - exists e, d'. split; [by rewrite (st_bind_err _ _ _ _ _ Hc)|]. exact (create_err_rows _ _ _ _ _ Hc).
Qed.

(** C28: the body of [PUT /:id] reaches Prisma unfiltered, nested
    writes included: [{comments: {deleteMany: f}}], for a filter object
    [f] (scalar filters, [AND], [OR], [NOT], relation filters; [{}] for
    all), on a stored post deletes exactly the comments of the post that
    [f] selects, whoever wrote them, and answers the post unchanged; no
    comment of another post is deleted, none is added, and no post,
    like or image changes. *)
Theorem update_post_deletes_comments req d k (r : row) fo w :
  db_wf d -> to_number (param req "id") = NInt k -> int32_ok k = true -> rows_of MPost d !! k = Some r ->
  filter_conds MComment (JObj fo) = Ok w ->
  req_body req = JObj [("comments", JObj [("deleteMany", JObj fo)])] ->
  exists resp d', update_post req d = (Ok resp, d') /\ obj_get resp "post" = JObj r /\
    (forall kc (rc : row), rows_of MComment d !! kc = Some rc ->
       is_Some (rows_of MComment d' !! kc) <-> ~ (fk_target rc "postId" = Some k /\ matches d MComment w rc = true)) /\
    (forall kc, rows_of MComment d !! kc = None -> rows_of MComment d' !! kc = None) /\
    rows_of MPost d' = rows_of MPost d /\
    rows_of MLike d' = rows_of MLike d /\ rows_of MImage d' = rows_of MImage d.
Proof.
  intros Hwf Hn Hk Hr Hf Hb. unfold update_post. rewrite Hn, Hb.
  set (data := JObj [("comments", _)]).
  assert (Ha : data_assignments MPost ForUpdate data = Ok [ANested "comments" MComment "postId" [NDeleteMany w]])
    by (unfold data; cbv -[filter_conds]; by rewrite Hf).
  pose proof (update_row_same MPost k r data _ d Hwf Hk Hr post_unique_id Ha eq_refl eq_refl eq_refl) as Hu.
  assert (Hc : check_conds MComment (CEq "postId" (JNum (NInt k)) :: w) = Ok tt)
    by (cbn; rewrite Hk; cbn; exact (filter_conds_check _ _ _ Hf)).
  destruct (delete_many_free MComment _ d restrict_violation_comment Hc) as [v Hdm].
  set (d2 := map_db (removal MComment _) d) in Hdm.
  assert (Hup : update MPost [CEq "id" (JNum (NInt k))] data d = (Ok (JObj r), d2)).
  { apply st_atomic_ok. rewrite (owned_writes_valid_bind _ _ _ _ _ _ Ha), (bind_run _ _ _ _ _ Hu), st_lift_bind, Ha.
    cbn [run_nested st_for run_nested_op]. pose proof (stored_id_of d MPost k r Hwf Hr) as Hid.
    rewrite Hid. st_unfold. rewrite Hdm. unfold reread, d2. rewrite Hid, removal_untouched, Hr by reflexivity.
    done. }
  rewrite (bind_run _ _ _ _ _ Hup). eexists _, _. split; [reflexivity|]. split; [cbn; by key_decide|].
  split; [|split; [|unfold d2; by rewrite !removal_untouched]].
  - intros kc rc Hrc. unfold d2. rewrite removal_kept, (selected_key_iff d MComment _ kc rc Hrc), matches_fk_cons.
    split; [by intros [_ ?] | intros Hno; split; [by exists rc | done]].
  - intros kc Hnone. unfold d2. rewrite rows_of_removal, Hnone. by case_match.
Qed.

(** C31: [PUT /:id] whose body is [{comments: {set: ids}}], on a post
    that has a comment not among [ids], fails with P2014 and changes
    nothing: [set] would unlink that comment, whose [postId] is
    required. *)
Theorem update_post_set_comments_fails req d k (r : row) zs kc (rc : row) :
  db_wf d -> to_number (param req "id") = NInt k -> int32_ok k = true -> rows_of MPost d !! k = Some r ->
  Forall (fun z => int32_ok z = true) zs ->
  rows_of MComment d !! kc = Some rc -> fk_target rc "postId" = Some k -> kc ∉ zs ->
  req_body req = JObj [("comments", JObj [("set", JArr (map (fun z => JObj [("id", JNum (NInt z))]) zs))])] ->
  update_post req d = (Err ERequiredRelation, d).
Proof.
  intros Hwf Hn Hk Hr Hzs Hc Hfk Hnot Hb. unfold update_post. rewrite Hn, Hb.
  set (data := JObj [("comments", _)]).
  assert (Hids : res_map_list id_selector (map (fun z => JObj [("id", JNum (NInt z))]) zs) = Ok zs).
  { apply res_map_list_map_ok, (Forall_impl _ _ _ Hzs). intros z Hz. simpl. by rewrite Hz. }
  assert (Ha : data_assignments MPost ForUpdate data = Ok [ANested "comments" MComment "postId" [NSet zs]]).
  { unfold data, data_assignments, assignments. cbn -[res_map_list]. by rewrite Hids. }
  pose proof (update_row_same MPost k r data _ d Hwf Hk Hr post_unique_id Ha eq_refl eq_refl eq_refl) as Hu.
  assert (Hup : update MPost [CEq "id" (JNum (NInt k))] data d = (Err ERequiredRelation, d)).
  { unfold update. rewrite (st_atomic_err _ _ _ ERequiredRelation d); [by rewrite rollback_same|].
    rewrite (owned_writes_valid_bind _ _ _ _ _ _ Ha), (bind_run _ _ _ _ _ Hu), st_lift_bind, Ha. cbn [run_nested st_for].
    pose proof (stored_id_of d MPost k r Hwf Hr) as Hid.
    rewrite Hid. do 3 (apply (st_bind_err _ _ d ERequiredRelation d)).
    by apply (run_set_required MComment "postId" k zs d kc rc). }
  by rewrite (st_bind_err _ _ d ERequiredRelation d Hup).
Qed.

(** C33: [PUT /:id] whose body is [{comments: {updateMany: {where: {},
    data: {authorId: u}}}}], for any stored user [u], succeeds for
    whoever sends it: every comment of the post, and no other, now has
    author [u]; the post and every other table are unchanged. *)
Theorem update_post_reassigns_comments req d k (r : row) u :
  db_wf d -> db_typed d -> to_number (param req "id") = NInt k -> rows_of MPost d !! k = Some r ->
  int32_ok u = true -> is_Some (rows_of MUser d !! u) ->
  req_body req = JObj [("comments", JObj [("updateMany", JObj [("where", JObj []);
                                                               ("data", JObj [("authorId", JNum (NInt u))])])])] ->
  exists resp d', update_post req d = (Ok resp, d') /\ obj_get resp "post" = JObj r /\
    rows_of MComment d' =
      (fun rc : row => if decide (fk_target rc "postId" = Some k) then set_key "authorId" u rc else rc)
        <$> rows_of MComment d /\
    (forall m, m <> MComment -> rows_of m d' = rows_of m d).
Proof.
  intros Hwf Hty Hn Hr Hu Huser Hb. pose proof (stored_id_int32 d MPost k r Hwf Hty Hr) as Hk.
  unfold update_post. rewrite Hn, Hb. set (data := JObj [("comments", _)]).
  set (c := [("authorId", JNum (NInt u))]).
  assert (Ha : data_assignments MPost ForUpdate data = Ok [ANested "comments" MComment "postId" [NUpdateMany [] c]]).
  { cbv -[int32_ok]. by rewrite Hu. }
  assert (Hc : data_assignments MComment ForUpdate (JObj c) = Ok [AScalar "authorId" (JNum (NInt u))])
    by (cbv -[int32_ok]; by rewrite Hu).
  pose proof (update_row_same MPost k r data _ d Hwf Hk Hr post_unique_id Ha eq_refl eq_refl eq_refl) as Hupd.
  destruct (update_each_fk MComment "authorId" MUser u (children_of d MComment "postId" k []) d Hwf Hty
              ltac:(done) comment_unique_id ltac:(simpl; tauto) Huser Hc (children_of_stored _ _ _ _ _))
    as (d' & Hrun & Ho & Hm).
  pose proof (stored_id_of d MPost k r Hwf Hr) as Hid.
  assert (Hup : update MPost [CEq "id" (JNum (NInt k))] data d = (Ok (JObj r), d')).
  { apply st_atomic_ok. rewrite (owned_writes_valid_bind _ _ _ _ _ _ Ha), (bind_run _ _ _ _ _ Hupd), st_lift_bind, Ha.
    cbn [run_nested st_for run_nested_op].
    rewrite Hid. unfold c. st_unfold. cbn beta iota. rewrite Hrun.
    unfold reread. by rewrite Hid, (Ho MPost), Hr. }
  rewrite (bind_run _ _ _ _ _ Hup). eexists _, _. split; [reflexivity|]. split; [cbn; by key_decide|].
  split; [|done]. apply map_eq. intros kc. rewrite Hm, lookup_fmap.
  destruct (rows_of MComment d !! kc) as [rc|] eqn:Hrc; [|by case_bool_decide].
  rewrite (bool_decide_ext _ _ (children_of_fk d MComment "postId" k kc rc Hrc)). simpl.
  by case_bool_decide; case_decide.
Qed.

(** C34: [PUT /:id] whose body is [{comments: {update: {where: {id: kc},
    data: {content: s}}}}] fails with P2025 and changes nothing when the
    comment [kc] belongs to another post: unlike a [connect] (C29), a
    nested update reaches only the post's own comments. *)
Theorem update_post_foreign_comment_fails req d k (r : row) kc (rc : row) s :
  db_wf d -> db_typed d -> to_number (param req "id") = NInt k -> rows_of MPost d !! k = Some r ->
  rows_of MComment d !! kc = Some rc -> fk_target rc "postId" <> Some k ->
  req_body req = JObj [("comments", JObj [("update", JObj [("where", JObj [("id", JNum (NInt kc))]);
                                                           ("data", JObj [("content", JStr s)])])])] ->
  update_post req d = (Err ENotFound, d).
Proof.
  intros Hwf Hty Hn Hr Hc Hfk Hb.
  pose proof (stored_id_int32 d MPost k r Hwf Hty Hr) as Hk. pose proof (stored_id_int32 d MComment kc rc Hwf Hty Hc) as Hkc.
  unfold update_post. rewrite Hn, Hb. set (data := JObj [("comments", _)]).
  assert (Ha : data_assignments MPost ForUpdate data =
               Ok [ANested "comments" MComment "postId" [NUpdate [id_cond kc] [("content", JStr s)]]])
    by (cbv -[int32_ok]; by rewrite Hkc).
  pose proof (update_row_same MPost k r data _ d Hwf Hk Hr post_unique_id Ha eq_refl eq_refl eq_refl) as Hu.
  pose proof (stored_id_of d MPost k r Hwf Hr) as Hid.
  assert (Hup : update MPost [CEq "id" (JNum (NInt k))] data d = (Err ENotFound, d)).
  { unfold update. rewrite (st_atomic_err _ _ _ ENotFound d); [by rewrite rollback_same|].
    rewrite (owned_writes_valid_bind _ _ _ _ _ _ Ha), (bind_run _ _ _ _ _ Hu), st_lift_bind, Ha. cbn [run_nested st_for].
    rewrite Hid. do 3 (apply (st_bind_err _ _ d ENotFound d)).
    apply (run_update_unlinked MComment "postId" k kc rc _ [AScalar "content" (JStr s)] d Hwf Hc Hfk);
      cbv -[int32_ok]; by rewrite ?Hk, ?Hkc. }
  by rewrite (st_bind_err _ _ d ENotFound d Hup).
Qed.

(** [PUT /:id] on a stored post whose body asks for
    [{comments: {createMany: {data: cs, skipDuplicates: true}}}] never
    fails with a unique-constraint violation, a comment whose id is
    taken being skipped, and never removes or changes a comment the
    store had, whether it succeeds or fails. *)
Theorem update_post_create_many_skips req d k (r : row) cs :
  db_wf d -> to_number (param req "id") = NInt k -> int32_ok k = true -> rows_of MPost d !! k = Some r ->
  data_assignments MPost ForUpdate (req_body req) = Ok [ANested "comments" MComment "postId" [NCreateMany cs true]] ->
  fst (update_post req d) <> Err EUnique /\ rows_of MComment d ⊆ rows_of MComment (snd (update_post req d)).
Proof.
  intros Hwf Hn Hk Hr Ha. unfold update_post. rewrite Hn.
  pose proof (update_row_same MPost k r (req_body req) _ d Hwf Hk Hr post_unique_id Ha eq_refl eq_refl eq_refl) as Hu.
  pose proof (stored_id_of d MPost k r Hwf Hr) as Hid.
  destruct (create_many_skips_duplicates MComment "postId" k cs d) as (Hne & Hsub & _).
  destruct (run_nested_op MComment "postId" k (NCreateMany cs true) d) as [res d1] eqn:E. simpl in Hne, Hsub.
  assert (Hup : update MPost [CEq "id" (JNum (NInt k))] (req_body req) d =
                match res with Ok _ => (Ok (reread MPost (JObj r) d1), d1) | Err e => (Err e, rollback d d1) end).
  { unfold update, st_atomic. rewrite (owned_writes_valid_bind _ _ _ _ _ _ Ha), (bind_run _ _ _ _ _ Hu), st_lift_bind, Ha, Hid.
    cbn [run_nested st_for]. st_unfold. rewrite E. destruct res as [[]|e]; reflexivity. }
  unfold st_bind. rewrite Hup. destruct res as [[]|e]; cbn [fst snd]; split; try done. intros [= ->]. by apply Hne.
Qed.

(** The owned nested write [author: {update: {name: s}}] of a post
    renames its author and leaves the data object empty. *)
Lemma owned_writes_post_author_update d k (r : row) u (ru : row) s :
  db_wf d -> int32_ok k = true -> int32_ok u = true -> rows_of MPost d !! k = Some r -> fk_target r "authorId" = Some u ->
  rows_of MUser d !! u = Some ru ->
  owned_writes MPost [CEq "id" (JNum (NInt k))] (JObj [("author", JObj [("update", JObj [("name", JStr s)])])]) d =
    (Ok (JObj []), set_tbl MUser (mkTable (<[u := alist_set "name" (JStr s) ru]> (rows_of MUser d)) (t_next (tbl MUser d))) d).
Proof.
  intros Hwf Hk Hu Hr Hfk Hru.
  pose proof (update_row_set MUser u ru "name" (JStr s) d Hwf Hu Hru user_unique_id ltac:(done) eq_refl
                (refs_ok_set_plain d MUser ru "name" _ (proj2 (Hwf _ _ _ Hru)) ltac:(intros ? []))) as Hup.
  pose proof (select_rows_id_head d MPost k Hwf) as Hh. rewrite Hr in Hh.
  unfold owned_writes. cbn -[int32_ok select_rows update_row]. rewrite Hk. cbn -[int32_ok select_rows update_row].
  destruct (select_rows d MPost _) as [|[k0 r0] rest]; [discriminate|]. simpl in Hh. injection Hh as <-.
  st_unfold. rewrite Hfk. unfold id_cond. rewrite Hup. reflexivity.
Qed.

(** C32: [PUT /:id] whose body is [{author: {update: {name: s}}}]
    succeeds for whoever sends it: the user who wrote the post, not the
    caller, is renamed to [s]; the post and every other table are
    unchanged. *)
Theorem update_post_renames_author req d k (r : row) u (ru : row) s :
  db_wf d -> db_typed d -> to_number (param req "id") = NInt k -> rows_of MPost d !! k = Some r ->
  fk_target r "authorId" = Some u -> rows_of MUser d !! u = Some ru ->
  req_body req = JObj [("author", JObj [("update", JObj [("name", JStr s)])])] ->
  exists resp d', update_post req d = (Ok resp, d') /\ obj_get resp "post" = JObj r /\
    rows_of MUser d' = <[u := alist_set "name" (JStr s) ru]> (rows_of MUser d) /\
    (forall m, m <> MUser -> rows_of m d' = rows_of m d).
Proof.
  intros Hwf Hty Hn Hr Hfk Hru Hb.
  pose proof (stored_id_int32 d MPost k r Hwf Hty Hr) as Hk. pose proof (stored_id_int32 d MUser u ru Hwf Hty Hru) as Hu.
  pose proof (owned_writes_post_author_update d k r u ru s Hwf Hk Hu Hr Hfk Hru) as Hown.
  set (d1 := set_tbl MUser _ d) in Hown.
  pose proof (st_preserves_run db_wf _ d _ d1 (owned_writes_preserves _ _ _ _) Hwf Hown) as Hwf1.
  assert (Hr1 : rows_of MPost d1 !! k = Some r) by (unfold d1; by rewrite rows_of_set_tbl, decide_False).
  pose proof (update_row_same MPost k r (JObj []) [] d1 Hwf1 Hk Hr1 post_unique_id eq_refl eq_refl eq_refl eq_refl)
    as Hrow.
  pose proof (stored_id_of d1 MPost k r Hwf1 Hr1) as Hid.
  assert (Hup : update MPost [CEq "id" (JNum (NInt k))] (req_body req) d = (Ok (JObj r), d1)).
  { apply st_atomic_ok. rewrite Hb, (st_bind_ok _ _ _ _ _ Hown), (bind_run _ _ _ _ _ Hrow).
    st_unfold. unfold reread. rewrite Hid. change (data_assignments MPost ForUpdate (JObj [])) with (@Ok perr (list assignment) []).
    cbn [run_nested st_for]. unfold st_ret. by rewrite Hr1. }
  unfold update_post. rewrite Hn, (bind_run _ _ _ _ _ Hup). eexists _, _. split; [reflexivity|].
  split; [cbn; by key_decide|]. split; [unfold d1; by rewrite rows_of_set_tbl, decide_True|].
  intros m Hm. unfold d1. by rewrite rows_of_set_tbl, decide_False.
Qed.

(** The owned nested write [author: {create: {name: s}}] of a post
    inserts the user under the next value of the user sequence and
    leaves, for the post's own [UPDATE], a [connect] to it. *)
Lemma owned_writes_post_author_create d k (r : row) s :
  db_wf d -> int32_ok k = true -> rows_of MPost d !! k = Some r ->
  rows_of MUser d !! t_next (tbl MUser d) = None -> int32_ok (t_next (tbl MUser d)) = true ->
  let u := t_next (tbl MUser d) in
  owned_writes MPost [CEq "id" (JNum (NInt k))] (JObj [("author", JObj [("create", JObj [("name", JStr s)])])]) d =
    (Ok (JObj [("author", JObj [("connect", JObj [("id", JNum (NInt u))])])]),
     set_tbl MUser (mkTable (<[u := [("id", JNum (NInt u)); ("name", JStr s)]]> (rows_of MUser d)) (u + 1)) d).
Proof.
  intros Hwf Hk Hr Hfree Hu u.
  assert (Hmax : (u <= int32_max)%Z) by (unfold int32_ok, int32_max in *; lia).
  pose proof (create_row_new MUser (JObj [("name", JStr s)]) [AScalar "name" (JStr s)] [("id", JUndefined); ("name", JStr s)] d
                Hwf user_unique_id eq_refl eq_refl eq_refl eq_refl Hfree Hmax ltac:(intros ? ? ? [])) as Hc.
  pose proof (select_rows_id_head d MPost k Hwf) as Hh. rewrite Hr in Hh.
  unfold owned_writes. cbn -[int32_ok select_rows create_row]. rewrite Hk. cbn -[int32_ok select_rows create_row].
  destruct (select_rows d MPost _) as [|[k0 r0] rest]; [discriminate|]. simpl in Hh. injection Hh as <-.
  st_unfold. rewrite Hc. cbn. rewrite !decide_True by done. reflexivity.
Qed.

(** C35: [PUT /:id] whose body is [{author: {create: {name: s}}}], while
    the next value of the user sequence is free, succeeds for whoever
    sends it: a user named [s] is created and becomes the post's
    author, although the spec says a post's [authorId] is never
    reassigned and users are not created by this controller; the former
    author's row stays, and no other table changes. *)
Theorem update_post_new_author req d k (r : row) s :
  db_wf d -> db_typed d -> to_number (param req "id") = NInt k -> rows_of MPost d !! k = Some r ->
  rows_of MUser d !! t_next (tbl MUser d) = None -> int32_ok (t_next (tbl MUser d)) = true ->
  req_body req = JObj [("author", JObj [("create", JObj [("name", JStr s)])])] ->
  let u := t_next (tbl MUser d) in
  let r' := alist_set "authorId" (JNum (NInt u)) r in
  exists resp d', update_post req d = (Ok resp, d') /\ obj_get resp "post" = JObj r' /\
    rows_of MUser d' = <[u := [("id", JNum (NInt u)); ("name", JStr s)]]> (rows_of MUser d) /\
    rows_of MPost d' = <[k := r']> (rows_of MPost d) /\
    (forall m, m <> MUser -> m <> MPost -> rows_of m d' = rows_of m d).
Proof.
  intros Hwf Hty Hn Hr Hfree Hu Hb u r'.
  pose proof (stored_id_int32 d MPost k r Hwf Hty Hr) as Hk.
  pose proof (owned_writes_post_author_create d k r s Hwf Hk Hr Hfree Hu) as Hown. cbv zeta in Hown. fold u in Hown.
  set (d1 := set_tbl MUser _ d) in Hown.
  pose proof (st_preserves_run db_wf _ d _ d1 (owned_writes_preserves _ _ _ _) Hwf Hown) as Hwf1.
  assert (Hr1 : rows_of MPost d1 !! k = Some r) by (unfold d1; by rewrite rows_of_set_tbl, decide_False).
  assert (Hu1 : rows_of MUser d1 !! u = Some [("id", JNum (NInt u)); ("name", JStr s)])
    by (unfold d1; rewrite rows_of_set_tbl, decide_True by done; apply lookup_insert_eq).
  set (data' := JObj [("author", JObj [("connect", JObj [("id", JNum (NInt u))])])]) in Hown.
  assert (Ha : data_assignments MPost ForUpdate data' = Ok [AConnect "authorId" MUser u])
    by (unfold data'; cbv -[int32_ok u]; by rewrite (Hu : int32_ok u = true)).
  assert (Hrow : update_row MPost [CEq "id" (JNum (NInt k))] data' d1 =
                 (Ok (JObj r'), set_tbl MPost (mkTable (<[k := r']> (rows_of MPost d1)) (t_next (tbl MPost d1))) d1)).
  { apply (update_row_one MPost k r r' data' (AConnect "authorId" MUser u)); try done.
    - exact post_unique_id.
    - apply forallb_forall. intros a [<-|[]]. cbv beta iota. apply bool_decide_eq_true. eexists. exact Hu1.
    - unfold r'. by rewrite alist_get_set_ne.
    - intros fk tgt z [[= <- <-]|[]]. unfold r', fk_target. rewrite alist_get_set_eq. intros [= <-]. eexists. exact Hu1. }
  pose proof (stored_id_of d1 MPost k r Hwf1 Hr1) as Hid.
  assert (Hid' : id_of (JObj r') = k) by (rewrite <- Hid; unfold r', id_of, obj_get; cbn -[alist_set]; by rewrite alist_get_set_ne).
  set (d2 := set_tbl MPost _ d1) in Hrow.
  assert (Hup : update MPost [CEq "id" (JNum (NInt k))] (req_body req) d = (Ok (JObj r'), d2)).
  { apply st_atomic_ok. rewrite Hb, (st_bind_ok _ _ _ _ _ Hown), (bind_run _ _ _ _ _ Hrow), st_lift_bind, Ha.
    cbn [run_nested st_for]. st_unfold. unfold reread. rewrite Hid'.
    unfold d2. rewrite rows_of_set_tbl, decide_True by done. cbn [t_rows]. by rewrite lookup_insert_eq. }
  unfold update_post. rewrite Hn, (bind_run _ _ _ _ _ Hup). eexists _, _. split; [reflexivity|].
  split; [cbn; by key_decide|]. unfold d2, d1. split; [|split]; [..|intros m Hm1 Hm2]; rewrite !rows_of_set_tbl;
    repeat first [rewrite decide_True by done | rewrite decide_False by done]; done.
Qed.

(** * Deleting posts *)

Lemma delete_step m k d v d' :
  db_wf d -> owned_target m "posts" = Some ("postId", MPost) -> m <> MUser -> m <> MPost ->
  delete_many m [CRel "posts" [CEq "id" (JNum (NInt k))]] d = (Ok v, d') ->
  db_wf d' /\ no_refs_to d' m "postId" k /\
  (forall m' fk k', no_refs_to d m' fk k' -> no_refs_to d' m' fk k') /\
  (forall k', rows_of MPost d' !! k' = rows_of MPost d !! k').
Proof.
  intros Hwf Ho Hu Hne Hrun. split; [|split; [|split]].
  - pose proof (delete_many_wf m [CRel "posts" [CEq "id" (JNum (NInt k))]] d Hwf) as W.
    by rewrite Hrun in W.
  - by apply (delete_many_posts_no_refs m k d v d').
  - apply delete_many_ok_inv in Hrun as (_ & _ & ->). intros. by apply removal_no_refs.
  - apply delete_many_ok_inv in Hrun as (_ & _ & ->). intros k'.
    apply removal_other_rows.
    + unfold removed. by rewrite bool_decide_false.
    + intros fk Hin. destruct m; try done; cbn in Hin; intuition congruence.
Qed.

(** The three [deleteMany] calls of [DELETE /:id], run from a
    well-formed store: every like, comment and image of post [k] is gone,
    and the posts are as they were. *)
Lemma delete_children_facts d k v1 d1 v2 d2 v3 d3 :
  db_wf d ->
  delete_many MLike [CRel "posts" [CEq "id" (JNum (NInt k))]] d = (Ok v1, d1) ->
  delete_many MComment [CRel "posts" [CEq "id" (JNum (NInt k))]] d1 = (Ok v2, d2) ->
  delete_many MImage [CRel "posts" [CEq "id" (JNum (NInt k))]] d2 = (Ok v3, d3) ->
  db_wf d3 /\ no_refs_to d3 MLike "postId" k /\ no_refs_to d3 MComment "postId" k /\
  no_refs_to d3 MImage "postId" k /\ (forall k', rows_of MPost d3 !! k' = rows_of MPost d !! k').
Proof.
  intros Hwf H1 H2 H3.
  destruct (delete_step MLike k d v1 d1 Hwf eq_refl ltac:(done) ltac:(done) H1) as (W1 & L1 & F1 & P1).
  destruct (delete_step MComment k d1 v2 d2 W1 eq_refl ltac:(done) ltac:(done) H2) as (W2 & C2 & F2 & P2).
  destruct (delete_step MImage k d2 v3 d3 W2 eq_refl ltac:(done) ltac:(done) H3) as (W3 & I3 & F3 & P3).
  split; [done|]. split; [by apply F3, F2|]. split; [by apply F3|].
  split; [done|]. intros k'. by rewrite P3, P2, P1.
Qed.

(** A removal from [m] leaves a row of another model as it is when no
    optional foreign key of that model points into [m]. *)
Lemma null_refs_id m ks m' r :
  (forall fk, In (fk, m) (owned_fks m') -> fk_nullable m' fk = false) -> null_refs m ks m' r = r.
Proof.
  unfold null_refs. generalize (owned_fks m') as l. intros l.
  revert r. induction l as [|[fk tgt] l IH]; intros r H; [done|]. simpl.
  assert (Hs : (bool_decide (tgt = m) && fk_nullable m' fk && points_into ks r fk) = false).
  { destruct (decide (tgt = m)) as [->|Hne]; [by rewrite (H fk (in_eq _ _)), andb_false_r|].
    by rewrite bool_decide_false. }
  rewrite Hs. apply IH. intros f Hf. apply H. by right.
Qed.

Lemma removal_rows_other m ks m' d :
  m' <> m -> (forall fk, In (fk, m) (owned_fks m') -> fk_nullable m' fk = false) ->
  rows_of m' (map_db (removal m ks) d) = rows_of m' d.
Proof.
  intros Hne Hn. apply map_eq. intros i. rewrite rows_of_removal.
  unfold removed. rewrite bool_decide_false by done. simpl.
  destruct (rows_of m' d !! i); simpl; [|done]. by rewrite null_refs_id.
Qed.

Lemma removal_rows_self m ks d i :
  (forall fk, In (fk, m) (owned_fks m) -> fk_nullable m fk = false) ->
  rows_of m (map_db (removal m ks) d) !! i = if decide (i ∈ ks) then None else rows_of m d !! i.
Proof.
  intros Hn. rewrite rows_of_removal. unfold removed. rewrite bool_decide_true by done. simpl.
  case_bool_decide; [by rewrite decide_True|rewrite decide_False by done].
  destruct (rows_of m d !! i); simpl; [|done]. by rewrite null_refs_id.
Qed.

(** Under [db_wf], [deleteMany({where: {posts: {id: k}}})] takes the
    rows whose [postId] is [k]. *)
Lemma posts_selected d m k i :
  db_wf d -> owned_target m "posts" = Some ("postId", MPost) ->
  i ∈ map fst (select_rows d m [CRel "posts" [CEq "id" (JNum (NInt k))]]) <->
  exists x, rows_of m d !! i = Some x /\ fk_target x "postId" = Some k.
Proof.
  intros Hwf Ho. split.
  - intros Hi. apply list_elem_of_In, in_map_iff in Hi as ([i' x] & Hi & Hsel). simpl in Hi. subst i'.
    apply select_rows_lookup in Hsel as [Hx Hm]. exists x. split; [done|].
    by apply (posts_filter_matches d m k i x).
  - intros (x & Hx & Hfk). apply (selected_key_iff d m _ i x Hx).
    by apply (posts_filter_matches d m k i x).
Qed.

(** The rows of [m] after the [deleteMany] of the rows of post [k]. *)
Lemma removal_posts_self m k d i :
  db_wf d -> owned_target m "posts" = Some ("postId", MPost) ->
  (forall fk, In (fk, m) (owned_fks m) -> fk_nullable m fk = false) ->
  rows_of m (map_db (removal m (map fst (select_rows d m [CRel "posts" [CEq "id" (JNum (NInt k))]]))) d) !! i =
    rows_of m d !! i ≫= drop_of_post k.
Proof.
  intros Hwf Ho Hn. rewrite removal_rows_self by done. unfold drop_of_post.
  destruct (rows_of m d !! i) as [x|] eqn:Hx; simpl; case_decide as Hi; try done.
  - apply (posts_selected d m k i Hwf Ho) in Hi as (y & Hy & Hfk). simplify_eq. by rewrite decide_True.
  - rewrite decide_False; [done|]. intros Hfk. apply Hi, (posts_selected d m k i Hwf Ho). eauto.
Qed.

(** A removal of comments nulls the [parentId] of the replies to them,
    and only that. *)
Lemma null_refs_comment ks x :
  null_refs MComment ks MComment x = if points_into ks x "parentId" then alist_set "parentId" JNull x else x.
Proof.
  unfold null_refs.
  change (owned_fks MComment) with [("postId", MPost); ("authorId", MUser); ("parentId", MComment)].
  cbn [fold_left null_step].
  rewrite (bool_decide_false (MPost = MComment)), (bool_decide_false (MUser = MComment)) by done. cbn [andb].
  rewrite bool_decide_true by done. reflexivity.
Qed.

(** The comments after [deleteMany] of the comments of post [k]: those
    of post [k] are gone, and a reply to one of them loses its parent. *)
Lemma removal_comments_of_post k d i :
  db_wf d ->
  rows_of MComment (map_db (removal MComment (map fst (select_rows d MComment [CRel "posts" [CEq "id" (JNum (NInt k))]]))) d) !! i =
    orphan_reply d k <$> (rows_of MComment d !! i ≫= drop_of_post k).
Proof.
  intros Hwf. set (ks := map fst _).
  assert (Hsel : forall j, j ∈ ks <-> exists y, rows_of MComment d !! j = Some y /\ fk_target y "postId" = Some k)
    by (intros j; by apply posts_selected).
  rewrite rows_of_removal. unfold removed. rewrite bool_decide_true by done. simpl.
  destruct (rows_of MComment d !! i) as [x|] eqn:Hx; simpl; case_bool_decide as Hi; unfold drop_of_post.
  - apply Hsel in Hi as (y & Hy & Hfk). simplify_eq. by rewrite decide_True.
  - rewrite decide_False by (intros Hfk; apply Hi, Hsel; eauto). simpl. f_equal.
    rewrite null_refs_comment. unfold orphan_reply, points_into.
    destruct (fk_target x "parentId") as [p|]; simpl; [|done].
    destruct (rows_of MComment d !! p) as [pc|] eqn:Hp; case_bool_decide as Hpk.
    + apply Hsel in Hpk as (y & Hy & Hfk). simplify_eq. by rewrite decide_True.
    + rewrite decide_False; [done|]. intros Hfk. apply Hpk, Hsel. eauto.
    + apply Hsel in Hpk as (y & Hy & _). congruence.
    + done.
  - done.
  - done.
Qed.

(** A foreign key of [m'] into [m] that is not optional. *)
Ltac no_nullable_fk :=
  let fk := fresh "fk" in let Hin := fresh "Hin" in
  intros fk Hin; cbn in Hin; repeat destruct Hin as [Hin|Hin]; simplify_eq; done.

(** Run one [deleteMany({where: {posts: {id: k}}})] of the handler. *)
Ltac run_delete_many m Hfree v H :=
  match goal with
  | Hk : int32_ok ?k = true |- context [st_bind (delete_many m ?w) _ ?dd] =>
      destruct (delete_many_free m w dd Hfree (check_posts_filter m k eq_refl Hk)) as [v H];
      rewrite (bind_run _ _ _ _ _ H); cbv beta
  end.

(** The run of [DELETE /:id] on a stored post: it answers the post,
    and leaves a well-formed store without it. *)
Lemma delete_post_run req d k (r : row) :
  db_wf d -> to_number (param req "id") = NInt k -> int32_ok k = true -> rows_of MPost d !! k = Some r ->
  exists resp d', delete_post req d = (Ok resp, d') /\ obj_get resp "post" = JObj r /\
                  db_wf d' /\ rows_of MPost d' !! k = None.
Proof.
  intros Hwf Hn Hk Hr. unfold delete_post. rewrite Hn.
  run_delete_many MLike restrict_violation_like v1 H1.
  run_delete_many MComment restrict_violation_comment v2 H2.
  run_delete_many MImage restrict_violation_image v3 H3.
  destruct (delete_children_facts _ k _ _ _ _ _ _ Hwf H1 H2 H3) as (W3 & L & C & I & P).
  rewrite <- P in Hr.
  pose proof (delete_id_run MPost k r _ W3 Hk Hr (restrict_violation_post _ k L C I)) as Hd.
  rewrite (bind_run _ _ _ _ _ Hd).
  do 2 eexists. split; [done|]. split; [done|]. split.
  - pose proof (delete_wf MPost [CEq "id" (JNum (NInt k))] _ W3) as W. by rewrite Hd in W.
  - apply removal_gone. by apply list_elem_of_singleton.
Qed.

(** C1: [DELETE /:id] of a stored post [k] on a well-formed store
    succeeds and has exactly the effect of the cascade the handler
    writes by hand: post [k] is deleted and no other post; the likes,
    images and comments whose [postId] is [k] are deleted and no other;
    a reply to a deleted comment loses its parent ([SetNull]); the users
    stay as they are. *)
Theorem delete_post_effect req d k (r : row) :
  db_wf d -> to_number (param req "id") = NInt k -> int32_ok k = true -> rows_of MPost d !! k = Some r ->
  exists resp d', delete_post req d = (Ok resp, d') /\
    rows_of MUser d' = rows_of MUser d /\
    (forall i, rows_of MPost d' !! i = if decide (i = k) then None else rows_of MPost d !! i) /\
    (forall i, rows_of MLike d' !! i = rows_of MLike d !! i ≫= drop_of_post k) /\
    (forall i, rows_of MImage d' !! i = rows_of MImage d !! i ≫= drop_of_post k) /\
    (forall i, rows_of MComment d' !! i = orphan_reply d k <$> (rows_of MComment d !! i ≫= drop_of_post k)).
Proof.
  intros Hwf Hn Hk Hr. unfold delete_post. rewrite Hn.
  run_delete_many MLike restrict_violation_like v1 H1.
  run_delete_many MComment restrict_violation_comment v2 H2.
  run_delete_many MImage restrict_violation_image v3 H3.
  destruct (delete_children_facts _ k _ _ _ _ _ _ Hwf H1 H2 H3) as (W3 & L & C & I & P).
  pose proof (st_preserves_run db_wf _ _ _ _ (delete_many_wf _ _) Hwf H1) as W1.
  pose proof (st_preserves_run db_wf _ _ _ _ (delete_many_wf _ _) W1 H2) as W2.
  rewrite <- P in Hr.
  pose proof (delete_id_run MPost k r _ W3 Hk Hr (restrict_violation_post _ k L C I)) as Hd.
  rewrite (bind_run _ _ _ _ _ Hd). eexists _, _. split; [reflexivity|].
  split; [|split; [|split; [|split]]]; [|intros i..].
  - rewrite !removal_rows_other by (done || no_nullable_fk). done.
  - rewrite removal_rows_self by no_nullable_fk. rewrite P.
    destruct (decide (i = k)) as [->|Hne]; [by rewrite decide_True by (by apply list_elem_of_singleton)|].
    by rewrite decide_False by (by rewrite list_elem_of_singleton).
  - rewrite !(removal_rows_other _ _ MLike) by (done || no_nullable_fk).
    by rewrite removal_posts_self by (done || no_nullable_fk).
  - rewrite (removal_rows_other _ _ MImage) by (done || no_nullable_fk).
    rewrite removal_posts_self by (done || no_nullable_fk).
    by rewrite !(removal_rows_other _ _ MImage) by (done || no_nullable_fk).
  - rewrite (removal_rows_other MPost _ MComment), (removal_rows_other MImage _ MComment)
      by (done || no_nullable_fk).
    rewrite removal_comments_of_post by done. unfold orphan_reply.
    by rewrite (removal_rows_other MLike _ MComment) by (done || no_nullable_fk).
Qed.

(** C2: [DELETE /:id] of a stored post succeeds on a well-formed store
    and answers the deleted post: the likes, comments and image deleted
    first leave nothing that [Restrict]s the post's deletion. *)
Theorem delete_post_succeeds req d k (r : row) :
  db_wf d -> to_number (param req "id") = NInt k -> int32_ok k = true -> rows_of MPost d !! k = Some r ->
  exists resp d', delete_post req d = (Ok resp, d') /\ obj_get resp "post" = JObj r.
Proof.
  intros Hwf Hn Hk Hr.
  destruct (delete_post_run req d k r Hwf Hn Hk Hr) as (resp & d' & Hrun & Hp & _). eauto.
Qed.

(** The order of the cascade matters: deleting the post first,
    while a like, a comment or an image still points at it, is refused
    by the database ([Restrict], Prisma's P2003) and changes nothing. *)
Lemma delete_post_row_restricted d k (r : row) m kc rc :
  db_wf d -> int32_ok k = true -> rows_of MPost d !! k = Some r ->
  In m [MLike; MComment; MImage] -> rows_of m d !! kc = Some rc -> fk_target rc "postId" = Some k ->
  delete MPost [CEq "id" (JNum (NInt k))] d = (Err EForeignKey, d).
Proof.
  intros Hwf Hk Hr Hm Hc Hfk. rewrite (delete_id_step MPost k r d Hwf Hk Hr).
  rewrite (restrict_violation_intro d MPost [k] m "postId" kc rc); [done| | | done | |].
  - by repeat destruct Hm as [<-|Hm]; [left|left|left|].
  - by repeat destruct Hm as [<-|Hm].
  - unfold removed. rewrite bool_decide_false; [done|]. by repeat destruct Hm as [<-|Hm].
  - unfold points_into. rewrite Hfk. apply bool_decide_true. by apply list_elem_of_singleton.
Qed.

(** * Store invariants

    Every handler, on every request, keeps each invariant the Prisma
    client keeps ([store_invariant]), also when it fails: the
    statements it ran before failing are committed. *)
Section HandlerInvariant.
Context (P : db -> Prop) `{!store_invariant P}.

Lemma run_handler_preserves h req : st_preserves P (run_handler h req).
Proof.
  destruct h; cbn [run_handler];
    [ unfold get_published_posts | unfold get_post_by_id | unfold get_all_unpublished
    | unfold get_user_unpublished | unfold get_user_published | unfold create_post
    | unfold create_post_with_image | unfold update_post | unfold delete_post ]; preserve.
Qed.

End HandlerInvariant.

(** * Witnesses *)

Lemma update_post_renumbers_witness :
  exists resp d', update_post renumber_commented_req sample_db = (Ok resp, d') /\
    (exists r', rows_of MPost d' !! 5%Z = Some r' /\ obj_get resp "post" = JObj r') /\
    (2%Z <> 5%Z -> rows_of MPost d' !! 2%Z = None) /\
    (forall m kk rc, In ("postId", MPost) (owned_fks m) -> rows_of m sample_db !! kk = Some rc ->
       fk_target rc "postId" = Some 2%Z ->
       exists rc', rows_of m d' !! kk = Some rc' /\ fk_target rc' "postId" = Some 5%Z).
Proof.
  destruct (update_post renumber_commented_req sample_db) as [[resp|e] d'] eqn:E; [|vm_compute in E; discriminate].
  exists resp, d'. split; [reflexivity|].
  apply (update_post_renumbers renumber_commented_req sample_db resp d' [("id", JNum (NInt 5))] 2 5).
  - apply db_wfb_spec. vm_compute. reflexivity.
  - reflexivity.
  - apply (bool_decide_unpack _). vm_compute. exact I.
  - by left.
  - intros f x [[= <- <-]|[]] o' [=].
  - vm_compute. reflexivity.
  - exact E.
Defined.

(** Post 2 doubled past [2^31 - 1]: [{id: {multiply: 2147483647}}]. *)
Lemma update_post_arith_out_of_range_witness :
  exists e, update_post (req_with [("id", "2")] (JObj [("id", JObj [("multiply", JNum (NInt 2147483647))])])
                          JUndefined JUndefined) sample_db
            = (Err e, sample_db).
Proof.
  apply (update_post_arith_out_of_range _ sample_db 2 (post_row 2 "hello" true 1) "id" "multiply"
           OpMultiply 2147483647 2).
  - apply db_wfb_spec. vm_compute. reflexivity.
  - vm_compute. reflexivity.
  - vm_compute. reflexivity.
  - reflexivity.
  - by right.
  - reflexivity.
  - reflexivity.
  - reflexivity.
  - vm_compute. reflexivity.
Defined.

Lemma get_post_by_id_found_or_null_witness :
  get_post_by_id rounded_id_req sample_db =
    (Ok (JObj [("post", match rows_of MPost sample_db !! 1%Z with
                        | Some r => render sample_db MPost post_include r
                        | None => JNull
                        end)]), sample_db).
Proof.
  apply get_post_by_id_found_or_null.
  - apply db_wfb_spec. vm_compute. reflexivity.
  - vm_compute. reflexivity.
  - vm_compute. reflexivity.
Defined.

Lemma get_post_by_id_rejects_non_integer_witness :
  exists msg, get_post_by_id (req_with [("id", "published")] JUndefined JUndefined JUndefined) sample_db
              = (Err (EValidation msg), sample_db).
Proof.
  apply get_post_by_id_rejects_non_integer. intros z Hz. vm_compute in Hz. discriminate.
Defined.

Lemma create_post_author_witness :
  exists resp d', create_post create_req sample_db = (Ok resp, d') /\
    exists z, req_currentUser create_req = JNum (NInt z) /\
              obj_get (obj_get resp "post") "authorId" = JNum (NInt z).
Proof.
  destruct (create_post create_req sample_db) as [[resp|e] d'] eqn:E; [|vm_compute in E; discriminate].
  exists resp, d'. split; [reflexivity|].
  apply (create_post_author create_req sample_db resp d' [("title", JStr "A"); ("published", JBool false)]).
  - reflexivity.
  - apply (bool_decide_unpack _). vm_compute. exact I.
  - exact E.
Defined.

Lemma create_post_with_image_author_is_1_witness :
  exists resp d', create_post_with_image image_req sample_db = (Ok resp, d') /\
    req_currentUser image_req = JNum (NInt 7) /\
    obj_get (obj_get resp "post") "authorId" = JNum (NInt 1).
Proof.
  destruct (create_post_with_image image_req sample_db) as [[resp|e] d'] eqn:E;
    [|vm_compute in E; discriminate].
  exists resp, d'. split; [reflexivity|]. split; [reflexivity|].
  apply (create_post_with_image_author_is_1 image_req sample_db resp d' [("title", JStr "A")]).
  - reflexivity.
  - apply (bool_decide_unpack _). vm_compute. exact I.
  - exact E.
Defined.

Lemma create_post_with_image_links_witness :
  exists resp d', create_post_with_image image_req sample_db = (Ok resp, d') /\
    obj_get (obj_get resp "image") "postId" = obj_get (obj_get resp "post") "id".
Proof.
  destruct (create_post_with_image image_req sample_db) as [[resp|e] d'] eqn:E;
    [|vm_compute in E; discriminate].
  exists resp, d'. split; [reflexivity|].
  apply (create_post_with_image_links image_req sample_db resp d').
  - right. eexists. split; [reflexivity|]. apply (bool_decide_unpack _). vm_compute. exact I.
  - exact E.
Defined.

Lemma update_post_merge_witness :
  exists resp d', update_post update_req sample_db = (Ok resp, d') /\
    exists r' : row, rows_of MPost d' !! 1%Z = Some r' /\ obj_get resp "post" = JObj r' /\
      (forall f x, In (f, x) [("published", JBool true); ("authorId", JNum (NInt 1))] ->
                   is_undef x = false -> (forall o', x <> JObj o') -> find_column MPost f <> None ->
                   alist_get f r' = Some x) /\
      (forall f, ~ In f (map fst [("published", JBool true); ("authorId", JNum (NInt 1))]) ->
                 (forall rn tgt, owned_target MPost rn = Some (f, tgt) ->
                                 ~ In rn (map fst [("published", JBool true); ("authorId", JNum (NInt 1))])) ->
                 alist_get f r' = alist_get f (post_row 1 "draft" false 7)).
Proof.
  destruct (update_post update_req sample_db) as [[resp|e] d'] eqn:E; [|vm_compute in E; discriminate].
  exists resp, d'. split; [reflexivity|].
  apply (update_post_merge update_req sample_db resp d' _ 1%Z (post_row 1 "draft" false 7)).
  - apply db_wfb_spec. vm_compute. reflexivity.
  - reflexivity.
  - apply (bool_decide_unpack _). vm_compute. exact I.
  - intros v [H|[H|[]]]; discriminate.
  - vm_compute. reflexivity.
  - vm_compute. reflexivity.
  - exact E.
Defined.

Lemma delete_post_effect_witness :
  exists resp d', delete_post delete_req sample_db = (Ok resp, d') /\
    rows_of MUser d' = rows_of MUser sample_db /\
    (forall i, rows_of MPost d' !! i = if decide (i = 2%Z) then None else rows_of MPost sample_db !! i) /\
    (forall i, rows_of MLike d' !! i = rows_of MLike sample_db !! i ≫= drop_of_post 2) /\
    (forall i, rows_of MImage d' !! i = rows_of MImage sample_db !! i ≫= drop_of_post 2) /\
    (forall i, rows_of MComment d' !! i =
       orphan_reply sample_db 2 <$> (rows_of MComment sample_db !! i ≫= drop_of_post 2)).
Proof.
  apply (delete_post_effect delete_req sample_db 2 (post_row 2 "hello" true 1)).
  - apply db_wfb_spec. vm_compute. reflexivity.
  - vm_compute. reflexivity.
  - reflexivity.
  - reflexivity.
Defined.

Lemma delete_post_succeeds_witness :
  exists resp d', delete_post delete_req sample_db = (Ok resp, d') /\
                  obj_get resp "post" = JObj (post_row 2 "hello" true 1).
Proof.
  apply (delete_post_succeeds delete_req sample_db 2 (post_row 2 "hello" true 1)).
  - apply db_wfb_spec. vm_compute. reflexivity.
  - vm_compute. reflexivity.
  - reflexivity.
  - reflexivity.
Defined.

Lemma get_user_unpublished_spec_witness :
  exists ps,
    get_user_unpublished (req_with [] JUndefined (JStr "7") JUndefined) sample_db =
      (Ok (JObj [("posts", JArr (map (fun kr => render sample_db MPost user_unpublished_include kr.2) ps))]),
       sample_db) /\
    forall k' r, In (k', r) ps <->
      rows_of MPost sample_db !! k' = Some r /\ alist_get "authorId" r = Some (JNum (NInt 7)) /\
      alist_get "published" r = Some (JBool false).
Proof. apply get_user_unpublished_spec; vm_compute; reflexivity. Defined.

Lemma get_user_unpublished_rejects_witness :
  exists msg, get_user_unpublished (req_with [] JUndefined JUndefined JUndefined) sample_db
              = (Err (EValidation msg), sample_db).
Proof. apply get_user_unpublished_rejects. intros z Hz. vm_compute in Hz. discriminate. Defined.

Lemma renumber_to_next_breaks_create_witness :
  exists resp1 d1, update_post renumber_req sample_db = (Ok resp1, d1) /\
    exists d2, create_post create_req d1 = (Err EUnique, d2) /\ (forall m, rows_of m d2 = rows_of m d1) /\
      t_next (tbl MPost d2) = (t_next (tbl MPost sample_db) + 1)%Z.
Proof.
  destruct (update_post renumber_req sample_db) as [[resp1|e] d1] eqn:Eu; [|vm_compute in Eu; discriminate].
  destruct (create_post create_req sample_db) as [[resp0|e] d0] eqn:Ec; [|vm_compute in Ec; discriminate].
  exists resp1, d1. split; [reflexivity|].
  apply (renumber_to_next_breaks_create renumber_req create_req sample_db [("id", JNum (NInt 3))] 1 resp1 d1
           [("title", JStr "A"); ("published", JBool false)] resp0 d0).
  - apply db_wfb_spec. vm_compute. reflexivity.
  - reflexivity.
  - simpl. apply NoDup_singleton.
  - left. reflexivity.
  - intros f x [[= <- <-]|[]] o' [=].
  - vm_compute. reflexivity.
  - exact Eu.
  - reflexivity.
  - intros v [H|[H|[]]]; discriminate.
  - exact Ec.
Defined.

Lemma create_post_rejects_author_id_witness :
  exists e, create_post (req_with [] (JObj [("title", JStr "A"); ("published", JBool false);
                                            ("authorId", JNum (NInt 7))]) (JNum (NInt 7)) JUndefined)
              sample_db = (Err e, sample_db).
Proof.
  apply (create_post_rejects_author_id _ _
           [("title", JStr "A"); ("published", JBool false); ("authorId", JNum (NInt 7))] "authorId" (JNum (NInt 7))).
  - reflexivity.
  - by left.
  - right. right. left. reflexivity.
  - discriminate.
Defined.

Lemma update_post_deletes_comments_witness :
  exists resp d', update_post wipe_ic_comments_req sample_db = (Ok resp, d') /\
    obj_get resp "post" = JObj (post_row 2 "hello" true 1) /\
    (forall kc (rc : row), rows_of MComment sample_db !! kc = Some rc ->
       is_Some (rows_of MComment d' !! kc) <->
       ~ (fk_target rc "postId" = Some 2%Z /\ matches sample_db MComment [COp "content" FContains (JStr "ic")] rc = true)) /\
    (forall kc, rows_of MComment sample_db !! kc = None -> rows_of MComment d' !! kc = None) /\
    rows_of MPost d' = rows_of MPost sample_db /\
    rows_of MLike d' = rows_of MLike sample_db /\ rows_of MImage d' = rows_of MImage sample_db.
Proof.
  apply (update_post_deletes_comments wipe_ic_comments_req sample_db 2 (post_row 2 "hello" true 1)
           [("content", JObj [("contains", JStr "ic")])]);
    first [apply db_wfb_spec; vm_compute; reflexivity | vm_compute; reflexivity].
Defined.

Lemma create_post_takes_comment_witness :
  exists resp d', create_post take_comment_req sample_db = (Ok resp, d') /\
  exists p (rc : row), obj_get (obj_get resp "post") "id" = JNum (NInt p) /\
    rows_of MComment d' !! 1%Z = Some rc /\ fk_target rc "postId" = Some p.
Proof.
  destruct (create_post take_comment_req sample_db) as [[resp|e] d'] eqn:E; [|vm_compute in E; discriminate].
  exists resp, d'. split; [reflexivity|].
  apply (create_post_takes_comment take_comment_req sample_db resp d' "mine" 1);
    [apply db_wfb_spec; vm_compute; reflexivity | reflexivity | exact E].
Defined.

Lemma create_post_rolls_back_witness :
  exists e d', create_post missing_comment_req sample_db = (Err e, d') /\
    forall m, rows_of m d' = rows_of m sample_db.
Proof.
  apply (create_post_rolls_back missing_comment_req sample_db "mine" 9);
    [apply db_wfb_spec; vm_compute; reflexivity | vm_compute; reflexivity | reflexivity].
Defined.

Lemma update_post_set_comments_fails_witness :
  update_post unset_comments_req sample_db = (Err ERequiredRelation, sample_db).
Proof.
  apply (update_post_set_comments_fails unset_comments_req sample_db 2 (post_row 2 "hello" true 1) [] 1
           (comment_row 1 2 7));
    first [apply db_wfb_spec; vm_compute; reflexivity | constructor | apply not_elem_of_nil
          | vm_compute; reflexivity].
Defined.

Lemma update_post_reassigns_comments_witness :
  exists resp d', update_post reassign_comments_req sample_db = (Ok resp, d') /\
    obj_get resp "post" = JObj (post_row 2 "hello" true 1) /\
    rows_of MComment d' =
      (fun rc : row => if decide (fk_target rc "postId" = Some 2%Z) then set_key "authorId" 1 rc else rc)
        <$> rows_of MComment sample_db /\
    (forall m, m <> MComment -> rows_of m d' = rows_of m sample_db).
Proof.
  apply (update_post_reassigns_comments reassign_comments_req sample_db 2 (post_row 2 "hello" true 1) 1);
    first [apply db_wfb_spec; vm_compute; reflexivity | apply db_typedb_spec; vm_compute; reflexivity
          | vm_compute; reflexivity | eexists; vm_compute; reflexivity].
Defined.

Lemma update_post_new_author_witness :
  let u := t_next (tbl MUser sample_db) in
  let r' := alist_set "authorId" (JNum (NInt u)) (post_row 1 "draft" false 7) in
  exists resp d', update_post new_author_req sample_db = (Ok resp, d') /\ obj_get resp "post" = JObj r' /\
    rows_of MUser d' = <[u := [("id", JNum (NInt u)); ("name", JStr "eve")]]> (rows_of MUser sample_db) /\
    rows_of MPost d' = <[1%Z := r']> (rows_of MPost sample_db) /\
    (forall m, m <> MUser -> m <> MPost -> rows_of m d' = rows_of m sample_db).
Proof.
  apply (update_post_new_author new_author_req sample_db 1 (post_row 1 "draft" false 7) "eve").
  - apply db_wfb_spec. vm_compute. reflexivity.
  - apply db_typedb_spec. vm_compute. reflexivity.
  - vm_compute. reflexivity.
  - reflexivity.
  - reflexivity.
  - reflexivity.
  - reflexivity.
Defined.

Lemma update_post_renames_author_witness :
  exists resp d', update_post rename_author_req sample_db = (Ok resp, d') /\
    obj_get resp "post" = JObj (post_row 1 "draft" false 7) /\
    rows_of MUser d' = <[7%Z := alist_set "name" (JStr "mallory") (user_row 7)]> (rows_of MUser sample_db) /\
    (forall m, m <> MUser -> rows_of m d' = rows_of m sample_db).
Proof.
  apply (update_post_renames_author rename_author_req sample_db 1 (post_row 1 "draft" false 7) 7 (user_row 7));
    first [apply db_wfb_spec; vm_compute; reflexivity | apply db_typedb_spec; vm_compute; reflexivity
          | vm_compute; reflexivity].
Defined.

Lemma update_post_foreign_comment_fails_witness :
  update_post foreign_comment_req sample_db = (Err ENotFound, sample_db).
Proof.
  apply (update_post_foreign_comment_fails foreign_comment_req sample_db 1 (post_row 1 "draft" false 7) 1
           (comment_row 1 2 7) "edited");
    first [apply db_wfb_spec; vm_compute; reflexivity | apply db_typedb_spec; vm_compute; reflexivity
          | vm_compute; reflexivity | discriminate].
Defined.

Lemma update_post_create_many_skips_witness :
  fst (update_post dup_comment_req sample_db) <> Err EUnique /\
  rows_of MComment sample_db ⊆ rows_of MComment (snd (update_post dup_comment_req sample_db)).
Proof.
  apply (update_post_create_many_skips dup_comment_req sample_db 2 (post_row 2 "hello" true 1)
           [[("id", JNum (NInt 1)); ("content", JStr "dup"); ("authorId", JNum (NInt 7))]]);
    first [apply db_wfb_spec; vm_compute; reflexivity | vm_compute; reflexivity].
Defined.
