(* ===== verification/Router.v ===== *)
(** * The router: which handler answers a request (lines 4, 18-176)

    [express.Router()] keeps its layers in registration order and hands
    a request to the first layer whose method and path match; every
    handler of the controller ends the request (or crashes the server
    on a rejected promise), so no later layer runs.  A route layer
    ([router.get/post/put/delete]) matches its path exactly, with an
    optional trailing slash; a [router.use] layer matches its path as a
    prefix ending at a segment boundary, for every method.  Paths are
    compared ASCII-case-insensitively, a [:name] segment matches any
    non-empty segment, and a [get] route also answers [HEAD].  These
    rules are those of Express 4 and its path-to-regexp 0.1; the request
    path is taken already percent-decoded.

    [serve] is one request through the router, the multer middleware of
    the upload route and the handler; a handler that rejects [Crash]es
    the server (Node exits on an unhandled rejection).  [run_requests]
    is a sequence of requests, each run to completion before the next,
    until one crashes the server: the later ones are [Dropped].  [serve_get_id]
    and [serve_delete_id] are the two id routes on the path
    ["/" ++ String(k)], which every integer [k] reaches
    ([numeric_id_dispatch]); the round trips of the spec compose them. *)

From stdpp Require Import base list strings gmap.
From Stdlib Require Import ZArith String Ascii.
From S2P Require Import Prelude JsValue Schema Store StoreFacts Typing Owned Nested Upload Handlers.

Local Open Scope string_scope.

Inductive method : Type := GET | HEAD | POST | PUT | DELETE | PATCH | OPTIONS.

#[export] Instance method_eq_dec : EqDecision method.
Proof. solve_decision. Defined.

(** ** Paths *)

(** The segments of a path after its leading ['/']:
    ["a/b"] gives [["a"; "b"]], [""] gives [[""]], ["a/"] gives
    [["a"; ""]]. *)
Fixpoint segs (s : string) : list string :=
  match s with
  | EmptyString => [""]
  | String c s' =>
      if Ascii.eqb c "/"%char then "" :: segs s'
      else match segs s' with
           | [] => [String c ""]
           | x :: xs => String c x :: xs
           end
  end.

Definition path_segments (p : string) : option (list string) :=
  match p with
  | String c rest => if Ascii.eqb c "/"%char then Some (segs rest) else None
  | EmptyString => None
  end.

Definition lower_ascii (c : ascii) : ascii :=
  let n := nat_of_ascii c in
  if (65 <=? n)%nat && (n <=? 90)%nat then ascii_of_nat (n + 32)%nat else c.

Fixpoint lower (s : string) : string :=
  match s with
  | EmptyString => EmptyString
  | String c s' => String (lower_ascii c) (lower s')
  end.

(** A segment of a route pattern. *)
Inductive pseg : Type :=
| PLit (s : string)
| PParam (name : string).

Definition pseg_of (s : string) : pseg :=
  match s with
  | String ":"%char name => PParam name
  | _ => PLit s
  end.

(** The pattern of a registered path: ['/'] has no segment. *)
Definition compile_path (p : string) : list pseg :=
  match path_segments p with
  | Some ss => map pseg_of (filter (fun s => negb (String.eqb s "")) ss)
  | None => []
  end.

(** Match the pattern against the first segments; the parameters and
    the segments left over. *)
Fixpoint match_segs (ps : list pseg) (ss : list string)
  : option (list (string * string) * list string) :=
  match ps, ss with
  | [], _ => Some ([], ss)
  | PLit l :: ps', s :: ss' => if String.eqb (lower l) (lower s) then match_segs ps' ss' else None
  | PParam x :: ps', s :: ss' =>
      if String.eqb s "" then None
      else match match_segs ps' ss' with
           | Some (prs, rest) => Some ((x, s) :: prs, rest)
           | None => None
           end
  | _ :: _, [] => None
  end.

(** ** Layers *)

Inductive layer_kind : Type :=
| LRoute (m : method)  (** [router.<method>(path, ...)] *)
| LUse.                (** [router.use(path, ...)] *)

Record layer : Type := mkLayer {
  l_kind : layer_kind;
  l_path : string;
  l_handler : route_handler
}.

(** The registrations of [src/controllers/posts.js], in order. *)
Definition posts_router : list layer :=
  [mkLayer (LRoute GET) "/" HGetPublished;            (* line 18 *)
   mkLayer (LRoute GET) "/:id" HGetById;              (* line 38 *)
   mkLayer LUse "/allunpublished" HAllUnpublished;    (* line 58 *)
   mkLayer LUse "/unpublished" HUserUnpublished;      (* line 79 *)
   mkLayer (LRoute GET) "/published" HUserPublished;  (* line 100 *)
   mkLayer (LRoute POST) "/create" HCreate;           (* line 119 *)
   mkLayer (LRoute POST) "/create/image" HCreateImage; (* lines 131-133 *)
   mkLayer (LRoute PUT) "/:id" HUpdate;               (* line 164 *)
   mkLayer (LRoute DELETE) "/:id" HDelete].           (* line 176 *)

Definition method_matches (k : layer_kind) (m : method) : bool :=
  match k with
  | LUse => true
  | LRoute GET => bool_decide (m = GET \/ m = HEAD)
  | LRoute m' => bool_decide (m = m')
  end.

(** The parameters a layer gives the request, when it matches. *)
Definition layer_match (l : layer) (m : method) (ss : list string) : option (list (string * string)) :=
  if method_matches (l_kind l) m then
    match match_segs (compile_path (l_path l)) ss with
    | Some (prs, rest) =>
        match l_kind l with
        | LUse => Some prs
        | LRoute _ => if bool_decide (rest = [] \/ rest = [""]) then Some prs else None
        end
    | None => None
    end
  else None.

Fixpoint first_match (ls : list layer) (m : method) (ss : list string)
  : option (route_handler * list (string * string)) :=
  match ls with
  | [] => None
  | l :: ls' =>
      match layer_match l m ss with
      | Some prs => Some (l_handler l, prs)
      | None => first_match ls' m ss
      end
  end.

Definition dispatch (m : method) (p : string) : option (route_handler * list (string * string)) :=
  match path_segments p with
  | Some ss => first_match posts_router m ss
  | None => None
  end.

(** ** Serving requests *)

(** What the request carries: a JSON body, or a multipart form with its
    text fields and its files in arrival order. *)
Inductive body_kind : Type :=
| JsonBody (v : jsval)
| Multipart (fields : list (string * string)) (files : list file_part).

Record http_request : Type := mkHttp {
  h_method : method;
  h_path : string;
  h_body : body_kind;
  h_user : jsval;   (** [req.currentUser], from the authentication middleware *)
  h_now : Z         (** [Date.now()] when multer names a file *)
}.

Record server : Type := mkServer {
  srv_db : db;
  srv_disk : disk
}.

(** What the client sees: a JSON response; the crash of the server
    (the handler's promise rejected with a Prisma error, Express 4 does
    not catch it, and Node, from version 15 on, exits on an unhandled
    rejection: the client gets no response); no response because an
    earlier request crashed the server; the error multer passes to
    [next] (Express's default 500); or no matching route (the app's 404). *)
Inductive outcome : Type :=
| Json (v : jsval)
| Crash (e : perr)
| Dropped
| UploadFailed (e : upload_error)
| NoRoute.

Definition outcome_of (r : res perr jsval) : outcome :=
  match r with
  | Ok v => Json v
  | Err e => Crash e
  end.

(** [req.body] outside multer: the parsed JSON, or [{}] for a multipart
    body that no JSON parser reads. *)
Definition plain_body (b : body_kind) : jsval :=
  match b with
  | JsonBody v => v
  | Multipart _ _ => JObj []
  end.

(** One request: the router picks the handler; on the upload route
    [upload.single('image')] runs first and sets [req.body] to the form
    fields and [req.file] to the stored file (a request that is not
    multipart passes through it unchanged). *)
Definition serve (rq : http_request) (s : server) : outcome * server :=
  match dispatch (h_method rq) (h_path rq) with
  | None => (NoRoute, s)
  | Some (h, ps) =>
      match h, h_body rq with
      | HCreateImage, Multipart fields files =>
          match single_image (h_now rq) files (srv_disk s) with
          | Err e => (UploadFailed e, s)
          | Ok (file, dk) =>
              let '(r, d') := run_handler h (mkReq ps (form_body fields) (h_user rq) file) (srv_db s) in
              (outcome_of r, mkServer d' dk)
          end
      | _, b =>
          let '(r, d') := run_handler h (mkReq ps (plain_body b) (h_user rq) JUndefined) (srv_db s) in
          (outcome_of r, mkServer d' (srv_disk s))
      end
  end.

(** Requests served one after the other, until one crashes the
    server: the requests after it find no server.  The database and the
    upload directory keep what the statements and multer wrote. *)
Fixpoint run_requests (rqs : list http_request) (s : server) : list outcome * server :=
  match rqs with
  | [] => ([], s)
  | rq :: rqs' =>
      let '(o, s1) := serve rq s in
      match o with
      | Crash _ => (o :: map (fun _ => Dropped) rqs', s1)
      | _ => let '(os, s2) := run_requests rqs' s1 in (o :: os, s2)
      end
  end.

(** A path segment: no ['/'] in it. *)
Definition no_slash (s : string) : bool :=
  forallb (fun c => negb (Ascii.eqb c "/"%char)) (list_ascii_of_string s).

(** ** Sample traffic, for the witnesses *)

Definition sample_server : server := mkServer sample_db ∅.

Definition cat_file : file_part := mkFilePart "image" "cat.png" "7bit" "image/png" 1024.

Definition upload_request : http_request :=
  mkHttp POST "/create/image" (Multipart [("title", "pic")] [cat_file]) (JNum (NInt 1)) 1700000000000.

(** A 3 GB video: its size does not fit the [Int] column [size]. *)
Definition movie_file : file_part := mkFilePart "image" "movie.mp4" "7bit" "video/mp4" 3000000000.

Definition movie_request : http_request :=
  mkHttp POST "/create/image" (Multipart [("title", "film")] [movie_file]) (JNum (NInt 1)) 1700000000000.

Definition nofile_request : http_request :=
  mkHttp POST "/create/image" (Multipart [("title", "pic")] []) (JNum (NInt 1)) 1700000000000.

(** A form that sets [published], as a client of the upload route
    would. *)
Definition published_form_request : http_request :=
  mkHttp POST "/create/image" (Multipart [("title", "pic"); ("published", "true")] [cat_file])
    (JNum (NInt 1)) 1700000000000.

(** A client's first post. *)
Definition create_request : http_request :=
  mkHttp POST "/create" (JsonBody (JObj [("title", JStr "new")])) (JNum (NInt 1)) 0.

(** * Lemmas *)

Lemma segs_no_slash s : no_slash s = true -> segs s = [s].
Proof.
  induction s as [|c s IH]; [done|]. unfold no_slash. cbn.
  intros [Hc Hs]%andb_true_iff. apply negb_true_iff in Hc. rewrite Hc.
  by rewrite IH.
Qed.

Lemma path_segments_slash s : path_segments ("/" +:+ s) = Some (segs s).
Proof. reflexivity. Qed.

(** A request served from a well-formed store leaves it well formed. *)
Section ServerInvariant.
Context (P : db -> Prop) `{!store_invariant P}.

Lemma serve_preserves rq s : P (srv_db s) -> P (srv_db (serve rq s).2).
Proof.
  intros Hwf. unfold serve.
  destruct (dispatch _ _) as [[h ps]|]; [|done].
  assert (Hall : forall q r d', run_handler h q (srv_db s) = (r, d') -> P d').
  { intros q r d' E. pose proof (run_handler_preserves P h q _ Hwf) as W. by rewrite E in W. }
  destruct h; cbn [run_handler] in Hall; repeat case_match; simplify_eq/=; eauto.
Qed.

Lemma run_requests_preserves rqs s : P (srv_db s) -> P (srv_db (run_requests rqs s).2).
Proof.
  revert s. induction rqs as [|rq rqs IH]; intros s Hwf; [done|]. cbn [run_requests].
  pose proof (serve_preserves rq s Hwf) as W. destruct (serve rq s) as [o s1].
  specialize (IH s1 W). destruct (run_requests rqs s1). by destruct o.
Qed.

End ServerInvariant.

(** Whatever [GET /published] matches, [GET /:id] matches as well. *)
Lemma published_shadowed m ss prs :
  layer_match (mkLayer (LRoute GET) "/published" HUserPublished) m ss = Some prs ->
  layer_match (mkLayer (LRoute GET) "/:id" HGetById) m ss <> None.
Proof.
  unfold layer_match. cbn [l_kind l_path]. destruct (method_matches _ m); [|done].
  change (compile_path "/published") with [PLit "published"].
  change (compile_path "/:id") with [PParam "id"].
  destruct ss as [|s0 ss]; [done|]. cbn [match_segs].
  destruct (String.eqb (lower "published") (lower s0)) eqn:E; [|done].
  destruct (String.eqb s0 "") eqn:E0.
  - apply String.eqb_eq in E0. subst s0. discriminate.
  - by case_bool_decide.
Qed.

Lemma layer_match_id k h m s :
  String.eqb s "" = false ->
  layer_match (mkLayer k "/:id" h) m [s] = if method_matches k m then Some [("id", s)] else None.
Proof.
  intros E0. unfold layer_match. cbn [l_kind l_path].
  change (compile_path "/:id") with [PParam "id"]. cbn [match_segs]. rewrite E0.
  destruct (method_matches k m); [|done]. destruct k; [|done]. by rewrite bool_decide_true by auto.
Qed.

Lemma layer_match_lit k p lit h m s :
  compile_path p = [PLit lit] ->
  layer_match (mkLayer k p h) m [s] =
    if method_matches k m && String.eqb (lower lit) (lower s) then Some [] else None.
Proof.
  intros Hc. unfold layer_match. cbn [l_kind l_path]. rewrite Hc. cbn [match_segs].
  destruct (method_matches k m), (String.eqb (lower lit) (lower s)); try done. destruct k; [|done].
  by rewrite bool_decide_true by auto.
Qed.

Lemma layer_match_root m' h m s :
  String.eqb s "" = false -> layer_match (mkLayer (LRoute m') "/" h) m [s] = None.
Proof.
  intros E0. unfold layer_match. cbn [l_kind l_path].
  change (compile_path "/") with (@nil pseg). cbn [match_segs].
  destruct (method_matches _ m); [|done]. rewrite bool_decide_false; [done|].
  apply String.eqb_neq in E0. intros [?|?]; congruence.
Qed.

Lemma layer_match_create_image k h m s :
  layer_match (mkLayer k "/create/image" h) m [s] = None.
Proof.
  unfold layer_match. cbn [l_kind l_path].
  change (compile_path "/create/image") with [PLit "create"; PLit "image"]. cbn [match_segs].
  by repeat case_match.
Qed.

(** The routes of a path ["/s"] with one non-empty segment that is
    not a listing's name. *)
Lemma dispatch_id_segment s :
  s <> "" -> no_slash s = true -> lower s <> "allunpublished" -> lower s <> "unpublished" ->
  dispatch GET ("/" +:+ s) = Some (HGetById, [("id", s)]) /\
  dispatch PUT ("/" +:+ s) = Some (HUpdate, [("id", s)]) /\
  dispatch DELETE ("/" +:+ s) = Some (HDelete, [("id", s)]).
Proof.
  intros Hne Hns H1 H2.
  assert (E0 : String.eqb s "" = false) by (by apply String.eqb_neq).
  assert (E1 : String.eqb (lower "allunpublished") (lower s) = false) by (apply String.eqb_neq; done).
  assert (E2 : String.eqb (lower "unpublished") (lower s) = false) by (apply String.eqb_neq; done).
  unfold dispatch. rewrite path_segments_slash, (segs_no_slash s Hns). unfold posts_router.
  cbn [first_match l_handler].
  rewrite !layer_match_root, !layer_match_id, !(layer_match_lit _ "/allunpublished" "allunpublished"),
    !(layer_match_lit _ "/unpublished" "unpublished"), !(layer_match_lit _ "/published" "published"),
    !(layer_match_lit _ "/create" "create"), !layer_match_create_image, E1, E2 by done.
  rewrite !andb_false_r. split; [|split]; reflexivity.
Qed.

(** A segment written by [String(z)] is a path segment that no
    [router.use] prefix takes and that case folding leaves alone. *)
Lemma numeric_segment s :
  Forall numeric_char (list_ascii_of_string s) -> no_slash s = true /\ lower s = s.
Proof.
  induction s as [|c s IH]; intros H; [done|]. inversion H as [|? ? Hc Hs]; subst.
  destruct (IH Hs) as [H1 H2]. unfold no_slash in *. cbn. rewrite H1, H2.
  assert (Hn : (nat_of_ascii c < 65)%nat) by (unfold numeric_char, code in Hc; lia).
  destruct (Ascii.eqb_spec c "/") as [->|_]; [unfold numeric_char in Hc; change (code "/"%char) with 47%Z in Hc; lia|].
  unfold lower_ascii. by replace ((65 <=? nat_of_ascii c)%nat) with false by (symmetry; apply Nat.leb_gt; lia).
Qed.

Lemma numeric_not_word s w c w' :
  Forall numeric_char (list_ascii_of_string s) -> w = String c w' -> (57 < code c)%Z -> s <> w.
Proof. intros Hf -> Hc ->. inversion Hf as [|? ? Hc']. unfold numeric_char in Hc'. lia. Qed.

(** The id routes answer ["/" ++ String(z)] for every integer [z]. *)
Lemma numeric_id_dispatch z :
  dispatch GET ("/" +:+ int_to_string z) = Some (HGetById, [("id", int_to_string z)]) /\
  dispatch PUT ("/" +:+ int_to_string z) = Some (HUpdate, [("id", int_to_string z)]) /\
  dispatch DELETE ("/" +:+ int_to_string z) = Some (HDelete, [("id", int_to_string z)]).
Proof.
  destruct (int_to_string_numeric z) as [Hne Hf]. destruct (numeric_segment _ Hf) as [Hs Hl].
  apply dispatch_id_segment; [done|done| |]; rewrite Hl;
    (eapply numeric_not_word; [exact Hf | reflexivity | vm_compute; reflexivity]).
Qed.

Lemma param_id (s : string) b u f : param (mkReq [("id", s)] b u f) "id" = JStr s.
Proof. unfold param. cbn. by key_decide. Qed.

(** [GET /<k>] on a well-formed store answers the post [k] with its
    relations, or [null]; nothing changes. *)
Lemma serve_get_id s k b u t :
  db_wf (srv_db s) -> int32_ok k = true ->
  serve (mkHttp GET ("/" +:+ int_to_string k) b u t) s =
    (Json (JObj [("post", match rows_of MPost (srv_db s) !! k with
                          | Some r => render (srv_db s) MPost post_include r
                          | None => JNull end)]), s).
Proof.
  intros Hwf Hk. unfold serve. cbn [h_method h_path h_body h_user].
  rewrite (proj1 (numeric_id_dispatch k)). cbn [run_handler]. unfold get_post_by_id.
  rewrite param_id. cbn [to_number]. rewrite string_to_number_int32 by done.
  rewrite (bind_run _ _ _ _ _ (find_unique_id_run MPost k post_include _ Hwf Hk)). by destruct s.
Qed.

(** [DELETE /<k>] of a stored post on a well-formed store answers the
    post and leaves a well-formed store without it. *)
Lemma serve_delete_id s k (r : row) b u t :
  db_wf (srv_db s) -> int32_ok k = true -> rows_of MPost (srv_db s) !! k = Some r ->
  exists v s', serve (mkHttp DELETE ("/" +:+ int_to_string k) b u t) s = (Json v, s') /\
    obj_get v "post" = JObj r /\ db_wf (srv_db s') /\ rows_of MPost (srv_db s') !! k = None.
Proof.
  intros Hwf Hk Hr. unfold serve. cbn [h_method h_path h_body h_user].
  rewrite (proj2 (proj2 (numeric_id_dispatch k))). cbn [run_handler].
  destruct (delete_post_run (mkReq [("id", int_to_string k)] (plain_body b) u JUndefined) (srv_db s) k r Hwf)
    as (v & d' & Hrun & Hp & Hw & Hg); [by rewrite param_id; apply string_to_number_int32 | done | done |].
  rewrite Hrun. by exists v, (mkServer d' (srv_disk s)).
Qed.

(** [GET] and [HEAD] of a path ["/s"] with one non-empty segment run
    [GET /:id] (line 38), whatever the segment. *)
Lemma dispatch_get_segment m s :
  m = GET \/ m = HEAD -> s <> "" -> no_slash s = true -> dispatch m ("/" +:+ s) = Some (HGetById, [("id", s)]).
Proof.
  intros Hm Hne Hns. assert (E0 : String.eqb s "" = false) by (by apply String.eqb_neq).
  unfold dispatch. rewrite path_segments_slash, (segs_no_slash s Hns). unfold posts_router.
  cbn [first_match l_handler]. rewrite layer_match_root, layer_match_id by done.
  by destruct Hm as [-> | ->].
Qed.

(** A request whose handler rejects crashes the server: no later
    request is answered. *)
Lemma run_requests_crash rq rest s e s1 :
  serve rq s = (Crash e, s1) -> run_requests (rq :: rest) s = (Crash e :: map (fun _ => Dropped) rest, s1).
Proof. intros H. cbn [run_requests]. by rewrite H. Qed.

(** * Theorems *)

(** C3: one [GET] (or [HEAD]) of a path ["/s"] whose segment [s] does
    not read as a 32-bit integer ([/abc], [/1.5], [/99999999999]) makes
    [findUnique] reject, and the unhandled rejection stops the server:
    the request gets no response, the database is left as it was, and
    no request after it is answered.  Any client can stop the service
    with one request. *)
Theorem get_bad_id_stops_server rq rest s p :
  h_method rq = GET \/ h_method rq = HEAD -> h_path rq = "/" +:+ p -> p <> "" -> no_slash p = true ->
  (forall z, to_number (JStr p) = NInt z -> int32_ok z = false) ->
  exists msg, run_requests (rq :: rest) s = (Crash (EValidation msg) :: map (fun _ => Dropped) rest, s).
Proof.
  intros Hm Hp Hne Hns Hz.
  destruct (find_unique_invalid_id MPost (JNum (to_number (JStr p))) post_include (srv_db s))
    as [msg Hmsg]; try done; [intros z [= Hn]; by apply Hz|].
  exists msg. apply run_requests_crash. unfold serve. rewrite Hp, dispatch_get_segment by done.
  assert (Hq : forall b f, param (mkReq [("id", p)] b (h_user rq) f) "id" = JStr p)
    by (intros; unfold param; cbn; key_decide; reflexivity).
  cbn [run_handler]. unfold get_post_by_id. rewrite !Hq.
  destruct (h_body rq); rewrite (st_bind_err _ _ _ _ _ Hmsg); by destruct s.
Qed.

(** C6: the [GET /published] handler (lines 100-116) is dead code: no
    request, of any method and path, reaches it, because every path it
    would match is matched first by [GET /:id] (line 38). *)
Theorem published_route_unreachable m p ps : dispatch m p <> Some (HUserPublished, ps).
Proof.
  unfold dispatch. destruct (path_segments p) as [ss|]; [|done].
  unfold posts_router. cbn [first_match l_handler].
  destruct (layer_match (mkLayer (LRoute GET) "/" HGetPublished) m ss); [done|].
  destruct (layer_match (mkLayer (LRoute GET) "/:id" HGetById) m ss) eqn:E2; [done|].
  destruct (layer_match (mkLayer LUse "/allunpublished" HAllUnpublished) m ss); [done|].
  destruct (layer_match (mkLayer LUse "/unpublished" HUserUnpublished) m ss); [done|].
  destruct (layer_match (mkLayer (LRoute GET) "/published" HUserPublished) m ss) eqn:E5.
  - by apply published_shadowed in E5.
  - repeat case_match; congruence.
Qed.


(** C21: a path ["/s"] with one non-empty segment [s] reaches the
    id routes: [GET] the post [s] (line 38), [PUT] its update (line
    164), [DELETE] its deletion (line 176), with [req.params.id = s];
    except when [s] is, ignoring case, [allunpublished] or
    [unpublished]: [router.use] (lines 58, 79) takes those for every
    method, so [PUT] and [DELETE] of them run the listings. *)
Theorem id_routes_dispatch s :
  s <> "" -> no_slash s = true -> lower s <> "allunpublished" -> lower s <> "unpublished" ->
  dispatch GET ("/" +:+ s) = Some (HGetById, [("id", s)]) /\
  dispatch PUT ("/" +:+ s) = Some (HUpdate, [("id", s)]) /\
  dispatch DELETE ("/" +:+ s) = Some (HDelete, [("id", s)]).
Proof. apply dispatch_id_segment. Qed.

(** C17: [POST /create/image] with one file in the field [image]
    writes it to disk as [image/<now>_<originalname>] (replacing a file
    of the same name), whatever the handler does next; when the handler
    answers, the image row it returns records that same path. *)
Theorem upload_route_stores rq s fields f o s' :
  h_method rq = POST -> h_path rq = "/create/image" -> h_body rq = Multipart fields [f] ->
  fp_field f = "image" -> serve rq s = (o, s') ->
  srv_disk s' = <[upload_destination +:+ upload_filename (h_now rq) f := f]> (srv_disk s) /\
  (forall v, o = Json v ->
     obj_get (obj_get v "image") "path" = JStr (upload_destination +:+ upload_filename (h_now rq) f)).
Proof.
  intros Hm Hp Hb Hf Hs. unfold serve in Hs. rewrite Hm, Hp in Hs.
  change (dispatch POST "/create/image") with (Some (HCreateImage, @nil (string * string))) in Hs.
  cbv iota beta in Hs. rewrite Hb, single_image_one in Hs by done.
  destruct (run_handler _ _ _) as [r d'] eqn:E. injection Hs as <- <-. split; [done|].
  intros v Hv. destruct r as [v'|]; [injection Hv as ->|discriminate].
  apply (create_post_with_image_file (mkReq [] (form_body fields) (h_user rq) (stored_file (h_now rq) f))
           (srv_db s) v d' _ "path" _ eq_refl);
    [apply (bool_decide_unpack _); vm_compute; exact I | do 6 right; left; reflexivity
    | done | done | done | reflexivity | exact E].
Qed.

(** C23: the partial failure of spec section 7, on a file of 2 GiB or
    more (multer sets no size limit, the image's [size] is an [Int]):
    [POST /create/image] writes the file to disk and may create the
    post, but it never creates the image row and never answers, so the
    client is told neither outcome. *)
Theorem upload_route_oversized rq s fields f o s' :
  h_method rq = POST -> h_path rq = "/create/image" -> h_body rq = Multipart fields [f] ->
  fp_field f = "image" -> (int32_max < fp_size f)%Z -> serve rq s = (o, s') ->
  (exists e, o = Crash e) /\
  srv_disk s' = <[upload_destination +:+ upload_filename (h_now rq) f := f]> (srv_disk s) /\
  rows_of MImage (srv_db s') = rows_of MImage (srv_db s) /\
  (rows_of MPost (srv_db s') = rows_of MPost (srv_db s) \/
   exists k r, rows_of MPost (srv_db s) !! k = None /\
               rows_of MPost (srv_db s') = <[k := r]> (rows_of MPost (srv_db s))).
Proof.
  intros Hm Hp Hb Hf Hsz Hs. unfold serve in Hs. rewrite Hm, Hp in Hs.
  change (dispatch POST "/create/image") with (Some (HCreateImage, @nil (string * string))) in Hs.
  cbv iota beta in Hs. rewrite Hb, single_image_one in Hs by done.
  destruct (run_handler _ _ _) as [r d'] eqn:E. injection Hs as <- <-. cbn [run_handler] in E.
  destruct (int32_ok (fp_size f)) eqn:Hz; [apply int32_ok_range in Hz; lia|].
  destruct (create_post_with_image_bad_size (mkReq [] (form_body fields) (h_user rq) (stored_file (h_now rq) f))
              (srv_db s) _ (fp_size f) r d' (form_body_plain fields) eq_refl) as ([e ->] & Hi & Hpost);
    [by do 7 right; left | done | exact E |].
  split; [by exists e|]. done.
Qed.

(** C18: [POST /create/image] with a multipart body but no file writes
    nothing to disk, yet when it answers, it has created an image row
    whose [path] (like all its file metadata) is [null]: the spread of
    an undefined [req.file] leaves only the links to the post and the
    author. *)
Theorem upload_route_without_file rq s fields o s' :
  h_method rq = POST -> h_path rq = "/create/image" -> h_body rq = Multipart fields [] ->
  serve rq s = (o, s') ->
  srv_disk s' = srv_disk s /\ (forall v, o = Json v -> obj_get (obj_get v "image") "path" = JNull).
Proof.
  intros Hm Hp Hb Hs. unfold serve in Hs. rewrite Hm, Hp in Hs.
  change (dispatch POST "/create/image") with (Some (HCreateImage, @nil (string * string))) in Hs.
  cbv iota beta in Hs. rewrite Hb in Hs. cbn [single_image] in Hs.
  destruct (run_handler _ _ _) as [r d'] eqn:E. injection Hs as <- <-. split; [done|].
  intros v Hv. destruct r as [v'|]; [injection Hv as ->|discriminate].
  exact (create_post_with_image_nofile (mkReq [] (form_body fields) (h_user rq) JUndefined) _ _ _ eq_refl E).
Qed.

(** C22: [POST /create/image] with a form field [published] never
    creates a post: multer gives every text field as a string, and
    Prisma rejects a string for the Boolean column, so the request gets
    no response and the database is unchanged (only the uploaded file
    stays on disk).  A post created on this route is always a draft. *)
Theorem upload_route_published_field rq s fields files x o s' :
  h_method rq = POST -> h_path rq = "/create/image" -> h_body rq = Multipart fields files ->
  In ("published", x) fields -> serve rq s = (o, s') ->
  srv_db s' = srv_db s /\ forall v, o <> Json v.
Proof.
  intros Hm Hp Hb Hin Hs. unfold serve in Hs. rewrite Hm, Hp in Hs.
  change (dispatch POST "/create/image") with (Some (HCreateImage, @nil (string * string))) in Hs.
  cbv iota beta in Hs. rewrite Hb in Hs.
  destruct (single_image _ _ _) as [[file dk]|e]; [|by injection Hs as <- <-].
  cbn [run_handler] in Hs. unfold create_post_with_image in Hs.
  unfold form_body in Hs. cbn [req_body req_file] in Hs. rewrite spread_with_one, own_entries_obj in Hs.
  destruct (create_row_entry_err MPost (alist_set "authorId" (JNum (NInt 1))
              (map (fun '(k, v) => (k, JStr v)) fields)) (srv_db s) "published" (JStr x))
    as [e He].
  - apply alist_set_In_keep; [|done]. apply in_map_iff. by exists ("published", x).
  - done.
  - intros a Ha. discriminate.
  - rewrite (st_bind_err _ _ _ _ _ (create_row_err_same _ _ _ _ He)) in Hs. injection Hs as <- <-. by split.
Qed.

(** C26: delete, then read (spec section 6): on a well-formed store,
    [DELETE /k] of a stored post answers that post, and a [GET /k] right
    after it answers [{post: null}], whatever the bodies and users of the
    two requests. *)
Theorem delete_then_get s k (r : row) b1 u1 t1 b2 u2 t2 :
  db_wf (srv_db s) -> int32_ok k = true -> rows_of MPost (srv_db s) !! k = Some r ->
  exists v s', run_requests [mkHttp DELETE ("/" +:+ int_to_string k) b1 u1 t1;
                             mkHttp GET ("/" +:+ int_to_string k) b2 u2 t2] s
               = ([Json v; Json (JObj [("post", JNull)])], s') /\ obj_get v "post" = JObj r.
Proof.
  intros Hwf Hk Hr.
  destruct (serve_delete_id s k r b1 u1 t1 Hwf Hk Hr) as (v & s1 & Hs & Hp & Hw & Hg).
  exists v, s1. cbn [run_requests]. rewrite Hs, (serve_get_id s1 k b2 u2 t2 Hw Hk), Hg. by split.
Qed.

(** C27: create, then read: when [POST /create] answers on a
    well-formed typed store, the answer carries the new post and its
    [id] [k]; a [GET /k] right after it answers that same row (its
    columns first, then its author, comments, likes and image). *)
Theorem create_then_get rq s v s1 :
  db_wf (srv_db s) -> db_typed (srv_db s) -> h_method rq = POST -> h_path rq = "/create" ->
  serve rq s = (Json v, s1) ->
  exists k (r : row), obj_get v "post" = JObj r /\ obj_get (JObj r) "id" = JNum (NInt k) /\
    forall b u t, exists rels,
      serve (mkHttp GET ("/" +:+ int_to_string k) b u t) s1 = (Json (JObj [("post", JObj (r ++ rels))]), s1).
Proof.
  intros Hwf Hty Hm Hp Hs. unfold serve in Hs. rewrite Hm, Hp in Hs.
  change (dispatch POST "/create") with (Some (HCreate, @nil (string * string))) in Hs.
  cbv iota beta in Hs.
  destruct (run_handler HCreate _ (srv_db s)) as [res d'] eqn:E.
  assert (W : db_wf d' /\ db_typed d').
  { pose proof (run_handler_preserves _ HCreate (mkReq [] (plain_body (h_body rq)) (h_user rq) JUndefined)
                  (srv_db s) (conj Hwf Hty)) as W. by rewrite E in W. }
  cbn [run_handler] in E.
  destruct res as [v'|]; [|destruct (h_body rq); discriminate].
  assert (Hs' : v = v' /\ s1 = mkServer d' (srv_disk s)) by (destruct (h_body rq); by injection Hs).
  destruct Hs' as [-> ->]. unfold create_post in E. apply handler_ok_inv in E as (cv & d1 & Hc & Hret).
  injection Hret as <- <-.
  apply create_post_row in Hc as (d0 & Hc & Hrows).
  destruct (create_row_ok_id _ _ _ _ _ Hc) as (k & r & -> & Hid & Hrow). rewrite <- Hrows in Hrow.
  exists k, r. split; [done|]. split; [done|]. intros b u t.
  rewrite (serve_get_id (mkServer d1 (srv_disk s)) k b u t (proj1 W) (stored_id_int32 d1 MPost k r (proj1 W) (proj2 W) Hrow)).
  change (srv_db (mkServer d1 (srv_disk s))) with d1. rewrite Hrow. by eexists.
Qed.

(** * Witnesses *)

Lemma get_bad_id_stops_server_witness :
  exists msg, run_requests [mkHttp GET "/abc" (JsonBody (JObj [])) JUndefined 0; create_request] sample_server =
    ([Crash (EValidation msg); Dropped], sample_server).
Proof.
  apply (get_bad_id_stops_server (mkHttp GET "/abc" (JsonBody (JObj [])) JUndefined 0) [create_request]
           sample_server "abc"); try reflexivity.
  - by left.
  - done.
  - intros z Hz. vm_compute in Hz. discriminate.
Defined.


Lemma id_routes_dispatch_witness :
  dispatch GET ("/" +:+ "5") = Some (HGetById, [("id", "5")]) /\
  dispatch PUT ("/" +:+ "5") = Some (HUpdate, [("id", "5")]) /\
  dispatch DELETE ("/" +:+ "5") = Some (HDelete, [("id", "5")]).
Proof. apply id_routes_dispatch; vm_compute; first [reflexivity | discriminate]. Defined.

Lemma upload_route_stores_witness :
  exists o s', serve upload_request sample_server = (o, s') /\
    srv_disk s' = <[upload_destination +:+ upload_filename 1700000000000 cat_file := cat_file]> ∅ /\
    (forall v, o = Json v ->
       obj_get (obj_get v "image") "path" = JStr (upload_destination +:+ upload_filename 1700000000000 cat_file)).
Proof.
  destruct (serve upload_request sample_server) as [o s'] eqn:E. exists o, s'. split; [reflexivity|].
  apply (upload_route_stores upload_request sample_server [("title", "pic")] cat_file o s');
    [reflexivity..| exact E].
Defined.

Lemma upload_route_oversized_witness :
  exists o s', serve movie_request sample_server = (o, s') /\ (exists e, o = Crash e) /\
    rows_of MImage (srv_db s') = rows_of MImage sample_db /\
    (rows_of MPost (srv_db s') = rows_of MPost sample_db \/
     exists k r, rows_of MPost sample_db !! k = None /\
                 rows_of MPost (srv_db s') = <[k := r]> (rows_of MPost sample_db)).
Proof.
  destruct (serve movie_request sample_server) as [o s'] eqn:E. exists o, s'. split; [reflexivity|].
  destruct (upload_route_oversized movie_request sample_server [("title", "film")] movie_file o s')
    as (Ho & _ & Hi & Hp); [reflexivity.. | vm_compute; reflexivity | exact E |].
  by split; [|split].
Defined.

Lemma upload_route_without_file_witness :
  exists o s', serve nofile_request sample_server = (o, s') /\
    srv_disk s' = ∅ /\ (forall v, o = Json v -> obj_get (obj_get v "image") "path" = JNull).
Proof.
  destruct (serve nofile_request sample_server) as [o s'] eqn:E. exists o, s'. split; [reflexivity|].
  apply (upload_route_without_file nofile_request sample_server [("title", "pic")] o s');
    [reflexivity..| exact E].
Defined.

Lemma upload_route_published_field_witness :
  exists o s', serve published_form_request sample_server = (o, s') /\
    srv_db s' = srv_db sample_server /\ forall v, o <> Json v.
Proof.
  destruct (serve published_form_request sample_server) as [o s'] eqn:E. exists o, s'. split; [reflexivity|].
  apply (upload_route_published_field published_form_request sample_server
           [("title", "pic"); ("published", "true")] [cat_file] "true" o s');
    [reflexivity..| right; left; reflexivity | exact E].
Defined.

Lemma delete_then_get_witness :
  exists v s', run_requests [mkHttp DELETE ("/" +:+ int_to_string 2) (JsonBody (JObj [])) (JNum (NInt 1)) 0;
                             mkHttp GET ("/" +:+ int_to_string 2) (JsonBody (JObj [])) JUndefined 0] sample_server
               = ([Json v; Json (JObj [("post", JNull)])], s') /\
    obj_get v "post" = JObj (default [] (rows_of MPost sample_db !! 2%Z)).
Proof.
  apply (delete_then_get sample_server 2 (default [] (rows_of MPost sample_db !! 2%Z)));
    [apply db_wfb_spec; vm_compute; reflexivity | reflexivity | reflexivity].
Defined.

Lemma create_then_get_witness :
  exists v s1, serve create_request sample_server = (Json v, s1) /\
  exists k (r : row), obj_get v "post" = JObj r /\ obj_get (JObj r) "id" = JNum (NInt k) /\
    forall b u t, exists rels,
      serve (mkHttp GET ("/" +:+ int_to_string k) b u t) s1 = (Json (JObj [("post", JObj (r ++ rels))]), s1).
Proof.
  destruct (serve create_request sample_server) as [o s1] eqn:E.
  assert (Ho : exists v, o = Json v) by (vm_compute in E; injection E as <- _; by eexists).
  destruct Ho as [v ->]. exists v, s1. split; [reflexivity|].
  apply (create_then_get create_request sample_server v s1);
    [apply db_wfb_spec; vm_compute; reflexivity | apply db_typedb_spec; vm_compute; reflexivity
    | reflexivity | reflexivity | exact E].
Defined.
