(* ===== verification/Concurrency.v ===== *)
(** * Concurrent requests: interleaving of awaited statements

    Node runs the handlers of concurrent requests on one thread, and a
    handler gives up control at every [await]: between two awaited
    Prisma calls of one request, the calls of other requests may run.
    Each Prisma call is taken as one atomic step on the database (a
    [create] or [update] with nested writes is one transaction, taken
    as if serializable), so the interleaving points are exactly the
    awaits of the source.

    [prog] makes these points explicit: a handler is a sequence of
    statements, each followed by the rest of the handler as a function
    of its result.  [handler_prog] gives the statements of each of the
    nine handlers, in source order; [run_prog] runs a program without
    interruption and gives back [run_handler] ([run_prog_handler]).

    A configuration is the database and the requests in flight;
    [istep] runs the next statement of any one request, and a statement
    that rejects stops the server: that request [Crash]es, every other
    request in flight is [Dropped] (Node exits on the unhandled
    rejection).  [step_thread] is the same step as a function of the
    request chosen, and [run_schedule] runs a list of such choices.

    The theorem of this file shows that interleaving is observable on
    every store: a [GET /:id] running between the statements of
    [DELETE /:id] of a post with a like answers the post without its
    likes and comments, an answer that neither serial order of the two
    requests gives. *)

From stdpp Require Import base list strings gmap.
From Stdlib Require Import ZArith String.
From S2P Require Import Prelude JsValue Schema Store StoreFacts Typing Owned Nested Handlers Router.

Local Open Scope string_scope.

(** A handler as the statements it awaits. *)
Inductive prog : Type :=
| Done (v : jsval)                                (** [res.json(v)] *)
| Step (s : ST db perr jsval) (k : jsval -> prog). (** [const x = await s; k x] *)

Fixpoint run_prog (p : prog) : ST db perr jsval :=
  match p with
  | Done v => st_ret v
  | Step s k => st_bind s (fun x => run_prog (k x))
  end.

(** The statements of each handler, as in [Handlers]. *)
Definition handler_prog (h : route_handler) (req : request) : prog :=
  match h with
  | HGetPublished =>
      Step (find_many MPost [CEq "published" (JBool true)] post_include) (fun posts =>
      Done (JObj [("posts", posts)]))
  | HGetById =>
      Step (find_unique MPost [CEq "id" (JNum (to_number (param req "id")))] post_include) (fun post =>
      Done (JObj [("post", post)]))
  | HAllUnpublished =>
      Step (find_many MPost [CEq "published" (JBool false)] unpublished_include) (fun posts =>
      Done (JObj [("posts", posts)]))
  | HUserUnpublished =>
      Step (find_many MPost
              [CEq "authorId" (JNum (to_number (req_currentUser req))); CEq "published" (JBool false)]
              user_unpublished_include) (fun posts =>
      Done (JObj [("posts", posts)]))
  | HUserPublished =>
      Step (find_many MPost
              [CEq "authorId" (JNum (to_number (req_currentUser req))); CEq "published" (JBool true)]
              published_select) (fun posts =>
      Done (JObj [("posts", posts)]))
  | HCreate =>
      Step (create MPost (spread_with (req_body req) [("author", connect (req_currentUser req))]))
        (fun createdPost =>
      Done (JObj [("message", JStr "Created Post"); ("post", createdPost)]))
  | HCreateImage =>
      Step (create MPost (spread_with (req_body req) [("authorId", JNum (NInt 1))])) (fun createdPost =>
      Step (create MImage (spread_with (req_file req)
                             [("posts", connect (obj_get createdPost "id"));
                              ("author", connect (JNum (NInt 1)))])) (fun createdImage =>
      Done (JObj [("message", JStr "Created Post"); ("post", createdPost); ("image", createdImage)])))
  | HUpdate =>
      Step (update MPost [CEq "id" (JNum (to_number (param req "id")))] (req_body req)) (fun updatedPost =>
      Done (JObj [("message", JStr "the post has been updated"); ("post", updatedPost)]))
  | HDelete =>
      let id := JNum (to_number (param req "id")) in
      Step (delete_many MLike [CRel "posts" [CEq "id" id]]) (fun deletedPostLikes =>
      Step (delete_many MComment [CRel "posts" [CEq "id" id]]) (fun deletePostComments =>
      Step (delete_many MImage [CRel "posts" [CEq "id" id]]) (fun deletedPostImage =>
      Step (delete MPost [CEq "id" id]) (fun deletedPost =>
      Done (JObj [("message", JStr "the post has been deleted"); ("post", deletedPost);
                  ("likes", deletedPostLikes); ("comments", deletePostComments);
                  ("image", deletedPostImage)])))))
  end.

(** A request in flight, or its outcome. *)
Inductive thread : Type :=
| Running (p : prog)
| Finished (o : outcome).

Record config : Type := mkConfig {
  c_db : db;
  c_threads : list thread
}.

(** The server exits: the requests in flight get no response. *)
Definition halt (ts : list thread) : list thread :=
  map (fun t => match t with Running _ => Finished Dropped | _ => t end) ts.

(** One atomic statement of one request. *)
Inductive istep : config -> config -> Prop :=
| istep_ok d ts i s k x d' :
    ts !! i = Some (Running (Step s k)) -> s d = (Ok x, d') ->
    istep (mkConfig d ts) (mkConfig d' (<[i := Running (k x)]> ts))
| istep_err d ts i s k e d' :
    ts !! i = Some (Running (Step s k)) -> s d = (Err e, d') ->
    istep (mkConfig d ts) (mkConfig d' (<[i := Finished (Crash e)]> (halt ts)))
| istep_done d ts i v :
    ts !! i = Some (Running (Done v)) ->
    istep (mkConfig d ts) (mkConfig d (<[i := Finished (Json v)]> ts)).

(** The requests [(h, req)] just dispatched, none of them started. *)
Definition start (d : db) (rqs : list (route_handler * request)) : config :=
  mkConfig d (map (fun '(h, req) => Running (handler_prog h req)) rqs).

(** Run the next statement of request [i]; nothing when it is finished
    or absent.  A list of such choices is a schedule. *)
Definition step_thread (i : nat) (c : config) : config :=
  match c_threads c !! i with
  | Some (Running (Step s k)) =>
      match s (c_db c) with
      | (Ok x, d') => mkConfig d' (<[i := Running (k x)]> (c_threads c))
      | (Err e, d') => mkConfig d' (<[i := Finished (Crash e)]> (halt (c_threads c)))
      end
  | Some (Running (Done v)) => mkConfig (c_db c) (<[i := Finished (Json v)]> (c_threads c))
  | _ => c
  end.

Definition run_schedule (sched : list nat) (c : config) : config :=
  fold_left (fun c i => step_thread i c) sched c.

(** * Lemmas *)

(** Run without interruption, a handler's program is the handler. *)
Lemma run_prog_handler h req : run_prog (handler_prog h req) = run_handler h req.
Proof. by destruct h. Qed.

Lemma step_thread_rtc c i : rtc istep c (step_thread i c).
Proof.
  destruct c as [d ts]. unfold step_thread. simpl.
  destruct (ts !! i) as [[[v|s k]|o]|] eqn:Hi; try reflexivity.
  - apply rtc_once. by apply istep_done.
  - destruct (s d) as [[x|e] d'] eqn:E; apply rtc_once.
    + by eapply istep_ok.
    + by eapply istep_err.
Qed.

(** Every schedule is an interleaving. *)
Lemma run_schedule_rtc sched c : rtc istep c (run_schedule sched c).
Proof.
  revert c. induction sched as [|i sched IH]; intros c; simpl; [reflexivity|].
  etrans; [apply step_thread_rtc | apply IH].
Qed.

Lemma run_schedule_cons i sched c : run_schedule (i :: sched) c = run_schedule sched (step_thread i c).
Proof. reflexivity. Qed.

Lemma step_thread_ok i c s k x d' :
  c_threads c !! i = Some (Running (Step s k)) -> s (c_db c) = (Ok x, d') ->
  step_thread i c = mkConfig d' (<[i := Running (k x)]> (c_threads c)).
Proof. intros Hi Hs. unfold step_thread. by rewrite Hi, Hs. Qed.

Lemma step_thread_done i c v :
  c_threads c !! i = Some (Running (Done v)) ->
  step_thread i c = mkConfig (c_db c) (<[i := Finished (Json v)]> (c_threads c)).
Proof. intros Hi. unfold step_thread. by rewrite Hi. Qed.

(** No row points at [k] through [fk]: the relation lists nothing. *)
Lemma back_rows_nil d m fk k : no_refs_to d m fk k -> back_rows d m fk k = [].
Proof.
  intros Hno. unfold back_rows.
  assert (Hall : forall kr, In kr (map_to_list (rows_of m d)) -> bool_decide (fk_target kr.2 fk = Some k) = false).
  { intros [kr r] Hin%list_elem_of_In%elem_of_map_to_list. apply bool_decide_eq_false. exact (Hno kr r Hin). }
  induction (map_to_list (rows_of m d)) as [|kr l IH]; [done|]. simpl.
  rewrite (Hall kr (in_eq _ _)). apply IH. intros x Hx. apply Hall. by right.
Qed.

Lemma back_rows_cons d m fk k kr r :
  rows_of m d !! kr = Some r -> fk_target r fk = Some k -> back_rows d m fk k <> [].
Proof.
  intros Hr Hfk Hnil. unfold back_rows in Hnil. apply map_eq_nil in Hnil.
  assert (Hin : In (kr, r) (List.filter (fun kr => bool_decide (fk_target kr.2 fk = Some k)) (map_to_list (rows_of m d)))).
  { apply filter_In. split; [|simpl; by apply bool_decide_eq_true]. by apply list_elem_of_In, elem_of_map_to_list. }
  by rewrite Hnil in Hin.
Qed.

(** A post rendered with [post_include]: its columns, then its author,
    comments, likes and image. *)
Lemma render_post_likes d k (r : row) :
  row_id r = Some k ->
  exists a c i, render d MPost post_include r =
    JObj (r ++ [("author", a); ("comments", c);
                ("likes", JArr (map (render d MLike all_scalars) (back_rows d MLike "postId" k))); ("image", i)]).
Proof. intros Hid. cbn. rewrite Hid. by eexists _, _, _. Qed.

(** Two renderings of a post whose lists of likes differ in length are
    different answers. *)
Lemma render_post_likes_ne d d' k (r : row) :
  row_id r = Some k -> List.length (back_rows d MLike "postId" k) <> List.length (back_rows d' MLike "postId" k) ->
  render d MPost post_include r <> render d' MPost post_include r.
Proof.
  intros Hid Hlen. destruct (render_post_likes d k r Hid) as (a & c & i & ->).
  destruct (render_post_likes d' k r Hid) as (a' & c' & i' & ->). intros [= Heq].
  apply app_inv_head in Heq. injection Heq as _ _ Hl _. apply Hlen.
  apply (f_equal (@List.length _)) in Hl. by rewrite !length_map in Hl.
Qed.

Lemma post_answer_inj a b : @Ok perr jsval (JObj [("post", a)]) = Ok (JObj [("post", b)]) -> a = b.
Proof. by intros [= ->]. Qed.

(** * Theorems *)

(** C4: [DELETE /:id] is not atomic, and a concurrent reader sees it.
    On every well-formed store where post [k] has a like, some
    interleaving of [DELETE /k] and [GET /k] lets the [GET] run after
    the likes and comments of post [k] are deleted and before the post
    is: it answers post [k] (its stored row) with no likes and no
    comments, an answer that neither serial order gives ([GET] first
    lists the like, [GET] second answers [null]). *)
Theorem delete_observed_midway dreq greq d k (r : row) l (lr : row) :
  db_wf d -> to_number (param dreq "id") = NInt k -> to_number (param greq "id") = NInt k ->
  int32_ok k = true -> rows_of MPost d !! k = Some r ->
  rows_of MLike d !! l = Some lr -> fk_target lr "postId" = Some k ->
  exists c v, rtc istep (start d [(HDelete, dreq); (HGetById, greq)]) c /\
    c_threads c !! 1%nat = Some (Finished (Json v)) /\
    (exists d', v = JObj [("post", render d' MPost post_include r)] /\
                back_rows d' MLike "postId" k = [] /\ back_rows d' MComment "postId" k = []) /\
    (get_post_by_id greq d).1 <> Ok v /\ (get_post_by_id greq (delete_post dreq d).2).1 <> Ok v.
Proof.
  intros Hwf Hd Hg Hk Hr Hl Hlk.
  destruct (delete_many_free MLike [CRel "posts" [CEq "id" (JNum (NInt k))]] d restrict_violation_like
              (check_posts_filter MLike k eq_refl Hk)) as [v1 H1].
  set (d1 := map_db _ d) in H1.
  destruct (delete_many_free MComment [CRel "posts" [CEq "id" (JNum (NInt k))]] d1 restrict_violation_comment
              (check_posts_filter MComment k eq_refl Hk)) as [v2 H2].
  set (d2 := map_db _ d1) in H2.
  destruct (delete_step MLike k d v1 d1 Hwf eq_refl ltac:(done) ltac:(done) H1) as (W1 & L1 & F1 & P1).
  destruct (delete_step MComment k d1 v2 d2 W1 eq_refl ltac:(done) ltac:(done) H2) as (W2 & C2 & F2 & P2).
  assert (Hr2 : rows_of MPost d2 !! k = Some r) by (by rewrite P2, P1).
  pose proof (proj1 (Hwf _ _ _ Hr)) as Hid.
  set (v := JObj [("post", render d2 MPost post_include r)]).
  exists (run_schedule [0; 0; 1; 1]%nat (start d [(HDelete, dreq); (HGetById, greq)])), v.
  split; [apply run_schedule_rtc|]. split.
  { unfold start. cbn [map handler_prog]. rewrite Hd, Hg.
    rewrite run_schedule_cons. erewrite (step_thread_ok 0); [|reflexivity | exact H1].
    rewrite run_schedule_cons. erewrite (step_thread_ok 0); [|reflexivity | exact H2].
    rewrite run_schedule_cons. erewrite (step_thread_ok 1); [|reflexivity | apply find_unique_id_run; done].
    cbn [c_db]. rewrite Hr2, run_schedule_cons. erewrite step_thread_done; reflexivity. }
  split; [exists d2; split; [done|]; split; apply back_rows_nil; [apply F2, L1 | exact C2]|].
  split.
  - unfold get_post_by_id. rewrite Hg. st_unfold. rewrite find_unique_id_run, Hr by done. cbn [fst].
    intros Heq%post_answer_inj. revert Heq. apply (render_post_likes_ne d d2 k r).
    + exact Hid.
    + rewrite (back_rows_nil d2) by (apply F2, L1). simpl.
      pose proof (back_rows_cons d MLike "postId" k l lr Hl Hlk). by destruct (back_rows d MLike "postId" k).
  - destruct (delete_post_run dreq d k r Hwf Hd Hk Hr) as (resp & d' & Hrun & _ & Hw' & Hgone).
    rewrite Hrun. cbn [snd]. unfold get_post_by_id. rewrite Hg. st_unfold. rewrite find_unique_id_run, Hgone by done.
    cbn [fst]. intros Heq%post_answer_inj. destruct (render_post_likes d2 k r Hid) as (a & c & i & Hrd).
    rewrite Hrd in Heq. discriminate.
Qed.

(** * Witnesses *)

Lemma delete_observed_midway_witness :
  exists c v, rtc istep (start sample_db [(HDelete, delete_req); (HGetById, delete_req)]) c /\
    c_threads c !! 1%nat = Some (Finished (Json v)) /\
    (exists d', v = JObj [("post", render d' MPost post_include (post_row 2 "hello" true 1))] /\
                back_rows d' MLike "postId" 2 = [] /\ back_rows d' MComment "postId" 2 = []) /\
    (get_post_by_id delete_req sample_db).1 <> Ok v /\
    (get_post_by_id delete_req (delete_post delete_req sample_db).2).1 <> Ok v.
Proof.
  apply (delete_observed_midway delete_req delete_req sample_db 2 (post_row 2 "hello" true 1) 1 (like_row 1 2 7)).
  - apply db_wfb_spec. vm_compute. reflexivity.
  - vm_compute. reflexivity.
  - vm_compute. reflexivity.
  - reflexivity.
  - reflexivity.
  - reflexivity.
  - reflexivity.
Defined.
